(* ===== verification/_CoqProject ===== *)
-Q . S2P
Prelude.v
PyStr.v
PyFloat.v
PyVal.v
PyRegex.v
Redaction.v
PyJson.v
PyDumps.v
Artifacts.v
Config.v
State.v
Budget.v
Registry.v
Providers.v
Pricing.v
Keys.v
Events.v
World.v
Router.v
ToolBase.v
ToolArtifacts.v
ToolRegistry.v
Engine.v
EngineSafety.v
EngineTurn.v
Workflow.v
Presets.v
TaskOrder.v
EngineSinks.v
PresetRuns.v
PresetFlow.v
PresetDemo.v
Database.v
Auditing.v
Billing.v
BillingSafety.v
BillingRace.v
RateLimit.v
Runner.v
RunnerSafety.v
RunnerRuns.v
Orphans.v
RunnerDemo.v
Security.v
Api.v
ApiSafety.v
Auth.v
AuthSafety.v
AuthDemo.v
Orgs.v
OrgSafety.v
Bytes.v
Crypto.v
Keyring.v
KeyringSafety.v
RunsApi.v
RunsSafety.v
RunsDemo.v
Ipaddress.v
Web.v
WebSafety.v
Worker.v
WorkerSafety.v
Team.v
TeamSafety.v
TeamDemo.v
Admin.v
AdminSafety.v
Adapters.v
AdaptersSafety.v
Schema.v
Migrations.v
MigrationsSafety.v
Schemas.v
Rows.v
Scripts.v
Seed.v
Logging.v
Serving.v
ServingSafety.v
