(* ===== verification/Prelude.v ===== *)
(** * Agents Office: a verification development

    The server behind src/ lets organisations define agents, wire them into
    workflows and run those workflows against language models, on credits or on
    keys of their own.  This library models the Python of src/core, src/api,
    src/worker, src/migrations and the operators' scripts, and proves what makes
    each part correct.  Names of definitions are the names of the code; the file
    each part models is named in the comment at the head of its file.

    ** The parts, from the inside out

    - Python itself: PyStr (strings as code points), PyFloat (binary64 on exact
      integers), PyVal (JSON-shaped values and the exceptions), PyRegex (the
      backtracking matcher), Redaction (masking by a pattern), PyJson
      ([json.loads]), PyDumps ([json.dumps]), Bytes (UTF-8 and Base64), Ipaddress
      ([ipaddress]).  Only what the program uses is there.
    - What a run works on: Artifacts (core/artifacts.py), State
      (core/orchestration/state.py), Budget (budget.py), Registry, Providers,
      Pricing, Keys, Router (core/llm/), Events (core/events.py), and World,
      which puts them into the one record a run mutates.  Adapters
      (core/llm/providers/) translates a request into each vendor's form and its
      answer, streamed or not, back.
    - What agents can do: ToolBase, ToolArtifacts, ToolRegistry, Web
      (core/tools/).
    - The engine: Engine (core/orchestration/engine.py) is one agent's turn;
      Workflow and Presets (presets.py) validate a graph and drive the turns.
    - The tables: Schema (what models.py declares), Migrations
      (migrations/versions), Rows (which rows fit their columns), Database (rows
      and sessions, models.py and db.py), Auditing (audit.py), Billing and
      BillingRace (billing.py), RateLimit (ratelimit.py), Security
      (security.py), Crypto (crypto.py).
    - Executing a run: Runner and Orphans (core/runner.py), Worker
      (worker/main.py).
    - The API: Api (api/deps.py), Auth, Orgs, Keyring, RunsApi, Team, Admin
      (api/routers/), with the bodies of api/schemas.py and their validators;
      Schemas (api/schemas.py) has the responses that are made of rows.
    - Around it: Serving (api/middleware.py, api/main.py) is the stack of layers a
      request passes, Logging (core/logging.py) scrubs what is logged, Config
      (core/config.py) has the settings and how they are read, Scripts
      (scripts/create_superuser.py, verify_package.py) and Seed (seed.py) are the
      operators' commands.

    Files named ...Safety, ...Turn, ...Flow, ...Runs hold theorems about the
    component of the same stem; files named ...Demo, or the last sections of the
    others, hold concrete instances: the inputs at which the theorems are applied,
    and inputs that show their limits.

    ** How the code is modelled

    Code that mutates and may raise is a function [W -> res E A * W] (the monad
    [M] below): an exception does not undo what was done before it.  The world
    [W] is a run's record (World), a database session (Database), a request's
    session with Redis and the cookie (Api), the same with the price book of the
    process (Admin), what the layers around a request share (Serving), or a plant
    of workers with the shared tables and Redis (Worker).  A transaction is
    explicit: a session has the committed tables and its own, and what it commits
    is what the next session sees.  Other coroutines and processes act where the
    code awaits: World has the interruptions of a run's awaits, Database the clock
    of a session with its failures and lost races (and what the winner of a race for
    a ledger key has committed), BillingRace the interleaving of transactions
    statement by statement, Engine an arbitrary scheduler for the tools of one turn,
    which may also take its turn between the two round trips of an emit (Events).
    Requests, jobs and sweeps follow one another in the theorems about many of them.

    Everything outside src/ is an argument: the vendors' clients and their models,
    Postgres' failures, Redis' failures, the clock, random bytes, Argon2, JWT,
    SHA-256, AES-GCM, DNS, httpx, HTMLParser, arq, the layers of the web
    framework.  They come in classes of operations ([Env], [DbEnv], [ApiEnv],
    [Vault], [WebEnv], ...); laws, where the code relies on any, are named
    records, each with a concrete instance that has them.  [PyTables] is
    Unicode's tables of case and spaces.  What the model takes from the
    documentation of SQLAlchemy, Alembic and Postgres - unique constraints,
    broken transactions, the statements of a migration - is said where it is used
    (Database, Migrations).

    ** What is proved

    - A run: a preset never spends beyond its budget but for the calls in flight,
      takes a bounded number of turns and returns (PresetRuns); a pipeline
      follows its nodes, a custom graph is a walk along its edges, the
      blackboard works in dependency order (PresetFlow, TaskOrder); a turn's
      account is the sum of its calls, and tool results answer the calls they
      belong to (EngineTurn); tools contain their failures (ToolBase), paths of
      artifacts stay inside (Artifacts), and no request of the web tools leaves
      for an address that was not checked (WebSafety).
    - Vendors: calls that arrive in fragments are put together again, every
      result follows its call in each vendor's form, failures are classified
      (AdaptersSafety).
    - Money: posting refines a keyed ledger, lost races included, balances are the
      sums of entries, a run is charged once and exactly (BillingSafety), also under
      concurrent transactions (BillingRace); an execution that returns has settled
      and announced its run (RunnerRuns), while one that raises leaves it in the
      queue, which is less than runner.py promises (RunnerSafety, RunnerDemo);
      prices operators set take effect (AdminSafety).
    - Workers: a job decides between executing, waiting and giving up, gives its
      slot back however it ends, and no sweep or retry touches a finished run
      again (WorkerSafety, Orphans); windows and slots keep to their ceilings
      (RateLimit).
    - Watching: while emits do not overlap, a client that reconnects sees each event
      once and in order (Events).
    - Accounts: a refresh token works once, reuse revokes its family, signing out
      ends every session (AuthSafety); every organisation keeps an owner, and
      members change only by who may change them (OrgSafety); promoting an
      account takes hold at once (Scripts).
    - Credentials: what is stored decrypts to what was given, rotation keeps every
      credential (Crypto, KeyringSafety), a run uses the right one (Keys), and no
      line of the log shows one (Redaction, Logging).
    - The office: submitted runs are paid for and queued, cancelled ones never
      start, nobody reads another organisation's (RunsSafety); saved agents and
      workflows can be run, and nobody writes another organisation's
      (TeamSafety); the demonstration office works and is set up once (Seed).
    - The ground: the migrations build the tables the code declares, keep the rows
      they find and can be taken back (MigrationsSafety); saved rows fit their
      columns (Rows), and any row can be answered with, without its credentials
      (Schemas); every answer can be traced to its request (ServingSafety); a
      distribution that passes its check is complete (Scripts).

    ** Bounds and fuel

    Loops of the code that end by a count are structural recursion over that
    count (rounds, hops, retries, redirects, pages of a scan).  Fuel stands in
    where the code consumes a string: the length of the string is enough, since
    each step takes a character (PyRegex, PyJson [loads_total], Bytes
    [decode_encode], PyStr [split]).  The blackboard's [while] loop has the number
    of tasks as fuel, and [work_loop_schedule] and [schedule_perm] in TaskOrder
    show that every task is run within it.  Python's integers are unbounded and
    are [Z]; floats are rounded to binary64 wherever the code computes with
    them, and those in the bodies of requests are finite.  Columns have widths in
    Schema; Rows says which values respect them, elsewhere a row that does not fit
    is one of the failures of Database.

    ** Not modelled

    Metrics, tracing, the connection pool, the configuration of structlog, gunicorn
    and arq, and migrations/env.py set up libraries and have no behaviour of their
    own to state, and neither has what the scripts print.  Check constraints are
    compared as declarations (Migrations) and with the values a body may name
    (Schemas), unique constraints are in Database and the routes.  The web
    client under src/web is TypeScript. *)

From stdpp Require Export base tactics list numbers option gmap strings sorting.
From Stdlib Require Export ZArith Lia.

#[global] Open Scope Z_scope.

(** ** Results and the state-and-exception monad

    Python code that mutates an object and may raise is modelled by functions
    from a world to a result together with the world they leave: an exception
    does not undo the mutations made before it was raised. *)

Inductive res (E A : Type) : Type :=
| Ok (a : A)
| Err (e : E).
Arguments Ok {E A} a.
Arguments Err {E A} e.

Definition is_ok {E A} (r : res E A) : bool :=
  match r with Ok _ => true | Err _ => false end.

#[global] Instance res_ret E : MRet (res E) := λ A a, Ok a.
#[global] Instance res_bind E : MBind (res E) := λ A B k r,
  match r with Ok a => k a | Err e => Err e end.
#[global] Instance res_fmap E : FMap (res E) := λ A B f r,
  match r with Ok a => Ok (f a) | Err e => Err e end.

(** [for x in xs: body] in a computation that may raise but has no state. *)
Fixpoint res_mapM {E A B} (f : A → res E B) (xs : list A) : res E (list B) :=
  match xs with
  | [] => Ok []
  | x :: xs' => y ← f x; ys ← res_mapM f xs'; Ok (y :: ys)
  end.

Definition M (W E A : Type) : Type := W → res E A * W.

Section monad.
Context {W E : Type}.

Definition m_ret {A} (a : A) : M W E A := λ w, (Ok a, w).
Definition m_bind {A B} (k : A → M W E B) (m : M W E A) : M W E B := λ w,
  match m w with
  | (Ok a, w') => k a w'
  | (Err e, w') => (Err e, w')
  end.
Definition raise {A} (e : E) : M W E A := λ w, (Err e, w).
Definition get : M W E W := λ w, (Ok w, w).
Definition modify (f : W → W) : M W E unit := λ w, (Ok tt, f w).
Definition lift_res {A} (r : res E A) : M W E A := λ w, (r, w).
(** [try: m except e: h e] *)
Definition catch {A} (m : M W E A) (h : E → M W E A) : M W E A := λ w,
  match m w with
  | (Ok a, w') => (Ok a, w')
  | (Err e, w') => h e w'
  end.
(** [try: m except P as e: ...]: the exceptions that satisfy [P] become values. *)
Definition attempt {A} (P : E → bool) (m : M W E A) : M W E (E + A) := λ w,
  match m w with
  | (Ok a, w') => (Ok (inr a), w')
  | (Err e, w') => if P e then (Ok (inl e), w') else (Err e, w')
  end.
End monad.

#[global] Instance M_ret W E : MRet (M W E) := λ A, m_ret.
#[global] Instance M_bind W E : MBind (M W E) := λ A B, m_bind.

(** What one pass through a loop body does: go on to the next element, leave
    the loop with [break], or leave the function with [return]. *)
Inductive flow (S R : Type) : Type :=
| Next (s : S)
| Break (s : S)
| Return (r : R).
Arguments Next {S R} s.
Arguments Break {S R} s.
Arguments Return {S R} r.

(** [for x in xs: body], with loop-carried locals [s].  The result tells how the
    loop ended: [Next] when the list was exhausted (Python's [else] branch). *)
Fixpoint for_loop {W E A S R} (xs : list A) (body : A → S → M W E (flow S R))
    (s : S) : M W E (flow S R) :=
  match xs with
  | [] => m_ret (Next s)
  | x :: xs' =>
      f ← body x s;
      match f with
      | Next s' => for_loop xs' body s'
      | Break s' => m_ret (Break s')
      | Return r => m_ret (Return r)
      end
  end.

Fixpoint m_mapM {W E A B} (f : A → M W E B) (xs : list A) : M W E (list B) :=
  match xs with
  | [] => m_ret []
  | x :: xs' => y ← f x; ys ← m_mapM f xs'; m_ret (y :: ys)
  end.

Definition m_iter {W E A} (f : A → M W E unit) (xs : list A) : M W E unit :=
  _ ← m_mapM f xs; m_ret tt.

(** ** Framing: every run of a computation relates its worlds by [R] *)

Definition steps {W E A} (R : relation W) (m : M W E A) : Prop :=
  ∀ w, R w (m w).2.

Create HintDb steps discriminated.

Section steps.
Context {W E : Type} (R : relation W) `{!PreOrder R}.

Lemma steps_ret {A} (a : A) : steps (E:=E) R (m_ret a).
Proof. intros w. done. Qed.
Lemma steps_raise {A} (e : E) : steps (A:=A) R (raise e).
Proof. intros w. done. Qed.
Lemma steps_get : steps (E:=E) R get.
Proof. intros w. done. Qed.
Lemma steps_lift_res {A} (r : res E A) : steps R (lift_res r).
Proof. intros w. done. Qed.
Lemma steps_modify (f : W → W) : (∀ w, R w (f w)) → steps (E:=E) R (modify f).
Proof. intros Hf w. apply Hf. Qed.

Lemma steps_bind {A B} (m : M W E A) (k : A → M W E B) :
  steps R m → (∀ a, steps R (k a)) → steps R (m_bind k m).
Proof.
  intros Hm Hk w. specialize (Hm w). unfold m_bind.
  destruct (m w) as [[a|e] w']; [|done].
  etrans; [exact Hm|apply Hk].
Qed.

Lemma steps_catch {A} (m : M W E A) (h : E → M W E A) :
  steps R m → (∀ e, steps R (h e)) → steps R (catch m h).
Proof.
  intros Hm Hh w. specialize (Hm w). unfold catch.
  destruct (m w) as [[a|e] w']; [done|].
  etrans; [exact Hm|apply Hh].
Qed.

Lemma steps_attempt {A} P (m : M W E A) : steps R m → steps R (attempt P m).
Proof.
  intros Hm w. specialize (Hm w). unfold attempt.
  destruct (m w) as [[a|e] w']; [done|]. by destruct (P e).
Qed.

Lemma steps_for_loop {A S T} (xs : list A) (body : A → S → M W E (flow S T)) s :
  (∀ x s, steps R (body x s)) → steps R (for_loop xs body s).
Proof.
  intros Hb. revert s. induction xs as [|x xs IH]; intros s; simpl.
  { apply steps_ret. }
  apply steps_bind; [done|]. intros [s'|s'|r]; [apply IH|apply steps_ret..].
Qed.

Lemma steps_mapM {A B} (f : A → M W E B) (xs : list A) :
  (∀ x, steps R (f x)) → steps R (m_mapM f xs).
Proof.
  intros Hf. induction xs as [|x xs IH]; simpl; [apply steps_ret|].
  apply steps_bind; [done|]. intros y.
  apply steps_bind; [done|]. intros ys. apply steps_ret.
Qed.
End steps.

#[export] Hint Resolve steps_ret steps_raise steps_get steps_lift_res steps_bind
  steps_catch steps_attempt steps_for_loop steps_mapM : steps.
#[export] Hint Extern 0 (PreOrder _) => typeclasses eauto : steps.

(** ** Weakest preconditions: what holds when a computation returns or raises *)

Definition wp {W E A} (m : M W E A) (Q : A → W → Prop) (X : E → W → Prop) (w : W) : Prop :=
  match m w with
  | (Ok a, w') => Q a w'
  | (Err e, w') => X e w'
  end.

Section wp.
Context {W E : Type}.

Lemma wp_ret {A} (a : A) Q (X : E → W → Prop) w : wp (m_ret a) Q X w ↔ Q a w.
Proof. done. Qed.
Lemma wp_raise {A} (e : E) (Q : A → W → Prop) X w : wp (raise e) Q X w ↔ X e w.
Proof. done. Qed.
Lemma wp_bind {A B} (m : M W E A) (k : A → M W E B) Q X w :
  wp (m_bind k m) Q X w ↔ wp m (λ a, wp (k a) Q X) X w.
Proof. unfold wp, m_bind. by destruct (m w) as [[a|e] w']. Qed.
Lemma wp_catch {A} (m : M W E A) h Q X w :
  wp (catch m h) Q X w ↔ wp m Q (λ e, wp (h e) Q X) w.
Proof. unfold wp, catch. by destruct (m w) as [[a|e] w']. Qed.
Lemma wp_attempt {A} P (m : M W E A) Q X w :
  wp (attempt P m) Q X w ↔
  wp m (λ a, Q (inr a)) (λ e w', if P e then Q (inl e) w' else X e w') w.
Proof. unfold wp, attempt. destruct (m w) as [[a|e] w']; [done|]. by destruct (P e). Qed.
Lemma wp_mono {A} (m : M W E A) (Q Q' : A → W → Prop) (X X' : E → W → Prop) w :
  wp m Q X w → (∀ a w', Q a w' → Q' a w') → (∀ e w', X e w' → X' e w') → wp m Q' X' w.
Proof. unfold wp. destruct (m w) as [[a|e] w']; auto. Qed.
Lemma wp_steps {A} (R : relation W) (m : M W E A) w :
  steps R m → wp m (λ _ w', R w w') (λ _ w', R w w') w.
Proof. intros H. specialize (H w). unfold wp. by destruct (m w) as [[a|e] w']. Qed.

(** A loop invariant that every pass keeps, whether it goes on, breaks or raises. *)
Lemma wp_for_loop {A S T} (xs : list A) (body : A → S → M W E (flow S T))
    (I : S → W → Prop) (B : S → W → Prop) (F : T → W → Prop) X :
  (∀ x s w, x ∈ xs → I s w →
     wp (body x s) (λ f, match f with Next s' => I s' | Break s' => B s' | Return r => F r end)
        X w) →
  ∀ s w, I s w →
    wp (for_loop xs body s)
       (λ f, match f with Next s' => I s' | Break s' => B s' | Return r => F r end) X w.
Proof.
  induction xs as [|x xs IH]; intros Hb s w HI; simpl; [exact HI|].
  apply wp_bind. eapply wp_mono; [apply Hb; [set_solver|done]| |done].
  intros [s'|s'|r] w' H; [|done..].
  apply IH; [|done]. intros y s0 w0 Hy. apply Hb. set_solver.
Qed.

(** [for i in range(a, a + n)]: an invariant indexed by the counter. *)
Lemma wp_for_range {S T} (body : Z → S → M W E (flow S T)) a n
    (I : Z → S → W → Prop) (B : S → W → Prop) (F : T → W → Prop) X s w :
  0 ≤ n →
  (∀ i s w, a ≤ i < a + n → I i s w →
     wp (body i s)
       (λ f, match f with Next s' => I (i + 1) s' | Break s' => B s' | Return r => F r end) X w) →
  I a s w →
  wp (for_loop (seqZ a n) body s)
     (λ f, match f with Next s' => I (a + n) s' | Break s' => B s' | Return r => F r end) X w.
Proof.
  intros Hn. revert a s w. pattern n. apply natlike_ind; [| |done]; clear n Hn.
  - intros a s w _ HI. rewrite seqZ_nil by lia. simpl. apply wp_ret. by rewrite Z.add_0_r.
  - intros n Hn IH a s w Hb HI. rewrite seqZ_cons by lia. cbn [for_loop]. apply wp_bind.
    eapply wp_mono; [apply Hb; [lia|done]| |done].
    intros [s'|s'|r] w' H'; [|done..].
    replace (Z.pred (Z.succ n)) with n by lia. replace (Z.succ a) with (a + 1) by lia.
    eapply wp_mono; [apply IH| |done].
    + intros i s0 w0 Hi. apply Hb. lia.
    + done.
    + replace (a + Z.succ n) with (a + 1 + n) by lia. done.
Qed.
End wp.

(** ** Generic list facts *)

Lemma res_mapM_Forall2 {E A B} (f : A → res E B) xs ys :
  res_mapM f xs = Ok ys → Forall2 (λ x y, f x = Ok y) xs ys.
Proof.
  revert ys. induction xs as [|x xs IH]; simpl; intros ys; [by intros [= <-]|].
  unfold mbind, res_bind. destruct (f x) as [y|] eqn:Hx; [|done]. destruct (res_mapM f xs) as [zs|]; [|done].
  intros [= <-]. constructor; [done|]. by apply IH.
Qed.

Lemma filter_length_le {A} (P : A → Prop) `{∀ x, Decision (P x)} (l : list A) :
  (length (filter P l) ≤ length l)%nat.
Proof. induction l as [|x l IH]; [done|]. rewrite filter_cons. case_decide; simpl; lia. Qed.

Fixpoint sum_Z (l : list Z) : Z :=
  match l with [] => 0 | x :: l' => x + sum_Z l' end.

Lemma sum_Z_app l k : sum_Z (l ++ k) = sum_Z l + sum_Z k.
Proof. induction l as [|x l IH]; simpl; lia. Qed.

Lemma sum_Z_nonneg l : Forall (λ x, 0 ≤ x) l → 0 ≤ sum_Z l.
Proof. induction 1; simpl; lia. Qed.

(** Case split on every [match]/[if] of the goal or of a hypothesis. *)
Ltac split_cases :=
  repeat (case_match || case_decide || case_bool_decide); simplify_eq/=.

Lemma map_reverse {A B} (f : A → B) (l : list A) : map f (reverse l) = reverse (map f l).
Proof. exact (fmap_reverse f l). Qed.
