(* ===== verification/PyStr.v ===== *)
(** * Python strings

    A [str] is the list of its Unicode code points, so [len], slicing and
    concatenation are those of lists.  The file models the string methods the
    program calls, the decimal conversions between [int] and [str], and [repr].
    Facts of the Unicode character database that are not fixed by the ASCII
    range (case mapping, printability, decimal digits, word characters) are the
    fields of the class [PyTables]; every theorem holds for any such tables. *)

From S2P Require Import Prelude.

Abbreviation pystr := (list N).

Class PyTables := {
  uc_printable : N → bool;          (* str.isprintable, code points >= 128 *)
  uc_lower : pystr → pystr;         (* str.lower of a string that is not ASCII *)
  uc_upper : pystr → pystr;         (* str.upper of a string that is not ASCII *)
  uc_decimal : N → option N;        (* decimal digit value, code points >= 128 *)
  uc_word : N → bool;               (* re's \w, code points >= 128 *)
  py_float_repr : Z → pystr;        (* repr of a finite float, see PyFloat *)
}.

(** Tables for programs that only meet ASCII text. *)
Definition ascii_tables : PyTables := {|
  uc_printable := λ _, true;
  uc_lower := λ s, s;
  uc_upper := λ s, s;
  uc_decimal := λ _, None;
  uc_word := λ _, true;
  py_float_repr := λ _, [];
|}.

(** ** Literals: the UTF-8 bytes of a Rocq string, decoded *)

Fixpoint utf8_decode (fuel : nat) (l : list N) : pystr :=
  match fuel with
  | O => []
  | S fuel' =>
      match l with
      | [] => []
      | a :: l1 =>
          if (a <? 128)%N then a :: utf8_decode fuel' l1
          else if (a <? 224)%N then
            match l1 with
            | b :: l2 => ((a - 192) * 64 + (b - 128))%N :: utf8_decode fuel' l2
            | _ => []
            end
          else if (a <? 240)%N then
            match l1 with
            | b :: c :: l3 =>
                ((a - 224) * 4096 + (b - 128) * 64 + (c - 128))%N :: utf8_decode fuel' l3
            | _ => []
            end
          else
            match l1 with
            | b :: c :: d :: l4 =>
                ((a - 240) * 262144 + (b - 128) * 4096 + (c - 128) * 64 + (d - 128))%N
                  :: utf8_decode fuel' l4
            | _ => []
            end
      end
  end.

Fixpoint bytes_of (s : string) : list N :=
  match s with
  | EmptyString => []
  | String a s' => Ascii.N_of_ascii a :: bytes_of s'
  end.

Definition u (s : string) : pystr :=
  let l := bytes_of s in utf8_decode (length l) l.
Arguments u : simpl never.

(** ** Lengths and slices *)

Definition py_len {A} (s : list A) : Z := Z.of_nat (length s).

(** [len(s.encode())] *)
Definition utf8_width (c : N) : Z :=
  if (c <? 128)%N then 1 else if (c <? 2048)%N then 2 else if (c <? 65536)%N then 3 else 4.
Definition utf8_len (s : pystr) : Z := sum_Z (map utf8_width s).

(** [s[:n]] and [s[n:]], for a list or a string; a negative bound counts from the end. *)
Definition slice_bound {A} (s : list A) (n : Z) : nat :=
  if n <? 0 then Z.to_nat (py_len s + n) else Z.to_nat (Z.min n (py_len s)).
Definition slice_to {A} (n : Z) (s : list A) : list A := take (slice_bound s n) s.
Definition slice_from {A} (n : Z) (s : list A) : list A := drop (slice_bound s n) s.
Arguments slice_to : simpl never.
Arguments slice_from : simpl never.
(** [s[a:b]] *)
Definition slice {A} (a b : Z) (s : list A) : list A := slice_from a (slice_to b s).

(** ** Character classes and trimming *)

Definition is_space (c : N) : bool :=
  ((9 <=? c) && (c <=? 13) || (28 <=? c) && (c <=? 32) || (c =? 133) || (c =? 160)
   || (c =? 5760) || (8192 <=? c) && (c <=? 8202) || (c =? 8232) || (c =? 8233)
   || (c =? 8239) || (c =? 8287) || (c =? 12288))%N.
Definition is_ascii (c : N) : bool := (c <? 128)%N.
Definition ascii_digit (c : N) : bool := ((48 <=? c) && (c <=? 57))%N.
Definition ascii_alpha (c : N) : bool :=
  ((65 <=? c) && (c <=? 90) || (97 <=? c) && (c <=? 122))%N.
Definition ascii_alnum (c : N) : bool := ascii_alpha c || ascii_digit c.

Fixpoint drop_while {A} (p : A → bool) (s : list A) : list A :=
  match s with
  | [] => []
  | c :: s' => if p c then drop_while p s' else s
  end.
Definition lstrip_by (p : N → bool) (s : pystr) : pystr := drop_while p s.
Definition rstrip_by (p : N → bool) (s : pystr) : pystr := reverse (drop_while p (reverse s)).
Definition strip_by (p : N → bool) (s : pystr) : pystr := rstrip_by p (lstrip_by p s).
(** [s.strip()], [s.rstrip()], [s.strip(chars)] *)
Definition strip (s : pystr) : pystr := strip_by is_space s.
Definition rstrip (s : pystr) : pystr := rstrip_by is_space s.
Definition mem_char (chars : pystr) (c : N) : bool := bool_decide (c ∈ chars).
Definition strip_chars (chars s : pystr) : pystr := strip_by (mem_char chars) s.

(** ** Case *)

Definition ascii_lower (c : N) : N := if ((65 <=? c) && (c <=? 90))%N then (c + 32)%N else c.
Definition ascii_upper (c : N) : N := if ((97 <=? c) && (c <=? 122))%N then (c - 32)%N else c.
Definition lower `{PyTables} (s : pystr) : pystr :=
  if forallb is_ascii s then map ascii_lower s else uc_lower s.
Definition upper `{PyTables} (s : pystr) : pystr :=
  if forallb is_ascii s then map ascii_upper s else uc_upper s.

(** ** Substrings *)

Definition startswith (pat s : pystr) : bool := bool_decide (take (length pat) s = pat).
Definition endswith (pat s : pystr) : bool :=
  bool_decide (pat `suffix_of` s).

(** Split at the first occurrence of [pat]: what precedes it and what follows it. *)
Fixpoint partition_at (pat s : pystr) : option (pystr * pystr) :=
  if startswith pat s then Some ([], drop (length pat) s)
  else match s with
       | [] => None
       | c :: s' => match partition_at pat s' with
                    | Some (a, b) => Some (c :: a, b)
                    | None => None
                    end
       end.

(** [pat in s] *)
Definition contains (pat s : pystr) : bool :=
  match partition_at pat s with Some _ => true | None => false end.
(** [s.find(pat)] *)
Definition find (pat s : pystr) : Z :=
  match partition_at pat s with Some (a, _) => py_len a | None => -1 end.
(** [s.rfind(c)] for a single character *)
Definition rfind_char (c : N) (s : pystr) : Z :=
  match list_find (λ x, x = c) (reverse s) with
  | Some (i, _) => py_len s - 1 - Z.of_nat i
  | None => -1
  end.

(** [s.split(sep)] for a non-empty [sep]; [fuel] is the length of [s]. *)
Fixpoint split_fuel (fuel : nat) (sep s : pystr) : list pystr :=
  match fuel with
  | O => [s]
  | S fuel' => match partition_at sep s with
               | Some (a, b) => a :: split_fuel fuel' sep b
               | None => [s]
               end
  end.
Definition split (sep s : pystr) : list pystr := split_fuel (length s) sep s.

(** [sep.join(parts)] *)
Fixpoint join (sep : pystr) (parts : list pystr) : pystr :=
  match parts with
  | [] => []
  | [p] => p
  | p :: ps => p ++ sep ++ join sep ps
  end.

(** [s.count(pat)]: non-overlapping occurrences. *)
Definition count (pat s : pystr) : Z :=
  match pat with
  | [] => py_len s + 1
  | _ => py_len (split pat s) - 1
  end.
(** [s.replace(old, new, 1)] and [s.replace(old, new)] *)
Definition replace_first (old new s : pystr) : pystr :=
  match partition_at old s with
  | Some (a, b) => a ++ new ++ b
  | None => s
  end.
Definition replace_all (old new s : pystr) : pystr := join new (split old s).
(** [s.rsplit(sep, 1)[-1]] for a single character *)
Definition after_last (c : N) (s : pystr) : pystr :=
  reverse (take (match list_find (λ x, x = c) (reverse s) with
                 | Some (i, _) => i | None => length s end) (reverse s)).

(** ** Ordering by code point, as [sorted] uses it *)

Fixpoint str_leb (s t : pystr) : bool :=
  match s, t with
  | [], _ => true
  | _ :: _, [] => false
  | a :: s', b :: t' => if (a =? b)%N then str_leb s' t' else (a <? b)%N
  end.
Definition str_le (s t : pystr) : Prop := str_leb s t = true.
#[global] Instance str_le_dec s t : Decision (str_le s t).
Proof. unfold str_le. apply _. Defined.
Definition sorted_strs (l : list pystr) : list pystr := merge_sort str_le l.
Definition sorted_by_key {V} (l : list (pystr * V)) : list (pystr * V) :=
  merge_sort (λ a b, str_le a.1 b.1) l.

(** ** Integers *)

Fixpoint digits_fuel (fuel : nat) (n : N) : pystr :=
  match fuel with
  | O => []
  | S fuel' =>
      if (n <? 10)%N then [(48 + n)%N]
      else digits_fuel fuel' (n / 10)%N ++ [(48 + n mod 10)%N]
  end.
Definition str_of_N (n : N) : pystr := digits_fuel (S (N.size_nat n)) n.
(** [str(z)] *)
Definition str_of_Z (z : Z) : pystr :=
  if z <? 0 then 45%N :: str_of_N (Z.to_N (- z)) else str_of_N (Z.to_N z).

Definition digit_value `{PyTables} (c : N) : option N :=
  if ascii_digit c then Some (c - 48)%N else if is_ascii c then None else uc_decimal c.

(** Digits with single underscores between them; the value and the digit count. *)
Fixpoint parse_digits `{PyTables} (after_digit : bool) (acc : N) (n : Z) (s : pystr)
    : option (N * Z) :=
  match s with
  | [] => if after_digit then Some (acc, n) else None
  | c :: s' =>
      match digit_value c with
      | Some d => parse_digits true (acc * 10 + d)%N (n + 1) s'
      | None => if after_digit && (c =? 95)%N then
                  match s' with
                  | [] => None
                  | _ => parse_digits false acc n s'
                  end
                else None
      end
  end.

(** CPython refuses to convert decimal strings of more than 4300 digits. *)
Definition max_str_digits : Z := 4300.

(** [int(s)]: [None] stands for the [ValueError]. *)
Definition int_of_str `{PyTables} (s : pystr) : option Z :=
  let t := strip s in
  let signed (neg : bool) (ds : pystr) :=
    match parse_digits false 0 0 ds with
    | Some (v, n) => if n <=? max_str_digits
                     then Some (if neg then - Z.of_N v else Z.of_N v) else None
    | None => None
    end in
  match t with
  | 45%N :: ds => signed true ds
  | 43%N :: ds => signed false ds
  | ds => signed false ds
  end.

(** ** [repr] of a string *)

Definition hex_digit (n : N) : N := if (n <? 10)%N then (48 + n)%N else (87 + n)%N.
Fixpoint hex_fuel (width : nat) (n : N) : pystr :=
  match width with
  | O => []
  | S w => hex_fuel w (n / 16)%N ++ [hex_digit (n mod 16)%N]
  end.
Definition repr_char `{PyTables} (quote : N) (c : N) : pystr :=
  if ((c =? quote) || (c =? 92))%N then [92%N; c]
  else if (c =? 9)%N then u "\t" else if (c =? 10)%N then u "\n" else if (c =? 13)%N then u "\r"
  else if ((c <? 32) || (c =? 127))%N then u "\x" ++ hex_fuel 2 c
  else if is_ascii c then [c]
  else if uc_printable c then [c]
  else if (c <? 256)%N then u "\x" ++ hex_fuel 2 c
  else if (c <? 65536)%N then u "\u" ++ hex_fuel 4 c
  else u "\U" ++ hex_fuel 8 c.
Definition repr_str `{PyTables} (s : pystr) : pystr :=
  let quote := if mem_char s 39 && negb (mem_char s 34) then 34%N else 39%N in
  [quote] ++ mjoin (map (repr_char quote) s) ++ [quote].

(** ** Lemmas on substrings *)

Lemma startswith_spec pat s : startswith pat s = true ↔ s = pat ++ drop (length pat) s.
Proof.
  unfold startswith. rewrite bool_decide_eq_true. split.
  - intros Ht. rewrite <- Ht at 1. by rewrite take_drop.
  - intros ->. by rewrite take_app_length.
Qed.

Lemma partition_at_Some pat s a b : partition_at pat s = Some (a, b) → s = a ++ pat ++ b.
Proof.
  revert a b. induction s as [|c s IH]; intros a b; cbn [partition_at];
    destruct (startswith pat _) eqn:Hs.
  - intros [= <- <-]. by apply startswith_spec.
  - done.
  - intros [= <- <-]. by apply startswith_spec.
  - destruct (partition_at pat s) as [[a' b']|]; [|done].
    intros [= <- <-]. simpl. f_equal. by apply IH.
Qed.

Lemma startswith_char c s : startswith [c] s = true ↔ head s = Some c.
Proof.
  unfold startswith. rewrite bool_decide_eq_true. destruct s as [|x s]; simpl; [done|].
  rewrite take_0. naive_solver.
Qed.

Lemma partition_at_char_Some c s a b :
  partition_at [c] s = Some (a, b) → s = a ++ c :: b ∧ c ∉ a.
Proof.
  intros Hp. split; [by apply partition_at_Some in Hp|].
  revert a b Hp. induction s as [|x s IH]; intros a b; cbn [partition_at];
    destruct (startswith [c] _) eqn:Hs; try done.
  - intros [= <- <-]. apply not_elem_of_nil.
  - destruct (partition_at [c] s) as [[a' b']|]; [|done].
    intros [= <- <-]. apply not_elem_of_cons. split; [|by eapply IH].
    intros ->. rewrite (proj2 (startswith_char x (x :: s))) in Hs; done.
Qed.

Lemma partition_at_char_None c s : partition_at [c] s = None ↔ c ∉ s.
Proof.
  induction s as [|x s IH]; cbn [partition_at].
  - split; [intros _; apply not_elem_of_nil|done].
  - rewrite not_elem_of_cons. destruct (startswith [c] (x :: s)) eqn:Hs.
    + apply startswith_char in Hs as [= ->]. split; [done|]. intros [? _]. done.
    + assert (c ≠ x) as Hne.
      { intros ->. by rewrite (proj2 (startswith_char x (x :: s))) in Hs. }
      destruct (partition_at [c] s) as [[a b]|].
      * split; [done|]. intros [_ Hn]. by apply IH in Hn.
      * split; [|done]. intros _. split; [done|by apply IH].
Qed.

Lemma split_fuel_char c fuel s :
  (length s ≤ fuel)%nat →
  Forall (λ p, c ∉ p) (split_fuel fuel [c] s) ∧ join [c] (split_fuel fuel [c] s) = s.
Proof.
  revert s. induction fuel as [|fuel IH]; intros s Hl; simpl.
  { destruct s; [|simpl in *; lia]. split; [|done]. repeat constructor. apply not_elem_of_nil. }
  destruct (partition_at [c] s) as [[a b]|] eqn:Hp.
  - apply partition_at_char_Some in Hp as [-> Ha]. rewrite length_app in Hl. simpl in Hl.
    destruct (IH b ltac:(lia)) as [Hf Hj]. split; [by constructor|].
    destruct (split_fuel fuel [c] b) as [|p ps] eqn:Hs; [|simpl in *; by rewrite Hj].
    destruct fuel; simpl in Hs; [done|]. by destruct (partition_at [c] b) as [[??]|].
  - apply partition_at_char_None in Hp. split; [|done]. by repeat constructor.
Qed.

(** The parts of [s.split(c)] do not contain [c], and joining them gives [s] back. *)
Lemma split_char c s : Forall (λ p, c ∉ p) (split [c] s) ∧ join [c] (split [c] s) = s.
Proof. by apply split_fuel_char. Qed.

Lemma split_nonempty sep s : split sep s ≠ [].
Proof.
  unfold split. destruct (length s); simpl; [done|]. by destruct (partition_at sep s) as [[??]|].
Qed.

Lemma elem_of_join c sep parts :
  c ∈ join sep parts → c ∈ sep ∨ ∃ p, p ∈ parts ∧ c ∈ p.
Proof.
  induction parts as [|p [|p' ps] IH]; simpl.
  - by intros ?%elem_of_nil.
  - intros. right. exists p. set_solver.
  - rewrite !elem_of_app. intros [|[|Hj]]; [right; exists p; set_solver|by left|].
    destruct (IH Hj) as [|(q & Hq & Hc)]; [by left|]. right. exists q.
    split; [|done]. apply elem_of_cons. by right.
Qed.

Lemma elem_of_join_in c sep parts p : p ∈ parts → c ∈ p → c ∈ join sep parts.
Proof.
  induction parts as [|q [|q' ps] IH]; simpl;
    [by intros ?%elem_of_nil|by intros ->%list_elem_of_singleton|].
  intros [->|Hin]%elem_of_cons Hc; rewrite !elem_of_app; [by left|]. right; right. auto.
Qed.

Lemma join_length_le sep parts :
  (length (join sep parts) ≤ sum_list_with length parts + length sep * (length parts - 1))%nat.
Proof.
  induction parts as [|p [|p' ps] IH]; simpl; [lia|lia|].
  rewrite !length_app. simpl in IH. lia.
Qed.

Lemma join_length_eq sep parts :
  parts ≠ [] →
  (length (join sep parts) = sum_list_with length parts + length sep * (length parts - 1))%nat.
Proof.
  induction parts as [|p [|p' ps] IH]; [done|simpl; lia|]. intros _. simpl.
  rewrite !length_app. simpl in IH. rewrite IH by done. lia.
Qed.

(** Splitting a joined list of separator-free parts gives the parts back. *)
Lemma partition_at_char_app c a b : c ∉ a → partition_at [c] (a ++ c :: b) = Some (a, b).
Proof.
  intros Ha. induction a as [|x a IH]; simpl.
  - rewrite (proj2 (startswith_char c (c :: b))) by done. by rewrite drop_0.
  - apply not_elem_of_cons in Ha as [Hx Ha].
    destruct (startswith [c] (x :: a ++ c :: b)) eqn:Hs.
    { apply startswith_char in Hs as [= ->]. done. }
    by rewrite IH.
Qed.

Lemma split_join_char c parts fuel :
  parts ≠ [] → Forall (λ p, c ∉ p) parts → (length (join [c] parts) ≤ fuel)%nat →
  split_fuel fuel [c] (join [c] parts) = parts.
Proof.
  revert fuel. induction parts as [|p [|p' ps] IH]; intros fuel Hne Hf Hl; [done| |].
  - apply Forall_cons in Hf as [Hp _]. apply partition_at_char_None in Hp.
    destruct fuel; simpl; [done|]. by rewrite Hp.
  - apply Forall_cons in Hf as [Hp Hf].
    change (join [c] (p :: p' :: ps)) with (p ++ c :: join [c] (p' :: ps)) in *.
    rewrite length_app in Hl. simpl in Hl. destruct fuel as [|fuel]; [lia|].
    cbn [split_fuel]. rewrite partition_at_char_app by done. f_equal. apply IH; [done|done|].
    simpl. lia.
Qed.

Lemma length_drop_while {A} (p : A → bool) s : (length (drop_while p s) ≤ length s)%nat.
Proof. induction s as [|x s IH]; simpl; [lia|]. destruct (p x); simpl; lia. Qed.

Lemma length_strip_by p s : (length (strip_by p s) ≤ length s)%nat.
Proof.
  unfold strip_by, rstrip_by, lstrip_by. rewrite length_reverse.
  etrans; [apply length_drop_while|]. rewrite length_reverse. apply length_drop_while.
Qed.

Lemma length_slice_to {A} n (s : list A) : 0 ≤ n → py_len (slice_to n s) ≤ n.
Proof.
  intros. unfold slice_to, slice_bound, py_len. destruct (Z.ltb_spec n 0); [lia|].
  rewrite length_take. lia.
Qed.

Lemma slice_to_all {A} n (s : list A) : py_len s ≤ n → slice_to n s = s.
Proof.
  unfold slice_to, slice_bound, py_len. intros. destruct (Z.ltb_spec n 0); [lia|].
  apply take_ge. lia.
Qed.

Lemma py_len_nonneg {A} (s : list A) : 0 ≤ py_len s.
Proof. unfold py_len. lia. Qed.

Lemma py_len_cons {A} (x : A) s : py_len (x :: s) = 1 + py_len s.
Proof. unfold py_len. simpl. lia. Qed.

Lemma py_len_app {A} (s t : list A) : py_len (s ++ t) = py_len s + py_len t.
Proof. unfold py_len. rewrite length_app. lia. Qed.

Lemma utf8_len_bounds s : py_len s ≤ utf8_len s ≤ 4 * py_len s.
Proof.
  unfold py_len, utf8_len. induction s as [|c s IH]; simpl; [lia|].
  unfold utf8_width at 1 3. repeat case_match; lia.
Qed.

Lemma digits_fuel_length fuel k n :
  (n < 10 ^ N.of_nat (S k))%N → (length (digits_fuel fuel n) ≤ S k)%nat.
Proof.
  revert k n. induction fuel as [|fuel IH]; intros k n Hn; simpl; [lia|].
  destruct (N.ltb_spec n 10); simpl; [lia|]. rewrite length_app. simpl.
  destruct k as [|k]; [simpl in Hn; lia|].
  assert (length (digits_fuel fuel (n / 10)) ≤ S k)%nat; [|lia].
  apply IH. apply N.Div0.div_lt_upper_bound.
  rewrite (Nat2N.inj_succ (S k)), N.pow_succ_r' in Hn. lia.
Qed.

(** A number below 10^(k+1) is written with at most k+1 digits. *)
Lemma str_of_Z_length k z : 0 ≤ z < 10 ^ Z.of_nat (S k) → py_len (str_of_Z z) ≤ Z.of_nat (S k).
Proof.
  intros [H0 Hz]. unfold str_of_Z, py_len. destruct (Z.ltb_spec z 0); [lia|].
  unfold str_of_N. pose proof (digits_fuel_length (S (N.size_nat (Z.to_N z))) k (Z.to_N z)) as Hl.
  assert (Z.to_N z < 10 ^ N.of_nat (S k))%N as Hn; [|apply Hl in Hn; lia].
  apply N2Z.inj_lt. rewrite Z2N.id, N2Z.inj_pow, nat_N_Z by lia. done.
Qed.

Lemma py_len_join sep parts :
  py_len (join sep parts) ≤ sum_Z (map py_len parts) + py_len sep * Z.max 0 (py_len parts - 1).
Proof.
  unfold py_len. induction parts as [|p [|p' ps] IH]; simpl; [lia|lia|].
  rewrite !length_app. simpl in IH. lia.
Qed.

Lemma length_rstrip_by p s : (length (rstrip_by p s) ≤ length s)%nat.
Proof.
  unfold rstrip_by. rewrite length_reverse. etrans; [apply length_drop_while|].
  by rewrite length_reverse.
Qed.

Lemma sum_Z_reverse l : sum_Z (reverse l) = sum_Z l.
Proof.
  induction l as [|x l IH]; [done|]. rewrite reverse_cons, sum_Z_app, IH. simpl. lia.
Qed.

Lemma py_len_reverse {A} (s : list A) : py_len (reverse s) = py_len s.
Proof. unfold py_len. by rewrite length_reverse. Qed.
