(* ===== verification/PyFloat.v ===== *)
(** * Python floats: binary64 arithmetic on exact integers

    A finite binary64 number is a multiple of 2^-1074; it is represented by the
    integer that counts those units, so comparison is that of [Z] and Leibniz
    equality is numeric equality.  Every operation computes the exact rational
    result and rounds it once to 53 significant bits, ties to even, which is
    what the hardware and CPython's int/int division do.  A result of magnitude
    2^1024 or more is [None]: the operations that use it raise [OverflowError]. *)

From S2P Require Import Prelude.

Definition fl_one : Z := 2 ^ 1074.
Definition fl_max : Z := 2 ^ 2098.

(** Round the rational [N/D] to an integer, ties to even ([D > 0]). *)
Definition rhe (N D : Z) : Z :=
  let q := N / D in
  let r := N mod D in
  if 2 * r <? D then q
  else if D <? 2 * r then q + 1
  else if Z.even q then q else q + 1.

(** The spacing of the floats around a non-negative number whose integer part
    (in units) is [q]. *)
Definition ulp (q : Z) : Z := if q <? 2 ^ 53 then 1 else 2 ^ (Z.log2 q - 52).

Definition rnd_nonneg (N D : Z) : Z := let t := ulp (N / D) in t * rhe N (D * t).
Definition rnd (N D : Z) : Z := if N <? 0 then - rnd_nonneg (- N) D else rnd_nonneg N D.

Definition checked (x : Z) : option Z := if Z.abs x <? fl_max then Some x else None.

(** [float(n)], [a / b] on ints, [x * y], [x + y], [x / y] on floats. *)
Definition fl_of_Z (n : Z) : option Z := checked (rnd (n * fl_one) 1).
Definition fl_div_ZZ (a b : Z) : option Z := checked (rnd (a * fl_one) b).
Definition fl_mul (x y : Z) : option Z := checked (rnd (x * y) fl_one).
Definition fl_add (x y : Z) : option Z := checked (rnd (x + y) 1).
(** [round(x)] and [int(x)] *)
Definition fl_round (x : Z) : Z := rhe x fl_one.
Definition fl_trunc (x : Z) : Z := Z.quot x fl_one.
(** The float a decimal literal [n / d] denotes. *)
Definition fl_lit (n d : Z) : Z := rnd (n * fl_one) d.

(** ** Rounding to an integer *)

Lemma rhe_error N D : 0 < D → 2 * Z.abs (D * rhe N D - N) ≤ D.
Proof.
  intros HD. unfold rhe. pose proof (Z.div_mod N D ltac:(lia)).
  pose proof (Z.mod_pos_bound N D HD).
  destruct (Z.ltb_spec (2 * (N mod D)) D); [lia|].
  destruct (Z.ltb_spec D (2 * (N mod D))); [lia|].
  destruct (Z.even (N / D)); lia.
Qed.

Lemma rhe_tie_even N D : 0 < D → 2 * Z.abs (D * rhe N D - N) = D → Z.even (rhe N D) = true.
Proof.
  intros HD. unfold rhe. pose proof (Z.div_mod N D ltac:(lia)).
  pose proof (Z.mod_pos_bound N D HD).
  destruct (Z.ltb_spec (2 * (N mod D)) D); [lia|].
  destruct (Z.ltb_spec D (2 * (N mod D))); [lia|].
  destruct (Z.even (N / D)) eqn:He; [done|].
  intros _. rewrite Z.even_add, He. done.
Qed.

Lemma rhe_mono N1 D1 N2 D2 :
  0 < D1 → 0 < D2 → N1 * D2 ≤ N2 * D1 → rhe N1 D1 ≤ rhe N2 D2.
Proof.
  intros H1 H2 HN.
  pose proof (rhe_error N1 D1 H1) as E1. pose proof (rhe_error N2 D2 H2) as E2.
  destruct (Z.le_gt_cases (rhe N1 D1) (rhe N2 D2)) as [|Hgt]; [done|exfalso].
  set (a := rhe N1 D1) in *. set (b := rhe N2 D2) in *.
  assert (D1 * D2 * (2 * a - 1) ≤ 2 * N1 * D2) by nia.
  assert (2 * N2 * D1 ≤ D1 * D2 * (2 * b + 1)) by nia.
  assert (Hab : a = b + 1) by nia.
  assert (T1 : 2 * Z.abs (D1 * a - N1) = D1) by nia.
  assert (T2 : 2 * Z.abs (D2 * b - N2) = D2) by nia.
  apply rhe_tie_even in T1; [|done]. apply rhe_tie_even in T2; [|done].
  fold a in T1. fold b in T2. rewrite Hab, Z.even_add, T2 in T1. done.
Qed.

Lemma rhe_exact v D : 0 < D → rhe (v * D) D = v.
Proof.
  intros HD. unfold rhe. rewrite Z.mod_mul, Z.div_mul by lia.
  destruct (Z.ltb_spec (2 * 0) D); lia.
Qed.

Lemma rhe_nonneg N D : 0 < D → 0 ≤ N → 0 ≤ rhe N D.
Proof.
  intros HD HN. rewrite <- (rhe_exact 0 1) by lia. apply rhe_mono; lia.
Qed.

(** A rational within less than half a unit of [v] rounds to [v]. *)
Lemma rhe_unique N D v : 0 < D → 2 * Z.abs (D * v - N) < D → rhe N D = v.
Proof. intros HD Hv. pose proof (rhe_error N D HD). nia. Qed.

(** ** Rounding to binary64 *)

Lemma ulp_pos q : 0 < ulp q.
Proof.
  unfold ulp. destruct (Z.ltb_spec q (2 ^ 53)); [lia|].
  apply Z.pow_pos_nonneg; [lia|].
  assert (53 ≤ Z.log2 q) by (apply Z.log2_le_pow2; lia). lia.
Qed.

Lemma ulp_big q : 2 ^ 53 ≤ q → ulp q * 2 ^ 52 ≤ q < ulp q * 2 ^ 53.
Proof.
  intros Hq. unfold ulp. destruct (Z.ltb_spec q (2 ^ 53)); [lia|].
  assert (53 ≤ Z.log2 q) by (apply Z.log2_le_pow2; lia).
  rewrite <- !Z.pow_add_r by lia.
  replace (Z.log2 q - 52 + 52) with (Z.log2 q) by lia.
  replace (Z.log2 q - 52 + 53) with (Z.succ (Z.log2 q)) by lia.
  apply Z.log2_spec. lia.
Qed.

Lemma ulp_small q : q < 2 ^ 53 → ulp q = 1.
Proof. intros. unfold ulp. destruct (Z.ltb_spec q (2 ^ 53)); lia. Qed.

Lemma ulp_upper q : 0 ≤ q → q < ulp q * 2 ^ 53.
Proof.
  intros. destruct (Z.lt_ge_cases q (2 ^ 53)).
  - rewrite ulp_small by done. lia.
  - by apply ulp_big.
Qed.

Lemma ulp_mono q1 q2 : 0 ≤ q1 ≤ q2 → ulp q1 ≤ ulp q2.
Proof.
  intros. pose proof (ulp_pos q2). destruct (Z.lt_ge_cases q1 (2 ^ 53)).
  - rewrite ulp_small by done. lia.
  - unfold ulp. destruct (Z.ltb_spec q1 (2 ^ 53)), (Z.ltb_spec q2 (2 ^ 53)); try lia.
    apply Z.pow_le_mono_r; [lia|]. assert (Z.log2 q1 ≤ Z.log2 q2) by (apply Z.log2_le_mono; lia).
    lia.
Qed.

Lemma ulp_jump q1 q2 : 0 ≤ q1 ≤ q2 → ulp q1 < ulp q2 → ulp q1 * 2 ^ 53 ≤ ulp q2 * 2 ^ 52.
Proof.
  intros Hq Hu. destruct (Z.lt_ge_cases q2 (2 ^ 53)) as [H2|H2].
  { rewrite (ulp_small q2) in Hu by done. pose proof (ulp_pos q1). lia. }
  destruct (Z.lt_ge_cases q1 (2 ^ 53)) as [H1|H1].
  { rewrite (ulp_small q1) in * by done.
    unfold ulp in *. destruct (Z.ltb_spec q2 (2 ^ 53)); [lia|].
    assert (2 ^ 1 ≤ 2 ^ (Z.log2 q2 - 52)); [|lia].
    apply Z.pow_le_mono_r; [lia|].
    assert (53 ≤ Z.log2 q2) by (apply Z.log2_le_pow2; lia). lia. }
  unfold ulp in *. destruct (Z.ltb_spec q1 (2 ^ 53)), (Z.ltb_spec q2 (2 ^ 53)); try lia.
  apply Z.pow_lt_mono_r_iff in Hu;
    [|lia|assert (53 ≤ Z.log2 q2) by (apply Z.log2_le_pow2; lia); lia].
  assert (53 ≤ Z.log2 q1) by (apply Z.log2_le_pow2; lia).
  rewrite <- !Z.pow_add_r by lia. apply Z.pow_le_mono_r; lia.
Qed.

Lemma rnd_nonneg_mono N1 D1 N2 D2 :
  0 < D1 → 0 < D2 → 0 ≤ N1 → 0 ≤ N2 → N1 * D2 ≤ N2 * D1 →
  rnd_nonneg N1 D1 ≤ rnd_nonneg N2 D2.
Proof.
  intros H1 H2 P1 P2 HN. unfold rnd_nonneg.
  assert (Hq : 0 ≤ N1 / D1 ≤ N2 / D2).
  { split; [by apply Z.div_pos|].
    apply Z.div_le_lower_bound; [done|].
    pose proof (Z.mul_div_le N1 D1 H1). nia. }
  set (q1 := N1 / D1) in *. set (q2 := N2 / D2) in *.
  pose proof (ulp_pos q1). pose proof (ulp_pos q2). pose proof (ulp_mono q1 q2 Hq).
  destruct (Z.eq_dec (ulp q1) (ulp q2)) as [He|Hne].
  { rewrite He. apply Z.mul_le_mono_nonneg_l; [lia|]. apply rhe_mono; nia. }
  pose proof (ulp_jump q1 q2 Hq ltac:(lia)).
  trans (ulp q1 * 2 ^ 53).
  { apply Z.mul_le_mono_nonneg_l; [lia|].
    rewrite <- (rhe_exact (2 ^ 53) 1) by lia. apply rhe_mono; [nia|lia|].
    pose proof (ulp_upper q1 ltac:(lia)).
    assert (N1 < D1 * (q1 + 1)); [|nia].
    pose proof (Z.mul_succ_div_gt N1 D1 H1). subst q1. lia. }
  trans (ulp q2 * 2 ^ 52); [lia|].
  apply Z.mul_le_mono_nonneg_l; [lia|].
  rewrite <- (rhe_exact (2 ^ 52) 1) by lia. apply rhe_mono; [lia|nia|].
  destruct (Z.lt_ge_cases q2 (2 ^ 53)) as [Hs|Hb].
  { rewrite (ulp_small q2) in * by done. pose proof (ulp_pos q1). lia. }
  pose proof (ulp_big q2 Hb).
  assert (D2 * q2 ≤ N2) by (subst q2; by apply Z.mul_div_le). nia.
Qed.

Lemma rnd_mono N1 D1 N2 D2 :
  0 < D1 → 0 < D2 → 0 ≤ N1 → N1 * D2 ≤ N2 * D1 → rnd N1 D1 ≤ rnd N2 D2.
Proof.
  intros. assert (0 ≤ N2) by nia. unfold rnd.
  destruct (Z.ltb_spec N1 0), (Z.ltb_spec N2 0); try lia. by apply rnd_nonneg_mono.
Qed.

Lemma rnd_eq N1 D1 N2 D2 :
  0 < D1 → 0 < D2 → 0 ≤ N1 → N1 * D2 = N2 * D1 → rnd N1 D1 = rnd N2 D2.
Proof. intros. apply Z.le_antisymm; apply rnd_mono; nia. Qed.

Lemma rnd_pos_nonneg N D : 0 < D → 0 ≤ N → 0 ≤ rnd N D.
Proof.
  intros. unfold rnd. destruct (Z.ltb_spec N 0); [lia|]. unfold rnd_nonneg.
  pose proof (ulp_pos (N / D)). pose proof (rhe_nonneg N (D * ulp (N / D))). nia.
Qed.

Lemma rnd_zero D : 0 < D → rnd 0 D = 0.
Proof.
  intros. unfold rnd, rnd_nonneg. simpl. rewrite Z.div_0_l, ulp_small by lia.
  rewrite <- (Z.mul_0_l (D * 1)), rhe_exact; lia.
Qed.

(** A number of at most 53 significant bits is rounded to itself. *)
Definition is_b64 (v : Z) : Prop := ∃ m e, 0 ≤ e ∧ 0 ≤ m < 2 ^ 53 ∧ v = m * 2 ^ e.

Lemma rnd_b64 v D : 0 < D → is_b64 v → rnd (v * D) D = v.
Proof.
  intros HD (m & e & He & Hm & ->). unfold rnd.
  assert (0 < 2 ^ e) by (apply Z.pow_pos_nonneg; lia).
  destruct (Z.ltb_spec (m * 2 ^ e * D) 0); [nia|].
  unfold rnd_nonneg. rewrite Z.div_mul by lia.
  destruct (Z.lt_ge_cases (m * 2 ^ e) (2 ^ 53)) as [Hs|Hb].
  { rewrite ulp_small, Z.mul_1_r, rhe_exact; lia. }
  assert (53 ≤ Z.log2 (m * 2 ^ e)) by (apply Z.log2_le_pow2; lia).
  assert (Hl : Z.log2 (m * 2 ^ e) < 53 + e).
  { apply Z.log2_lt_pow2; [nia|]. rewrite Z.pow_add_r by lia. nia. }
  unfold ulp. destruct (Z.ltb_spec (m * 2 ^ e) (2 ^ 53)); [lia|].
  set (k := Z.log2 (m * 2 ^ e) - 52) in *.
  assert (0 < 2 ^ k) by (apply Z.pow_pos_nonneg; lia).
  replace (2 ^ e) with (2 ^ (e - k) * 2 ^ k) by (rewrite <- Z.pow_add_r by lia; f_equal; lia).
  replace (m * (2 ^ (e - k) * 2 ^ k) * D) with (m * 2 ^ (e - k) * (D * 2 ^ k)) by ring.
  rewrite rhe_exact by nia. ring.
Qed.

Lemma rnd_is_b64 N D : 0 < D → 0 ≤ N → is_b64 (rnd N D).
Proof.
  intros HD HN. unfold rnd. destruct (Z.ltb_spec N 0); [lia|]. unfold rnd_nonneg.
  set (q := N / D). pose proof (ulp_pos q).
  assert (0 ≤ q) by (by apply Z.div_pos).
  assert (Hr : 0 ≤ rhe N (D * ulp q) ≤ 2 ^ 53).
  { split; [apply rhe_nonneg; nia|].
    rewrite <- (rhe_exact (2 ^ 53) 1) by lia. apply rhe_mono; [nia|lia|].
    pose proof (ulp_upper q ltac:(lia)).
    assert (N < D * (q + 1)); [|nia].
    pose proof (Z.mul_succ_div_gt N D HD). subst q. lia. }
  assert (Hu : ∃ k, 0 ≤ k ∧ ulp q = 2 ^ k).
  { unfold ulp. destruct (Z.ltb_spec q (2 ^ 53)); [by exists 0|].
    assert (53 ≤ Z.log2 q) by (apply Z.log2_le_pow2; lia).
    exists (Z.log2 q - 52). split; [lia|done]. }
  destruct Hu as (k & Hk & Hu). rewrite Hu in *.
  destruct (Z.eq_dec (rhe N (D * 2 ^ k)) (2 ^ 53)) as [->|].
  - exists (2 ^ 52), (k + 1). rewrite Z.pow_add_r by lia. split_and!; lia.
  - exists (rhe N (D * 2 ^ k)), k. split_and!; [lia..|apply Z.mul_comm].
Qed.

(** The rounding error is at most half the spacing. *)
Lemma rnd_error N D :
  0 < D → 0 ≤ N → 2 * Z.abs (D * rnd N D - N) ≤ D * ulp (N / D).
Proof.
  intros HD HN. unfold rnd. destruct (Z.ltb_spec N 0); [lia|]. unfold rnd_nonneg.
  pose proof (ulp_pos (N / D)).
  pose proof (rhe_error N (D * ulp (N / D)) ltac:(nia)). nia.
Qed.

(** The relative error is at most 2^-53, down to one unit. *)
Lemma rnd_rel_error N D :
  0 < D → 0 ≤ N → 2 ^ 53 * Z.abs (D * rnd N D - N) ≤ Z.max N (2 ^ 52 * D).
Proof.
  intros HD HN. pose proof (rnd_error N D HD HN) as HE.
  destruct (Z.lt_ge_cases (N / D) (2 ^ 53)) as [Hs|Hb].
  - rewrite ulp_small in HE by done. lia.
  - pose proof (ulp_big _ Hb). pose proof (Z.mul_div_le N D HD). nia.
Qed.

Lemma close_enough n h O R v :
  0 < h → 0 < O → Z.abs (2 * h * v - n * O) < O → Z.abs (2 * h * R - n) ≤ h - 1 →
  2 * Z.abs (O * R - v) < O.
Proof.
  intros Hh HO Hv HR.
  assert (Ht : Z.abs (2 * h * (O * R - v)) ≤ Z.abs (O * (2 * h * R - n)) + Z.abs (2 * h * v - n * O)).
  { replace (2 * h * (O * R - v)) with (O * (2 * h * R - n) - (2 * h * v - n * O)) by ring. lia. }
  rewrite !Z.abs_mul, (Z.abs_eq O), (Z.abs_eq 2), (Z.abs_eq h) in Ht by lia.
  assert (O * Z.abs (2 * h * R - n) ≤ O * (h - 1)) by (apply Z.mul_le_mono_nonneg_l; lia).
  apply Z.nle_gt. intros Hc.
  assert (h * O ≤ h * (2 * Z.abs (O * R - v))) by (apply Z.mul_le_mono_nonneg_l; lia). lia.
Qed.

(** Rounding [n/d] to a float and then to an integer is rounding it to an
    integer, when [d] is even and small against the precision left. *)
Lemma fl_round_div n h :
  0 < h ≤ 2 ^ 53 → 0 ≤ n → n * 8 ≤ 2 ^ 53 →
  fl_round (rnd (n * fl_one) (2 * h)) = rhe n (2 * h).
Proof.
  intros Hh Hn Hsmall.
  assert (Ho : fl_one = 2 ^ 53 * 2 ^ 1021) by (unfold fl_one; by rewrite <- Z.pow_add_r by lia).
  assert (HP : 2 ^ 56 ≤ 2 ^ 1021) by (apply Z.pow_le_mono_r; lia).
  unfold fl_round. set (P := 2 ^ 1021) in *. rewrite Ho.
  set (v := rnd (n * (2 ^ 53 * P)) (2 * h)).
  pose proof (Z.div_mod n (2 * h) ltac:(lia)) as Hdm.
  pose proof (Z.mod_pos_bound n (2 * h) ltac:(lia)) as Hmod.
  assert (Hk : 0 ≤ n / (2 * h)) by (apply Z.div_pos; lia).
  set (k := n / (2 * h)) in *. set (r := n mod (2 * h)) in *.
  destruct (Z.eq_dec r h) as [Hr|Hr].
  - (* a tie is a half-integer, which is a float *)
    assert (Hv : v = (2 * k + 1) * (2 ^ 52 * P)).
    { rewrite <- (rnd_b64 ((2 * k + 1) * (2 ^ 52 * P)) 1); [|lia|].
      - apply rnd_eq; [lia|lia|nia|]. rewrite Hdm, Hr. ring.
      - exists (2 * k + 1), 1073. split_and!; [lia|lia|nia|].
        subst P. by rewrite <- Z.pow_add_r by lia. }
    rewrite Hv. apply Z.le_antisymm; apply rhe_mono; nia.
  - assert (HE : Z.abs (2 * h * v - n * (2 ^ 53 * P)) < 2 ^ 53 * P).
    { pose proof (rnd_rel_error (n * (2 ^ 53 * P)) (2 * h) ltac:(lia)
        ltac:(apply Z.mul_nonneg_nonneg; lia)) as HE.
      assert (Hm : n * (2 ^ 53 * P) ≤ 2 ^ 50 * (2 ^ 53 * P)) by (apply Z.mul_le_mono_nonneg_r; lia).
      fold v in HE. lia. }
    pose proof (rhe_error n (2 * h) ltac:(lia)) as HR.
    assert (HR' : Z.abs (2 * h * rhe n (2 * h) - n) ≤ h - 1).
    { destruct (Z.eq_dec (2 * Z.abs (2 * h * rhe n (2 * h) - n)) (2 * h)) as [He|]; [|lia].
      exfalso. apply Hr. set (R := rhe n (2 * h)) in *.
      assert (2 * h * (R - k) = r + h ∨ 2 * h * (R - k) = r - h) as [Hd|Hd] by lia.
      - assert (R - k = 1) by nia. nia.
      - assert (R - k = 0) by nia. nia. }
    apply rhe_unique; [lia|]. apply (close_enough n h); [lia|lia|exact HE|exact HR'].
Qed.
