(* ===== verification/PyVal.v ===== *)
(** * Python values and exceptions

    [pyval] is the type of JSON-shaped values the program handles dynamically:
    workflow graphs, tool arguments, parsed model replies, event payloads.
    A [dict] keeps insertion order and has one entry per key.  [exn] lists the
    exception classes the modelled code raises or catches; the predicates after
    it are the subclass tests its [except] clauses make. *)

From S2P Require Import Prelude PyStr PyFloat.

(** ** Values *)

Inductive pyfloat : Type :=
| FNan
| FInf (negative : bool)
| FNegZero
| FFin (units : Z).          (* in units of 2^-1074, see PyFloat *)

#[global] Instance pyfloat_eq_dec : EqDecision pyfloat.
Proof. solve_decision. Defined.

Inductive pyval : Type :=
| VNone
| VBool (b : bool)
| VInt (z : Z)
| VFloat (f : pyfloat)
| VStr (s : pystr)
| VList (l : list pyval)
| VDict (d : list (pystr * pyval)).

(** [d.get(k)] on an ordered dict *)
Fixpoint assoc {V} (k : pystr) (d : list (pystr * V)) : option V :=
  match d with
  | [] => None
  | (k', v) :: d' => if decide (k = k') then Some v else assoc k d'
  end.
(** [d[k] = v]: an existing key keeps its position. *)
Fixpoint assoc_set {V} (k : pystr) (v : V) (d : list (pystr * V)) : list (pystr * V) :=
  match d with
  | [] => [(k, v)]
  | (k', v') :: d' => if decide (k = k') then (k, v) :: d' else (k', v') :: assoc_set k v d'
  end.
(** [dict(pairs)]: later pairs win. *)
Definition assoc_of_list {V} (l : list (pystr * V)) : list (pystr * V) :=
  fold_left (λ d kv, assoc_set kv.1 kv.2 d) l [].
(** [d.get(k)], with Python's default of [None] *)
Definition dict_get (d : list (pystr * pyval)) (k : pystr) : pyval :=
  match assoc k d with Some v => v | None => VNone end.
Definition has_key {V} (d : list (pystr * V)) (k : pystr) : bool :=
  match assoc k d with Some _ => true | None => false end.

(** [bool(v)] *)
Definition truthy (v : pyval) : bool :=
  match v with
  | VNone => false
  | VBool b => b
  | VInt z => negb (z =? 0)
  | VFloat (FFin z) => negb (z =? 0)
  | VFloat FNegZero => false
  | VFloat _ => true
  | VStr s => negb (bool_decide (s = []))
  | VList l => match l with [] => false | _ => true end
  | VDict d => match d with [] => false | _ => true end
  end.
(** [a or b] *)
Definition py_or (a b : pyval) : pyval := if truthy a then a else b.

Section text.
Context `{PyTables}.

Definition str_of_float (f : pyfloat) : pystr :=
  match f with
  | FNan => u "nan"
  | FInf true => u "-inf"
  | FInf false => u "inf"
  | FNegZero => u "-0.0"
  | FFin z => py_float_repr z
  end.

(** [repr(v)] *)
Fixpoint repr (v : pyval) : pystr :=
  match v with
  | VNone => u "None"
  | VBool true => u "True"
  | VBool false => u "False"
  | VInt z => str_of_Z z
  | VFloat f => str_of_float f
  | VStr s => repr_str s
  | VList l =>
      u "[" ++ join (u ", ") ((fix go l := match l with [] => [] | v :: l' => repr v :: go l' end) l)
        ++ u "]"
  | VDict d =>
      u "{" ++ join (u ", ")
        ((fix go d := match d with
                      | [] => []
                      | (k, v) :: d' => (repr_str k ++ u ": " ++ repr v) :: go d'
                      end) d) ++ u "}"
  end.
(** [str(v)] *)
Definition str_of (v : pyval) : pystr :=
  match v with VStr s => s | _ => repr v end.
(** [repr] of a list of strings *)
Definition repr_strs (l : list pystr) : pystr := repr (VList (map VStr l)).
End text.

(** ** Exceptions *)

Inductive exn : Type :=
(* core/orchestration/budget.py *)
| RunCancelled (reason : pystr)
| BudgetExceeded (reason : pystr)
| RunTimedOut (reason : pystr)
(* core/orchestration/presets.py *)
| WorkflowConfigError (msg : pystr)
(* core/llm *)
| KeyResolutionError (msg : pystr)
| UnknownModelError (model : pystr)
| LLMError (msg : pystr)
| RetryableLLMError (msg : pystr)
| RefusalError (category explanation : option pystr)
| ContextWindowExceeded (msg : pystr)
(* core/artifacts.py, core/tools *)
| UnsafeArtifactPath (msg : pystr)
| ToolError (msg : pystr)
| UnsafeUrl (msg : pystr)
(* core/crypto.py, core/security.py, core/billing.py *)
| CryptoError (msg : pystr)
| AuthError (msg : pystr)
| PasswordPolicyError (msg : pystr)
| InsufficientCredits (balance_cents required_cents : Z)
(* the language and the libraries the program handles errors of *)
| ValueError (msg : pystr)
| JSONDecodeError (msg : pystr)
| TypeError (msg : pystr)
| KeyError (msg : pystr)
| AttributeError (msg : pystr)
| OverflowError (msg : pystr)
| UnicodeEncodeError
| AssertionError
| TimeoutError
| CancelledError
| TimerCancelled (in_tool : bool)     (* the [CancelledError] of an [asyncio.wait_for] timer *)
| IntegrityError
| HTTPException (status : Z) (detail : pystr)
| ExternalError (name msg : pystr).   (* any other [Exception] of a library or service *)

(** [except RunAborted] *)
Definition is_run_aborted (e : exn) : bool :=
  match e with RunCancelled _ | BudgetExceeded _ | RunTimedOut _ => true | _ => false end.
(** [except ValueError] *)
Definition is_value_error (e : exn) : bool :=
  match e with
  | ValueError _ | JSONDecodeError _ | WorkflowConfigError _ | UnsafeArtifactPath _
  | PasswordPolicyError _ | UnicodeEncodeError => true
  | _ => false
  end.
(** [except LLMError] *)
Definition is_llm_error (e : exn) : bool :=
  match e with
  | LLMError _ | RetryableLLMError _ | RefusalError _ _ | ContextWindowExceeded _ => true
  | _ => false
  end.
(** [except ToolError] *)
Definition is_tool_error (e : exn) : bool :=
  match e with ToolError _ | UnsafeUrl _ => true | _ => false end.
(** [except Exception]: [asyncio.CancelledError] is a [BaseException]. *)
Definition is_exception (e : exn) : bool :=
  match e with CancelledError | TimerCancelled _ => false | _ => true end.

Section exn_text.
Context `{PyTables}.

Definition opt_str (o : option pystr) : pystr :=
  match o with Some s => s | None => u "None" end.

(** [str(exc)]; a [KeyError] prints the [repr] of its argument. *)
Definition exn_str (e : exn) : pystr :=
  match e with
  | RunCancelled m | BudgetExceeded m | RunTimedOut m | WorkflowConfigError m
  | KeyResolutionError m | LLMError m | RetryableLLMError m | ContextWindowExceeded m
  | UnsafeArtifactPath m | ToolError m | UnsafeUrl m | CryptoError m | AuthError m
  | PasswordPolicyError m | ValueError m | JSONDecodeError m | TypeError m
  | AttributeError m | OverflowError m => m
  | KeyError m => repr_str m
  | UnknownModelError model =>
      repr_str (u "model " ++ repr_str model
        ++ u " is not in the registry; register it before using it so cost accounting and capability routing stay correct")
  | RefusalError c x =>
      u "model refused the request (category=" ++ opt_str c ++ u "): " ++ opt_str x
  | InsufficientCredits b r =>
      u "organisation has " ++ str_of_Z b ++ u " credit cents but the run needs at least "
        ++ str_of_Z r
  | HTTPException s d => str_of_Z s ++ u ": " ++ d
  | UnicodeEncodeError =>
      u "'utf-8' codec can't encode characters: surrogates not allowed"
  | ExternalError _ msg => msg
  | AssertionError | TimeoutError | CancelledError | TimerCancelled _ | IntegrityError => []
  end.

(** [type(exc).__name__] *)
Definition exn_name (e : exn) : pystr :=
  match e with
  | RunCancelled _ => u "RunCancelled" | BudgetExceeded _ => u "BudgetExceeded"
  | RunTimedOut _ => u "RunTimedOut" | WorkflowConfigError _ => u "WorkflowConfigError"
  | KeyResolutionError _ => u "KeyResolutionError" | UnknownModelError _ => u "UnknownModelError"
  | LLMError _ => u "LLMError" | RetryableLLMError _ => u "RetryableLLMError"
  | RefusalError _ _ => u "RefusalError" | ContextWindowExceeded _ => u "ContextWindowExceeded"
  | UnsafeArtifactPath _ => u "UnsafeArtifactPath" | ToolError _ => u "ToolError"
  | UnsafeUrl _ => u "UnsafeUrl" | CryptoError _ => u "CryptoError" | AuthError _ => u "AuthError"
  | PasswordPolicyError _ => u "PasswordPolicyError"
  | InsufficientCredits _ _ => u "InsufficientCredits" | ValueError _ => u "ValueError"
  | JSONDecodeError _ => u "JSONDecodeError" | TypeError _ => u "TypeError"
  | KeyError _ => u "KeyError" | AttributeError _ => u "AttributeError"
  | OverflowError _ => u "OverflowError" | UnicodeEncodeError => u "UnicodeEncodeError"
  | AssertionError => u "AssertionError"
  | TimeoutError => u "TimeoutError" | CancelledError | TimerCancelled _ => u "CancelledError"
  | IntegrityError => u "IntegrityError" | HTTPException _ _ => u "HTTPException"
  | ExternalError name _ => name
  end.

(** [int(v)] *)
Definition py_int (v : pyval) : res exn Z :=
  match v with
  | VInt z => Ok z
  | VBool b => Ok (if b then 1 else 0)
  | VFloat FNan => Err (ValueError (u "cannot convert float NaN to integer"))
  | VFloat (FInf _) => Err (OverflowError (u "cannot convert float infinity to integer"))
  | VFloat FNegZero => Ok 0
  | VFloat (FFin z) => Ok (fl_trunc z)
  | VStr s =>
      match int_of_str s with
      | Some z => Ok z
      | None => Err (ValueError (u "invalid literal for int() with base 10: " ++ repr_str s))
      end
  | _ => Err (TypeError (u "int() argument must be a string, a bytes-like object or a real number"))
  end.
End exn_text.

(** ** Encoding *)

(** [len(s.encode())]: a lone surrogate cannot be encoded. *)
Definition is_surrogate (c : N) : bool := ((55296 <=? c) && (c <=? 57343))%N.
Definition encodable (s : pystr) : bool := forallb (λ c, negb (is_surrogate c)) s.
Definition encoded_len (s : pystr) : res exn Z :=
  if encodable s then Ok (utf8_len s) else Err UnicodeEncodeError.

(** ** Ordered dicts *)

Section assoc.
Context {V : Type}.
Implicit Types (k : pystr) (d : list (pystr * V)).

Lemma assoc_set_eq k v d : assoc k (assoc_set k v d) = Some v.
Proof.
  induction d as [|[k' v'] d IH]; simpl.
  - by rewrite decide_True.
  - destruct (decide (k = k')); simpl; [by rewrite decide_True|by rewrite decide_False].
Qed.

Lemma assoc_set_ne k k' v d : k ≠ k' → assoc k (assoc_set k' v d) = assoc k d.
Proof.
  intros Hk. induction d as [|[k1 v1] d IH]; simpl.
  - by rewrite decide_False.
  - destruct (decide (k' = k1)) as [->|H1]; simpl.
    + by rewrite !decide_False.
    + by rewrite IH.
Qed.

Lemma assoc_set_keys k v d :
  (assoc_set k v d).*1 = if decide (k ∈ d.*1) then d.*1 else d.*1 ++ [k].
Proof.
  induction d as [|[k' v'] d IH]; csimpl; [done|].
  destruct (decide (k = k')) as [<-|Hne]; csimpl.
  - rewrite decide_True; [done|]. apply elem_of_cons. by left.
  - rewrite IH. destruct (decide (k ∈ d.*1)) as [Hin|Hin].
    + rewrite decide_True; [done|]. apply elem_of_cons. by right.
    + rewrite decide_False; [done|]. by intros [|]%elem_of_cons.
Qed.

Lemma assoc_set_NoDup k v d : NoDup d.*1 → NoDup (assoc_set k v d).*1.
Proof.
  intros Hd. rewrite assoc_set_keys. case_decide; [done|].
  apply NoDup_app. split_and!; [done| |apply NoDup_singleton].
  intros x Hx ->%list_elem_of_singleton. done.
Qed.

Lemma assoc_Some_elem k v d : assoc k d = Some v → (k, v) ∈ d.
Proof.
  induction d as [|[k' v'] d IH]; csimpl; [done|].
  rewrite elem_of_cons. destruct (decide (k = k')); intros; simplify_eq; auto.
Qed.

Lemma elem_assoc_Some k v d : NoDup d.*1 → (k, v) ∈ d → assoc k d = Some v.
Proof.
  induction d as [|[k' v'] d IH]; csimpl; [by intros _ ?%elem_of_nil|].
  intros [Hn Hd]%NoDup_cons [Heq|Hin]%elem_of_cons.
  - simplify_eq. by rewrite decide_True.
  - rewrite decide_False; [auto|]. intros ->. apply Hn.
    apply list_elem_of_fmap. by exists (k', v).
Qed.

Lemma Forall_assoc_set_pair (P : pystr * V → Prop) k v d :
  Forall P d → P (k, v) → Forall P (assoc_set k v d).
Proof.
  intros Hd Hk. induction Hd as [|[k' v'] d Hkv Hd IH]; simpl; [by constructor|].
  destruct (decide (k = k')); by constructor.
Qed.

(** What holds of every pair given to [dict] holds of every item of the result. *)
Lemma Forall_assoc_of_list (P : pystr * V → Prop) l :
  Forall P l → Forall P (assoc_of_list l).
Proof.
  unfold assoc_of_list. intros Hl.
  assert (Hgen : ∀ d, Forall P d → Forall P (fold_left (λ d kv, assoc_set kv.1 kv.2 d) l d)).
  { induction Hl as [|[k v] l Hkv Hl IH]; intros d Hd; simpl; [done|].
    by apply IH, Forall_assoc_set_pair. }
  apply Hgen. constructor.
Qed.

Lemma has_key_elem k d : has_key d k = true ↔ k ∈ d.*1.
Proof.
  unfold has_key. induction d as [|[k' v'] d IH]; csimpl.
  - split; [done|]. by intros ?%elem_of_nil.
  - rewrite elem_of_cons. destruct (decide (k = k')) as [->|Hne]; [split; [by left|done]|].
    rewrite IH. split; [by right|]. by intros [|].
Qed.
End assoc.
