(* ===== verification/PyRegex.v ===== *)
(** * Backtracking regular expressions

    The part of Python's [re] the program uses.  A pattern is a syntax tree and
    [rmatch] is the backtracking matcher: alternatives and repetitions are tried
    in the order of the pattern (greedy or lazy), and the first way to match the
    whole pattern wins.  Captured groups are returned by number.  Repetition
    stops when an iteration consumes nothing, so the number of characters left
    bounds it and the matcher is total. *)

From S2P Require Import Prelude PyStr.

Inductive re : Type :=
| RSet (p : N → bool)              (* one character of a class *)
| REps
| RSeq (a b : re)
| RAlt (a b : re)
| RStar (greedy : bool) (a : re)   (* a* and a*? *)
| RGroup (i : nat) (a : re)
| RBol                             (* ^ with MULTILINE *)
| REol                             (* $ with MULTILINE *)
| RWordB.                          (* \b *)

(** A position in the subject: the characters before it (nearest first), those
    after it, and the groups captured so far (latest first). *)
Record rstate := RState { r_before : pystr; r_rest : pystr; r_caps : list (nat * pystr) }.

Definition is_word `{PyTables} (c : N) : bool :=
  ascii_alnum c || (c =? 95)%N || (negb (is_ascii c) && uc_word c).
Definition head_is (p : N → bool) (s : pystr) : bool :=
  match s with c :: _ => p c | [] => false end.
Definition is_newline (c : N) : bool := (c =? 10)%N.
Definition empty_or_newline (s : pystr) : bool :=
  match s with c :: _ => is_newline c | [] => true end.

(** [a*] and [a*?], given the matcher [m] of [a]: at most [n] iterations, each of
    which must consume a character. *)
Fixpoint star_loop {A} (m : (rstate → option A) → rstate → option A) (greedy : bool)
    (k : rstate → option A) (n : nat) (s : rstate) : option A :=
  match n with
  | O => k s
  | S n' =>
      let more := m (λ s',
        if (length (r_rest s') <? length (r_rest s))%nat
        then star_loop m greedy k n' s' else None) s in
      if greedy
      then match more with Some x => Some x | None => k s end
      else match k s with Some x => Some x | None => more end
  end.

Fixpoint rmatch `{PyTables} {A} (r : re) (k : rstate → option A) (s : rstate) : option A :=
  match r with
  | RSet p =>
      match r_rest s with
      | c :: rest => if p c then k (RState (c :: r_before s) rest (r_caps s)) else None
      | [] => None
      end
  | REps => k s
  | RSeq a b => rmatch a (rmatch b k) s
  | RAlt a b =>
      match rmatch a k s with
      | Some x => Some x
      | None => rmatch b k s
      end
  | RStar greedy a => star_loop (λ k' s', rmatch a k' s') greedy k (S (length (r_rest s))) s
  | RGroup i a =>
      rmatch a (λ s',
        k (RState (r_before s') (r_rest s')
             ((i, take (length (r_rest s) - length (r_rest s')) (r_rest s)) :: r_caps s'))) s
  | RBol => if empty_or_newline (r_before s) then k s else None
  | REol => if empty_or_newline (r_rest s) then k s else None
  | RWordB =>
      if xorb (head_is is_word (r_before s)) (head_is is_word (r_rest s)) then k s else None
  end.

Definition match_at `{PyTables} (r : re) (s : rstate) : option rstate :=
  rmatch r Some (RState (r_before s) (r_rest s) []).

Definition start_of (s : pystr) : rstate := RState [] s [].

(** [re.search]: the first position, from the left, where the pattern matches;
    [fuel] bounds the positions tried. *)
Fixpoint search_from `{PyTables} (fuel : nat) (r : re) (s : rstate) : option rstate :=
  match match_at r s with
  | Some m => Some m
  | None =>
      match fuel, r_rest s with
      | S fuel', c :: rest => search_from fuel' r (RState (c :: r_before s) rest [])
      | _, _ => None
      end
  end.
Definition search `{PyTables} (r : re) (s : pystr) : option rstate :=
  search_from (length s) r (start_of s).

(** [re.finditer] for a pattern that matches no empty string: the captures of
    the successive non-overlapping matches. *)
Fixpoint finditer_from `{PyTables} (fuel : nat) (r : re) (s : rstate)
    : list (list (nat * pystr)) :=
  match fuel with
  | O => []
  | S fuel' =>
      match match_at r s with
      | Some m =>
          if (length (r_rest m) <? length (r_rest s))%nat
          then r_caps m :: finditer_from fuel' r (RState (r_before m) (r_rest m) [])
          else match r_rest s with
               | c :: rest => r_caps m :: finditer_from fuel' r (RState (c :: r_before s) rest [])
               | [] => [r_caps m]
               end
      | None =>
          match r_rest s with
          | c :: rest => finditer_from fuel' r (RState (c :: r_before s) rest [])
          | [] => []
          end
      end
  end.
Definition finditer `{PyTables} (r : re) (s : pystr) : list (list (nat * pystr)) :=
  finditer_from (S (length s)) r (start_of s).

(** [re.sub] with a constant replacement, for a pattern that matches no empty string. *)
Fixpoint sub_from `{PyTables} (fuel : nat) (r : re) (by_ : pystr) (s : rstate) : pystr :=
  match fuel with
  | O => r_rest s
  | S fuel' =>
      match match_at r s with
      | Some m =>
          if (length (r_rest m) <? length (r_rest s))%nat
          then by_ ++ sub_from fuel' r by_ (RState (r_before m) (r_rest m) [])
          else match r_rest s with
               | c :: rest => by_ ++ c :: sub_from fuel' r by_ (RState (c :: r_before s) rest [])
               | [] => by_
               end
      | None =>
          match r_rest s with
          | c :: rest => c :: sub_from fuel' r by_ (RState (c :: r_before s) rest [])
          | [] => []
          end
      end
  end.
Definition sub `{PyTables} (r : re) (by_ s : pystr) : pystr :=
  sub_from (S (length s)) r by_ (start_of s).

(** [m.group(i)]: the last text the group captured. *)
Fixpoint group (i : nat) (caps : list (nat * pystr)) : option pystr :=
  match caps with
  | [] => None
  | (j, t) :: caps' => if (i =? j)%nat then Some t else group i caps'
  end.

(** ** Building patterns *)

Definition RChar (c : N) : re := RSet (N.eqb c).
Definition RAny : re := RSet (λ _, true).                       (* . with DOTALL *)
Definition ROneOf (cs : pystr) : re := RSet (λ c, mem_char cs c).
Definition RNotIn (cs : pystr) : re := RSet (λ c, negb (mem_char cs c)).
Definition RSpace : re := RSet is_space.                        (* \s *)
Fixpoint RLit (s : pystr) : re :=
  match s with [] => REps | c :: s' => RSeq (RChar c) (RLit s') end.
Definition RPlus (a : re) : re := RSeq a (RStar true a).        (* a+ *)
Definition ROpt (a : re) : re := RAlt a REps.                   (* a? *)
Fixpoint RRep (n : nat) (a : re) : re :=
  match n with O => REps | S n' => RSeq a (RRep n' a) end.
Definition RAtLeast (n : nat) (a : re) : re := RSeq (RRep n a) (RStar true a).  (* a{n,} *)
Definition RSeqs (l : list re) : re := foldr RSeq REps l.

(** ** What a match leaves of the subject *)

(** [s'] is [s] with some of the characters ahead consumed. *)
Definition consumed (s s' : rstate) : Prop :=
  ∃ w, r_rest s = w ++ r_rest s' ∧ r_before s' = reverse w ++ r_before s.

Lemma consumed_refl s : consumed s s.
Proof. by exists []. Qed.

Lemma consumed_trans s1 s2 s3 : consumed s1 s2 → consumed s2 s3 → consumed s1 s3.
Proof.
  intros (w & H1 & H2) (w' & H3 & H4). exists (w ++ w').
  split; [by rewrite H1, H3, (assoc_L (++))|].
  rewrite H4, H2, reverse_app. apply app_assoc.
Qed.

Lemma star_loop_consumed {A} (m : (rstate → option A) → rstate → option A) g k n s x :
  (∀ k s, m k s = Some x → ∃ s', consumed s s' ∧ k s' = Some x) →
  star_loop m g k n s = Some x → ∃ s', consumed s s' ∧ k s' = Some x.
Proof.
  intros Hm. revert s.
  assert (Hstop : ∀ s, k s = Some x → ∃ s', consumed s s' ∧ k s' = Some x).
  { intros s Hk. exists s. split; [apply consumed_refl|done]. }
  induction n as [|n IHn]; intros s; simpl; [by apply Hstop|].
  set (more := m _ s).
  assert (Hmore : more = Some x → ∃ s', consumed s s' ∧ k s' = Some x).
  { subst more. intros (s1 & H1 & Hif)%Hm.
    destruct (_ <? _)%nat; [|done]. apply IHn in Hif as (s2 & H2 & Hk).
    exists s2. split; [by eapply consumed_trans|done]. }
  clearbody more. destruct g.
  - destruct more; [intros [= ->]|]; auto.
  - destruct (k s) eqn:Hk; [intros [= ->]|]; auto.
Qed.

(** Every success of the matcher is a success of its continuation after it has
    consumed a prefix of what was ahead. *)
Lemma rmatch_consumed `{PyTables} {A} (r : re) (k : rstate → option A) s x :
  rmatch r k s = Some x → ∃ s', consumed s s' ∧ k s' = Some x.
Proof.
  revert k s. induction r as [p| |a IHa b IHb|a IHa b IHb|g a IHa|i a IHa| | |];
    intros k s; cbn [rmatch].
  - destruct s as [bf [|c rest] caps]; simpl; [done|].
    destruct (p c); [|done]. intros Hk. eexists; split; [|exact Hk]. by exists [c].
  - intros. exists s. split; [apply consumed_refl|done].
  - intros (s1 & H1 & (s2 & H2 & Hk)%IHb)%IHa. exists s2. split; [by eapply consumed_trans|done].
  - destruct (rmatch a k s) eqn:Ha; [intros [= <-]; by apply IHa in Ha|]. apply IHb.
  - by apply star_loop_consumed.
  - intros (s1 & H1 & Hk)%IHa. eexists; split; [|exact Hk]. done.
  - case_match; [|done]. intros. exists s. split; [apply consumed_refl|done].
  - case_match; [|done]. intros. exists s. split; [apply consumed_refl|done].
  - case_match; [|done]. intros. exists s. split; [apply consumed_refl|done].
Qed.
