(* ===== verification/Redaction.v ===== *)
(** * Masking tokens in text

    The log and the event stream mask credentials with a pattern of one form: a
    word boundary, then one of several prefixes ([sk-], [Bearer ] ...) followed by
    at least so many characters of a class.  For every such pattern [sub] is a
    scan of the text ([sub_scan]), and what it leaves matches the pattern
    nowhere ([masked_clean]): masking one token never uncovers another. *)

From S2P Require Import Prelude PyStr PyFloat PyVal PyRegex.

Record shape := mkShape {
  sh_prefix : pystr;
  sh_gap : bool;                 (* [\s+] after the prefix *)
  sh_min : nat;
  sh_char : N → bool }.

Definition shape_re (sh : shape) : re :=
  RSeq (RLit (sh_prefix sh))
    (if sh_gap sh then RSeq (RPlus RSpace) (RAtLeast (sh_min sh) (RSet (sh_char sh)))
     else RAtLeast (sh_min sh) (RSet (sh_char sh))).

Fixpoint RAlts (l : list re) : re :=
  match l with
  | [] => RSet (λ _, false)
  | [a] => a
  | a :: l' => RAlt a (RAlts l')
  end.
Definition token_re (shapes : list shape) : re := RSeq RWordB (RGroup 1 (RAlts (map shape_re shapes))).

(** ** Matching a token *)

(** How many characters ahead are of a class *)
Fixpoint run_of (p : N → bool) (s : pystr) : nat :=
  match s with c :: s' => if p c then S (run_of p s') else O | [] => O end.

Definition gap_of (sh : shape) (s : pystr) : nat := if sh_gap sh then run_of is_space s else O.

(** The length of the token of this shape the text begins with *)
Definition shape_at (sh : shape) (s : pystr) : option nat :=
  if startswith (sh_prefix sh) s then
    let s1 := drop (length (sh_prefix sh)) s in
    let g := gap_of sh s1 in
    let k := run_of (sh_char sh) (drop g s1) in
    if (negb (sh_gap sh) || (1 <=? g)%nat) && (sh_min sh <=? k)%nat
    then Some (length (sh_prefix sh) + (g + k))%nat else None
  else None.

Fixpoint first_shape (shapes : list shape) (s : pystr) : option nat :=
  match shapes with
  | [] => None
  | sh :: rest => match shape_at sh s with Some n => Some n | None => first_shape rest s end
  end.

Definition advance (n : nat) (s : rstate) : rstate :=
  RState (reverse (take n (r_rest s)) ++ r_before s) (drop n (r_rest s)) (r_caps s).

Lemma advance_0 s : advance 0 s = s.
Proof. by destruct s. Qed.
Lemma advance_S n c bf rest caps : advance (S n) (RState bf (c :: rest) caps) = advance n (RState (c :: bf) rest caps).
Proof. unfold advance. simpl. by rewrite reverse_cons, <-app_assoc. Qed.
Lemma advance_add m n s : advance n (advance m s) = advance (m + n) s.
Proof.
  unfold advance. simpl. rewrite drop_drop. f_equal.
  rewrite (assoc_L (++)), <-reverse_app, take_take_drop. done.
Qed.

(** A continuation that stops nowhere *)
Definition total {A} (k : rstate → option A) : Prop := ∀ s, k s ≠ None.

Lemma run_of_length p s : (run_of p s ≤ length s)%nat.
Proof. induction s as [|c s IH]; simpl; [lia|]. destruct (p c); simpl; lia. Qed.

Lemma run_of_drop p n s : (n ≤ run_of p s)%nat → run_of p (drop n s) = (run_of p s - n)%nat.
Proof.
  revert s. induction n as [|n IH]; intros s Hn; [rewrite drop_0; lia|].
  destruct s as [|c s]; simpl in *; [lia|]. destruct (p c); [|lia]. rewrite IH by lia. done.
Qed.

Section matching.
Context `{PyTables}.
Context {A : Type}.
Implicit Types (k : rstate → option A) (s : rstate).

Lemma match_lit w k s :
  rmatch (RLit w) k s = if startswith w (r_rest s) then k (advance (length w) s) else None.
Proof.
  revert s. induction w as [|c w IH]; intros s; simpl.
  { rewrite advance_0. by destruct (r_rest s). }
  destruct s as [bf [|x rest] caps]; simpl; [done|].
  rewrite IH. simpl. unfold startswith. simpl.
  destruct (N.eqb_spec c x) as [->|Hne].
  - destruct (decide (take (length w) rest = w)) as [Ht|Ht].
    + rewrite !bool_decide_eq_true_2 by congruence. by rewrite advance_S.
    + rewrite !bool_decide_eq_false_2; [done| |done]. congruence.
  - rewrite bool_decide_eq_false_2; [done|]. congruence.
Qed.

(** [p*] goes on as far as it can, if it matters where it stops. *)
Lemma match_star p k s :
  (∀ s', head_is p (r_rest s') = true → k s' = None) ∨ k (advance (run_of p (r_rest s)) s) ≠ None →
  rmatch (RStar true (RSet p)) k s = k (advance (run_of p (r_rest s)) s).
Proof.
  cbn [rmatch]. generalize (le_n (S (length (r_rest s)))). generalize (S (length (r_rest s))) at 2 3.
  intros n Hn. revert s Hn. induction n as [|n IH]; intros s Hn Hk; [lia|]. simpl.
  destruct s as [bf [|c rest] caps]; simpl in *; [by destruct (k _)|].
  destruct (p c) eqn:Hp; [|by rewrite advance_0].
  destruct (Nat.ltb_spec (length rest) (S (length rest))) as [_|]; [|lia].
  rewrite advance_S in *. rewrite IH; simpl; [|lia|done].
  destruct Hk as [Hk|Hk]; [|by destruct (k (advance _ _))].
  destruct (k (advance _ _)); [done|]. apply Hk. simpl. done.
Qed.

Lemma match_rep n p k s :
  rmatch (RRep n (RSet p)) k s = if (n <=? run_of p (r_rest s))%nat then k (advance n s) else None.
Proof.
  revert s. induction n as [|n IH]; intros s; simpl; [by rewrite advance_0|].
  destruct s as [bf [|c rest] caps]; simpl; [done|]. destruct (p c); [|done].
  rewrite IH. simpl. by rewrite advance_S.
Qed.

Lemma match_at_least n p k s : total k →
  rmatch (RAtLeast n (RSet p)) k s =
    if (n <=? run_of p (r_rest s))%nat then k (advance (run_of p (r_rest s)) s) else None.
Proof.
  intros Hk. unfold RAtLeast. cbn [rmatch]. rewrite match_rep.
  destruct (Nat.leb_spec n (run_of p (r_rest s))) as [Hn|]; [|done].
  change (star_loop _ true k _ _) with (rmatch (RStar true (RSet p)) k (advance n s)).
  rewrite match_star by (by right). simpl. rewrite run_of_drop, advance_add by done.
  do 2 f_equal. lia.
Qed.

End matching.

Lemma run_of_all p s : Forall (λ c, p c = true) (take (run_of p s) s).
Proof. induction s as [|c s IH]; simpl; [constructor|]. destruct (p c) eqn:Hp; constructor; done. Qed.
Lemma run_of_stop p s : head_is p (drop (run_of p s) s) = false.
Proof. induction s as [|c s IH]; simpl; [done|]. destruct (p c) eqn:Hp; simpl; done. Qed.
Lemma run_of_app p w t : Forall (λ c, p c = true) w → run_of p (w ++ t) = (length w + run_of p t)%nat.
Proof. induction 1 as [|c w Hc Hw IH]; simpl; [done|]. by rewrite Hc, IH. Qed.
Lemma run_of_none p s : head_is p s = false → run_of p s = O.
Proof. destruct s as [|c s]; simpl; [done|]. by intros ->. Qed.

(** ** Shapes whose parts do not run into each other *)

Record wf_shape (sh : shape) : Prop := {
  ws_prefix : sh_prefix sh ≠ [];
  ws_min : (1 ≤ sh_min sh)%nat;
  ws_gap c : sh_gap sh = true → is_space c = true → sh_char sh c = false }.

(** The parts of a token *)
Lemma shape_at_parts sh s n :
  shape_at sh s = Some n →
  ∃ gap body rest, s = sh_prefix sh ++ gap ++ body ++ rest ∧
    n = length (sh_prefix sh ++ gap ++ body) ∧
    Forall (λ c, is_space c = true) gap ∧ (sh_gap sh = true → gap ≠ []) ∧ (sh_gap sh = false → gap = []) ∧
    Forall (λ c, sh_char sh c = true) body ∧ (sh_min sh ≤ length body)%nat ∧ head_is (sh_char sh) rest = false.
Proof.
  unfold shape_at. destruct (startswith _ _) eqn:Hs; [|done]. apply startswith_spec in Hs.
  set (s1 := drop (length (sh_prefix sh)) s) in *. set (g := gap_of sh s1). set (s2 := drop g s1).
  destruct (_ && _) eqn:Hc; [|done]. intros [= <-]. apply andb_true_iff in Hc as [Hg Hk].
  apply Nat.leb_le in Hk.
  assert (Hgl : (g ≤ length s1)%nat) by (unfold g, gap_of; destruct (sh_gap sh); [apply run_of_length|lia]).
  pose proof (run_of_length (sh_char sh) s2) as Hkl.
  exists (take g s1), (take (run_of (sh_char sh) s2) s2), (drop (run_of (sh_char sh) s2) s2).
  split_and!.
  - rewrite take_drop. unfold s2. by rewrite take_drop.
  - rewrite !length_app, !length_take. lia.
  - unfold g, gap_of. destruct (sh_gap sh); [apply run_of_all|constructor].
  - intros Hgap. rewrite Hgap in Hg. apply Nat.leb_le in Hg.
    intros Hnil%(f_equal length). rewrite length_take in Hnil. simpl in Hnil. lia.
  - intros Hgap. unfold g, gap_of. by rewrite Hgap.
  - apply run_of_all.
  - rewrite length_take. lia.
  - apply run_of_stop.
Qed.

(** Such parts, whatever follows, make a token. *)
Lemma shape_at_intro sh gap body rest :
  wf_shape sh → Forall (λ c, is_space c = true) gap →
  (sh_gap sh = true → gap ≠ []) → (sh_gap sh = false → gap = []) →
  Forall (λ c, sh_char sh c = true) body → (sh_min sh ≤ length body)%nat →
  shape_at sh (sh_prefix sh ++ gap ++ body ++ rest) ≠ None.
Proof.
  intros [Hp Hm Hd] Hgap Hg1 Hg0 Hbody Hlen. unfold shape_at.
  assert (startswith (sh_prefix sh) (sh_prefix sh ++ gap ++ body ++ rest) = true) as ->.
  { apply startswith_spec. by rewrite drop_app_length. }
  rewrite drop_app_length.
  assert (gap_of sh (gap ++ body ++ rest) = length gap) as Hrun.
  { unfold gap_of. destruct (sh_gap sh) eqn:Hsh; [|by rewrite Hg0].
    rewrite run_of_app by done. rewrite run_of_none; [lia|].
    destruct Hbody as [|c body Hc Hbody]; simpl in *; [lia|].
    destruct (is_space c) eqn:Hs; [|done]. specialize (Hd c eq_refl Hs). congruence. }
  rewrite Hrun, drop_app_length, run_of_app by done.
  assert ((sh_min sh <=? length body + run_of (sh_char sh) rest)%nat = true) as -> by (apply Nat.leb_le; lia).
  assert (negb (sh_gap sh) || (1 <=? length gap)%nat = true) as ->; [|done].
  destruct (sh_gap sh); [|done]. destruct gap; [by destruct Hg1|done].
Qed.

(** Only the token's own characters matter. *)
Lemma shape_at_prefix sh s s' n :
  wf_shape sh → shape_at sh s = Some n → take n s `prefix_of` s' → shape_at sh s' ≠ None.
Proof.
  intros Hwf (gap & body & rest & -> & -> & H1 & H2 & H3 & H4 & H5 & _)%shape_at_parts [t ->].
  rewrite !(assoc_L (++)), take_app_length, <-!(assoc_L (++)). by apply shape_at_intro.
Qed.

(** ** The matcher on patterns of tokens *)

Section tokens.
Context `{PyTables}.

Lemma match_shape {A} sh (k : rstate → option A) s :
  wf_shape sh → total k →
  rmatch (shape_re sh) k s = match shape_at sh (r_rest s) with Some n => k (advance n s) | None => None end.
Proof.
  intros [Hp Hm Hd] Hk. unfold shape_re. cbn [rmatch]. rewrite match_lit. unfold shape_at.
  destruct (startswith _ _); [|done]. unfold gap_of. destruct (sh_gap sh) eqn:Hgap.
  - cbn [rmatch]. set (X := rmatch (RAtLeast (sh_min sh) (RSet (sh_char sh))) k).
    set (s1 := advance (length (sh_prefix sh)) s). unfold RPlus, RSpace. cbn [rmatch].
    change (drop (length (sh_prefix sh)) (r_rest s)) with (r_rest s1).
    destruct s1 as [bf [|c rest] caps] eqn:Hs1; cbn [r_rest r_before r_caps run_of]; [done|].
    destruct (is_space c) eqn:Hc; [|done].
    change (star_loop _ true X _ _) with (rmatch (RStar true (RSet is_space)) X (RState (c :: bf) rest caps)).
    rewrite match_star.
    + subst X. rewrite match_at_least by done. cbn [r_rest negb orb andb Nat.leb].
      change (drop (S (run_of is_space rest)) (c :: rest)) with (drop (run_of is_space rest) rest).
      destruct (_ <=? _)%nat; [|done]. rewrite advance_add, <-advance_S, <-Hs1.
      unfold s1. rewrite advance_add. f_equal.
    + left. intros s' Hs'. subst X. rewrite match_at_least by done.
      destruct s' as [bf' [|c' rest'] caps']; simpl in *; [done|]. rewrite (Hd c') by done.
      simpl. destruct (sh_min sh); [lia|done].
  - rewrite match_at_least by done. simpl. rewrite drop_0.
    destruct (_ <=? _)%nat; [|done]. by rewrite advance_add.
Qed.

Lemma match_shapes {A} shapes (k : rstate → option A) s :
  Forall wf_shape shapes → total k →
  rmatch (RAlts (map shape_re shapes)) k s =
    match first_shape shapes (r_rest s) with Some n => k (advance n s) | None => None end.
Proof.
  intros Hwf Hk. induction Hwf as [|sh shapes Hsh Hwf IH]; cbn [map RAlts first_shape].
  { cbn [rmatch]. by destruct (r_rest s). }
  destruct shapes as [|sh' shapes]; cbn [map first_shape].
  - rewrite match_shape by done. by destruct (shape_at _ _).
  - match goal with |- _ = ?r =>
      change (rmatch (RAlt (shape_re sh) (RAlts (map shape_re (sh' :: shapes)))) k s = r) end.
    cbn [rmatch]. rewrite match_shape, IH by done. cbn [first_shape].
    destruct (shape_at sh (r_rest s)) as [n|]; [|done].
    specialize (Hk (advance n s)). by destruct (k _).
Qed.

(** The length of the token at a position, given the character before it *)
Definition token_at (shapes : list shape) (before rest : pystr) : option nat :=
  if xorb (head_is is_word before) (head_is is_word rest) then first_shape shapes rest else None.

Lemma match_token shapes s :
  Forall wf_shape shapes →
  match_at (token_re shapes) s =
    match token_at shapes (r_before s) (r_rest s) with
    | Some n => Some (RState (reverse (take n (r_rest s)) ++ r_before s) (drop n (r_rest s))
                        [(1%nat, take (length (r_rest s) - length (drop n (r_rest s))) (r_rest s))])
    | None => None
    end.
Proof.
  intros Hwf. unfold match_at, token_re, token_at. cbn [rmatch r_before r_rest r_caps].
  destruct (xorb _ _); [|done]. by rewrite match_shapes.
Qed.

(** [sub] with such a pattern: one pass over the text *)
Fixpoint sub_scan (shapes : list shape) (by_ : pystr) (fuel : nat) (before s : pystr) : pystr :=
  match fuel with
  | O => s
  | S fuel' =>
      match token_at shapes before s with
      | Some n => by_ ++ sub_scan shapes by_ fuel' (reverse (take n s) ++ before) (drop n s)
      | None => match s with [] => [] | c :: s' => c :: sub_scan shapes by_ fuel' (c :: before) s' end
      end
  end.

Lemma first_shape_Some shapes s n :
  first_shape shapes s = Some n → ∃ sh, sh ∈ shapes ∧ shape_at sh s = Some n.
Proof.
  induction shapes as [|sh shapes IH]; simpl; [done|]. destruct (shape_at sh s) eqn:Hs.
  - intros [= ->]. exists sh. split; [by left|done].
  - intros (sh' & Hin & Hs')%IH. exists sh'. split; [by right|done].
Qed.
Lemma first_shape_None shapes s sh : first_shape shapes s = None → sh ∈ shapes → shape_at sh s = None.
Proof.
  induction shapes as [|sh' shapes IH]; simpl; [intros _ Hn; by apply elem_of_nil in Hn|].
  destruct (shape_at sh' s) eqn:Hs; [done|]. intros Hf [->|Hin]%elem_of_cons; auto.
Qed.

Lemma first_shape_length shapes s n :
  Forall wf_shape shapes → first_shape shapes s = Some n → (0 < n ≤ length s)%nat.
Proof.
  intros Hwf (sh & Hin & Hs)%first_shape_Some. rewrite Forall_forall in Hwf. destruct (Hwf sh Hin) as [Hp _ _].
  apply shape_at_parts in Hs as (gap & body & rest & -> & -> & _). rewrite !length_app.
  destruct (sh_prefix sh); [done|]. simpl. lia.
Qed.

Lemma token_at_length shapes b s n :
  Forall wf_shape shapes → token_at shapes b s = Some n → (0 < n ≤ length s)%nat.
Proof. unfold token_at. destruct (xorb _ _); [|done]. apply first_shape_length. Qed.

Lemma sub_from_scan shapes by_ fuel s :
  Forall wf_shape shapes →
  sub_from fuel (token_re shapes) by_ s = sub_scan shapes by_ fuel (r_before s) (r_rest s).
Proof.
  intros Hwf. revert s. induction fuel as [|fuel IH]; intros s; simpl; [done|].
  rewrite match_token by done. destruct (token_at _ _ _) as [n|] eqn:Ht.
  - apply token_at_length in Ht; [|done]. simpl.
    destruct (Nat.ltb_spec (length (drop n (r_rest s))) (length (r_rest s))) as [_|Hlt].
    + by rewrite IH.
    + rewrite length_drop in Hlt. lia.
  - destruct (r_rest s) as [|c rest]; [done|]. by rewrite IH.
Qed.
End tokens.

(** ** What the mask leaves *)

Definition starter (shapes : list shape) (c : N) : bool :=
  existsb (λ sh, head_is (N.eqb c) (sh_prefix sh)) shapes.

(** The prefixes, the classes and the mask keep out of each other's way: a run
    of a class does not stop before the first character of a prefix, no token
    holds the first character of the mask, no prefix begins inside the mask. *)
Record wf_tokens (shapes : list shape) (mark : N) (mask : pystr) : Prop := {
  wt_shapes : Forall wf_shape shapes;
  wt_start c sh : starter shapes c = true → sh ∈ shapes → sh_char sh c = true;
  wt_mark sh : sh ∈ shapes → (mark ∉ sh_prefix sh) ∧ is_space mark = false ∧ sh_char sh mark = false;
  wt_mask : Forall (λ c, starter shapes c = false) (mark :: mask) }.

Section masking.
Context `{PyTables}.
Context {shapes : list shape} {mark : N} {mask : pystr} (Hwf : wf_tokens shapes mark mask).
Abbreviation by_ := (mark :: mask).

(** No token anywhere in the text *)
Fixpoint clean (before s : pystr) : Prop :=
  token_at shapes before s = None ∧ match s with [] => True | c :: s' => clean (c :: before) s' end.

Lemma starter_of sh c s : sh ∈ shapes → sh_prefix sh = c :: s → starter shapes c = true.
Proof.
  intros Hin Hp. unfold starter. apply existsb_exists. exists sh.
  split; [by apply list_elem_of_In|]. rewrite Hp. simpl. apply N.eqb_refl.
Qed.

Lemma token_at_starter b s : head_is (starter shapes) s = false → token_at shapes b s = None.
Proof.
  intros Hs. destruct (token_at shapes b s) as [n|] eqn:Ht; [|done]. exfalso.
  unfold token_at in Ht. destruct (xorb _ _); [|done].
  apply first_shape_Some in Ht as (sh & Hin & Hsh).
  apply shape_at_parts in Hsh as (gap & body & rest & -> & _).
  destruct (sh_prefix sh) as [|c p] eqn:Hp.
  - pose proof (wt_shapes _ _ _ Hwf) as Hf. rewrite Forall_forall in Hf. by destruct (Hf sh Hin).
  - simpl in Hs. rewrite (starter_of sh c p) in Hs; done.
Qed.

Lemma token_at_boundary b b' s :
  (head_is is_word b = head_is is_word b') → token_at shapes b s = token_at shapes b' s.
Proof. unfold token_at. by intros ->. Qed.

(** What follows a token does not begin one. *)
Lemma token_at_stop b s n : token_at shapes b s = Some n → head_is (starter shapes) (drop n s) = false.
Proof.
  unfold token_at. destruct (xorb _ _); [|done].
  intros (sh & Hin & Hsh)%first_shape_Some.
  apply shape_at_parts in Hsh as (gap & body & rest & -> & -> & _ & _ & _ & _ & _ & Hstop).
  rewrite !(assoc_L (++)), drop_app_length' by (by rewrite !length_app; lia).
  destruct rest as [|c rest]; [done|]. simpl in *. destruct (starter shapes c) eqn:Hc; [|done].
  apply (wt_start _ _ _ Hwf c sh) in Hc; [congruence|done].
Qed.

(** The mark is in no token, and a token depends on its own characters only. *)
Lemma token_at_no_mark b s n : token_at shapes b s = Some n → mark ∉ take n s.
Proof.
  unfold token_at. destruct (xorb _ _); [|done].
  intros (sh & Hin & Hsh)%first_shape_Some.
  destruct (wt_mark _ _ _ Hwf sh Hin) as (Hm1 & Hm2 & Hm3).
  apply shape_at_parts in Hsh as (gap & body & rest & -> & -> & Hgap & _ & _ & Hbody & _).
  rewrite !(assoc_L (++)), take_app_length' by (by rewrite !length_app; lia).
  rewrite !elem_of_app. rewrite Forall_forall in Hgap, Hbody. intros [[Hi|Hi]|Hi]; [done| |].
  - apply Hgap in Hi. congruence.
  - apply Hbody in Hi. congruence.
Qed.

Lemma token_at_extends b s s' n :
  token_at shapes b s = Some n → take n s `prefix_of` s' → token_at shapes b s' ≠ None.
Proof.
  intros Ht Hpre. pose proof (token_at_length shapes b s n (wt_shapes _ _ _ Hwf) Ht) as Hn.
  unfold token_at in *. assert (head_is is_word s' = head_is is_word s) as ->.
  { destruct s as [|c s]; simpl in Hn; [lia|]. destruct n as [|n]; [lia|]. destruct Hpre as [t ->]. done. }
  destruct (xorb _ _); [|done]. apply first_shape_Some in Ht as (sh & Hin & Hsh).
  pose proof (wt_shapes _ _ _ Hwf) as Hf. rewrite Forall_forall in Hf.
  intros Hnone. eapply (shape_at_prefix sh s s'); [by apply Hf|done|done|]. by eapply first_shape_None.
Qed.

(** Up to the first mask the result is the text. *)
Lemma sub_scan_prefix fuel b s w :
  w `prefix_of` sub_scan shapes by_ fuel b s → mark ∉ w → w `prefix_of` s.
Proof.
  revert b s w. induction fuel as [|fuel IH]; intros b s w Hw Hm; simpl in Hw; [done|].
  destruct (token_at shapes b s) as [n|].
  - destruct w as [|c w]; [apply prefix_nil|]. apply prefix_cons_inv_1 in Hw as ->.
    destruct Hm. by left.
  - destruct s as [|c s]; [done|]. destruct w as [|x w]; [apply prefix_nil|].
    pose proof (prefix_cons_inv_1 _ _ _ _ Hw) as ->. apply prefix_cons_inv_2 in Hw.
    apply prefix_cons. eapply IH; [done|]. intros Hin. apply Hm. by right.
Qed.

Lemma clean_mask b s : (∀ b', clean b' s) → clean b (by_ ++ s).
Proof.
  intros Hs. pose proof (wt_mask _ _ _ Hwf) as Hmask. revert b.
  induction Hmask as [|c l Hc Hl IH]; intros b; [apply Hs|]. split; [|apply IH].
  apply token_at_starter. exact Hc.
Qed.

(** The character before a position matters only where a token could begin. *)
Lemma sub_scan_clean fuel b b' s :
  (length s < fuel)%nat →
  head_is (starter shapes) s = false ∨ head_is is_word b = head_is is_word b' →
  clean b' (sub_scan shapes by_ fuel b s).
Proof.
  revert b b' s. induction fuel as [|fuel IH]; intros b b' s Hlen Hb; [lia|]. cbn [sub_scan].
  destruct (token_at shapes b s) as [n|] eqn:Ht.
  - pose proof (token_at_length shapes b s n (wt_shapes _ _ _ Hwf) Ht) as Hn.
    apply clean_mask. intros b''. apply IH; [rewrite length_drop; lia|].
    left. by eapply token_at_stop.
  - destruct s as [|c s]; [split; [by apply token_at_starter|done]|]. simpl in Hlen.
    split; [|apply IH; [lia|by right]].
    set (out := sub_scan shapes by_ fuel (c :: b) s).
    destruct (token_at shapes b' (c :: out)) as [n|] eqn:Hout; [exfalso|done].
    assert (head_is (starter shapes) (c :: s) = true) as Hstart.
    { destruct (head_is _ (c :: s)) eqn:Hh; [done|].
      rewrite token_at_starter in Hout; done. }
    destruct Hb as [Hb|Hb]; [congruence|].
    rewrite (token_at_boundary b' b) in Hout by done.
    apply (token_at_extends b _ (c :: s) n Hout); [|done].
    pose proof (token_at_no_mark _ _ _ Hout) as Hm.
    destruct n as [|n]; [apply prefix_nil|]. simpl in *. apply prefix_cons.
    apply (sub_scan_prefix fuel (c :: b)); [|intros Hin; apply Hm; by right].
    exists (drop n out). by rewrite take_drop.
Qed.

Lemma clean_no_match fuel b s caps :
  clean b s → search_from fuel (token_re shapes) (RState b s caps) = None.
Proof.
  revert b s caps. induction fuel as [|fuel IH]; intros b s caps Hc;
    assert (token_at shapes b s = None) as Ht by (destruct s; apply Hc); cbn [search_from];
    rewrite match_token by apply (wt_shapes _ _ _ Hwf); cbn [r_before r_rest]; rewrite Ht; [done|].
  destruct s; [done|]. by apply IH, Hc.
Qed.

(** masking is complete: in what [re.sub] leaves of a text, [re.search] finds no
    token. *)
Theorem masked_clean s : search (token_re shapes) (sub (token_re shapes) by_ s) = None.
Proof.
  unfold search, sub. apply clean_no_match.
  rewrite sub_from_scan by apply (wt_shapes _ _ _ Hwf). apply sub_scan_clean; [simpl; lia|by right].
Qed.

Lemma sub_scan_no_token fuel b s : clean b s → sub_scan shapes by_ fuel b s = s.
Proof.
  revert b s. induction fuel as [|fuel IH]; intros b [|c s] Hc; cbn [sub_scan]; try done.
  - destruct Hc as [-> _]. done.
  - destruct Hc as [-> Hc]. f_equal. by apply IH.
Qed.

(** ... so masking a second time changes nothing. *)
Theorem masked_idempotent s :
  sub (token_re shapes) by_ (sub (token_re shapes) by_ s) = sub (token_re shapes) by_ s.
Proof.
  set (t := sub (token_re shapes) by_ s).
  assert (clean [] t) as Hc.
  { unfold t, sub. rewrite sub_from_scan by apply (wt_shapes _ _ _ Hwf).
    apply sub_scan_clean; [simpl; lia|by right]. }
  unfold sub. rewrite sub_from_scan by apply (wt_shapes _ _ _ Hwf). by apply sub_scan_no_token.
Qed.

Lemma clean_app b a s : clean b (a ++ s) → clean (reverse a ++ b) s.
Proof.
  revert b. induction a as [|c a IH]; intros b Hc; [done|].
  rewrite reverse_cons, <-app_assoc. apply IH, Hc.
Qed.

(** Spelled out: at the start of a word no prefix, with its gap, is followed by as many
    characters of its class as make a token. *)
Theorem masked_spelled_out s a sh gap body rest :
  sub (token_re shapes) by_ s = a ++ sh_prefix sh ++ gap ++ body ++ rest → sh ∈ shapes →
  Forall (λ c, is_space c = true) gap → (sh_gap sh = true → gap ≠ []) → (sh_gap sh = false → gap = []) →
  head_is is_word (reverse a) = false → head_is is_word (sh_prefix sh) = true →
  Forall (λ c, sh_char sh c = true) body → (length body < sh_min sh)%nat.
Proof.
  intros Hs Hin Hspace Hgap Hgap0 Hb Hp Hbody.
  assert (clean [] (a ++ sh_prefix sh ++ gap ++ body ++ rest)) as Hc.
  { rewrite <-Hs. unfold sub. rewrite sub_from_scan by apply (wt_shapes _ _ _ Hwf).
    apply sub_scan_clean; [simpl; lia|by right]. }
  apply clean_app in Hc. rewrite app_nil_r in Hc.
  assert (token_at shapes (reverse a) (sh_prefix sh ++ gap ++ body ++ rest) = None) as Ht
    by (destruct (sh_prefix sh ++ gap ++ body ++ rest); apply Hc).
  destruct (Nat.le_gt_cases (sh_min sh) (length body)) as [Hlen|]; [exfalso|done].
  unfold token_at in Ht. rewrite Hb in Ht.
  assert (head_is is_word (sh_prefix sh ++ gap ++ body ++ rest) = true) as Hw by (by destruct (sh_prefix sh)).
  rewrite Hw in Ht. apply (first_shape_None _ _ sh) in Ht; [|done].
  pose proof (wt_shapes _ _ _ Hwf) as Hf. rewrite Forall_forall in Hf.
  exact (shape_at_intro sh gap body rest (Hf sh Hin) Hspace Hgap Hgap0 Hbody Hlen Ht).
Qed.
End masking.
