(* ===== verification/PyJson.v ===== *)
(** * [json.loads]

    The standard library's decoder on a [str]: the grammar it accepts, strict
    strings, surrogate pairs, the three non-finite literals, and the limit on
    decimal digits of an [int].  The text of a [JSONDecodeError] is not modelled.
    The decoder recurses on the text; [fuel] is its length, and
    [loads_total] shows it is enough. *)

From S2P Require Import Prelude PyStr PyFloat PyVal.

Definition bad_json : exn := JSONDecodeError (u "invalid JSON").
(** Running out of fuel; [loads] never returns it. *)
Definition out_of_fuel : exn := AssertionError.

Definition json_space (c : N) : bool := ((c =? 32) || (c =? 9) || (c =? 10) || (c =? 13))%N.
Definition skip_ws (s : pystr) : pystr := drop_while json_space s.

(** The text after the character [c], when it comes next. *)
Definition expect (c : N) (s : pystr) : option pystr :=
  match s with
  | x :: r => if (x =? c)%N then Some r else None
  | [] => None
  end.

(** ** Strings *)

Definition hex_value (c : N) : option N :=
  if ascii_digit c then Some (c - 48)%N
  else if ((65 <=? c) && (c <=? 70))%N then Some (c - 55)%N
  else if ((97 <=? c) && (c <=? 102))%N then Some (c - 87)%N
  else None.

Definition hex4 (s : pystr) : option (N * pystr) :=
  match s with
  | a :: b :: c :: d :: rest =>
      match hex_value a, hex_value b, hex_value c, hex_value d with
      | Some a, Some b, Some c, Some d => Some ((((a * 16 + b) * 16 + c) * 16 + d)%N, rest)
      | _, _, _, _ => None
      end
  | _ => None
  end.

Definition is_high (c : N) : bool := ((55296 <=? c) && (c <=? 56319))%N.
Definition is_low (c : N) : bool := ((56320 <=? c) && (c <=? 57343))%N.

(** The character after [\u], joining a surrogate pair. *)
Definition unicode_escape (s : pystr) : option (N * pystr) :=
  match hex4 s with
  | None => None
  | Some (c, rest) =>
      if is_high c then
        match expect 92 rest ≫= expect 117 with
        | Some rest' =>
            match hex4 rest' with
            | Some (c', rest'') =>
                if is_low c' then Some ((65536 + (c - 55296) * 1024 + (c' - 56320))%N, rest'')
                else Some (c, rest)
            | None => None
            end
        | None => Some (c, rest)
        end
      else Some (c, rest)
  end.

Definition simple_escape (c : N) : option N :=
  if (c =? 34)%N then Some 34%N else if (c =? 92)%N then Some 92%N
  else if (c =? 47)%N then Some 47%N else if (c =? 98)%N then Some 8%N
  else if (c =? 102)%N then Some 12%N else if (c =? 110)%N then Some 10%N
  else if (c =? 114)%N then Some 13%N else if (c =? 116)%N then Some 9%N
  else None.

(** The rest of a string after its opening quote. *)
Fixpoint scan_string (fuel : nat) (s : pystr) : res exn (pystr * pystr) :=
  match fuel with
  | O => Err out_of_fuel
  | S fuel' =>
      match s with
      | [] => Err bad_json
      | c :: rest =>
          if (c =? 34)%N then Ok ([], rest)
          else if (c <? 32)%N then Err bad_json
          else if (c =? 92)%N then
            match rest with
            | [] => Err bad_json
            | e :: rest' =>
                let next := if (e =? 117)%N then unicode_escape rest'
                            else x ← simple_escape e; Some (x, rest') in
                match next with
                | None => Err bad_json
                | Some (x, rest'') =>
                    t ← scan_string fuel' rest''; Ok (x :: t.1, t.2)
                end
            end
          else t ← scan_string fuel' rest; Ok (c :: t.1, t.2)
      end
  end.

(** ** Numbers *)

(** The longest prefix of ASCII digits, and the rest. *)
Fixpoint take_digits (s : pystr) : pystr * pystr :=
  match s with
  | c :: rest => if ascii_digit c then let '(ds, r) := take_digits rest in (c :: ds, r)
                 else ([], s)
  | [] => ([], [])
  end.

Definition digits_value (ds : pystr) : Z :=
  fold_left (λ acc c, acc * 10 + Z.of_N (c - 48)) ds 0.

(** The digits at the start of [s], at least one. *)
Definition some_digits (s : pystr) : option (pystr * pystr) :=
  match take_digits s with
  | ([], _) => None
  | p => Some p
  end.

(** [0|[1-9]\d*] *)
Definition scan_int (s : pystr) : option (pystr * pystr) :=
  match expect 48 s with
  | Some rest => Some ([48%N], rest)
  | None => some_digits s
  end.

(** [(\.\d+)?] and [([eE][-+]?\d+)?] *)
Definition scan_frac (s : pystr) : option (pystr * pystr) := expect 46 s ≫= some_digits.
Definition scan_sign (s : pystr) : Z * pystr :=
  match expect 45 s with
  | Some r => (-1, r)
  | None => (1, default s (expect 43 s))
  end.
Definition scan_exp (s : pystr) : option (Z * pystr) :=
  rest ← (match expect 101 s with Some r => Some r | None => expect 69 s end);
  let '(sign, rest1) := scan_sign rest in
  p ← some_digits rest1;
  Some (sign * digits_value p.1, p.2).

(** The float nearest to [m * 10^e]; an exponent beyond the range of binary64 is
    decided without computing the power. *)
Definition decimal_float (negative : bool) (m e ndigits : Z) : pyfloat :=
  let r :=
    if m =? 0 then Some 0
    else if 400 <? e then None
    else if ndigits + e <? -400 then Some 0
    else checked (if 0 <=? e then rnd (m * 10 ^ e * fl_one) 1 else rnd (m * fl_one) (10 ^ (- e))) in
  match r with
  | None => FInf negative
  | Some 0 => if negative then FNegZero else FFin 0
  | Some z => FFin (if negative then - z else z)
  end.

Definition scan_number (negative : bool) (s : pystr) : res exn (pyval * pystr) :=
  match scan_int s with
  | None => Err bad_json
  | Some (ids, r1) =>
      let '(fds, r2, has_frac) := match scan_frac r1 with
                                  | Some (f, r) => (f, r, true) | None => ([], r1, false) end in
      let '(e, r3, has_exp) := match scan_exp r2 with
                               | Some (e, r) => (e, r, true) | None => (0, r2, false) end in
      if has_frac || has_exp
      then Ok (VFloat (decimal_float negative (digits_value (ids ++ fds)) (e - py_len fds)
                         (py_len (ids ++ fds))), r3)
      else if max_str_digits <? py_len ids
      then Err (ValueError (u "Exceeds the limit (4300 digits) for integer string conversion"))
      else Ok (VInt (if negative then - digits_value ids else digits_value ids), r3)
  end.

(** ** Values *)

Definition literal (lit : pystr) (v : pyval) (s : pystr) : res exn (pyval * pystr) :=
  if startswith lit s then Ok (v, drop (length lit) s) else Err bad_json.

(** A value at the start of [s], the rest of an array after [\[] or a comma, and
    the rest of an object: the three parts of the scanner. *)
Fixpoint scan_value (fuel : nat) (s : pystr) : res exn (pyval * pystr) :=
  match fuel with
  | O => Err out_of_fuel
  | S fuel' =>
      match s with
      | [] => Err bad_json
      | c :: rest =>
          if (c =? 34)%N then t ← scan_string (S (length rest)) rest; Ok (VStr t.1, t.2)
          else if (c =? 123)%N then
            match expect 125 (skip_ws rest) with
            | Some r => Ok (VDict [], r)
            | None => t ← scan_members fuel' (skip_ws rest); Ok (VDict (assoc_of_list t.1), t.2)
            end
          else if (c =? 91)%N then
            match expect 93 (skip_ws rest) with
            | Some r => Ok (VList [], r)
            | None => t ← scan_elements fuel' (skip_ws rest); Ok (VList t.1, t.2)
            end
          else if (c =? 110)%N then literal (u "null") VNone s
          else if (c =? 116)%N then literal (u "true") (VBool true) s
          else if (c =? 102)%N then literal (u "false") (VBool false) s
          else if (c =? 78)%N then literal (u "NaN") (VFloat FNan) s
          else if (c =? 73)%N then literal (u "Infinity") (VFloat (FInf false)) s
          else if (c =? 45)%N then
            if startswith (u "Infinity") rest
            then literal (u "Infinity") (VFloat (FInf true)) rest
            else scan_number true rest
          else scan_number false s
      end
  end
with scan_elements (fuel : nat) (s : pystr) : res exn (list pyval * pystr) :=
  match fuel with
  | O => Err out_of_fuel
  | S fuel' =>
      t ← scan_value fuel' s;
      match expect 93 (skip_ws t.2), expect 44 (skip_ws t.2) with
      | Some r, _ => Ok ([t.1], r)
      | None, Some r => t' ← scan_elements fuel' (skip_ws r); Ok (t.1 :: t'.1, t'.2)
      | None, None => Err bad_json
      end
  end
with scan_members (fuel : nat) (s : pystr) : res exn (list (pystr * pyval) * pystr) :=
  match fuel with
  | O => Err out_of_fuel
  | S fuel' =>
      match expect 34 s with
      | None => Err bad_json
      | Some rest =>
          k ← scan_string (S (length rest)) rest;
          match expect 58 (skip_ws k.2) with
          | None => Err bad_json
          | Some r =>
              t ← scan_value fuel' (skip_ws r);
              match expect 125 (skip_ws t.2), expect 44 (skip_ws t.2) with
              | Some r', _ => Ok ([(k.1, t.1)], r')
              | None, Some r' =>
                  t' ← scan_members fuel' (skip_ws r'); Ok ((k.1, t.1) :: t'.1, t'.2)
              | None, None => Err bad_json
              end
          end
      end
  end.

(** [json.loads(s)] *)
Definition loads (s : pystr) : res exn pyval :=
  match expect 65279 s with
  | Some _ => Err bad_json
  | None =>
      t ← scan_value (2 * length s + 1) (skip_ws s);
      match skip_ws t.2 with
      | [] => Ok t.1
      | _ => Err bad_json
      end
  end.

(** ** The fuel is enough *)

Definition decode_error (e : exn) : Prop :=
  match e with JSONDecodeError _ | ValueError _ => True | _ => False end.

(** A scan that did not run out of fuel and, when it succeeds, leaves fewer than
    [n] characters. *)
Definition good {A} (n : nat) (r : res exn (A * pystr)) : Prop :=
  match r with
  | Ok t => (length t.2 < n)%nat
  | Err e => decode_error e
  end.

Lemma good_bind {A B} n m (r : res exn (A * pystr)) (k : A * pystr → res exn (B * pystr)) :
  good m r → (∀ t, (length t.2 < m)%nat → good n (k t)) → good n (r ≫= k).
Proof. destruct r as [t|e]; simpl; auto. Qed.

Lemma good_le {A} n m (r : res exn (A * pystr)) : (n ≤ m)%nat → good n r → good m r.
Proof. destruct r; simpl; [lia|done]. Qed.

Lemma length_skip_ws s : (length (skip_ws s) ≤ length s)%nat.
Proof. apply length_drop_while. Qed.

Lemma expect_length c s r : expect c s = Some r → (S (length r) = length s)%nat.
Proof. destruct s as [|x s]; simpl; [done|]. destruct (x =? c)%N; [|done]. by intros [= <-]. Qed.

Lemma hex4_length s c r : hex4 s = Some (c, r) → (length r < length s)%nat.
Proof.
  destruct s as [|a [|b [|d [|e s]]]]; simpl; try done.
  repeat case_match; intros [= <- <-]. lia.
Qed.

Lemma unicode_escape_length s c r : unicode_escape s = Some (c, r) → (length r < length s)%nat.
Proof.
  unfold unicode_escape. destruct (hex4 s) as [[x rest]|] eqn:Hh; [|done].
  apply hex4_length in Hh. destruct (is_high x); [|intros [= <- <-]; lia].
  destruct (expect 92 rest) as [r1|] eqn:H1; simpl; [|intros [= <- <-]; lia].
  apply expect_length in H1.
  destruct (expect 117 r1) as [r2|] eqn:H2; simpl; [|intros [= <- <-]; lia].
  apply expect_length in H2.
  destruct (hex4 r2) as [[y r3]|] eqn:H3; [|done]. apply hex4_length in H3.
  destruct (is_low y); intros [= <- <-]; lia.
Qed.

Lemma scan_string_good fuel s : (length s < fuel)%nat → good (length s) (scan_string fuel s).
Proof.
  revert s. induction fuel as [|fuel IH]; intros s Hl; [lia|].
  destruct s as [|c rest]; simpl; [done|]. simpl in Hl.
  destruct (c =? 34)%N; [simpl; lia|]. destruct (c <? 32)%N; [done|].
  destruct (c =? 92)%N.
  - destruct rest as [|e rest']; [done|]. simpl in Hl.
    set (next := if (e =? 117)%N then _ else _).
    assert (Hn : ∀ x r, next = Some (x, r) → (length r ≤ length rest')%nat).
    { subst next. intros x r. destruct (e =? 117)%N.
      - intros Hu%unicode_escape_length. lia.
      - destruct (simple_escape e); intros; simplify_eq/=. lia. }
    destruct next as [[x r]|]; [|done]. specialize (Hn x r eq_refl).
    eapply good_bind; [apply IH; lia|]. intros t Ht. simpl. lia.
  - eapply good_bind; [apply IH; lia|]. intros t Ht. simpl. lia.
Qed.

Lemma take_digits_length s : (length (take_digits s).1 + length (take_digits s).2 = length s)%nat.
Proof.
  induction s as [|c s IH]; simpl; [lia|]. destruct (ascii_digit c); [|simpl; lia].
  destruct (take_digits s). simpl in *. lia.
Qed.

Lemma some_digits_length s ds r : some_digits s = Some (ds, r) → (length r < length s)%nat.
Proof.
  unfold some_digits. pose proof (take_digits_length s).
  destruct (take_digits s) as [[|d l] r']; intros; simplify_eq/=. lia.
Qed.

Lemma scan_int_length s ds r : scan_int s = Some (ds, r) → (length r < length s)%nat.
Proof.
  unfold scan_int. destruct (expect 48 s) eqn:He; [|apply some_digits_length].
  apply expect_length in He. intros [= <- <-]. lia.
Qed.

Lemma scan_frac_length s ds r : scan_frac s = Some (ds, r) → (length r < length s)%nat.
Proof.
  unfold scan_frac. destruct (expect 46 s) as [s'|] eqn:He; simpl; [|done].
  apply expect_length in He. intros Hs%some_digits_length. lia.
Qed.

Lemma scan_sign_length s : (length (scan_sign s).2 ≤ length s)%nat.
Proof.
  unfold scan_sign. destruct (expect 45 s) eqn:He; [apply expect_length in He; simpl; lia|].
  destruct (expect 43 s) eqn:Hp; simpl; [apply expect_length in Hp|]; lia.
Qed.

Lemma scan_exp_length s e r : scan_exp s = Some (e, r) → (length r < length s)%nat.
Proof.
  unfold scan_exp. set (o := match expect 101 s with Some r => _ | None => _ end).
  assert (∀ r, o = Some r → (length r < length s)%nat) as Ho.
  { intros r'. subst o. destruct (expect 101 s) eqn:He; intros Hr; simplify_eq.
    - apply expect_length in He. lia.
    - apply expect_length in Hr. lia. }
  destruct o as [s'|]; simpl; [|done]. specialize (Ho s' eq_refl).
  pose proof (scan_sign_length s') as Hs. destruct (scan_sign s') as [sign r1]. simpl in Hs.
  destruct (some_digits r1) as [[ds r2]|] eqn:Hd; simpl; [|done]. intros [= <- <-].
  apply some_digits_length in Hd. lia.
Qed.

Lemma scan_number_good neg s : good (length s) (scan_number neg s).
Proof.
  unfold scan_number. destruct (scan_int s) as [[ids r1]|] eqn:Hi; [|done].
  apply scan_int_length in Hi.
  destruct (scan_frac r1) as [[f r2]|] eqn:Hf; [apply scan_frac_length in Hf|];
    [destruct (scan_exp r2) as [[e r3]|] eqn:He|destruct (scan_exp r1) as [[e r3]|] eqn:He];
    try apply scan_exp_length in He; simpl; try lia.
  destruct (_ <? _); simpl; [done|lia].
Qed.

Lemma literal_good lit v s : lit ≠ [] → good (length s) (literal lit v s).
Proof.
  intros Hl. unfold literal. destruct (startswith lit s) eqn:Hs; [|done]. simpl.
  apply startswith_spec in Hs. destruct lit as [|c lit]; [done|].
  rewrite Hs at 2. rewrite length_app. simpl. lia.
Qed.

Lemma scan_all_good fuel :
  (∀ s, (2 * length s < fuel)%nat → good (length s) (scan_value fuel s)) ∧
  (∀ s, (2 * length s + 1 < fuel)%nat → good (length s) (scan_elements fuel s)) ∧
  (∀ s, (2 * length s + 1 < fuel)%nat → good (length s) (scan_members fuel s)).
Proof.
  induction fuel as [|fuel (IHv & IHe & IHm)]; [split_and!; intros; lia|].
  split_and!; intros s Hl.
  - destruct s as [|c rest]; [done|]. cbn [scan_value]. simpl length in *.
    pose proof (length_skip_ws rest) as Hw.
    repeat match goal with |- context [if (c =? ?k)%N then _ else _] => destruct (c =? k)%N end;
      try (by apply (literal_good _ _ (c :: rest))).
    + eapply good_bind; [apply scan_string_good; lia|]. intros t Ht. simpl. lia.
    + destruct (expect 125 _) as [r|] eqn:He; [apply expect_length in He; simpl; lia|].
      eapply good_bind; [apply IHm; lia|]. intros t Ht. simpl. lia.
    + destruct (expect 93 _) as [r|] eqn:He; [apply expect_length in He; simpl; lia|].
      eapply good_bind; [apply IHe; lia|]. intros t Ht. simpl. lia.
    + destruct (startswith _ rest).
      * apply good_le with (length rest); [lia|]. by apply literal_good.
      * apply good_le with (length rest); [lia|]. apply scan_number_good.
    + apply (scan_number_good false (c :: rest)).
  - cbn [scan_elements]. eapply good_bind; [apply IHv; lia|]. intros t Ht.
    pose proof (length_skip_ws t.2).
    destruct (expect 93 (skip_ws t.2)) as [r|] eqn:He; [apply expect_length in He; simpl; lia|].
    destruct (expect 44 (skip_ws t.2)) as [r|] eqn:Hc; [|done]. apply expect_length in Hc.
    pose proof (length_skip_ws r).
    eapply good_bind; [apply IHe; lia|]. intros t' Ht'. simpl. lia.
  - cbn [scan_members]. destruct (expect 34 s) as [rest|] eqn:Hq; [|done].
    apply expect_length in Hq.
    eapply good_bind; [apply scan_string_good; lia|]. intros k Hk. pose proof (length_skip_ws k.2).
    destruct (expect 58 _) as [r|] eqn:Hc; [|done]. apply expect_length in Hc.
    pose proof (length_skip_ws r).
    eapply good_bind; [apply IHv; lia|]. intros t Ht. pose proof (length_skip_ws t.2).
    destruct (expect 125 (skip_ws t.2)) as [r'|] eqn:He; [apply expect_length in He; simpl; lia|].
    destruct (expect 44 (skip_ws t.2)) as [r'|] eqn:Hm; [|done]. apply expect_length in Hm.
    pose proof (length_skip_ws r').
    eapply good_bind; [apply IHm; lia|]. intros t' Ht'. simpl. lia.
Qed.

(** The decoder terminates on every text, and it raises nothing but a
    [JSONDecodeError] or a [ValueError]. *)
Lemma loads_error s e : loads s = Err e → decode_error e.
Proof.
  unfold loads. destruct (expect 65279 s); [by intros [= <-]|].
  pose proof (length_skip_ws s) as Hw.
  destruct (scan_all_good (2 * length s + 1)) as (Hv & _ & _).
  specialize (Hv (skip_ws s) ltac:(lia)).
  destruct (scan_value _ (skip_ws s)) as [t|e']; simpl in *; [|by intros [= <-]].
  destruct (skip_ws t.2); intros; by simplify_eq.
Qed.

Lemma loads_total s : loads s ≠ Err out_of_fuel.
Proof. intros He%loads_error. done. Qed.
