(* ===== verification/PyDumps.v ===== *)
(** * [json.dumps(v, ensure_ascii=False)]

    The encoder with its default separators, and the round trip: what it writes of a
    value without floats, [json.loads] reads back as that value. *)

From S2P Require Import Prelude PyStr PyFloat PyVal PyJson.

(** ** The encoder *)

Definition escape_char (c : N) : pystr :=
  if (c =? 34)%N then [92; 34]%N else if (c =? 92)%N then [92; 92]%N
  else if (c =? 10)%N then u "\n" else if (c =? 13)%N then u "\r" else if (c =? 9)%N then u "\t"
  else if (c =? 12)%N then u "\f" else if (c =? 8)%N then u "\b"
  else if (c <? 32)%N then u "\u" ++ hex_fuel 4 c
  else [c].
Definition quoted_str (s : pystr) : pystr := [34%N] ++ mjoin (map escape_char s) ++ [34%N].

Section dumps.
Context `{PyTables}.

Definition dumps_float (f : pyfloat) : pystr :=
  match f with
  | FNan => u "NaN" | FInf true => u "-Infinity" | FInf false => u "Infinity" | _ => str_of_float f
  end.

Fixpoint dumps_text (v : pyval) : pystr :=
  match v with
  | VNone => u "null"
  | VBool true => u "true"
  | VBool false => u "false"
  | VInt z => str_of_Z z
  | VFloat f => dumps_float f
  | VStr s => quoted_str s
  | VList l =>
      u "[" ++ join (u ", ") ((fix go l := match l with [] => [] | v :: l' => dumps_text v :: go l' end) l) ++ u "]"
  | VDict d =>
      u "{" ++ join (u ", ")
        ((fix go d := match d with
                      | [] => []
                      | (k, v) :: d' => (quoted_str k ++ u ": " ++ dumps_text v) :: go d'
                      end) d) ++ u "}"
  end.

(** CPython refuses to write an [int] of more than 4300 digits. *)
Definition short_int (z : Z) : bool := Z.abs z <? 10 ^ max_str_digits.
Fixpoint short_ints (v : pyval) : bool :=
  match v with
  | VInt z => short_int z
  | VList l => (fix go l := match l with [] => true | v :: l' => short_ints v && go l' end) l
  | VDict d => (fix go d := match d with [] => true | (_, v) :: d' => short_ints v && go d' end) d
  | _ => true
  end.

Definition dumps (v : pyval) : res exn pystr :=
  if short_ints v then Ok (dumps_text v)
  else Err (ValueError (u "Exceeds the limit (4300 digits) for integer string conversion")).
End dumps.

(** ** Numbers *)

Definition digit_char (c : N) : Prop := ascii_digit c = true.

Lemma digits_value_app ds c : digits_value (ds ++ [c]) = digits_value ds * 10 + Z.of_N (c - 48).
Proof. unfold digits_value. by rewrite fold_left_app. Qed.

Lemma digits_fuel_spec fuel n :
  (n < 2 ^ N.of_nat fuel)%N → (0 < fuel)%nat →
  Forall digit_char (digits_fuel fuel n) ∧ digits_value (digits_fuel fuel n) = Z.of_N n ∧
  ∃ c ds, digits_fuel fuel n = c :: ds ∧ (c = 48%N → n = 0%N ∧ ds = []).
Proof.
  revert n. induction fuel as [|fuel IH]; intros n Hn Hf; [lia|]. cbn [digits_fuel].
  assert (Hdigit : ∀ d, (d < 10)%N → digit_char (48 + d)).
  { intros d Hd. unfold digit_char, ascii_digit. apply andb_true_iff. rewrite !N.leb_le. lia. }
  destruct (N.ltb_spec n 10) as [Hs|Hs].
  - split_and!; [by repeat constructor; apply Hdigit| |].
    + unfold digits_value. simpl fold_left. replace (48 + n - 48)%N with n by lia. lia.
    + exists (48 + n)%N, []. split; [done|]. intros. split; [lia|done].
  - assert (Hq : (n / 10 < 2 ^ N.of_nat fuel)%N).
    { apply N.Div0.div_lt_upper_bound. rewrite Nat2N.inj_succ, N.pow_succ_r' in Hn.
      revert Hn. generalize (2 ^ N.of_nat fuel)%N. lia. }
    assert (Hf' : (0 < fuel)%nat) by (destruct fuel; [simpl in Hn; lia|lia]).
    destruct (IH _ Hq Hf') as (Hd & Hv & c & ds & Hc & Hz). split_and!.
    + apply Forall_app. split; [done|]. repeat constructor. apply Hdigit. by apply N.mod_lt.
    + rewrite digits_value_app, Hv. rewrite N.add_comm, N.add_sub.
      pose proof (N.div_mod n 10 ltac:(done)) as Hdm. rewrite Hdm at 3. lia.
    + rewrite Hc. exists c, (ds ++ [48 + n mod 10]%N). split; [done|]. intros H48. apply Hz in H48 as [H0 _].
      apply N.div_small_iff in H0; lia.
Qed.

Lemma size_nat_gt n : (n < 2 ^ N.of_nat (N.size_nat n))%N.
Proof.
  destruct n as [|p]; [done|]. cbn [N.size_nat].
  induction p as [p IH|p IH|]; cbn [Pos.size_nat]; [..|done];
    rewrite Nat2N.inj_succ, N.pow_succ_r'; revert IH; generalize (2 ^ N.of_nat (Pos.size_nat p))%N; lia.
Qed.

Lemma str_of_N_spec n :
  Forall digit_char (str_of_N n) ∧ digits_value (str_of_N n) = Z.of_N n ∧
  ∃ c ds, str_of_N n = c :: ds ∧ (c = 48%N → n = 0%N ∧ ds = []).
Proof.
  apply digits_fuel_spec; [|lia]. rewrite Nat2N.inj_succ, N.pow_succ_r'. pose proof (size_nat_gt n) as Hs.
  revert Hs. generalize (2 ^ N.of_nat (N.size_nat n))%N. lia.
Qed.

(** What may follow a number without changing it *)
Definition delimited (rest : pystr) : Prop :=
  match rest with c :: _ => c = 44%N ∨ c = 93%N ∨ c = 125%N | [] => True end.

Lemma take_digits_app ds rest : Forall digit_char ds → delimited rest → take_digits (ds ++ rest) = (ds, rest).
Proof.
  intros Hd Hr. induction Hd as [|c ds Hc Hd IH]; simpl.
  - destruct rest as [|c rest]; simpl; [done|]. by destruct Hr as [->|[->| ->]].
  - rewrite Hc, IH. done.
Qed.

Lemma scan_int_digits n rest : delimited rest → scan_int (str_of_N n ++ rest) = Some (str_of_N n, rest).
Proof.
  intros Hr. destruct (str_of_N_spec n) as (Hd & Hv & c & ds & Hc & Hz). unfold scan_int.
  destruct (decide (c = 48%N)) as [->|Hne].
  - destruct (Hz eq_refl) as [_ ->]. rewrite Hc. done.
  - pose proof (take_digits_app _ _ Hd Hr) as Ht. rewrite Hc in *. cbn [app expect].
    rewrite (proj2 (N.eqb_neq c 48)) by done. unfold some_digits. cbn [app] in Ht. by rewrite Ht.
Qed.

Lemma scan_number_digits negative n rest :
  (Z.of_N n < 10 ^ max_str_digits)%Z → delimited rest →
  scan_number negative (str_of_N n ++ rest) = Ok (VInt (if negative then - Z.of_N n else Z.of_N n), rest).
Proof.
  intros Hn Hr. unfold scan_number. rewrite scan_int_digits by done.
  assert (Hfrac : scan_frac rest = None ∧ scan_exp rest = None).
  { destruct rest as [|c rest]; [done|]. by destruct Hr as [->|[->| ->]]. }
  destruct Hfrac as [-> ->]. cbn [orb].
  destruct (str_of_N_spec n) as (_ & Hv & _). rewrite Hv.
  assert (Hl : py_len (str_of_Z (Z.of_N n)) ≤ max_str_digits).
  { replace max_str_digits with (Z.of_nat (S 4299)) by done. apply str_of_Z_length. split; [lia|].
    replace (Z.of_nat (S 4299)) with max_str_digits by done. done. }
  unfold str_of_Z in Hl. rewrite (proj2 (Z.ltb_ge _ _)), N2Z.id in Hl by lia.
  rewrite (proj2 (Z.ltb_ge _ _)) by done. done.
Qed.

(** ** Strings *)

Lemma scan_escape fuel c rest :
  scan_string (S fuel) (escape_char c ++ rest) = (t ← scan_string fuel rest; Ok (c :: t.1, t.2)).
Proof.
  destruct (N.ltb_spec c 32) as [Hc|Hc].
  - assert (Hall : ∀ k : nat, (k < 32)%nat → c = N.of_nat k →
      scan_string (S fuel) (escape_char c ++ rest) = (t ← scan_string fuel rest; Ok (c :: t.1, t.2))).
    { intros k Hk ->. do 32 (destruct k as [|k]; [reflexivity|]). lia. }
    apply (Hall (N.to_nat c)); lia.
  - unfold escape_char. destruct (N.eqb_spec c 34) as [->|H34]; [done|]. destruct (N.eqb_spec c 92) as [->|H92]; [done|].
    rewrite (proj2 (N.eqb_neq c 10)), (proj2 (N.eqb_neq c 13)), (proj2 (N.eqb_neq c 9)), (proj2 (N.eqb_neq c 12)),
      (proj2 (N.eqb_neq c 8)), (proj2 (N.ltb_ge c 32)) by lia.
    cbn [app scan_string]. rewrite (proj2 (N.eqb_neq c 34)), (proj2 (N.ltb_ge c 32)), (proj2 (N.eqb_neq c 92)) by done. done.
Qed.

Lemma scan_quoted s rest fuel :
  (length s < fuel)%nat → scan_string fuel (mjoin (map escape_char s) ++ 34%N :: rest) = Ok (s, rest).
Proof.
  revert fuel. induction s as [|c s IH]; intros fuel Hf; (destruct fuel as [|fuel]; [simpl in Hf; lia|]); [done|].
  simpl in Hf. cbn [map mjoin list_join]. rewrite <- app_assoc, scan_escape. rewrite IH by lia. done.
Qed.

Lemma escaped_length s : (length s ≤ length (mjoin (map escape_char s)))%nat.
Proof.
  induction s as [|c s IH]; simpl; [done|]. rewrite length_app.
  assert (1 ≤ length (escape_char c))%nat; [|lia].
  unfold escape_char. repeat case_match; simpl; lia.
Qed.

(** ** Values *)

Section values.
Context (P : pyval → Prop).
Context (Hnone : P VNone) (Hbool : ∀ b, P (VBool b)) (Hint : ∀ z, P (VInt z)) (Hfloat : ∀ f, P (VFloat f))
  (Hstr : ∀ s, P (VStr s)) (Hlist : ∀ l, Forall P l → P (VList l)) (Hdict : ∀ d, Forall (λ kv, P kv.2) d → P (VDict d)).

(** Induction through lists and dicts *)
Fixpoint pyval_nested_ind (v : pyval) : P v :=
  match v with
  | VNone => Hnone | VBool b => Hbool b | VInt z => Hint z | VFloat f => Hfloat f | VStr s => Hstr s
  | VList l => Hlist l ((fix go l : Forall P l :=
      match l with [] => Forall_nil_2 _ | v :: l' => Forall_cons_2 _ _ _ (pyval_nested_ind v) (go l') end) l)
  | VDict d => Hdict d ((fix go d : Forall (λ kv, P kv.2) d :=
      match d with [] => Forall_nil_2 _ | (k, v) :: d' => Forall_cons_2 _ (k, v) _ (pyval_nested_ind v) (go d') end) d)
  end.
End values.

(** No floats, and no key twice in a dict (as in every Python dict) *)
Fixpoint plain (v : pyval) : Prop :=
  match v with
  | VFloat _ => False
  | VList l => (fix go l := match l with [] => True | v :: l' => plain v ∧ go l' end) l
  | VDict d => NoDup d.*1 ∧ (fix go d := match d with [] => True | (_, v) :: d' => plain v ∧ go d' end) d
  | _ => True
  end.

Section roundtrip.
Context `{PyTables}.

Definition member_text (kv : pystr * pyval) : pystr := quoted_str kv.1 ++ u ": " ++ dumps_text kv.2.

Lemma dumps_list l : dumps_text (VList l) = u "[" ++ join (u ", ") (map dumps_text l) ++ u "]".
Proof. done. Qed.
Lemma dumps_dict d : dumps_text (VDict d) = u "{" ++ join (u ", ") (map member_text d) ++ u "}".
Proof.
  cbn [dumps_text]. do 3 f_equal. induction d as [|[k v] d IH]; [done|]. cbn [map]. rewrite <- IH. done.
Qed.
Lemma short_list l : short_ints (VList l) = forallb short_ints l.
Proof. done. Qed.
Lemma short_dict d : short_ints (VDict d) = forallb (λ kv, short_ints kv.2) d.
Proof. cbn [short_ints]. induction d as [|[k v] d IH]; [done|]. cbn [forallb]. by rewrite <- IH. Qed.
Lemma plain_list l : plain (VList l) ↔ Forall plain l.
Proof.
  cbn [plain]. induction l as [|v l IH]; [by split|]. rewrite Forall_cons, <- IH. done.
Qed.
Lemma plain_dict d : plain (VDict d) ↔ NoDup d.*1 ∧ Forall (λ kv, plain kv.2) d.
Proof.
  cbn [plain]. apply and_iff_compat_l. induction d as [|[k v] d IH]; [by split|]. rewrite Forall_cons, <- IH. done.
Qed.

(** The first character of a value *)
Lemma dumps_first v : plain v → ∃ c t, dumps_text v = c :: t ∧ json_space c = false ∧ c ≠ 93%N ∧ (c ≠ 65279)%N.
Proof.
  destruct v as [| [] |z| |s|l|d]; intros Hp;
    try (by destruct Hp); try (eexists _, _; split_and!; [reflexivity|reflexivity|discriminate|discriminate]).
  - cbn [dumps_text]. unfold str_of_Z. destruct (z <? 0); [eexists _, _; by split_and!|].
    destruct (str_of_N_spec (Z.to_N z)) as (Hd & _ & c & ds & Hc & _). rewrite Hc in *. exists c, ds.
    apply Forall_cons in Hd as [Hd _]. unfold digit_char, ascii_digit in Hd. apply andb_true_iff in Hd as [H1 H2].
    apply N.leb_le in H1, H2. split; [done|]. unfold json_space.
    rewrite (proj2 (N.eqb_neq c 32)), (proj2 (N.eqb_neq c 9)), (proj2 (N.eqb_neq c 10)), (proj2 (N.eqb_neq c 13)) by lia.
    split_and!; [done|lia|lia].
Qed.

Lemma assoc_of_nodup {V} (l : list (pystr * V)) : NoDup l.*1 → assoc_of_list l = l.
Proof.
  intros Hl. unfold assoc_of_list.
  assert (Hgen : ∀ (l d : list (pystr * V)), NoDup (d ++ l).*1 → fold_left (λ d kv, assoc_set kv.1 kv.2 d) l d = d ++ l).
  { clear. intros l. induction l as [|[k v] l IH]; intros d Hd; simpl; [by rewrite app_nil_r|].
    assert (Hk : assoc_set k v d = d ++ [(k, v)]).
    { rewrite fmap_app in Hd. apply NoDup_app in Hd as (_ & Hd & _). clear IH.
      induction d as [|[k' v'] d IH]; simpl; [done|]. rewrite decide_False.
      - rewrite IH; [done|]. intros x Hx. apply Hd. by right.
      - intros ->. apply (Hd k'); csimpl; by left. }
    rewrite Hk, IH; rewrite <- app_assoc; done. }
  by rewrite Hgen.
Qed.

(** What scanning the text of [v] gives, whatever follows it *)
Definition scans (v : pyval) : Prop := ∀ fuel rest,
  short_ints v = true → plain v → delimited rest → (2 * length (dumps_text v) ≤ fuel)%nat →
  scan_value fuel (dumps_text v ++ rest) = Ok (v, rest).

Lemma scan_elements_text l fuel rest :
  Forall scans l → l ≠ [] → forallb short_ints l = true → Forall plain l →
  (2 * length (join (u ", ") (map dumps_text l)) < fuel)%nat →
  scan_elements fuel (join (u ", ") (map dumps_text l) ++ 93%N :: rest) = Ok (l, rest).
Proof.
  intros Hl. revert fuel. induction Hl as [|v l Hv Hl IH]; intros fuel Hne Hs Hp Hf; [done|].
  simpl in Hs. apply andb_true_iff in Hs as [Hsv Hsl]. apply Forall_cons in Hp as [Hpv Hpl].
  destruct fuel as [|fuel]; [lia|]. destruct l as [|v' l].
  - cbn [map join] in *. cbn [scan_elements]. rewrite Hv by (done || lia || (simpl; auto)). done.
  - set (E := join (u ", ") (map dumps_text (v' :: l))) in *.
    assert (HE : join (u ", ") (map dumps_text (v :: v' :: l)) = dumps_text v ++ 44%N :: 32%N :: E) by done.
    rewrite HE in *. rewrite length_app in Hf. cbn [length] in Hf. rewrite <- app_assoc. cbn [app scan_elements].
    rewrite Hv by (done || lia || (simpl; auto)). cbn [mbind res_bind fst snd].
    change (skip_ws (44%N :: 32%N :: E ++ 93%N :: rest)) with (44%N :: 32%N :: E ++ 93%N :: rest). cbn [expect N.eqb Pos.eqb].
    assert (Hskip : skip_ws (32%N :: E ++ 93%N :: rest) = E ++ 93%N :: rest).
    { apply Forall_cons in Hpl as [Hpv' _]. destruct (dumps_first v' Hpv') as (c & t & Hc & Hsp & _).
      assert (∃ t', E = c :: t') as [t' ->].
      { unfold E. cbn [map join]. destruct (map dumps_text l); rewrite Hc; eauto. }
      unfold skip_ws. simpl. by rewrite Hsp. }
    rewrite Hskip, IH by (done || lia). done.
Qed.

Lemma scan_members_text d fuel rest :
  Forall (λ kv, scans kv.2) d → d ≠ [] → forallb (λ kv, short_ints kv.2) d = true → Forall (λ kv, plain kv.2) d →
  (2 * length (join (u ", ") (map member_text d)) < fuel)%nat →
  scan_members fuel (join (u ", ") (map member_text d) ++ 125%N :: rest) = Ok (d, rest).
Proof.
  intros Hd. revert fuel. induction Hd as [|[k v] d Hv Hd IH]; intros fuel Hne Hs Hp Hf; [done|].
  simpl in Hs, Hv. apply andb_true_iff in Hs as [Hsv Hsd]. apply Forall_cons in Hp as [Hpv Hpd]. simpl in Hpv.
  destruct fuel as [|fuel]; [lia|].
  assert (Hmember : ∀ tail, delimited tail → (2 * length (dumps_text v) ≤ fuel)%nat →
    scan_members (S fuel) (member_text (k, v) ++ tail) =
    match expect 125 (skip_ws tail), expect 44 (skip_ws tail) with
    | Some r', _ => Ok ([(k, v)], r')
    | None, Some r' => t' ← scan_members fuel (skip_ws r'); Ok ((k, v) :: t'.1, t'.2)
    | None, None => Err bad_json
    end).
  { intros tail Ht Hlen. unfold member_text, quoted_str. cbn [fst snd]. rewrite <- !app_assoc. cbn [app scan_members expect N.eqb Pos.eqb].
    rewrite scan_quoted by (rewrite length_app; pose proof (escaped_length k); simpl; lia).
    cbn [mbind res_bind fst snd]. destruct (dumps_first v Hpv) as (c & t & Hc & Hsp & _).
    match goal with |- context [skip_ws ?s] => change (skip_ws s) with (58%N :: 32%N :: dumps_text v ++ tail) at 1 end.
    cbn [expect N.eqb Pos.eqb].
    assert (Hskip : skip_ws (32%N :: dumps_text v ++ tail) = dumps_text v ++ tail).
    { rewrite Hc. unfold skip_ws. simpl. by rewrite Hsp. }
    rewrite Hskip, Hv by done. done. }
  destruct d as [|kv' d].
  - cbn [map join] in *. rewrite Hmember; [done|simpl; auto|]. unfold member_text in Hf. cbn in Hf.
    rewrite !length_app in Hf. simpl in Hf. lia.
  - set (E := join (u ", ") (map member_text (kv' :: d))) in *.
    assert (HE : join (u ", ") (map member_text ((k, v) :: kv' :: d)) = member_text (k, v) ++ 44%N :: 32%N :: E) by done.
    rewrite HE in *. rewrite length_app in Hf. unfold member_text in Hf at 1. cbn [fst snd length] in Hf.
    rewrite !length_app in Hf. rewrite <- app_assoc, Hmember; [|simpl; auto|lia].
    change (skip_ws ((44%N :: 32%N :: E) ++ 125%N :: rest)) with (44%N :: 32%N :: E ++ 125%N :: rest).
    cbn [expect N.eqb Pos.eqb].
    assert (Hskip : skip_ws (32%N :: E ++ 125%N :: rest) = E ++ 125%N :: rest).
    { assert (∃ t', E = 34%N :: t') as [t' ->]; [|done]. unfold E. cbn [map join]. destruct (map member_text d); eexists; done. }
    rewrite Hskip, IH by (done || lia). done.
Qed.

Lemma value_scans v : scans v.
Proof.
  induction v as [|b|z|f|s|l IH|d IH] using pyval_nested_ind; intros fuel rest Hs Hp Hr Hf;
    (destruct fuel as [|fuel]; [exfalso; destruct (dumps_first _ Hp) as (c & t & Hc & _); rewrite Hc in Hf; simpl in Hf; lia|]).
  - cbn. unfold literal. done.
  - destruct b; cbn; done.
  - cbn [dumps_text short_ints] in *. unfold short_int in Hs. apply Z.ltb_lt in Hs. unfold str_of_Z.
    destruct (Z.ltb_spec z 0) as [Hz|Hz].
    + cbn [app scan_value N.eqb Pos.eqb]. destruct (str_of_N_spec (Z.to_N (- z))) as (Hd & _ & c & ds & Hc & _).
      assert (Hno : startswith (u "Infinity") (str_of_N (Z.to_N (- z)) ++ rest) = false).
      { rewrite Hc in *. apply Forall_cons in Hd as [Hd _]. unfold digit_char, ascii_digit in Hd.
        apply andb_true_iff in Hd as [_ Hd]. apply N.leb_le in Hd. unfold startswith. cbn. apply bool_decide_eq_false.
        intros [= Heq _]. lia. }
      rewrite Hno, scan_number_digits by (done || lia). do 2 f_equal. f_equal. lia.
    + destruct (str_of_N_spec (Z.to_N z)) as (Hd & _ & c & ds & Hc & _).
      assert (Hscan : scan_value (S fuel) (str_of_N (Z.to_N z) ++ rest) = scan_number false (str_of_N (Z.to_N z) ++ rest)).
      { rewrite Hc in *. apply Forall_cons in Hd as [Hd _]. unfold digit_char, ascii_digit in Hd.
        apply andb_true_iff in Hd as [Hd1 Hd2]. apply N.leb_le in Hd1, Hd2. cbn [app scan_value].
        repeat (rewrite (proj2 (N.eqb_neq _ _)) by lia). done. }
      rewrite Hscan, scan_number_digits by (done || lia). do 2 f_equal. f_equal. lia.
  - done.
  - cbn [dumps_text]. unfold quoted_str. rewrite <- !app_assoc. cbn [app scan_value N.eqb Pos.eqb].
    rewrite scan_quoted; [done|]. rewrite length_app. pose proof (escaped_length s). simpl. lia.
  - rewrite short_list in Hs. rewrite plain_list in Hp. rewrite dumps_list in *. rewrite !length_app in Hf. simpl length in Hf.
    destruct l as [|v l]; [done|]. rewrite <- !app_assoc. set (E := join _ _) in *.
    change (u "[" ++ E ++ u "]" ++ rest) with (91%N :: E ++ 93%N :: rest). cbn [scan_value N.eqb Pos.eqb].
    assert (Hskip : skip_ws (E ++ 93%N :: rest) = E ++ 93%N :: rest ∧ expect 93 (E ++ 93%N :: rest) = None).
    { apply Forall_cons in Hp as [Hpv _]. destruct (dumps_first v Hpv) as (c & t & Hc & Hsp & H93 & _).
      assert (∃ t', E = c :: t') as [t' ->].
      { unfold E. cbn [map join]. destruct (map dumps_text l); rewrite Hc; eauto. }
      unfold skip_ws. simpl. rewrite Hsp. split; [done|]. by rewrite (proj2 (N.eqb_neq c 93)). }
    destruct Hskip as [-> ->]. unfold E. rewrite scan_elements_text by (done || (fold E; lia)). done.
  - rewrite short_dict in Hs. rewrite plain_dict in Hp. destruct Hp as [Hn Hp]. rewrite dumps_dict in *.
    rewrite !length_app in Hf. simpl length in Hf.
    destruct d as [|kv d]; [done|]. rewrite <- !app_assoc. set (E := join _ _) in *.
    change (u "{" ++ E ++ u "}" ++ rest) with (123%N :: E ++ 125%N :: rest). cbn [scan_value N.eqb Pos.eqb].
    assert (Hskip : skip_ws (E ++ 125%N :: rest) = E ++ 125%N :: rest ∧ expect 125 (E ++ 125%N :: rest) = None).
    { assert (∃ t', E = 34%N :: t') as [t' ->]; [|done]. unfold E. cbn [map join]. destruct (map member_text d); eexists; done. }
    destruct Hskip as [-> ->]. unfold E. rewrite scan_members_text by (done || (fold E; lia)).
    cbn [mbind res_bind fst snd]. by rewrite assoc_of_nodup.
Qed.

(** what [json.dumps] writes of a value without floats, [json.loads] reads back *)
Theorem loads_dumps v s : plain v → dumps v = Ok s → loads s = Ok v.
Proof.
  unfold dumps. intros Hp Hd. destruct (short_ints v) eqn:Hs; [|done]. injection Hd as <-. unfold loads.
  destruct (dumps_first v Hp) as (c & t & Hc & Hsp & _ & Hbom).
  pose proof (value_scans v (2 * length (dumps_text v) + 1)%nat [] Hs Hp I ltac:(lia)) as Hv. rewrite app_nil_r in Hv.
  assert (Hno : expect 65279 (dumps_text v) = None) by (rewrite Hc; cbn [expect]; by rewrite (proj2 (N.eqb_neq c 65279))).
  rewrite Hno. replace (skip_ws (dumps_text v)) with (dumps_text v); [by rewrite Hv|].
  rewrite Hc. unfold skip_ws. simpl. by rewrite Hsp.
Qed.
End roundtrip.
