(* ===== verification/Artifacts.v ===== *)
(** * Artifact extraction (src/core/artifacts.py)

    Fenced blocks and [<artifact>] tags of a model reply become named files.
    The three regular expressions are syntax trees for the matcher of PyRegex;
    [sanitise_path] decides which model-supplied paths are accepted.  The
    theorems say what every accepted path looks like and what [extract] returns
    for any text at all, since the text is untrusted. *)

From S2P Require Import Prelude PyStr PyFloat PyVal PyRegex.

Definition MAX_ARTIFACT_BYTES : Z := 1000000.
Definition MAX_PATH_LENGTH : Z := 400.

(** ** Patterns *)

Definition backticks : re := RLit [96; 96; 96]%N.
Definition is_blank (c : N) : bool := ((c =? 32) || (c =? 9))%N.
Definition lang_char (c : N) : bool := ascii_alnum c || mem_char (u "_+-") c.
Definition key_char (c : N) : bool := ascii_alpha c || (c =? 95)%N.

Definition FENCE : re := RSeqs [
  RBol; backticks; RGroup 1 (RStar true (RSet lang_char)); RPlus (RSet is_blank);
  RGroup 2 (RSeqs [RStar true (RNotIn [10%N]); RLit (u "path="); RStar true (RNotIn [10%N])]);
  RChar 10; RGroup 3 (RStar false RAny); ROpt (RChar 10);
  RBol; backticks; RStar true (RSet is_blank); REol].

(** A letter of the tag's name under [re.IGNORECASE]: [i] also matches the dotted
    and the dotless i of the Turkish alphabet. *)
Definition RNoCase (c : N) : re :=
  RSet (λ x, ((x =? c) || (x =? ascii_upper c) || ((c =? 105) && ((x =? 304) || (x =? 305))))%N).
Definition RLitNoCase (s : pystr) : re := RSeqs (map RNoCase s).

Definition TAG : re := RSeqs [
  RLitNoCase (u "<artifact"); RPlus RSpace; RGroup 2 (RStar true (RNotIn (u ">")));
  RChar 62; ROpt (RChar 10); RGroup 3 (RStar false RAny); RLitNoCase (u "</artifact>")].

Definition ATTR : re := RSeqs [
  RGroup 1 (RPlus (RSet key_char)); RStar true RSpace; RChar 61; RStar true RSpace;
  ROpt (RChar 34);
  RGroup 2 (RPlus (RSet (λ c, negb (c =? 34)%N && negb (is_space c))));
  ROpt (RChar 34)].

Definition LANG_KIND : list (pystr * pystr) := [
  (u "md", u "markdown"); (u "markdown", u "markdown"); (u "json", u "json");
  (u "yaml", u "yaml"); (u "yml", u "yaml"); (u "csv", u "csv"); (u "sql", u "sql");
  (u "html", u "html"); (u "txt", u "text"); ([], u "text")].

Record ExtractedArtifact := mkArtifact {
  x_path : pystr; x_kind : pystr; x_language : option pystr; x_content : pystr }.

Definition size_bytes (a : ExtractedArtifact) : res exn Z := encoded_len (x_content a).

(** [a or b] on optional strings: an empty string counts as missing. *)
Definition opt_or (a b : option pystr) : option pystr :=
  match a with Some (_ :: _) => a | _ => b end.

Section extraction.
Context `{PyTables}.

Definition parse_attrs (text : pystr) : list (pystr * pystr) :=
  assoc_of_list (map (λ m, (lower (default [] (group 1 m)), default [] (group 2 m)))
                     (finditer ATTR text)).

(** The path of a request before it is checked: quotes and blanks trimmed,
    backslashes turned into slashes. *)
Definition clean_path (raw : pystr) : pystr :=
  replace_all [92%N] [47%N] (strip_chars [34; 39]%N (strip raw)).

(** [re.match(r"^[A-Za-z]:", path)] *)
Definition drive_letter (path : pystr) : bool :=
  match path with
  | c :: 58%N :: _ => ascii_alpha c
  | _ => false
  end.

(** The loop over the parts: [..] raises, empty parts and [.] are dropped. *)
Fixpoint path_parts (raw : pystr) (parts : list pystr) : res exn (list pystr) :=
  match parts with
  | [] => Ok []
  | part :: rest =>
      if bool_decide (part = []) || bool_decide (part = u ".") then path_parts raw rest
      else if bool_decide (part = u "..")
      then Err (UnsafeArtifactPath (u "path traversal is not allowed: " ++ repr_str raw))
      else ps ← path_parts raw rest; Ok (part :: ps)
  end.

Definition sanitise_path (raw : pystr) : res exn pystr :=
  let path := clean_path raw in
  if bool_decide (path = []) then Err (UnsafeArtifactPath (u "empty artifact path"))
  else if py_len path >? MAX_PATH_LENGTH
  then Err (UnsafeArtifactPath (u "artifact path is too long"))
  else if contains [0%N] path
  then Err (UnsafeArtifactPath (u "artifact path contains a NUL byte"))
  else if startswith (u "/") path || drive_letter path
  then Err (UnsafeArtifactPath (u "absolute artifact path is not allowed: " ++ repr_str raw))
  else
    parts ← path_parts raw (split (u "/") path);
    match parts with
    | [] => Err (UnsafeArtifactPath (u "artifact path resolves to nothing: " ++ repr_str raw))
    | _ => Ok (join (u "/") parts)
    end.

Definition kind_for (language : option pystr) (path : pystr) : pystr :=
  match language with
  | Some ((_ :: _) as l) => default (u "code") (assoc (lower l) LANG_KIND)
  | _ =>
      let suffix := if contains (u ".") path then lower (after_last 46 path) else [] in
      default (u "text") (assoc suffix LANG_KIND)
  end.

(** One pass of either loop of [extract]; [raw_path] and [language] are read off
    the attributes differently for tags and for fences. *)
Definition take_artifact (found : list (pystr * ExtractedArtifact)) (raw_path : option pystr)
    (kind language : option pystr) (body : pystr) : list (pystr * ExtractedArtifact) :=
  match raw_path with
  | Some ((_ :: _) as raw) =>
      match sanitise_path raw with
      | Err _ => found
      | Ok path =>
          let content := slice_to MAX_ARTIFACT_BYTES (strip_chars [10%N] body) in
          assoc_set path
            (mkArtifact path (default [] (opt_or kind (Some (kind_for language path))))
               language content) found
      end
  | _ => found
  end.

Definition take_tag (found : list (pystr * ExtractedArtifact)) (m : list (nat * pystr)) :=
  let attrs := parse_attrs (default [] (group 2 m)) in
  take_artifact found (opt_or (assoc (u "path") attrs) (assoc (u "name") attrs))
    (assoc (u "kind") attrs) (opt_or (assoc (u "lang") attrs) (assoc (u "language") attrs))
    (default [] (group 3 m)).

Definition take_fence (found : list (pystr * ExtractedArtifact)) (m : list (nat * pystr)) :=
  let attrs := parse_attrs (default [] (group 2 m)) in
  take_artifact found (assoc (u "path") attrs) None (opt_or (group 1 m) None)
    (default [] (group 3 m)).

Definition extract (text : pystr) : list ExtractedArtifact :=
  let found := fold_left take_tag (finditer TAG text) [] in
  (fold_left take_fence (finditer FENCE text) found).*2.
End extraction.

(** ** Which paths are accepted *)

(** A relative path below the artifact root: no part of it is empty, [.] or [..],
    and it has no backslash and no NUL. *)
Definition safe_path (p : pystr) : Prop :=
  p ≠ [] ∧ py_len p ≤ MAX_PATH_LENGTH ∧ (0%N ∉ p) ∧ (92%N ∉ p) ∧
  Forall (λ part, part ≠ ([] : pystr) ∧ part ≠ u "." ∧ part ≠ u "..") (split (u "/") p).

Definition kept_part (part : pystr) : Prop := part ≠ [] ∧ part ≠ u ".".
#[global] Instance kept_part_dec part : Decision (kept_part part).
Proof. unfold kept_part. apply _. Defined.

(** What [sanitise_path] accepts, on the cleaned path. *)
Definition acceptable (path : pystr) : Prop :=
  path ≠ [] ∧ py_len path ≤ MAX_PATH_LENGTH ∧ (0%N ∉ path) ∧
  head path ≠ Some 47%N ∧ drive_letter path = false ∧
  (u ".." ∉ split (u "/") path) ∧ filter kept_part (split (u "/") path) ≠ [].

Section path_lemmas.
Context `{PyTables}.

Lemma path_parts_spec raw parts :
  path_parts raw parts =
    if bool_decide (u ".." ∈ parts)
    then Err (UnsafeArtifactPath (u "path traversal is not allowed: " ++ repr_str raw))
    else Ok (filter kept_part parts).
Proof.
  induction parts as [|part parts IH]; cbn [path_parts].
  { rewrite bool_decide_eq_false_2; [done|]. apply not_elem_of_nil. }
  rewrite IH, filter_cons.
  destruct (decide (part = u "..")) as [->|Hdd].
  { rewrite (bool_decide_eq_true_2 (u ".." ∈ u ".." :: parts)); [done|].
    apply elem_of_cons. by left. }
  rewrite (bool_decide_ext (u ".." ∈ part :: parts) (u ".." ∈ parts)).
  2: { rewrite elem_of_cons. split; [intros [Heq|]; [by rewrite Heq in Hdd|done]|by right]. }
  rewrite (bool_decide_eq_false_2 (part = u "..")) by done.
  destruct (decide (kept_part part)) as [[Hk1 Hk2]|Hk].
  - rewrite !(bool_decide_eq_false_2 (part = _)) by done. simpl. by case_bool_decide.
  - assert (bool_decide (part = []) || bool_decide (part = u ".") = true) as ->; [|done].
    apply not_and_l in Hk as [Hk|Hk]; apply dec_stable in Hk as ->; [done|].
    by rewrite orb_true_r.
Qed.

Lemma clean_path_no_backslash raw : 92%N ∉ clean_path raw.
Proof.
  unfold clean_path, replace_all. intros [Hc|(p & Hp & Hc)]%elem_of_join.
  - apply list_elem_of_singleton in Hc. done.
  - destruct (split_char 92%N (strip_chars [34; 39]%N (strip raw))) as [Hf _].
    rewrite Forall_forall in Hf. by apply (Hf p).
Qed.

Lemma sum_list_filter_le (P : pystr → Prop) `{∀ x, Decision (P x)} (l : list pystr) :
  (sum_list_with length (filter P l) ≤ sum_list_with length l)%nat.
Proof.
  induction l as [|x l IH]; [done|]. rewrite filter_cons. case_decide; simpl; lia.
Qed.

(** Dropping parts does not lengthen a path. *)
Lemma join_filter_length (P : pystr → Prop) `{∀ x, Decision (P x)} sep (l : list pystr) :
  (length (join sep (filter P l)) ≤ length (join sep l))%nat.
Proof.
  destruct (decide (filter P l = [])) as [->|Hne]; [simpl; lia|].
  assert (l ≠ []) by (by intros ->).
  rewrite !join_length_eq by done.
  pose proof (sum_list_filter_le P l). pose proof (filter_length_le P l).
  apply Nat.add_le_mono; [done|]. apply Nat.mul_le_mono_l. lia.
Qed.

Lemma split_join_filter (P : pystr → Prop) `{∀ x, Decision (P x)} c s :
  filter P (split [c] s) ≠ [] →
  split [c] (join [c] (filter P (split [c] s))) = filter P (split [c] s).
Proof.
  intros Hne. unfold split at 1. apply split_join_char; [done| |done].
  apply Forall_forall. intros p [_ Hp]%list_elem_of_filter.
  destruct (split_char c s) as [Hf _]. rewrite Forall_forall in Hf. by apply Hf.
Qed.

Lemma slash_eq : u "/" = [47%N].
Proof. reflexivity. Qed.

(** The parts that are kept make up a safe path. *)
Lemma acceptable_safe path :
  acceptable path → 92%N ∉ path →
  safe_path (join (u "/") (filter kept_part (split (u "/") path))).
Proof.
  rewrite slash_eq. intros (_ & Hlen & Hnul & _ & _ & Hdd & Hne) Hbs. rewrite slash_eq in *.
  set (parts := filter kept_part (split [47%N] path)) in *.
  destruct (split_char 47%N path) as [_ Hj].
  assert (Hin : ∀ c, c ≠ 47%N → c ∈ join [47%N] parts → c ∈ path).
  { intros c Hc [->%list_elem_of_singleton|(p & Hp & Hcp)]%elem_of_join; [done|].
    apply list_elem_of_filter in Hp as [_ Hp]. rewrite <- Hj. by eapply elem_of_join_in. }
  split_and!.
  - intros Heq. assert (Hs : split [47%N] (join [47%N] parts) = parts) by by apply split_join_filter.
    rewrite Heq in Hs. change (split [47%N] []) with [[] : pystr] in Hs.
    assert (([] : pystr) ∈ parts) as Hin0 by (rewrite <- Hs; by apply list_elem_of_singleton).
    apply list_elem_of_filter in Hin0 as [[? _] _]. done.
  - unfold py_len in *. pose proof (join_filter_length kept_part [47%N] (split [47%N] path)) as Hl.
    rewrite Hj in Hl. fold parts in Hl. lia.
  - intros Hc. by apply Hin in Hc.
  - intros Hc. by apply Hin in Hc.
  - rewrite slash_eq. unfold parts. rewrite split_join_filter by done.
    apply Forall_forall. intros p [[Hp1 Hp2] Hp]%list_elem_of_filter. split_and!; [done..|].
    intros ->. done.
Qed.

Lemma contains_char c s : contains [c] s = true ↔ c ∈ s.
Proof.
  unfold contains. destruct (partition_at [c] s) as [[a b]|] eqn:Hp.
  - apply partition_at_char_Some in Hp as [-> _]. split; [|done]. intros _.
    apply elem_of_app. right. apply elem_of_cons. by left.
  - apply partition_at_char_None in Hp. done.
Qed.

Lemma sanitise_path_eq raw :
  sanitise_path raw = Ok (join (u "/") (filter kept_part (split (u "/") (clean_path raw))))
    ∧ acceptable (clean_path raw)
  ∨ (∃ msg, sanitise_path raw = Err (UnsafeArtifactPath msg)) ∧ ¬ acceptable (clean_path raw).
Proof.
  unfold sanitise_path, acceptable. set (path := clean_path raw).
  case_bool_decide as Hnil; [right; split; [by eexists|tauto]|].
  destruct (Z.gtb_spec (py_len path) MAX_PATH_LENGTH) as [Hlen|Hlen];
    [right; split; [by eexists|lia]|].
  destruct (contains [0%N] path) eqn:Hnul;
    [right; split; [by eexists|apply contains_char in Hnul; tauto]|].
  assert (0%N ∉ path) by (intros Hc; apply contains_char in Hc; congruence).
  destruct (startswith (u "/") path) eqn:Hs; simpl.
  { right. split; [by eexists|]. apply startswith_char in Hs. tauto. }
  assert (head path ≠ Some 47%N) by (intros Hc; apply startswith_char in Hc; by rewrite slash_eq in Hs; congruence).
  destruct (drive_letter path); [right; split; [by eexists|]; intros (?&?&?&?&?&?); done|].
  rewrite path_parts_spec. case_bool_decide as Hdd.
  { right. split; [by eexists|tauto]. }
  simpl. destruct (filter kept_part (split (u "/") path)) as [|p ps] eqn:Hf.
  { right. split; [by eexists|tauto]. }
  left. split; [done|]. split_and!; try done.
Qed.
End path_lemmas.

(** ** Every artifact extracted is safe *)

Definition artifact_ok (a : ExtractedArtifact) : Prop :=
  safe_path (x_path a) ∧ py_len (x_content a) ≤ MAX_ARTIFACT_BYTES.

(** The dict [found]: one entry per path, stored under the artifact's own path. *)
Definition found_ok (found : list (pystr * ExtractedArtifact)) : Prop :=
  NoDup found.*1 ∧ Forall (λ kv, kv.1 = x_path kv.2 ∧ artifact_ok kv.2) found.

Section extract_lemmas.
Context `{PyTables}.

Lemma sanitise_path_Ok_safe raw p : sanitise_path raw = Ok p → safe_path p.
Proof.
  destruct (sanitise_path_eq raw) as [[-> Ha]|[[m ->] _]]; intros [= <-].
  apply acceptable_safe; [done|apply clean_path_no_backslash].
Qed.

Lemma take_artifact_ok found raw kind lang body :
  found_ok found → found_ok (take_artifact found raw kind lang body).
Proof.
  intros [Hn Hf]. unfold take_artifact. destruct raw as [[|c raw]|]; [done| |done].
  destruct (sanitise_path (c :: raw)) as [path|] eqn:Hs; [|done].
  split; [by apply assoc_set_NoDup|]. apply Forall_assoc_set_pair; [done|].
  simpl. split; [done|]. split; [by eapply sanitise_path_Ok_safe|].
  by apply length_slice_to.
Qed.

Lemma take_all_ok {M} (take : list (pystr * ExtractedArtifact) → M → _) ms found :
  (∀ found m, found_ok found → found_ok (take found m)) →
  found_ok found → found_ok (fold_left take ms found).
Proof. intros Ht. revert found. induction ms; simpl; auto. Qed.

Lemma found_ok_nil : found_ok [].
Proof. split; [apply NoDup_nil_2|constructor]. Qed.

(** What [extract] stores under a path is what its last accepted block says. *)
Lemma assoc_take_artifact found raw kind lang body p :
  assoc p (take_artifact found raw kind lang body) =
    match opt_or raw None with
    | Some r =>
        match sanitise_path r with
        | Ok p' => if decide (p = p')
                   then Some (mkArtifact p (default [] (opt_or kind (Some (kind_for lang p)))) lang
                                (slice_to MAX_ARTIFACT_BYTES (strip_chars [10%N] body)))
                   else assoc p found
        | Err _ => assoc p found
        end
    | None => assoc p found
    end.
Proof.
  unfold take_artifact. destruct raw as [[|c raw]|]; cbn [opt_or]; [reflexivity| |reflexivity].
  destruct (sanitise_path (c :: raw)) as [path|]; [|reflexivity].
  destruct (decide (p = path)) as [->|Hne]; [by rewrite assoc_set_eq|by rewrite assoc_set_ne].
Qed.
End extract_lemmas.

(** ** Properties *)

(** C14: whatever a model writes as a path, a path that [sanitise_path] returns
    stays below the artifact root: it is not empty, has at most 400 characters,
    no backslash, no NUL, does not begin with a slash, and none of its parts is
    empty, [.] or [..]. *)
Theorem sanitise_path_safe `{PyTables} raw p :
  sanitise_path raw = Ok p → safe_path p ∧ head p ≠ Some 47%N.
Proof.
  intros Hs. pose proof (sanitise_path_Ok_safe _ _ Hs) as Hp. split; [done|].
  destruct Hp as (_ & _ & _ & _ & Hparts). destruct p as [|c p]; [done|]. intros [= ->].
  unfold split in Hparts. simpl in Hparts. apply Forall_cons in Hparts as [[? _] _]. done.
Qed.

(** [sanitise_path] accepts exactly the paths that, once trimmed and with
    slashes normalised, are non-empty, at most 400 characters, without NUL,
    relative, without drive letter, without [..] and not made of empty parts
    only; the result is the path without its empty and [.] parts, and every
    refusal is an [UnsafeArtifactPath], the exception [extract] catches. *)
Theorem sanitise_path_spec `{PyTables} raw :
  (∀ p, sanitise_path raw = Ok p ↔
     acceptable (clean_path raw) ∧
     p = join (u "/") (filter kept_part (split (u "/") (clean_path raw)))) ∧
  (∀ e, sanitise_path raw = Err e → ∃ msg, e = UnsafeArtifactPath msg).
Proof.
  destruct (sanitise_path_eq raw) as [[-> Ha]|[[m ->] Ha]]; split.
  - intros p. split; [by intros [= <-]|by intros [_ ->]].
  - done.
  - intros p. split; [done|by intros [? _]].
  - intros e [= <-]. by exists m.
Qed.

(** for any text, [extract] returns artifacts with distinct safe paths whose
    contents have at most MAX_ARTIFACT_BYTES characters. *)
Theorem extract_safe `{PyTables} text :
  NoDup (map x_path (extract text)) ∧ Forall artifact_ok (extract text).
Proof.
  assert (found_ok (fold_left take_fence (finditer FENCE text)
            (fold_left take_tag (finditer TAG text) []))) as [Hn Hf].
  { apply take_all_ok; [intros; by apply take_artifact_ok|].
    apply take_all_ok; [intros; by apply take_artifact_ok|apply found_ok_nil]. }
  unfold extract. set (found := fold_left take_fence _ _) in *. clearbody found. split.
  - assert (map x_path found.*2 = found.*1) as ->; [|done].
    rewrite <- list_fmap_compose. apply list_fmap_ext. intros i kv Hkv%list_elem_of_lookup_2.
    rewrite Forall_forall in Hf. symmetry. by apply Hf.
  - apply Forall_fmap. eapply Forall_impl; [exact Hf|]. by intros kv [_ ?].
Qed.

(** ** Witnesses *)

Lemma sanitise_path_safe_witness :
  ∃ (T : PyTables) p, sanitise_path (u " ./src//app.py") = Ok p ∧ safe_path p ∧ head p ≠ Some 47%N.
Proof.
  exists ascii_tables, (u "src/app.py"). split; [vm_compute; reflexivity|].
  apply (@sanitise_path_safe ascii_tables (u " ./src//app.py")). vm_compute. reflexivity.
Defined.

Lemma sanitise_path_drive_gap :
  @sanitise_path ascii_tables (u "./C:/x") = Ok (u "C:/x").
Proof. vm_compute. reflexivity. Qed.
