(* ===== verification/Config.v ===== *)
(** * Settings (src/core/config.py)

    The fields of [Settings] as a record, the defaults the class declares, and
    the checks pydantic runs when the settings are built.  Code that calls
    [get_settings()] takes the record as an argument. *)

From S2P Require Import Prelude PyStr PyFloat PyVal PyJson.

Record Settings := mkSettings {
  cfg_env : pystr;
  cfg_master_keys : list (pystr * pystr); cfg_master_key_version : pystr;
  cfg_jwt_secret : pystr; cfg_jwt_algorithm : pystr;
  cfg_access_token_ttl_minutes : Z; cfg_refresh_token_ttl_days : Z; cfg_password_min_length : Z;
  cfg_anthropic_api_key : option pystr; cfg_openai_api_key : option pystr;
  cfg_xai_api_key : option pystr; cfg_google_api_key : option pystr;
  cfg_openrouter_api_key : option pystr;
  cfg_tools_enabled : bool; cfg_tools_network_enabled : bool;
  cfg_max_tool_iterations : Z; cfg_max_tool_calls_per_turn : Z;
  cfg_tool_allowed_hosts : list pystr; cfg_tool_blocked_hosts : list pystr;
  cfg_search_provider : pystr;
  cfg_brave_search_api_key : option pystr; cfg_tavily_api_key : option pystr;
  cfg_max_steps_per_run : Z; cfg_max_cost_cents_per_run : Z;
  cfg_step_timeout_seconds : Z; cfg_run_timeout_seconds : Z; cfg_max_board_chars : Z;
  cfg_billing_enabled : bool; cfg_credit_markup_percent : Z; cfg_signup_bonus_cents : Z;
  cfg_rate_limit_runs_per_minute : Z; cfg_rate_limit_api_per_minute : Z;
  cfg_max_concurrent_runs_per_org : Z;
  cfg_cors_origins : list pystr; cfg_trusted_hosts : list pystr; cfg_max_request_bytes : Z }.

Definition default_settings : Settings := {|
  cfg_env := u "dev";
  cfg_master_keys := []; cfg_master_key_version := u "1";
  cfg_jwt_secret := []; cfg_jwt_algorithm := u "HS256";
  cfg_access_token_ttl_minutes := 15; cfg_refresh_token_ttl_days := 30; cfg_password_min_length := 12;
  cfg_anthropic_api_key := None; cfg_openai_api_key := None; cfg_xai_api_key := None;
  cfg_google_api_key := None; cfg_openrouter_api_key := None;
  cfg_tools_enabled := true; cfg_tools_network_enabled := true;
  cfg_max_tool_iterations := 8; cfg_max_tool_calls_per_turn := 6;
  cfg_tool_allowed_hosts := []; cfg_tool_blocked_hosts := [];
  cfg_search_provider := u "none";
  cfg_brave_search_api_key := None; cfg_tavily_api_key := None;
  cfg_max_steps_per_run := 40; cfg_max_cost_cents_per_run := 500;
  cfg_step_timeout_seconds := 600; cfg_run_timeout_seconds := 3600; cfg_max_board_chars := 400000;
  cfg_billing_enabled := true; cfg_credit_markup_percent := 40; cfg_signup_bonus_cents := 100;
  cfg_rate_limit_runs_per_minute := 20; cfg_rate_limit_api_per_minute := 300;
  cfg_max_concurrent_runs_per_org := 5;
  cfg_cors_origins := [u "http://localhost:3000"]; cfg_trusted_hosts := [u "*"];
  cfg_max_request_bytes := 2 * 1024 * 1024 |}.

Section checks.
Context `{PyTables}.

Definition is_production (s : Settings) : bool :=
  let e := lower (cfg_env s) in bool_decide (e = u "production") || bool_decide (e = u "prod").

Definition missing_secrets (s : Settings) : list pystr :=
  (match cfg_master_keys s with [] => [u "MASTER_KEYS"] | _ => [] end) ++
  (if bool_decide (cfg_jwt_secret s = []) || (py_len (cfg_jwt_secret s) <? 32)
   then [u "JWT_SECRET (>=32 chars)"] else []) ++
  (if bool_decide (u "*" ∈ cfg_cors_origins s)
   then [u "CORS_ORIGINS (wildcard is not allowed in production)"] else []).

Definition check_production_secrets (s : Settings) : res exn Settings :=
  if is_production s
  then match missing_secrets s with
       | [] => Ok s
       | missing => Err (ValueError (u "refusing to start in production without: "
                                       ++ join (u ", ") missing))
       end
  else Ok s.

Definition known_search_provider (value : pystr) : res exn pystr :=
  if bool_decide (value ∈ [u "none"; u "brave"; u "tavily"]) then Ok value
  else Err (ValueError (u "SEARCH_PROVIDER must be one of ['brave', 'none', 'tavily']")).
End checks.

(** Settings accepted in production have a master key, a JWT secret of at least 32
    characters and no wildcard origin. *)
Lemma production_settings_safe `{PyTables} s :
  is_production s = true → check_production_secrets s = Ok s ↔
  cfg_master_keys s ≠ [] ∧ 32 ≤ py_len (cfg_jwt_secret s) ∧ ¬ (u "*" ∈ cfg_cors_origins s).
Proof.
  intros Hp. unfold check_production_secrets, missing_secrets. rewrite Hp.
  destruct (cfg_master_keys s) as [|k ks].
  { simpl. split; [done|]. by intros [? _]. }
  assert (Hlen : cfg_jwt_secret s = [] → py_len (cfg_jwt_secret s) < 32) by (by intros ->).
  destruct (Z.ltb_spec (py_len (cfg_jwt_secret s)) 32).
  { rewrite orb_true_r. simpl. split; [done|]. intros (_ & ? & _). lia. }
  rewrite bool_decide_eq_false_2 by (intros E; apply Hlen in E; lia). simpl.
  case_bool_decide; simpl; split; try done. by intros (_ & _ & ?).
Qed.

(** ** Reading the settings

    The settings come from environment variables as strings: the validators that
    run before pydantic's own accept master keys as a JSON object or as one bare
    key, and lists of hosts and origins as JSON or separated by commas. *)

Section reading.
Context `{PyTables}.

(** [_parse_master_keys] *)
Definition parse_master_keys (value : pyval) : res exn pyval :=
  match value with
  | VNone | VStr [] => Ok (VDict [])
  | VDict _ => Ok value
  | VStr s =>
      let text := strip s in
      if startswith (u "{") text then loads text else Ok (VDict [(u "1", VStr text)])
  | _ => Ok value
  end.

(** [_split_csv] *)
Definition split_csv (value : pyval) : res exn pyval :=
  match value with
  | VStr s =>
      let text := strip s in
      if startswith (u "[") text then loads text
      else Ok (VList (map (λ item, VStr (strip item))
                        (List.filter (λ item, negb (bool_decide (strip item = []))) (split (u ",") text))))
  | _ => Ok value
  end.

(** ** Lists as an operator writes them *)

(** A host or an origin: not empty, no blanks around it, no comma in it *)
Record tidy (h : pystr) : Prop := {
  td_head : ∃ c, head h = Some c ∧ is_space c = false;
  td_last : ∃ c, last h = Some c ∧ is_space c = false;
  td_comma : 44%N ∉ h }.

Lemma strip_ends h :
  (∃ c, head h = Some c ∧ is_space c = false) → (∃ c, last h = Some c ∧ is_space c = false) → strip h = h.
Proof.
  intros (c & Hc & Hcs) (d & Hd & Hds). unfold strip, strip_by, lstrip_by, rstrip_by.
  destruct h as [|x h]; [done|]. injection Hc as ->. cbn [drop_while]. rewrite Hcs.
  assert (head (reverse (c :: h)) = Some d) as Hr by (by rewrite head_reverse).
  destruct (reverse (c :: h)) as [|y l] eqn:Hl; [done|]. injection Hr as ->. cbn [drop_while]. rewrite Hds.
  by rewrite <-Hl, reverse_involutive.
Qed.

Lemma strip_blank h : strip (32%N :: h) = strip h.
Proof. reflexivity. Qed.

Lemma tidy_strip h : tidy h → strip h = h.
Proof. intros [H1 H2 _]. by apply strip_ends. Qed.
Lemma tidy_cons h : tidy h → h ≠ [].
Proof. intros [(c & Hc & _) _ _]. by destruct h. Qed.

Lemma join_blank sep x l : 32%N :: join sep (x :: l) = join sep ((32%N :: x) :: l).
Proof. by destruct l. Qed.
Lemma join_blank_comma h l :
  join (u ", ") (h :: l) = join (u ",") (h :: map (λ x, 32%N :: x) l).
Proof.
  revert h. induction l as [|x l IH]; intros h; [done|].
  change (join (u ", ") (h :: x :: l)) with (h ++ u "," ++ 32%N :: join (u ", ") (x :: l)).
  rewrite IH, join_blank. done.
Qed.

Lemma join_last sep h l :
  Forall (λ x, x ≠ []) (h :: l) → ∃ x, x ∈ h :: l ∧ last (join sep (h :: l)) = last x.
Proof.
  revert h. induction l as [|y l IH]; intros h Hne; [exists h; by split; [left|]|].
  apply Forall_cons in Hne as [_ Hne]. destruct (IH y Hne) as (x & Hin & Hx).
  exists x. split; [by right|].
  change (join sep (h :: y :: l)) with (h ++ sep ++ join sep (y :: l)).
  rewrite !last_app, Hx. rewrite Forall_forall in Hne. specialize (Hne x Hin).
  destruct (last x) eqn:Hl; [done|]. by apply last_None in Hl.
Qed.

Lemma join_tidy sep h l : Forall tidy (h :: l) → strip (join sep (h :: l)) = join sep (h :: l).
Proof.
  intros Ht. apply strip_ends.
  - apply Forall_cons in Ht as [[(c & Hc & Hs) _ _] _]. exists c. split; [|done].
    destruct h as [|x h]; [done|]. destruct l; done.
  - destruct (join_last sep h l) as (x & Hin & Hx); [eapply Forall_impl; [exact Ht|apply tidy_cons]|].
    rewrite Hx. rewrite Forall_forall in Ht. by destruct (Ht x Hin).
Qed.

Lemma split_commas parts : parts ≠ [] → Forall (λ p, 44%N ∉ p) parts → split (u ",") (join (u ",") parts) = parts.
Proof. intros Hne Hf. by apply split_join_char. Qed.

Lemma read_items (pad : pystr → pystr) h l :
  (∀ x, strip (pad x) = strip x) → Forall tidy (h :: l) →
  map (λ item, VStr (strip item))
    (List.filter (λ item, negb (bool_decide (strip item = []))) (h :: map pad l)) = map VStr (h :: l).
Proof.
  intros Hpad Ht.
  assert (Hkeep : ∀ x, x ∈ h :: l → strip x = x ∧ bool_decide (strip x = []) = false).
  { rewrite Forall_forall in Ht. intros x Hx. apply Ht in Hx. rewrite tidy_strip by done.
    split; [done|]. by apply bool_decide_eq_false_2, tidy_cons. }
  assert (Hrest : ∀ l', (∀ x, x ∈ l' → x ∈ h :: l) →
    map (λ item, VStr (strip item)) (List.filter (λ item, negb (bool_decide (strip item = []))) (map pad l')) = map VStr l').
  { induction l' as [|x l' IH]; intros Hsub; [done|]. cbn [map List.filter]. rewrite Hpad.
    destruct (Hkeep x) as [Hx ->]; [apply Hsub; by left|]. cbn [negb map]. rewrite Hpad, Hx. f_equal.
    apply IH. intros y Hy. apply Hsub. by right. }
  cbn [List.filter]. destruct (Hkeep h) as [Hh ->]; [by left|]. cbn [negb map]. rewrite Hh. f_equal.
  apply Hrest. intros x Hx. by right.
Qed.

(** a list of hosts or origins written with commas, with or without a blank after
    each, is read back as that list. *)
Theorem listed_hosts_read_back h l :
  Forall tidy (h :: l) → startswith (u "[") h = false →
  split_csv (VStr (join (u ", ") (h :: l))) = Ok (VList (map VStr (h :: l))) ∧
  split_csv (VStr (join (u ",") (h :: l))) = Ok (VList (map VStr (h :: l))).
Proof.
  intros Ht Hb.
  assert (Hno : ∀ sep, startswith (u "[") (join sep (h :: l)) = false).
  { intros sep. apply Forall_cons in Ht as [[(c & Hc & _) _ _] _].
    destruct h as [|x h]; [done|]. destruct l; exact Hb. }
  assert (Hcomma : Forall (λ p, 44%N ∉ p) (h :: l)) by (eapply Forall_impl; [exact Ht|by intros x []]).
  unfold split_csv. rewrite !join_tidy, !Hno by done. rewrite join_blank_comma.
  rewrite !split_commas; [| |exact Hcomma|done|].
  - split; [by rewrite read_items|]. rewrite <-(map_id l) at 1. by rewrite (read_items (λ x, x)).
  - done.
  - apply Forall_cons in Hcomma as [Hh Hl]. constructor; [done|]. apply Forall_map.
    eapply Forall_impl; [exact Hl|]. intros x Hx Hin. cbn in Hin. apply elem_of_cons in Hin as [Hin|Hin]; done.
Qed.

End reading.

Lemma listed_hosts_read_back_witness :
  ∃ T : PyTables,
    split_csv (VStr (u "a.example, b.example")) = Ok (VList [VStr (u "a.example"); VStr (u "b.example")]).
Proof.
  exists ascii_tables.
  refine (proj1 (listed_hosts_read_back (u "a.example") [u "b.example"] _ eq_refl)).
  repeat constructor; try (eexists; split; [reflexivity|reflexivity]);
    apply (bool_decide_unpack _); vm_compute; exact I.
Defined.
