(* ===== verification/State.v ===== *)
(** * Run state (src/core/orchestration/state.py)

    The board every agent of a run reads and writes, the artifact store with its
    version counters and its log, and the renderings of both for a prompt.
    [record_artifact] mutates in the order the code does, so a content that has
    no UTF-8 encoding leaves the counter and the content changed and the log not. *)

From S2P Require Import Prelude PyStr PyFloat PyVal.

Record AgentSpec := mkAgent {
  ag_id : pystr; ag_name : pystr; ag_role : pystr; ag_system_prompt : pystr;
  ag_model : pystr; ag_effort : pystr; ag_max_tokens : Z; ag_tools : list pyval }.

Record BoardEntry := mkEntry {
  e_agent_id : pystr; e_agent_name : pystr; e_role : pystr; e_content : pystr;
  e_step_index : Z; e_visible_to : option (list pystr) }.

Definition is_visible_to (e : BoardEntry) (agent_id : pystr) : bool :=
  match e_visible_to e with
  | None => true
  | Some ids => bool_decide (agent_id ∈ ids)
  end.

Record ArtifactRef := mkRef {
  ar_path : pystr; ar_version : Z; ar_kind : pystr; ar_size_bytes : Z; ar_produced_by : pystr }.

Record RunState := mkState {
  st_user_input : pystr;
  st_board : list BoardEntry;
  st_artifacts : list (pystr * pystr);
  st_versions : list (pystr * Z);
  st_log : list ArtifactRef;
  st_final_output : option pystr;
  st_step_index : Z;
  st_notes : list (pystr * pyval) }.

Definition new_state (user_input : pystr) : RunState :=
  mkState user_input [] [] [] [] None 0 [].

Definition set_board b (s : RunState) : RunState :=
  mkState (st_user_input s) b (st_artifacts s) (st_versions s) (st_log s)
    (st_final_output s) (st_step_index s) (st_notes s).
Definition set_artifacts a v l (s : RunState) : RunState :=
  mkState (st_user_input s) (st_board s) a v l (st_final_output s) (st_step_index s) (st_notes s).
Definition set_final_output o (s : RunState) : RunState :=
  mkState (st_user_input s) (st_board s) (st_artifacts s) (st_versions s) (st_log s)
    (Some o) (st_step_index s) (st_notes s).
Definition set_step_index i (s : RunState) : RunState :=
  mkState (st_user_input s) (st_board s) (st_artifacts s) (st_versions s) (st_log s)
    (st_final_output s) i (st_notes s).
Definition set_note k v (s : RunState) : RunState :=
  mkState (st_user_input s) (st_board s) (st_artifacts s) (st_versions s) (st_log s)
    (st_final_output s) (st_step_index s) (assoc_set k v (st_notes s)).

Definition append (agent : AgentSpec) (content : pystr) (visible_to : option (list pystr))
    (s : RunState) : RunState :=
  set_board (st_board s ++
    [mkEntry (ag_id agent) (ag_name agent) (ag_role agent) content (st_step_index s) visible_to]) s.

(** [record_artifact]: bump the counter, store the content, then log the version;
    computing the size of the log entry may raise. *)
Definition record_artifact (path content kind produced_by : pystr) : M RunState exn Z := λ s,
  let version := default 0 (assoc path (st_versions s)) + 1 in
  let s1 := set_artifacts (assoc_set path content (st_artifacts s))
              (assoc_set path version (st_versions s)) (st_log s) s in
  match encoded_len content with
  | Err e => (Err e, s1)
  | Ok size =>
      (Ok version,
       set_artifacts (st_artifacts s1) (st_versions s1)
         (st_log s1 ++ [mkRef path version kind size produced_by]) s1)
  end.

Definition visible_board (agent_id : pystr) (s : RunState) : list BoardEntry :=
  List.filter (λ e, is_visible_to e agent_id) (st_board s).

Definition HEADLINE_LIMIT : Z := 600.

Definition headline (limit : Z) (text : pystr) : pystr :=
  let stripped := strip text in
  if py_len stripped <=? limit then stripped
  else rstrip (slice_to limit stripped) ++ [10%N; 8230%N] ++ u " ["
         ++ str_of_Z (py_len stripped - limit) ++ u " more characters omitted]".

Definition entry_header (e : BoardEntry) : pystr :=
  u "### [" ++ str_of_Z (e_step_index e) ++ u "] " ++ e_agent_name e
    ++ u " (" ++ e_role e ++ u ")".

Definition entry_block (e : BoardEntry) (body : pystr) : pystr :=
  entry_header e ++ [10%N] ++ body.

Definition omitted_note : pystr := u "### (earlier contributions omitted)".

(** The loop of [transcript] over the entries, newest first; it returns the
    blocks in that order. *)
Fixpoint render (max_chars keep_recent position total : Z) (entries : list BoardEntry)
    : list pystr :=
  match entries with
  | [] => []
  | e :: rest =>
      let body := if (keep_recent <=? position) || (max_chars <? total + py_len (e_content e))
                  then headline HEADLINE_LIMIT (e_content e) else e_content e in
      let block := entry_block e body in
      let total' := total + py_len block in
      if max_chars <? total' then [block; omitted_note]
      else block :: render max_chars keep_recent (position + 1) total' rest
  end.

Definition blank_line : pystr := [10; 10]%N.

Definition transcript (agent_id : option pystr) (max_chars keep_recent : Z) (s : RunState)
    : pystr :=
  let entries := match agent_id with
                 | Some ((_ :: _) as id) => visible_board id s
                 | _ => st_board s
                 end in
  match entries with
  | [] => u "(no prior contributions)"
  | _ => join blank_line (reverse (render max_chars keep_recent 0 0 (reverse entries)))
  end.

(** A path without a version counter is a [KeyError]. *)
Definition artifact_line `{PyTables} (versions : list (pystr * Z)) (pc : pystr * pystr) : res exn pystr :=
  match assoc pc.1 versions with
  | None => Err (KeyError pc.1)
  | Some v =>
      n ← encoded_len pc.2;
      Ok (u "- " ++ pc.1 ++ u " (v" ++ str_of_Z v ++ u ", " ++ str_of_Z n ++ u " bytes)")
  end.

Definition artifact_index `{PyTables} (s : RunState) : res exn pystr :=
  match st_artifacts s with
  | [] => Ok (u "(no artifacts yet)")
  | arts => ls ← res_mapM (artifact_line (st_versions s)) (sorted_by_key arts);
            Ok (join [10%N] ls)
  end.

Definition last_output (s : RunState) : pystr :=
  match last (st_board s) with Some e => e_content e | None => st_user_input s end.

(** ** The artifact store *)

(** One counter per stored path, every content encodable, and the log of a path
    lists its versions 1, 2, ..., up to the counter. *)
Record wf_artifacts (s : RunState) : Prop := {
  wf_nodup : NoDup (st_artifacts s).*1;
  wf_keys : (st_versions s).*1 = (st_artifacts s).*1;
  wf_pos : Forall (λ kv, 1 ≤ kv.2) (st_versions s);
  wf_encodable : Forall (λ kv, encodable kv.2 = true) (st_artifacts s);
  wf_log : ∀ p, map ar_version (filter (λ r, ar_path r = p) (st_log s))
                = seqZ 1 (default 0 (assoc p (st_versions s))) }.

Lemma elem_keys_assoc {V} k (d : list (pystr * V)) : k ∈ d.*1 → ∃ v, assoc k d = Some v.
Proof.
  intros Hk. apply has_key_elem in Hk. unfold has_key in Hk.
  destruct (assoc k d) as [v|]; [by exists v|done].
Qed.

Lemma Forall_assoc {V} (P : pystr * V → Prop) k v d :
  Forall P d → assoc k d = Some v → P (k, v).
Proof. intros Hd Hk. apply assoc_Some_elem in Hk. by eapply Forall_forall in Hd. Qed.

Lemma version_nonneg s p : wf_artifacts s → 0 ≤ default 0 (assoc p (st_versions s)).
Proof.
  intros [_ _ Hpos _ _]. destruct (assoc p (st_versions s)) as [v|] eqn:Hv; simpl; [|lia].
  apply (Forall_assoc _ _ _ _ Hpos) in Hv. simpl in Hv. lia.
Qed.

Lemma new_state_wf input : wf_artifacts (new_state input).
Proof. by split; simpl; try constructor. Qed.

(** The parts of a state outside the store do not matter. *)
Lemma wf_artifacts_ext s s' :
  st_artifacts s' = st_artifacts s → st_versions s' = st_versions s → st_log s' = st_log s →
  wf_artifacts s → wf_artifacts s'.
Proof. intros Ha Hv Hl [H1 H2 H3 H4 H5]. split; rewrite ?Ha, ?Hv, ?Hl; try done. Qed.

Definition next_version (path : pystr) (s : RunState) : Z :=
  default 0 (assoc path (st_versions s)) + 1.

Lemma record_artifact_log path content kind by_ s p :
  wf_artifacts s →
  map ar_version (filter (λ r, ar_path r = p)
    (st_log s ++ [mkRef path (next_version path s) kind (utf8_len content) by_]))
  = seqZ 1 (default 0 (assoc p (assoc_set path (next_version path s) (st_versions s)))).
Proof.
  intros Hwf. rewrite filter_app, map_app, (wf_log s Hwf p).
  destruct (decide (path = p)) as [->|Hne].
  - rewrite assoc_set_eq, filter_cons_True by done. rewrite filter_nil. unfold next_version. simpl.
    rewrite seqZ_app by (by apply version_nonneg || lia).
    f_equal. rewrite seqZ_cons, seqZ_nil by lia. f_equal. lia.
  - rewrite assoc_set_ne by done. rewrite filter_cons_False by done.
    by rewrite filter_nil, app_nil_r.
Qed.

(** recording an artifact whose content has an encoding succeeds, returns the
    next version of its path, makes its content the current one, leaves every
    other path alone, appends one entry to the log, and keeps the store well
    formed: the versions logged for a path are 1, 2, ..., its counter. *)
Theorem record_artifact_spec path content kind by_ s :
  wf_artifacts s → encodable content = true →
  ∃ s', record_artifact path content kind by_ s = (Ok (next_version path s), s') ∧
    wf_artifacts s' ∧
    (∀ p, assoc p (st_artifacts s') =
            if decide (p = path) then Some content else assoc p (st_artifacts s)) ∧
    st_log s' = st_log s ++ [mkRef path (next_version path s) kind (utf8_len content) by_] ∧
    st_board s' = st_board s ∧ st_step_index s' = st_step_index s.
Proof.
  intros Hwf Henc. unfold record_artifact, encoded_len. rewrite Henc. eexists.
  split; [reflexivity|]. split; [|split; [|done]].
  - split; simpl.
    + apply assoc_set_NoDup, (wf_nodup s Hwf).
    + by rewrite !assoc_set_keys, (wf_keys s Hwf).
    + apply Forall_assoc_set_pair; [apply (wf_pos s Hwf)|]. simpl.
      pose proof (version_nonneg s path Hwf). lia.
    + by apply Forall_assoc_set_pair; [apply (wf_encodable s Hwf)|].
    + intros p. by apply record_artifact_log.
  - intros p. simpl. destruct (decide (p = path)) as [->|];
      [apply assoc_set_eq|by apply assoc_set_ne].
Qed.

Lemma merge_sort_in {A} (R : relation A) `{∀ x y, Decision (R x y)} (l : list A) x :
  x ∈ merge_sort R l → x ∈ l.
Proof. by rewrite merge_sort_Permutation. Qed.

Lemma res_mapM_Ok {E A B} (f : A → res E B) l :
  (∀ x, x ∈ l → ∃ y, f x = Ok y) →
  ∃ ys, res_mapM f l = Ok ys ∧ length ys = length l.
Proof.
  induction l as [|x l IH]; intros Hf; [by exists []|].
  destruct (Hf x) as [y Hy]; [apply elem_of_cons; by left|].
  destruct IH as (ys & Hys & Hl); [intros z Hz; apply Hf, elem_of_cons; by right|].
  exists (y :: ys). simpl. rewrite Hy. simpl. rewrite Hys. simpl. split; [done|]. by rewrite Hl.
Qed.

(** With a well-formed store, the index of the artifacts can be rendered. *)
Lemma artifact_index_Ok `{PyTables} s : wf_artifacts s → ∃ t, artifact_index s = Ok t.
Proof.
  intros Hwf. unfold artifact_index.
  assert (Hall : ∀ pc, pc ∈ sorted_by_key (st_artifacts s) →
            ∃ y, artifact_line (st_versions s) pc = Ok y).
  { intros [p c] Hin%merge_sort_in. unfold artifact_line. simpl.
    destruct (elem_keys_assoc p (st_versions s)) as [v Hv].
    { rewrite (wf_keys s Hwf). apply list_elem_of_fmap. by exists (p, c). }
    rewrite Hv. pose proof (wf_encodable s Hwf) as He. rewrite Forall_forall in He.
    apply He in Hin. simpl in Hin. unfold encoded_len. rewrite Hin. simpl. by eexists. }
  apply res_mapM_Ok in Hall as (ys & Hys & _).
  destruct (st_artifacts s); [by eexists|]. rewrite Hys. simpl. by eexists.
Qed.

(** ** The transcript *)

Definition full_block (e : BoardEntry) : pystr := entry_block e (e_content e).

Lemma render_verbatim max_chars keep_recent es position total :
  position + py_len es ≤ keep_recent →
  total + sum_Z (map (λ e, py_len (full_block e)) es) ≤ max_chars →
  render max_chars keep_recent position total es = map full_block es.
Proof.
  revert position total. induction es as [|e es IH]; intros position total Hpos Htot; [done|].
  unfold py_len in Hpos. simpl in *.
  assert (0 ≤ sum_Z (map (λ e, py_len (full_block e)) es)).
  { apply sum_Z_nonneg, Forall_map, Forall_true. intros. apply py_len_nonneg. }
  assert (py_len (e_content e) ≤ py_len (full_block e)).
  { unfold full_block, entry_block. rewrite !py_len_app.
    pose proof (py_len_nonneg (entry_header e)). pose proof (py_len_nonneg [10%N]). lia. }
  destruct (Z.leb_spec keep_recent position); [lia|].
  destruct (Z.ltb_spec max_chars (total + py_len (e_content e))); [lia|]. simpl.
  fold (full_block e). destruct (Z.ltb_spec max_chars (total + py_len (full_block e))); [lia|].
  f_equal. apply IH; [unfold py_len; lia|lia].
Qed.

(** The entries an agent sees in its prompt. *)
Definition entries_for (agent_id : option pystr) (s : RunState) : list BoardEntry :=
  match agent_id with
  | Some ((_ :: _) as id) => visible_board id s
  | _ => st_board s
  end.

Lemma headline_length limit text :
  0 ≤ limit → py_len text < 10 ^ 12 → py_len (headline limit text) ≤ limit + 41.
Proof.
  intros Hl Ht. unfold headline. pose proof (length_strip_by is_space text) as Hs.
  fold (strip text) in Hs.
  destruct (Z.leb_spec (py_len (strip text)) limit); [lia|].
  rewrite !py_len_app.
  pose proof (length_rstrip_by is_space (slice_to limit (strip text))) as Hr.
  pose proof (length_slice_to limit (strip text) Hl) as Hsl.
  pose proof (str_of_Z_length 11 (py_len (strip text) - limit)) as Hd.
  unfold rstrip. unfold py_len in *.
  change (10 ^ Z.of_nat 12) with (10 ^ 12) in Hd. specialize (Hd ltac:(lia)).
  change (Z.of_nat (length [10%N; 8230%N])) with 2.
  change (Z.of_nat (length (u " ["))) with 2.
  change (Z.of_nat (length (u " more characters omitted]"))) with 25. lia.
Qed.

Definition fits (H : Z) (e : BoardEntry) : Prop :=
  py_len (entry_header e) ≤ H ∧ py_len (e_content e) < 10 ^ 12.

Lemma render_bounded max_chars keep_recent H es position total :
  Forall (fits H) es → 0 ≤ H → total ≤ max_chars →
  total + sum_Z (map py_len (render max_chars keep_recent position total es))
    ≤ max_chars + H + 642 + py_len omitted_note ∧
  py_len (render max_chars keep_recent position total es) ≤ py_len es + 1.
Proof.
  intros Hes HH. revert position total. induction Hes as [|e es [He1 He2] Hes IH];
    intros position total Htot; simpl render.
  { pose proof (py_len_nonneg omitted_note). simpl. unfold py_len. simpl. lia. }
  set (body := if (_ || _)%bool then _ else _).
  assert (Hb : total + py_len body ≤ max_chars + 641).
  { subst body. pose proof (headline_length HEADLINE_LIMIT (e_content e) ltac:(done) He2) as Hh.
    unfold HEADLINE_LIMIT in *.
    destruct (Z.leb_spec keep_recent position); simpl; [lia|].
    destruct (Z.ltb_spec max_chars (total + py_len (e_content e))); simpl; lia. }
  assert (Hblk : py_len (entry_block e body) ≤ H + 1 + py_len body).
  { unfold entry_block. rewrite !py_len_app. change (py_len [10%N]) with 1. lia. }
  destruct (Z.ltb_spec max_chars (total + py_len (entry_block e body))).
  - cbn [map sum_Z]. rewrite !(py_len_cons _ (_ : list pystr)), py_len_cons.
    pose proof (py_len_nonneg es). unfold py_len at 4. simpl. lia.
  - destruct (IH (position + 1) (total + py_len (entry_block e body)) ltac:(lia)) as [IH1 IH2].
    cbn [map sum_Z]. split; [lia|]. rewrite !py_len_cons. lia.
Qed.

Lemma Forall_visible P id s : Forall P (st_board s) → Forall P (visible_board id s).
Proof.
  unfold visible_board. rewrite !Forall_forall. intros HP x Hx.
  apply HP. apply list_elem_of_In, filter_In in Hx as [Hx _]. by apply list_elem_of_In.
Qed.

Lemma length_visible id s : py_len (visible_board id s) ≤ py_len (st_board s).
Proof. unfold py_len, visible_board. pose proof (List.filter_length_le (λ e, is_visible_to e id) (st_board s)). lia. Qed.

(** whatever the board holds, the transcript an agent is given exceeds the
    limit on characters by at most one header, one headline, the note about
    omitted entries and the blank lines between entries. *)
Theorem transcript_bounded agent_id max_chars keep_recent H s :
  0 ≤ max_chars → 0 ≤ H → Forall (fits H) (st_board s) →
  py_len (transcript agent_id max_chars keep_recent s)
    ≤ max_chars + H + 700 + 2 * py_len (st_board s).
Proof.
  intros Hm HH Hb. unfold transcript. fold (entries_for agent_id s).
  assert (Forall (fits H) (entries_for agent_id s) ∧
          py_len (entries_for agent_id s) ≤ py_len (st_board s)) as [Hf Hl].
  { unfold entries_for. destruct agent_id as [[|c id]|]; [done| |done].
    split; [by apply Forall_visible|apply length_visible]. }
  set (es := entries_for agent_id s) in *. clearbody es.
  assert (py_len omitted_note = 35) as Hn by done.
  pose proof (py_len_nonneg (st_board s)).
  destruct es as [|e es]; [change (py_len (u "(no prior contributions)")) with 24; lia|].
  set (l := e :: es) in *. clearbody l.
  destruct (render_bounded max_chars keep_recent H (reverse l) 0 0) as [Hs Hc];
    [by apply Forall_reverse|done|done|].
  etrans; [apply py_len_join|]. rewrite map_reverse, sum_Z_reverse.
  rewrite !py_len_reverse in *. change (py_len blank_line) with 2. rewrite Hn in Hs.
  clear Hf Hb Hn. revert Hs Hc. generalize (render max_chars keep_recent 0 0 (reverse l)).
  intros r Hs Hc. lia.
Qed.

(** while the visible entries are at most [keep_recent] and fit the limit, the
    transcript is all of them, verbatim and in the order they were written. *)
Theorem transcript_verbatim agent_id max_chars keep_recent s :
  entries_for agent_id s ≠ [] →
  py_len (entries_for agent_id s) ≤ keep_recent →
  sum_Z (map (λ e, py_len (full_block e)) (entries_for agent_id s)) ≤ max_chars →
  transcript agent_id max_chars keep_recent s
    = join blank_line (map full_block (entries_for agent_id s)).
Proof.
  unfold transcript. fold (entries_for agent_id s). set (es := entries_for agent_id s).
  intros Hne Hk Hm. destruct es as [|e es'] eqn:Hes; [done|]. rewrite <- Hes in *.
  rewrite render_verbatim.
  - by rewrite map_reverse, reverse_involutive.
  - unfold py_len in *. rewrite length_reverse. lia.
  - by rewrite map_reverse, sum_Z_reverse.
Qed.

(** Without an encoding the counter and the content are already changed when the
    exception leaves [record_artifact], and the log is not. *)
Lemma record_artifact_unencodable path content kind by_ s :
  encodable content = false →
  ∃ s', record_artifact path content kind by_ s = (Err UnicodeEncodeError, s') ∧
    assoc path (st_artifacts s') = Some content ∧ st_log s' = st_log s.
Proof.
  intros He. unfold record_artifact, encoded_len. rewrite He. eexists. split; [reflexivity|].
  split; [apply assoc_set_eq|done].
Qed.

(** once a content without encoding is in the store, the index of artifacts
    that every later prompt includes cannot be rendered. *)
Theorem unencodable_poisons_index `{PyTables} path content kind by_ s :
  encodable content = false →
  is_ok (artifact_index (record_artifact path content kind by_ s).2) = false.
Proof.
  intros He. destruct (record_artifact_unencodable path content kind by_ s He)
    as (s1 & Hrec & Ha & _). rewrite Hrec. simpl. clear Hrec. revert Ha. generalize s1. intros s' Ha. apply assoc_Some_elem in Ha.
  unfold artifact_index. assert (Hin : (path, content) ∈ sorted_by_key (st_artifacts s')).
  { unfold sorted_by_key. by rewrite merge_sort_Permutation. }
  destruct (st_artifacts s') as [|a l] eqn:Hst; [by apply elem_of_nil in Ha|].
  enough (is_ok (res_mapM (artifact_line (st_versions s')) (sorted_by_key (a :: l))) = false) as Hr
    by (destruct (res_mapM _ _); done).
  induction (sorted_by_key (a :: l)) as [|x xs IH]; [by apply elem_of_nil in Hin|]. simpl.
  apply elem_of_cons in Hin as [<-|Hin].
  - unfold artifact_line. simpl. destruct (assoc path _); [|done]. unfold encoded_len. by rewrite He.
  - destruct (artifact_line _ x); [|done]. simpl. specialize (IH Hin).
    by destruct (res_mapM _ xs).
Qed.

(** ** Witnesses *)

Definition demo_agent : AgentSpec :=
  mkAgent (u "a1") (u "Ada") (u "engineer") [] (u "gpt-5") (u "medium") 8000 [].
Definition demo_state : RunState :=
  append demo_agent (u "second") None (append demo_agent (u "first") None (new_state (u "go"))).

Lemma record_artifact_spec_witness :
  ∃ s', record_artifact (u "a.md") (u "hi") (u "text") (u "Ada") (new_state (u "go")) = (Ok 1, s')
        ∧ wf_artifacts s'.
Proof.
  destruct (record_artifact_spec (u "a.md") (u "hi") (u "text") (u "Ada") (new_state (u "go"))
              (new_state_wf _) eq_refl) as (s' & H1 & H2 & _).
  exists s'. split; [exact H1|exact H2].
Defined.

Lemma transcript_bounded_witness :
  py_len (transcript (Some (u "a1")) 20 6 demo_state) ≤ 20 + 40 + 700 + 2 * 2.
Proof.
  apply (transcript_bounded (Some (u "a1")) 20 6 40 demo_state); [lia|lia|].
  repeat constructor; vm_compute; congruence.
Defined.

Lemma transcript_verbatim_witness :
  transcript (Some (u "a1")) 400 6 demo_state
    = join blank_line (map full_block (entries_for (Some (u "a1")) demo_state)).
Proof.
  apply transcript_verbatim; [done|vm_compute; congruence|vm_compute; congruence].
Defined.

Lemma unencodable_poisons_index_witness :
  is_ok (@artifact_index ascii_tables
    (record_artifact (u "a.md") [55357%N] (u "text") (u "Ada") (new_state (u "go"))).2) = false.
Proof. apply (@unencodable_poisons_index ascii_tables). reflexivity. Defined.
