(* ===== verification/Budget.v ===== *)
(** * The run's budget (src/core/orchestration/budget.py)

    [check_before_step] is evaluated before every model call; it reads the
    cancellation flag and the clock, which are arguments here.  Times are floats
    in the units of PyFloat. *)

From S2P Require Import Prelude PyStr PyFloat PyVal.

Record BudgetGuard := mkBudget {
  b_max_steps : Z;
  b_max_cost : Z;                (* micro-cents *)
  b_max_seconds : Z;
  b_steps_used : Z;
  b_spent : Z;                   (* micro-cents *)
  b_started_at : Z;
  b_warned : bool }.

Definition new_budget (max_steps max_cost max_seconds now : Z) : BudgetGuard :=
  mkBudget max_steps max_cost max_seconds 0 0 now false.

Definition elapsed_seconds (now : Z) (b : BudgetGuard) : Z := rnd (now - b_started_at b) 1.
Definition remaining_microcents (b : BudgetGuard) : Z := Z.max (b_max_cost b - b_spent b) 0.

(** [int(self.max_cost_microcents * 0.8)] *)
Definition warn_threshold (b : BudgetGuard) : res exn Z :=
  match fl_of_Z (b_max_cost b) with
  | Some x =>
      match fl_mul x (fl_lit 4 5) with
      | Some y => Ok (fl_trunc y)
      | None => Err (OverflowError (u "cannot convert float infinity to integer"))
      end
  | None => Err (OverflowError (u "int too large to convert to float"))
  end.

(** [f"{x:.2f}"] and [f"{x:.0f}"]: correctly rounded decimals *)
Definition pad2 (n : Z) : pystr := if n <? 10 then u "0" ++ str_of_Z n else str_of_Z n.
Definition fixed2 (x : Z) : pystr :=
  let c := rhe (Z.abs x * 100) fl_one in
  (if x <? 0 then u "-" else []) ++ str_of_Z (c / 100) ++ u "." ++ pad2 (c mod 100).
Definition fixed0 (x : Z) : pystr :=
  (if x <? 0 then u "-" else []) ++ str_of_Z (rhe (Z.abs x) fl_one).

Definition cost_limit_text (b : BudgetGuard) : res exn pystr :=
  match fl_div_ZZ (b_max_cost b) 1000000 with
  | Some x => Ok (u "cost limit reached (" ++ fixed2 x ++ u " cents)")
  | None => Err (OverflowError (u "integer division result too large for a float"))
  end.

(** [cancelled]: a cancel check is set and answered true; [now]: the clock. *)
Definition check_before_step (cancelled : bool) (now : Z) (b : BudgetGuard) : res exn unit :=
  if cancelled then Err (RunCancelled (u "cancelled by user"))
  else if b_max_steps b <=? b_steps_used b
  then Err (BudgetExceeded (u "step limit reached (" ++ str_of_Z (b_max_steps b) ++ u " steps)"))
  else if b_max_cost b <=? b_spent b
  then msg ← cost_limit_text b; Err (BudgetExceeded msg)
  else if b_max_seconds b <=? elapsed_seconds now b
  then Err (RunTimedOut (u "time limit reached (" ++ fixed0 (b_max_seconds b) ++ u "s)"))
  else Ok tt.

Definition record (cost : Z) (b : BudgetGuard) : BudgetGuard :=
  mkBudget (b_max_steps b) (b_max_cost b) (b_max_seconds b) (b_steps_used b + 1)
    (b_spent b + cost) (b_started_at b) (b_warned b).

Definition set_warned (b : BudgetGuard) : BudgetGuard :=
  mkBudget (b_max_steps b) (b_max_cost b) (b_max_seconds b) (b_steps_used b) (b_spent b)
    (b_started_at b) true.

Definition take_warning : M BudgetGuard exn bool := λ b,
  if b_warned b then (Ok false, b)
  else match warn_threshold b with
       | Err e => (Err e, b)
       | Ok t => if b_spent b <? t then (Ok false, b) else (Ok true, set_warned b)
       end.

(** ** What passing the check means *)

Definition within_budget (now : Z) (b : BudgetGuard) : Prop :=
  b_steps_used b < b_max_steps b ∧ b_spent b < b_max_cost b ∧
  elapsed_seconds now b < b_max_seconds b.

(** The statuses a refused check can give the run, in the order of the tests. *)
Inductive check_verdict (cancelled : bool) (now : Z) (b : BudgetGuard) : res exn unit → Prop :=
| verdict_go : cancelled = false → within_budget now b → check_verdict cancelled now b (Ok tt)
| verdict_cancelled m : cancelled = true → check_verdict cancelled now b (Err (RunCancelled m))
| verdict_steps m : cancelled = false → b_max_steps b ≤ b_steps_used b →
    check_verdict cancelled now b (Err (BudgetExceeded m))
| verdict_cost m : cancelled = false → b_steps_used b < b_max_steps b → b_max_cost b ≤ b_spent b →
    check_verdict cancelled now b (Err (BudgetExceeded m))
| verdict_time m : cancelled = false → b_steps_used b < b_max_steps b → b_spent b < b_max_cost b →
    b_max_seconds b ≤ elapsed_seconds now b → check_verdict cancelled now b (Err (RunTimedOut m)).

(** The amounts the configuration allows fit a float. *)
Definition priced (b : BudgetGuard) : Prop := 0 ≤ b_max_cost b < 2 ^ 53.

Lemma rnd_small_lt_max N D :
  0 < D → 0 ≤ N → N < 2 ^ 60 * fl_one * D → rnd N D < fl_max.
Proof.
  intros HD HN Hlt. pose proof (rnd_rel_error N D HD HN) as He.
  assert (Hmax : fl_max = 2 ^ 1024 * fl_one) by (unfold fl_max, fl_one; by rewrite <- Z.pow_add_r by lia).
  assert (Hb : 2 ^ 61 ≤ 2 ^ 1024) by (apply Z.pow_le_mono_r; lia).
  assert (Ho : 2 ^ 60 ≤ fl_one) by (unfold fl_one; apply Z.pow_le_mono_r; lia).
  rewrite Hmax. set (P := 2 ^ 1024) in *. clearbody P. set (o := fl_one) in *. clearbody o.
  set (r := rnd N D) in *. clearbody r. clear Hmax.
  assert (D * r ≤ 2 * Z.max N (2 ^ 52 * D)) by nia.
  assert (D * r < D * (2 ^ 61 * o)) by nia. nia.
Qed.

Lemma fl_of_Z_Some n : 0 ≤ n < 2 ^ 53 → fl_of_Z n = Some (rnd (n * fl_one) 1).
Proof.
  intros Hn. unfold fl_of_Z, checked.
  assert (Ho : 0 < fl_one) by (unfold fl_one; apply Z.pow_pos_nonneg; lia).
  rewrite Z.abs_eq by (apply rnd_pos_nonneg; nia).
  rewrite (proj2 (Z.ltb_lt _ _)); [done|]. apply rnd_small_lt_max; nia.
Qed.

Lemma cost_limit_text_Ok b : priced b → ∃ m, cost_limit_text b = Ok m.
Proof.
  intros Hb. unfold cost_limit_text, fl_div_ZZ, checked, priced in *.
  assert (Ho : 0 < fl_one) by (unfold fl_one; apply Z.pow_pos_nonneg; lia).
  rewrite Z.abs_eq by (apply rnd_pos_nonneg; nia).
  rewrite (proj2 (Z.ltb_lt _ _)); [by eexists|]. apply rnd_small_lt_max; nia.
Qed.

(** ** Lemmas for the engine *)

(** What a model call may change: it is counted, its cost is added; the ceilings
    and the start stay. *)
Definition budget_grows (b b' : BudgetGuard) : Prop :=
  b_max_steps b' = b_max_steps b ∧ b_max_cost b' = b_max_cost b ∧
  b_max_seconds b' = b_max_seconds b ∧ b_started_at b' = b_started_at b ∧
  b_steps_used b ≤ b_steps_used b' ∧
  (b_steps_used b ≤ b_max_steps b → b_steps_used b' ≤ b_max_steps b') ∧
  (b_warned b = true → b_warned b' = true).

#[global] Instance budget_grows_preorder : PreOrder budget_grows.
Proof.
  split; [intros b; unfold budget_grows; naive_solver lia|].
  intros b1 b2 b3 (?&?&?&?&?&?&?) (?&?&?&?&?&?&?). unfold budget_grows.
  split_and!; try congruence; [lia|intros; lia|auto].
Qed.

Lemma check_Ok cancelled now b :
  check_before_step cancelled now b = Ok tt ↔ cancelled = false ∧ within_budget now b.
Proof.
  unfold check_before_step, within_budget. destruct cancelled; [split; [done|naive_solver]|].
  destruct (Z.leb_spec (b_max_steps b) (b_steps_used b)); [split; [done|lia]|].
  destruct (Z.leb_spec (b_max_cost b) (b_spent b)).
  { destruct (cost_limit_text b); split; try done; lia. }
  destruct (Z.leb_spec (b_max_seconds b) (elapsed_seconds now b)); [split; [done|lia]|].
  split; [done|done].
Qed.

Lemma record_grows cost now cancelled b :
  check_before_step cancelled now b = Ok tt → budget_grows b (record cost b).
Proof.
  intros [_ (? & _)]%check_Ok. unfold budget_grows, record. simpl. split_and!; try done; lia.
Qed.

Lemma take_warning_grows : steps budget_grows take_warning.
Proof.
  intros b. unfold take_warning. destruct (b_warned b) eqn:Hw; [done|].
  destruct (warn_threshold b); [|done]. destruct (_ <? _); [done|].
  unfold budget_grows, set_warned. simpl. split_and!; try done; lia.
Qed.

(** ** Properties *)

(** the check before a step answers in the order of its tests: it passes
    exactly when the run is not cancelled and the steps, the spend and the time
    are all below their ceilings; otherwise it raises the exception of the first
    ceiling reached, and nothing else can be raised. *)
Theorem check_before_step_verdict cancelled now b :
  priced b → check_verdict cancelled now b (check_before_step cancelled now b).
Proof.
  intros Hp. destruct (cost_limit_text_Ok b Hp) as [m Hm].
  unfold check_before_step. destruct cancelled; [by constructor|].
  destruct (Z.leb_spec (b_max_steps b) (b_steps_used b)); [by constructor|].
  destruct (Z.leb_spec (b_max_cost b) (b_spent b)); [rewrite Hm; by constructor|].
  destruct (Z.leb_spec (b_max_seconds b) (elapsed_seconds now b)); [by constructor|].
  by constructor.
Qed.

(** a budget warns at most once: when [take_warning] answers true the spend
    had reached the threshold and no warning had been given, and after any later
    model calls it answers false. *)
Theorem take_warning_once b b' :
  take_warning b = (Ok true, b') →
  (∃ t, warn_threshold b = Ok t ∧ t ≤ b_spent b) ∧ b_warned b = false ∧
  ∀ costs, (take_warning (foldr record b' costs)).1 = Ok false.
Proof.
  unfold take_warning. intros Ht. destruct (b_warned b) eqn:Hw; [by simplify_eq|].
  destruct (warn_threshold b) as [t|] eqn:Hth; [|by simplify_eq].
  destruct (Z.ltb_spec (b_spent b) t); simplify_eq. split_and!; [by exists t|done|].
  intros costs. assert (b_warned (foldr record (set_warned b) costs) = true) as ->; [|done].
  induction costs; done.
Qed.

(** ** Witnesses *)

Definition demo_budget : BudgetGuard := new_budget 20 100000000 (3600 * fl_one) 0.

Lemma check_before_step_verdict_witness :
  check_verdict false (3600 * fl_one) demo_budget
    (Err (RunTimedOut (u "time limit reached (3600s)"))).
Proof.
  assert (check_before_step false (3600 * fl_one) demo_budget
          = Err (RunTimedOut (u "time limit reached (3600s)"))) as <- by (vm_compute; reflexivity).
  apply check_before_step_verdict. unfold priced. simpl. lia.
Defined.

Lemma take_warning_once_witness :
  ∀ costs, (take_warning (foldr record (set_warned (record 80000000 demo_budget)) costs)).1
           = Ok false.
Proof.
  apply (take_warning_once (record 80000000 demo_budget)). vm_compute. reflexivity.
Defined.
