(* ===== verification/Registry.v ===== *)
(** * Model registry (src/core/llm/registry.py)

    Which provider serves a model and what it costs.  Prices are floats, in the
    units of PyFloat. *)

From S2P Require Import Prelude PyStr PyFloat PyVal.

Inductive Provider := ANTHROPIC | OPENAI | XAI | GOOGLE | OPENROUTER.
#[global] Instance Provider_eq_dec : EqDecision Provider.
Proof. solve_decision. Defined.
Definition all_providers : list Provider := [ANTHROPIC; OPENAI; XAI; GOOGLE; OPENROUTER].
Definition provider_value (p : Provider) : pystr :=
  match p with
  | ANTHROPIC => u "anthropic" | OPENAI => u "openai" | XAI => u "xai"
  | GOOGLE => u "google" | OPENROUTER => u "openrouter"
  end.

Inductive EffortStyle := ES_ANTHROPIC | ES_OPENAI_REASONING | ES_GOOGLE_THINKING | ES_NONE.

Definition EFFORT_LEVELS : list pystr := [u "low"; u "medium"; u "high"; u "xhigh"; u "max"].
Definition OPENAI_EFFORT : list (pystr * pystr) :=
  [(u "low", u "low"); (u "medium", u "medium"); (u "high", u "high");
   (u "xhigh", u "high"); (u "max", u "high")].
Definition GOOGLE_THINKING_BUDGET : list (pystr * Z) :=
  [(u "low", 1024); (u "medium", 8192); (u "high", 24576); (u "xhigh", -1); (u "max", -1)].

Record ModelSpec := mkSpec {
  sp_id : pystr; sp_provider : Provider; sp_display_name : pystr;
  sp_input_per_mtok : Z; sp_output_per_mtok : Z;
  sp_max_output_tokens : Z; sp_context_window : Z; sp_effort_style : EffortStyle;
  sp_cached_input_per_mtok : option Z;
  sp_supports_prompt_cache : bool; sp_supports_json_mode : bool;
  sp_price_verified_at : Z * Z * Z; sp_aliases : list pystr }.

(** A price written with at most three decimals. *)
Definition usd (mills : Z) : Z := fl_lit mills 1000.

Definition spec id provider name input output cached max_out window style cache : ModelSpec :=
  mkSpec id provider name (usd input) (usd output) max_out window style (usd <$> cached)
    cache true (2026, 8, 14) [].

Definition MODEL_LIST : list ModelSpec := [
  spec (u "claude-opus-5") ANTHROPIC (u "Claude Opus 5") 5000 25000 (Some 500)
    128000 1000000 ES_ANTHROPIC true;
  spec (u "claude-sonnet-5") ANTHROPIC (u "Claude Sonnet 5") 3000 15000 (Some 300)
    128000 1000000 ES_ANTHROPIC true;
  spec (u "claude-haiku-4-5") ANTHROPIC (u "Claude Haiku 4.5") 1000 5000 (Some 100)
    64000 200000 ES_NONE true;
  spec (u "claude-opus-4-8") ANTHROPIC (u "Claude Opus 4.8") 5000 25000 (Some 500)
    128000 1000000 ES_ANTHROPIC true;
  spec (u "gpt-5") OPENAI (u "GPT-5") 1250 10000 (Some 125)
    128000 400000 ES_OPENAI_REASONING true;
  spec (u "gpt-5-mini") OPENAI (u "GPT-5 mini") 250 2000 (Some 25)
    128000 400000 ES_OPENAI_REASONING true;
  spec (u "grok-4") XAI (u "Grok 4") 3000 15000 None 64000 256000 ES_NONE false;
  spec (u "grok-4-fast") XAI (u "Grok 4 Fast") 200 500 None 32000 2000000 ES_NONE false;
  spec (u "grok-3-mini") XAI (u "Grok 3 mini") 300 500 None 32000 131072 ES_OPENAI_REASONING false;
  spec (u "gemini-2.5-pro") GOOGLE (u "Gemini 2.5 Pro") 1250 10000 (Some 310)
    65536 1048576 ES_GOOGLE_THINKING true;
  spec (u "gemini-2.5-flash") GOOGLE (u "Gemini 2.5 Flash") 300 2500 (Some 75)
    65536 1048576 ES_GOOGLE_THINKING true].

(** The dict [MODELS]: the specs by id, then each alias not there yet or
    overwritten, as the two loops of the module do. *)
Definition models_of (specs : list ModelSpec) : list (pystr * ModelSpec) :=
  fold_left (λ d s, fold_left (λ d a, assoc_set a s d) (sp_aliases s) d) specs
    (assoc_of_list (map (λ s, (sp_id s, s)) specs)).
Definition MODELS : list (pystr * ModelSpec) := models_of MODEL_LIST.

Definition get_spec (model : pystr) : res exn ModelSpec :=
  match assoc model MODELS with
  | Some s => Ok s
  | None => Err (UnknownModelError model)
  end.

Definition provider_for (model : pystr) : res exn Provider := sp_provider <$> get_spec model.

(** [sorted(..., key=lambda s: (s.provider, s.id))]; the enum compares as its value. *)
Definition spec_le (a b : ModelSpec) : Prop :=
  let pa := provider_value (sp_provider a) in let pb := provider_value (sp_provider b) in
  if decide (pa = pb) then str_le (sp_id a) (sp_id b) else str_le pa pb.
#[global] Instance spec_le_dec a b : Decision (spec_le a b).
Proof. unfold spec_le. destruct (decide _); apply _. Defined.

Definition list_models (provider : option Provider) : list ModelSpec :=
  let keep s := match provider with Some p => bool_decide (sp_provider s = p) | None => true end in
  merge_sort spec_le
    (assoc_of_list (map (λ s, (sp_id s, s)) (List.filter keep MODELS.*2))).*2.

Definition normalise_effort (effort : pystr) : pystr :=
  if bool_decide (effort ∈ EFFORT_LEVELS) then effort else u "medium".

(** ** Facts the cost accounting uses *)

Definition rated (s : ModelSpec) : Prop :=
  0 ≤ sp_input_per_mtok s ∧ 0 ≤ sp_output_per_mtok s ∧
  match sp_cached_input_per_mtok s with Some c => 0 ≤ c | None => True end.

Lemma usd_nonneg n : 0 ≤ n → 0 ≤ usd n.
Proof.
  intros. apply rnd_pos_nonneg; [lia|]. unfold fl_one.
  assert (0 < 2 ^ 1074) by (apply Z.pow_pos_nonneg; lia). nia.
Qed.

Lemma models_rated : Forall (λ kv, rated kv.2) MODELS.
Proof.
  change MODELS with (map (λ s, (sp_id s, s)) MODEL_LIST).
  apply Forall_map. unfold MODEL_LIST, spec.
  repeat constructor; unfold rated; simpl; split_and?; try apply usd_nonneg; done.
Qed.

Lemma get_spec_rated model s : get_spec model = Ok s → rated s.
Proof.
  unfold get_spec. destruct (assoc model MODELS) as [s'|] eqn:Hm; intros [= <-].
  apply assoc_Some_elem in Hm. pose proof models_rated as Hr.
  rewrite Forall_forall in Hr. by apply Hr in Hm.
Qed.

Lemma normalise_effort_known effort : normalise_effort effort ∈ EFFORT_LEVELS.
Proof. unfold normalise_effort. case_bool_decide; [done|]. unfold EFFORT_LEVELS. set_solver. Qed.
