(* ===== verification/Providers.v ===== *)
(** * The provider interface (src/core/llm/providers/base.py)

    Requests, results and messages, as every adapter exchanges them with the
    router, and the parsing of tool arguments. *)

From S2P Require Import Prelude PyStr PyFloat PyVal PyJson Registry.

Record ToolCallRequest := mkCall { tc_id : pystr; tc_name : pystr; tc_arguments : list (pystr * pyval) }.

Record ToolResultPart := mkPart {
  tr_tool_call_id : pystr; tr_name : pystr; tr_content : pystr; tr_is_error : bool }.

Inductive role := User | Assistant.

Record Message := mkMessage {
  m_role : role; m_content : pystr;
  m_tool_calls : list ToolCallRequest; m_tool_results : list ToolResultPart }.

Record ToolSpec := mkToolSpec { ts_name : pystr; ts_description : pystr; ts_parameters : pyval }.

Record CompletionRequest := mkRequest {
  rq_spec : ModelSpec; rq_system : pystr; rq_messages : list Message; rq_max_tokens : Z;
  rq_effort : pystr; rq_json_mode : bool; rq_timeout_seconds : Z; rq_tools : list ToolSpec;
  rq_cache_system_prompt : bool }.

Record Usage := mkUsage {
  us_input_tokens : Z; us_output_tokens : Z; us_cached_input_tokens : Z; us_reasoning_tokens : Z;
  us_raw : list (pystr * pyval) }.

Definition fresh_input_tokens (us : Usage) : Z :=
  Z.max (us_input_tokens us - us_cached_input_tokens us) 0.

Record LLMResult := mkResult {
  lr_text : pystr; lr_model : pystr; lr_provider : pystr; lr_usage : Usage;
  lr_stop_reason : option pystr; lr_tool_calls : list ToolCallRequest }.

Definition wants_tools (r : LLMResult) : bool :=
  match lr_tool_calls r with [] => false | _ => true end.

(** [parse_arguments]: only [JSONDecodeError] and [TypeError] are caught. *)
Definition parse_arguments (raw : pyval) : res exn (list (pystr * pyval)) :=
  match raw with
  | VNone | VStr [] => Ok []
  | VDict d => Ok d
  | VStr s =>
      match loads s with
      | Ok (VDict d) => Ok d
      | Ok _ => Ok []
      | Err (JSONDecodeError _) => Ok []
      | Err e => Err e
      end
  | _ => Ok []
  end.

(** tool arguments that are malformed never end the run with a
    [JSONDecodeError]: the result is a dict for anything a model can send, and
    the one exception left is the [ValueError] for a number with more than 4300
    digits. *)
Theorem parse_arguments_spec raw :
  match parse_arguments raw with
  | Ok d => raw = VDict d ∨ (∃ s, raw = VStr s ∧ loads s = Ok (VDict d)) ∨
            d = [] ∧ ∀ s, raw = VStr s → ∀ d', loads s ≠ Ok (VDict d') ∨ s = []
  | Err e => ∃ s m, raw = VStr s ∧ e = ValueError m ∧ loads s = Err e
  end.
Proof.
  destruct raw as [|b|z|f|s|l|d]; simpl; try (right; right; split; [done|]; intros; congruence).
  2: by left.
  destruct s as [|c s].
  { simpl. right; right. split; [done|]. intros s [= <-] d'. by right. }
  destruct (loads (c :: s)) as [v|e] eqn:Hl.
  - destruct v; try (right; right; split; [done|]; intros ? [= <-] ?; left; congruence).
    right; left. by exists (c :: s).
  - pose proof (loads_error _ _ Hl) as He. destruct e; try done.
    + by exists (c :: s), msg.
    + right; right. split; [done|]. intros ? [= <-] ?. left. congruence.
Qed.

(** The exception is reachable: a 4301-digit integer as the whole payload. *)
Lemma parse_arguments_digits :
  ∃ m, parse_arguments (VStr (repeat 57%N 4301)) = Err (ValueError m).
Proof. eexists. vm_compute. reflexivity. Qed.
