(* ===== verification/Pricing.v ===== *)
(** * Cost accounting (src/core/llm/pricing.py)

    The price book with its time-limited cache of database overrides, the cost of
    a call in micro-cents, computed in binary64 as the code does, and the
    conversions between cents and micro-cents. *)

From S2P Require Import Prelude PyStr PyFloat PyVal Registry PyJson Providers.

Definition MICROCENTS_PER_CENT : Z := 1000000.

Record Rate := mkRate {
  rt_input_per_mtok : Z; rt_output_per_mtok : Z; rt_cached_input_per_mtok : option Z }.

Definition rate_from_spec (s : ModelSpec) : Rate :=
  mkRate (sp_input_per_mtok s) (sp_output_per_mtok s) (sp_cached_input_per_mtok s).

(** [_overrides] by model, [_ttl] and [_loaded_at] in float units. *)
Record PriceBook := mkBook {
  pb_ttl : Z; pb_overrides : list (pystr * Rate); pb_loaded_at : Z }.

Definition default_price_book : PriceBook := mkBook (300 * fl_one) [] 0.

(** [rows]: the table [model_prices]; [now], [now']: the clock at the test and at
    the end. *)
Definition refresh (rows : list (pystr * Rate)) (force : bool) (now now' : Z) (b : PriceBook)
    : PriceBook :=
  if negb force && (rnd (now - pb_loaded_at b) 1 <? pb_ttl b) then b
  else mkBook (pb_ttl b) (assoc_of_list rows) now'.

Definition rate_for (b : PriceBook) (model : pystr) : res exn Rate :=
  match assoc model (pb_overrides b) with
  | Some r => Ok r
  | None => rate_from_spec <$> get_spec model
  end.

Definition of_float {A} (o : option A) : res exn A :=
  match o with
  | Some x => Ok x
  | None => Err (OverflowError (u "cannot convert float infinity to integer"))
  end.

(** [(tokens / 1_000_000) * rate] *)
Definition part_cost (tokens rate : Z) : option Z :=
  d ← fl_div_ZZ tokens 1000000; fl_mul d rate.

(** The sum of the three parts, in dollars. *)
Definition usd_cost (r : Rate) (us : Usage) : option Z :=
  let cached_rate := default (rt_input_per_mtok r) (rt_cached_input_per_mtok r) in
  a ← part_cost (fresh_input_tokens us) (rt_input_per_mtok r);
  b ← part_cost (us_cached_input_tokens us) cached_rate;
  ab ← fl_add a b;
  c ← part_cost (us_output_tokens us) (rt_output_per_mtok r);
  fl_add ab c.

Definition usd_to_microcents (x : Z) : option Z :=
  c ← fl_mul x (100 * fl_one);
  m ← fl_mul c (MICROCENTS_PER_CENT * fl_one);
  Some (fl_round m).

Definition cost_microcents (b : PriceBook) (model : pystr) (us : Usage) : res exn Z :=
  r ← rate_for b model;
  x ← of_float (usd_cost r us);
  of_float (usd_to_microcents x).

(** [-(-microcents // MICROCENTS_PER_CENT)], Python's floor division *)
Definition microcents_to_cents (microcents : Z) : Z :=
  if microcents <=? 0 then 0 else - ((- microcents) / MICROCENTS_PER_CENT).

Definition cents_to_microcents (cents : Z) : Z := cents * MICROCENTS_PER_CENT.

(** ** Monotonicity of the float operations on non-negative numbers *)

Lemma fl_one_pos : 0 < fl_one.
Proof. unfold fl_one. apply Z.pow_pos_nonneg; lia. Qed.

(** [y] is a later, larger outcome than [x], both non-negative. *)
Definition le_opt (x y : option Z) : Prop :=
  match x, y with
  | Some a, Some b => 0 ≤ a ≤ b
  | Some a, None => 0 ≤ a
  | None, _ => y = None
  end.

Lemma checked_le_opt a b : 0 ≤ a ≤ b → le_opt (checked a) (checked b).
Proof.
  intros H. unfold checked. rewrite !Z.abs_eq by lia.
  destruct (Z.ltb_spec a fl_max), (Z.ltb_spec b fl_max); simpl; try done; lia.
Qed.

Lemma rnd_le N1 N2 D : 0 < D → 0 ≤ N1 ≤ N2 → 0 ≤ rnd N1 D ≤ rnd N2 D.
Proof. intros. split; [by apply rnd_pos_nonneg; lia|]. apply rnd_mono; nia. Qed.

Lemma fl_mul_le a b k : 0 ≤ k → 0 ≤ a ≤ b → le_opt (fl_mul a k) (fl_mul b k).
Proof. intros. apply checked_le_opt, rnd_le; [apply fl_one_pos|nia]. Qed.

Lemma fl_add_le a b c d : 0 ≤ a ≤ b → 0 ≤ c ≤ d → le_opt (fl_add a c) (fl_add b d).
Proof. intros. apply checked_le_opt, rnd_le; lia. Qed.

Lemma le_opt_bind x y (f g : Z → option Z) :
  le_opt x y → (∀ a b, 0 ≤ a ≤ b → le_opt (f a) (g b)) → le_opt (x ≫= f) (y ≫= g).
Proof.
  intros Hxy Hf. destruct x as [a|], y as [b|]; simpl in *; try done.
  - by apply Hf.
  - specialize (Hf a a ltac:(lia)). destruct (f a), (g a); simpl in *; lia || done.
Qed.

(** ** The cost of a call *)

Definition rate_ok (r : Rate) : Prop :=
  0 ≤ rt_input_per_mtok r ∧ 0 ≤ rt_output_per_mtok r ∧
  match rt_cached_input_per_mtok r with Some c => 0 ≤ c | None => True end.

(** At least as many tokens of every kind that is billed. *)
Definition usage_le (a b : Usage) : Prop :=
  0 ≤ fresh_input_tokens a ≤ fresh_input_tokens b ∧
  0 ≤ us_cached_input_tokens a ≤ us_cached_input_tokens b ∧
  0 ≤ us_output_tokens a ≤ us_output_tokens b.

Lemma part_cost_le a b rate : 0 ≤ rate → 0 ≤ a ≤ b → le_opt (part_cost a rate) (part_cost b rate).
Proof.
  intros Hr Hab. pose proof fl_one_pos. unfold part_cost. apply le_opt_bind.
  - apply checked_le_opt, rnd_le; nia.
  - intros x y Hxy. by apply fl_mul_le.
Qed.

Lemma usd_cost_le r a b : rate_ok r → usage_le a b → le_opt (usd_cost r a) (usd_cost r b).
Proof.
  intros (Hi & Ho & Hc) (Hf & Hca & Hou). unfold usd_cost.
  apply le_opt_bind; [by apply part_cost_le|]. intros x x' Hx.
  apply le_opt_bind.
  { apply part_cost_le; [|done]. destruct (rt_cached_input_per_mtok r); simpl; lia. }
  intros y y' Hy. apply le_opt_bind; [by apply fl_add_le|]. intros xy xy' Hxy.
  apply le_opt_bind; [by apply part_cost_le|]. intros z z' Hz. by apply fl_add_le.
Qed.

Lemma usd_to_microcents_le x y : 0 ≤ x ≤ y → le_opt (usd_to_microcents x) (usd_to_microcents y).
Proof.
  intros Hxy. pose proof fl_one_pos. unfold usd_to_microcents, MICROCENTS_PER_CENT.
  apply le_opt_bind; [apply fl_mul_le; lia|]. intros c c' Hc.
  apply le_opt_bind; [apply fl_mul_le; lia|]. intros m m' Hm.
  unfold fl_round. simpl. split; [by apply rhe_nonneg; lia|]. apply rhe_mono; nia.
Qed.

Lemma cost_le r a b :
  rate_ok r → usage_le a b →
  le_opt (usd_cost r a ≫= usd_to_microcents) (usd_cost r b ≫= usd_to_microcents).
Proof.
  intros Hr Hab. apply le_opt_bind; [by apply usd_cost_le|]. intros. by apply usd_to_microcents_le.
Qed.

Definition book_ok (b : PriceBook) : Prop := Forall (λ kv, rate_ok kv.2) (pb_overrides b).

Lemma rate_for_ok b model r : book_ok b → rate_for b model = Ok r → rate_ok r.
Proof.
  unfold rate_for. intros Hb. destruct (assoc model (pb_overrides b)) as [r'|] eqn:Hm.
  - intros [= <-]. apply assoc_Some_elem in Hm. unfold book_ok in Hb.
    rewrite Forall_forall in Hb. by apply Hb in Hm.
  - destruct (get_spec model) as [s|] eqn:Hs; simpl; [|done]. intros [= <-].
    apply get_spec_rated in Hs. exact Hs.
Qed.

Lemma cost_microcents_eq b model us r :
  rate_for b model = Ok r →
  cost_microcents b model us = of_float (usd_cost r us ≫= usd_to_microcents).
Proof.
  intros Hr. unfold cost_microcents. rewrite Hr. simpl. by destruct (usd_cost r us).
Qed.

(** ** Properties *)

(** a price never decreases when a call reports more tokens: for the
    registry's prices and non-negative overrides, the cost computed in floating
    point is non-negative and monotone in the fresh, cached and output tokens,
    roundings included, and it only fails to be computed when the cost of more
    tokens also does. *)
Theorem cost_microcents_monotone b model us us' c' :
  book_ok b → usage_le us us' → cost_microcents b model us' = Ok c' →
  ∃ c, cost_microcents b model us = Ok c ∧ 0 ≤ c ≤ c'.
Proof.
  intros Hb Hus Hc'.
  destruct (rate_for b model) as [r|e] eqn:Hr; [|unfold cost_microcents in Hc'; by rewrite Hr in Hc'].
  rewrite (cost_microcents_eq _ _ us' _ Hr) in Hc'. rewrite (cost_microcents_eq _ _ us _ Hr).
  pose proof (cost_le r us us' (rate_for_ok _ _ _ Hb Hr) Hus) as Hle.
  destruct (usd_cost r us' ≫= usd_to_microcents) as [d'|]; simpl in Hc'; simplify_eq.
  destruct (usd_cost r us ≫= usd_to_microcents) as [d|]; simpl in *; [|done].
  exists d. split; [done|lia].
Qed.

(** a run is charged whole cents, rounded up: the cents cover the
    micro-cents and exceed them by less than one cent, nothing is free that cost
    anything, and whole cents convert back unchanged. *)
Theorem microcents_to_cents_spec m :
  (0 < m → m ≤ cents_to_microcents (microcents_to_cents m) < m + MICROCENTS_PER_CENT ∧
           0 < microcents_to_cents m) ∧
  (m ≤ 0 → microcents_to_cents m = 0) ∧
  microcents_to_cents (cents_to_microcents m) = Z.max m 0.
Proof.
  unfold microcents_to_cents, cents_to_microcents, MICROCENTS_PER_CENT. split_and!.
  - intros Hm. destruct (Z.leb_spec m 0); [lia|].
    pose proof (Z.div_mod (- m) 1000000 ltac:(lia)).
    pose proof (Z.mod_pos_bound (- m) 1000000 ltac:(lia)). lia.
  - intros Hm. destruct (Z.leb_spec m 0); [done|lia].
  - destruct (Z.leb_spec (m * 1000000) 0); [lia|].
    rewrite <- Z.mul_opp_l, Z.div_mul by lia. lia.
Qed.

(** on a host whose monotonic clock has not reached the book's lifetime, the
    first refresh is skipped: the overrides stay empty whatever the table holds,
    and prices come from the registry. *)
Theorem refresh_skipped_after_boot rows now now' model :
  is_b64 now → now < pb_ttl default_price_book →
  rate_for (refresh rows false now now' default_price_book) model
    = rate_from_spec <$> get_spec model.
Proof.
  intros Hn Hlt. unfold refresh. simpl in *.
  assert (rnd (now - 0) 1 = now) as ->.
  { rewrite Z.sub_0_r. rewrite <- (Z.mul_1_r now) at 1. by apply rnd_b64. }
  rewrite (proj2 (Z.ltb_lt _ _) Hlt). done.
Qed.

(** ** Witnesses *)

Definition demo_usage (n out : Z) : Usage := mkUsage n out 0 0 [].

Lemma cost_microcents_monotone_witness :
  ∃ c, cost_microcents default_price_book (u "gpt-5") (demo_usage 1000 100) = Ok c ∧ 0 ≤ c ≤ 350000.
Proof.
  apply (cost_microcents_monotone default_price_book (u "gpt-5") (demo_usage 1000 100)
           (demo_usage 2000 100) 350000).
  - constructor.
  - unfold usage_le. simpl. unfold fresh_input_tokens. simpl. lia.
  - vm_compute. reflexivity.
Defined.

Lemma refresh_skipped_after_boot_witness :
  rate_for (refresh [(u "gpt-5", mkRate 0 0 None)] false (120 * fl_one) (121 * fl_one)
              default_price_book) (u "gpt-5")
    = rate_from_spec <$> get_spec (u "gpt-5").
Proof.
  apply refresh_skipped_after_boot.
  - exists 120, 1074. repeat split; reflexivity || (vm_compute; congruence).
  - vm_compute. reflexivity.
Defined.
