(* ===== verification/Keys.v ===== *)
(** * Credentials of a run (src/core/llm/keys.py)

    Which key a model call uses, and whether the platform pays for it.  The rows
    of [api_keys] and the decryption are parameters: [stored org provider] is the
    ciphertext of the active row, [decrypt ciphertext org] its plaintext. *)

From S2P Require Import Prelude PyStr PyFloat PyVal Config Registry.

Inductive KeyMode := MANAGED | BYOK | HYBRID.
#[global] Instance KeyMode_eq_dec : EqDecision KeyMode.
Proof. solve_decision. Defined.

Definition key_mode_of (mode : pystr) : res exn KeyMode :=
  if bool_decide (mode = u "managed") then Ok MANAGED
  else if bool_decide (mode = u "byok") then Ok BYOK
  else if bool_decide (mode = u "hybrid") then Ok HYBRID
  else Err (KeyResolutionError (u "unknown key mode: " ++ mode)).

Definition UTILITY_MODELS : list pystr :=
  [u "claude-haiku-4-5"; u "gpt-5-mini"; u "gemini-2.5-flash"; u "grok-4-fast"; u "grok-3-mini"].

Record ResolvedKey := mkKey { rk_provider : Provider; rk_api_key : pystr; rk_billed_to_platform : bool }.

Definition platform_key (s : Settings) (p : Provider) : option pystr :=
  match p with
  | ANTHROPIC => cfg_anthropic_api_key s | OPENAI => cfg_openai_api_key s
  | XAI => cfg_xai_api_key s | GOOGLE => cfg_google_api_key s
  | OPENROUTER => cfg_openrouter_api_key s
  end.

Definition configured_platform_providers (s : Settings) : list Provider :=
  List.filter (λ p, match platform_key s p with Some (_ :: _) => true | _ => false end) all_providers.

Record KeyResolver := mkResolver {
  kr_mode : KeyMode; kr_org_id : pystr; kr_byok_cache : list (Provider * pystr) }.

Definition new_resolver (org_id mode : pystr) : res exn KeyResolver :=
  m ← key_mode_of mode; Ok (mkResolver m org_id []).

Fixpoint cache_get {V} (p : Provider) (c : list (Provider * V)) : option V :=
  match c with
  | [] => None
  | (q, v) :: c' => if decide (p = q) then Some v else cache_get p c'
  end.

Section keys.
Context (settings : Settings).
Context (stored : pystr → Provider → option pystr) (decrypt : pystr → pystr → res exn pystr).

Definition no_stored_key (p : Provider) : exn :=
  KeyResolutionError (u "no active " ++ provider_value p
    ++ u " key stored for this organisation — add one in Settings, or switch the run to managed mode").

Definition no_platform_key (p : Provider) (model : pystr) : exn :=
  KeyResolutionError (u "the platform has no " ++ provider_value p
    ++ u " credential configured; this organisation must supply its own key for " ++ model).

Definition byok_key (p : Provider) : M KeyResolver exn pystr := λ r,
  match cache_get p (kr_byok_cache r) with
  | Some key => (Ok key, r)
  | None =>
      match stored (kr_org_id r) p with
      | None => (Err (no_stored_key p), r)
      | Some ciphertext =>
          match decrypt ciphertext (kr_org_id r) with
          | Err e => (Err e, r)
          | Ok key => (Ok key, mkResolver (kr_mode r) (kr_org_id r) ((p, key) :: kr_byok_cache r))
          end
      end
  end.

Definition uses_platform (mode : KeyMode) (model : pystr) : bool :=
  bool_decide (mode = MANAGED)
  || bool_decide (mode = HYBRID) && bool_decide (model ∈ UTILITY_MODELS).

Definition resolve (model : pystr) : M KeyResolver exn ResolvedKey := λ r,
  match get_spec model with
  | Err e => (Err e, r)
  | Ok spec =>
      let p := sp_provider spec in
      if uses_platform (kr_mode r) model then
        match platform_key settings p with
        | Some ((_ :: _) as key) => (Ok (mkKey p key true), r)
        | _ => (Err (no_platform_key p model), r)
        end
      else
        match byok_key p r with
        | (Ok key, r') => (Ok (mkKey p key false), r')
        | (Err e, r') => (Err e, r')
        end
  end.

(** ** The contract: resolution without a cache *)

Definition own_key (org : pystr) (p : Provider) : res exn pystr :=
  match stored org p with
  | None => Err (no_stored_key p)
  | Some ciphertext => decrypt ciphertext org
  end.

Definition resolve_spec (mode : KeyMode) (org model : pystr) : res exn ResolvedKey :=
  spec ← get_spec model;
  if uses_platform mode model then
    match platform_key settings (sp_provider spec) with
    | Some ((_ :: _) as key) => Ok (mkKey (sp_provider spec) key true)
    | _ => Err (no_platform_key (sp_provider spec) model)
    end
  else key ← own_key org (sp_provider spec); Ok (mkKey (sp_provider spec) key false).

(** Every cached key is the one the organisation has stored. *)
Definition cache_coherent (r : KeyResolver) : Prop :=
  ∀ p key, cache_get p (kr_byok_cache r) = Some key → own_key (kr_org_id r) p = Ok key.

Lemma byok_key_coherent p r :
  cache_coherent r →
  (byok_key p r).1 = own_key (kr_org_id r) p ∧ cache_coherent (byok_key p r).2 ∧
  kr_mode (byok_key p r).2 = kr_mode r ∧ kr_org_id (byok_key p r).2 = kr_org_id r.
Proof.
  intros Hc. unfold byok_key. destruct (cache_get p (kr_byok_cache r)) as [key|] eqn:Hp.
  { simpl. split; [|done]. symmetry. by apply Hc. }
  assert (Hown : own_key (kr_org_id r) p = own_key (kr_org_id r) p) by done.
  unfold own_key at 2 in Hown. destruct (stored (kr_org_id r) p) as [ct|]; [|done].
  destruct (decrypt ct (kr_org_id r)) as [key|e]; [|done]. simpl.
  split; [done|]. split; [|done]. intros q k. simpl.
  destruct (decide (q = p)) as [->|]; [intros [= <-]; done|apply Hc].
Qed.

(** while the stored keys do not change, the resolver with its cache answers
    every call as resolution without a cache would: the platform key, billed, for
    a managed run and for the utility models of a hybrid run, the organisation's
    own key, not billed, otherwise, and the same errors; mode and organisation
    never change and the cache stays coherent. *)
Theorem resolve_refines model r :
  cache_coherent r →
  (resolve model r).1 = resolve_spec (kr_mode r) (kr_org_id r) model ∧
  cache_coherent (resolve model r).2 ∧
  kr_mode (resolve model r).2 = kr_mode r ∧ kr_org_id (resolve model r).2 = kr_org_id r.
Proof.
  intros Hc. unfold resolve, resolve_spec. destruct (get_spec model) as [spec|e]; [|done]. simpl.
  destruct (uses_platform (kr_mode r) model).
  { by destruct (platform_key settings (sp_provider spec)) as [[|c k]|]. }
  pose proof (byok_key_coherent (sp_provider spec) r Hc) as (H1 & H2 & H3 & H4).
  rewrite <- H1. by destruct (byok_key (sp_provider spec) r) as [[key|e] r'].
Qed.

(** who pays follows the mode alone: a key that is billed to the platform is
    the platform's and is used only for managed runs and a hybrid run's utility
    models; a run on the organisation's own keys never touches the platform's. *)
Theorem billed_iff_platform mode org model k :
  resolve_spec mode org model = Ok k →
  rk_billed_to_platform k = uses_platform mode model ∧
  (if uses_platform mode model
   then platform_key settings (rk_provider k) = Some (rk_api_key k) ∧ mode ≠ BYOK
   else own_key org (rk_provider k) = Ok (rk_api_key k) ∧ mode ≠ MANAGED).
Proof.
  unfold resolve_spec. destruct (get_spec model) as [spec|]; [|done]. simpl.
  destruct (uses_platform mode model) eqn:Hu.
  - destruct (platform_key settings (sp_provider spec)) as [[|c key]|] eqn:Hp; [done| |done].
    intros [= <-]. simpl. split_and!; [done|done|]. intros ->. done.
  - destruct (own_key org (sp_provider spec)) as [key|] eqn:Ho; [|done]. intros [= <-]. simpl.
    split_and!; [done|done|]. intros ->. done.
Qed.
End keys.

(** ** Witnesses *)

Definition demo_stored (org : pystr) (p : Provider) : option pystr :=
  match p with OPENAI => Some (u "sk-1") | _ => None end.
Definition demo_decrypt (ciphertext org : pystr) : res exn pystr := Ok (u "plain-" ++ ciphertext).

Lemma resolve_refines_witness :
  (resolve default_settings demo_stored demo_decrypt (u "gpt-5") (mkResolver HYBRID (u "o") [])).1
    = Ok (mkKey OPENAI (u "plain-sk-1") false).
Proof.
  assert (Hc : cache_coherent demo_stored demo_decrypt (mkResolver HYBRID (u "o") []))
    by (intros p key [=]).
  rewrite (proj1 (resolve_refines default_settings demo_stored demo_decrypt (u "gpt-5") _ Hc)).
  vm_compute. reflexivity.
Defined.

Lemma billed_iff_platform_witness :
  uses_platform HYBRID (u "gpt-5") = false ∧
  rk_billed_to_platform (mkKey OPENAI (u "plain-sk-1") false) = uses_platform HYBRID (u "gpt-5").
Proof.
  assert (Hk : resolve_spec default_settings demo_stored demo_decrypt HYBRID (u "o") (u "gpt-5")
                 = Ok (mkKey OPENAI (u "plain-sk-1") false)) by (vm_compute; reflexivity).
  split; [vm_compute; reflexivity|].
  exact (proj1 (billed_iff_platform _ _ _ _ _ _ _ Hk)).
Defined.
