(* ===== verification/Events.v ===== *)
(** * The event bus of a run (src/core/events.py, and the stream of
      src/api/routers/runs.py)

    [Bus] is what Redis holds for one run: the sequence counter, the capped
    history, the cancellation flag, and, for reasoning, every event published so
    far.  An event is kept as the value its JSON text stands for; the lifetime of
    the keys (three days) is not modelled. *)

From S2P Require Import Prelude PyStr PyFloat PyVal.

Definition HISTORY_LIMIT : nat := Z.to_nat 5000.
Arguments HISTORY_LIMIT : simpl never.

Record Event := mkEvent { ev_seq : Z; ev_type : pystr; ev_payload : list (pystr * pyval) }.

Record Bus := mkBus {
  bus_seq : Z; bus_history : list Event; bus_published : list Event; bus_cancel : bool }.

Definition empty_bus : Bus := mkBus 0 [] [] false.

Definition RUN_START := u "run.start".
Definition RUN_END := u "run.end".
Definition RUN_ERROR := u "run.error".
Definition RUN_CANCELLED := u "run.cancelled".
Definition STEP_START := u "step.start".
Definition STEP_TOKEN := u "step.token".
Definition STEP_END := u "step.end".
Definition TOOL_CALL := u "tool.call".
Definition TOOL_RESULT := u "tool.result".
Definition ARTIFACT_WRITTEN := u "artifact.written".
Definition BUDGET_WARNING := u "budget.warning".
Definition TERMINAL_EVENTS : list pystr := [RUN_END; RUN_ERROR; RUN_CANCELLED].

(** ** Emitting *)

(** The text of a value can be sent as UTF-8. *)
Fixpoint encodable_val (v : pyval) : bool :=
  match v with
  | VStr s => encodable s
  | VList l => (fix go l := match l with [] => true | v :: l' => encodable_val v && go l' end) l
  | VDict d =>
      (fix go d := match d with
                   | [] => true
                   | (k, v) :: d' => encodable k && encodable_val v && go d'
                   end) d
  | _ => true
  end.

(** The last [n] elements: [LTRIM key -n -1]. *)
Definition last_n {A} (n : nat) (l : list A) : list A := drop (length l - n) l.

(** The first half of [emit], [INCR], and the second, the pipeline that stores and
    publishes the event: two round trips, between which other tasks of the worker
    may emit.  A payload that cannot be encoded raises in the second, and nothing is
    stored. *)
Definition next_seq : M Bus exn Z := λ b,
  (Ok (bus_seq b + 1), mkBus (bus_seq b + 1) (bus_history b) (bus_published b) (bus_cancel b)).

Definition publish (seq : Z) (type_ : pystr) (payload : list (pystr * pyval)) : M Bus exn unit := λ b,
  if encodable_val (VDict payload) then
    let e := mkEvent seq type_ payload in
    (Ok tt, mkBus (bus_seq b) (last_n HISTORY_LIMIT (bus_history b ++ [e])) (bus_published b ++ [e])
              (bus_cancel b))
  else (Err UnicodeEncodeError, b).

(** [emit], when nothing else emits in between. *)
Definition emit (type_ : pystr) (payload : list (pystr * pyval)) : M Bus exn Z :=
  seq ← next_seq; _ ← publish seq type_ payload; m_ret seq.

Lemma emit_eq type_ payload b :
  emit type_ payload b =
  let seq := bus_seq b + 1 in
  if encodable_val (VDict payload) then
    let e := mkEvent seq type_ payload in
    (Ok seq, mkBus seq (last_n HISTORY_LIMIT (bus_history b ++ [e])) (bus_published b ++ [e])
               (bus_cancel b))
  else (Err UnicodeEncodeError, mkBus seq (bus_history b) (bus_published b) (bus_cancel b)).
Proof. unfold emit, publish, next_seq, mbind, M_bind, m_bind. cbn zeta. by destruct (encodable_val _). Qed.

(** ** Streamed tokens *)

Record TokenBuffer := mkBuffer {
  tb_step : Z; tb_flush_chars : Z; tb_buffer : list pystr; tb_size : Z }.

Definition new_buffer (step : Z) : TokenBuffer := mkBuffer step 80 [] 0.

Definition token_payload (step : Z) (text : pystr) : list (pystr * pyval) :=
  [(u "step", VInt step); (u "text", VStr text)].

Definition concat_strs (l : list pystr) : pystr := mjoin l.

Definition cleared (t : TokenBuffer) : TokenBuffer := mkBuffer (tb_step t) (tb_flush_chars t) [] 0.
Definition add_chunk (chunk : pystr) (t : TokenBuffer) : TokenBuffer :=
  mkBuffer (tb_step t) (tb_flush_chars t) (tb_buffer t ++ [chunk]) (tb_size t + py_len chunk).
Definition is_full (t : TokenBuffer) : bool := tb_flush_chars t <=? tb_size t.

(** [flush] empties the buffer before it emits. *)
Definition flush : M (Bus * TokenBuffer) exn unit := λ bt,
  let '(b, t) := bt in
  match tb_buffer t with
  | [] => (Ok tt, (b, t))
  | parts =>
      let t' := cleared t in
      match emit STEP_TOKEN (token_payload (tb_step t) (concat_strs parts)) b with
      | (Ok _, b') => (Ok tt, (b', t'))
      | (Err e, b') => (Err e, (b', t'))
      end
  end.

Definition push (chunk : pystr) : M (Bus * TokenBuffer) exn unit := λ bt,
  let '(b, t) := bt in
  let t' := add_chunk chunk t in
  if is_full t' then flush (b, t') else (Ok tt, (b, t')).

(** ** Replay and cancellation *)

Definition replay (after_seq : Z) (b : Bus) : list Event :=
  if after_seq =? 0 then bus_history b
  else List.filter (λ e, after_seq <? ev_seq e) (bus_history b).

Definition request_cancel (b : Bus) : Bus :=
  mkBus (bus_seq b) (bus_history b) (bus_published b) true.
Definition is_cancelled (b : Bus) : bool := bus_cancel b.
Definition clear_cancel (b : Bus) : Bus :=
  mkBus (bus_seq b) (bus_history b) (bus_published b) false.

(** ** The stream of a run *)

Definition is_terminal_event (e : Event) : bool := bool_decide (ev_type e ∈ TERMINAL_EVENTS).

(** [highest = max(highest, event.get("seq", 0))], and the frames up to the first
    terminal event; the flag tells that the generator returned. *)
Fixpoint replay_frames (highest : Z) (events : list Event) : list Event * Z * bool :=
  match events with
  | [] => ([], highest, false)
  | e :: rest =>
      let h := Z.max highest (ev_seq e) in
      if is_terminal_event e then ([e], h, true)
      else let '(fs, h', fin) := replay_frames h rest in (e :: fs, h', fin)
  end.

(** The live part; [events] pairs what the subscription delivers with whether the
    client is found disconnected then. *)
Fixpoint live_frames (highest : Z) (events : list (Event * bool)) : list Event :=
  match events with
  | [] => []
  | (e, disconnected) :: rest =>
      if disconnected then []
      else if ev_seq e <=? highest then live_frames highest rest
      else if is_terminal_event e then [e]
      else e :: live_frames (ev_seq e) rest
  end.

(** The frame sent when a finished run has nothing left to replay. *)
Definition finished_frame (highest : Z) (status : pystr) (output error : option pystr) : Event :=
  let opt o := match o with Some s => VStr s | None => VNone end in
  mkEvent (highest + 1) RUN_END
    [(u "status", VStr status); (u "output", opt output); (u "error", opt error)].

(** [generator]: [terminal] is whether the run row has a terminal status,
    [history] the bus when the history is read, [live] what the subscription
    delivers afterwards. *)
Definition stream (after_seq : Z) (terminal : bool) (finished : Z → Event) (history : Bus)
    (live : list (Event * bool)) : list Event :=
  let '(fs, highest, fin) := replay_frames after_seq (replay after_seq history) in
  if fin then fs
  else if terminal && (highest =? after_seq) then fs ++ [finished highest]
  else fs ++ live_frames highest live.

(** [after_seq = int(last_event_id) if last_event_id else 0] *)
Definition after_seq_of `{PyTables} (last_event_id : option pystr) : Z :=
  match last_event_id with
  | Some ((_ :: _) as s) => default 0 (int_of_str s)
  | _ => 0
  end.

(** ** The bus invariant *)

Definition seqs (l : list Event) : list Z := map ev_seq l.
Definition increasing (l : list Event) : Prop := StronglySorted (λ a b, ev_seq a < ev_seq b) l.

(** The history is the tail of what was published, whoever emits. *)
Record stored (b : Bus) : Prop := {
  sd_seq : 0 ≤ bus_seq b;
  sd_history : bus_history b = last_n HISTORY_LIMIT (bus_published b) }.

(** And while no two emits of the run overlap, sequence numbers increase along the
    published events and stay within the counter. *)
Record bus_ok (b : Bus) : Prop := {
  ok_seq : 0 ≤ bus_seq b;
  ok_increasing : increasing (bus_published b);
  ok_range : Forall (λ e, 1 ≤ ev_seq e ≤ bus_seq b) (bus_published b);
  ok_history : bus_history b = last_n HISTORY_LIMIT (bus_published b) }.

Lemma empty_bus_ok : bus_ok empty_bus.
Proof. split; simpl; [lia|constructor|constructor|done]. Qed.

Lemma last_n_snoc {A} n (l : list A) x : (0 < n)%nat → last_n n (last_n n l ++ [x]) = last_n n (l ++ [x]).
Proof.
  intros Hn. unfold last_n. rewrite !length_app, length_drop. simpl.
  destruct (decide (length l < n)%nat).
  - replace (length l - n)%nat with 0%nat by lia.
    replace (length l - 0 + 1 - n)%nat with 0%nat by lia.
    replace (length l + 1 - n)%nat with 0%nat by lia. by rewrite !drop_0.
  - replace (length l - (length l - n) + 1 - n)%nat with 1%nat by lia.
    replace (length l + 1 - n)%nat with (1 + (length l - n))%nat by lia.
    rewrite !drop_app_le, drop_drop by (rewrite ?length_drop; lia).
    f_equal. f_equal. lia.
Qed.

Lemma increasing_snoc l e :
  increasing l → Forall (λ x, ev_seq x < ev_seq e) l → increasing (l ++ [e]).
Proof.
  unfold increasing. induction 1 as [|x l Hl IH Hx]; simpl; intros He.
  - constructor; [constructor|constructor].
  - apply Forall_cons in He as [He1 He2]. constructor; [by apply IH|].
    apply Forall_app. split; [done|]. by repeat constructor.
Qed.

Lemma HISTORY_LIMIT_pos : (0 < HISTORY_LIMIT)%nat.
Proof. unfold HISTORY_LIMIT. lia. Qed.

(** What the steps of emits do to the bus, however they interleave. *)
Definition bus_grows (b b' : Bus) : Prop :=
  (stored b → stored b') ∧ bus_seq b ≤ bus_seq b' ∧
  ∃ new, bus_published b' = bus_published b ++ new.

#[global] Instance bus_grows_preorder : PreOrder bus_grows.
Proof.
  split.
  - intros b. split_and!; try done. exists []. by rewrite app_nil_r.
  - intros b1 b2 b3 (H1 & H2 & n1 & H4) (H5 & H6 & n2 & H8).
    split_and!; [auto|lia|]. exists (n1 ++ n2). by rewrite H8, H4, app_assoc.
Qed.

Lemma emit_bus_ok type_ payload b : bus_ok b → bus_ok (emit type_ payload b).2.
Proof.
  intros [Hs Hi Hr Hh]. rewrite emit_eq. cbn zeta. destruct (encodable_val _); simpl.
  - split; simpl.
    + lia.
    + apply increasing_snoc; [done|]. eapply Forall_impl; [exact Hr|]. simpl. lia.
    + apply Forall_app. split; [eapply Forall_impl; [exact Hr|]; simpl; lia|].
      repeat constructor; simpl; lia.
    + rewrite Hh. apply last_n_snoc, HISTORY_LIMIT_pos.
  - split; simpl; try done; [lia|]. eapply Forall_impl; [exact Hr|]. simpl. lia.
Qed.

Lemma next_seq_grows : steps bus_grows next_seq.
Proof.
  intros b. split_and!; [by intros [? ?]; split; [simpl; lia|]|simpl; lia|]. exists []. by rewrite app_nil_r.
Qed.

Lemma publish_grows seq type_ payload : steps bus_grows (publish seq type_ payload).
Proof.
  intros b. unfold publish. destruct (encodable_val _); cbn [fst snd]; [|done].
  split_and!; [|done|by eexists]. intros [Hs Hh]. split; [done|]. simpl. rewrite Hh. apply last_n_snoc, HISTORY_LIMIT_pos.
Qed.

Lemma emit_grows type_ payload : steps bus_grows (emit type_ payload).
Proof.
  apply steps_bind; [tc_solve|apply next_seq_grows|]. intros seq.
  apply steps_bind; [tc_solve|apply publish_grows|]. intros _. apply steps_ret. tc_solve.
Qed.

Lemma request_cancel_grows b : bus_grows b (request_cancel b).
Proof.
  split_and!; [by intros [? ?]; split|done|]. exists []. by rewrite app_nil_r.
Qed.

(** emitting keeps the bus in order: a successful emit returns the next
    sequence number, the event is the last one published and the last one of the
    history, which keeps at most 5000 events; a failed one publishes nothing. *)
Theorem emit_spec type_ payload b :
  bus_ok b →
  bus_ok (emit type_ payload b).2 ∧
  (length (bus_history (emit type_ payload b).2) ≤ HISTORY_LIMIT)%nat ∧
  match (emit type_ payload b).1 with
  | Ok seq => seq = bus_seq b + 1 ∧
              bus_published (emit type_ payload b).2
                = bus_published b ++ [mkEvent seq type_ payload] ∧
              last (bus_history (emit type_ payload b).2) = Some (mkEvent seq type_ payload)
  | Err _ => bus_published (emit type_ payload b).2 = bus_published b
  end.
Proof.
  intros Hb. pose proof (emit_bus_ok type_ payload b Hb) as Hb'. split; [done|].
  split.
  { rewrite (ok_history _ Hb'). unfold last_n. rewrite length_drop. lia. }
  pose proof HISTORY_LIMIT_pos as HL.
  rewrite emit_eq. cbn zeta. destruct (encodable_val _); simpl; [|done]. split_and!; [done..|].
  unfold last_n. rewrite length_app. simpl.
  rewrite drop_app_le by lia. by rewrite last_snoc.
Qed.

(** ** Streamed text *)

Definition payload_text (e : Event) : pystr :=
  if bool_decide (ev_type e = STEP_TOKEN)
  then match assoc (u "text") (ev_payload e) with Some (VStr s) => s | _ => [] end
  else [].

Definition streamed_text (l : list Event) : pystr := mjoin (map payload_text l).

Lemma streamed_text_app l k : streamed_text (l ++ k) = streamed_text l ++ streamed_text k.
Proof. unfold streamed_text. rewrite map_app. by rewrite join_app. Qed.

(** The text that reached the bus and the text still buffered. *)
Definition text_so_far (bt : Bus * TokenBuffer) : pystr :=
  streamed_text (bus_published bt.1) ++ concat_strs (tb_buffer bt.2).

Definition parts_encodable (t : TokenBuffer) : Prop := Forall (λ s, encodable s = true) (tb_buffer t).

Lemma encodable_concat l : Forall (λ s, encodable s = true) l → encodable (concat_strs l) = true.
Proof.
  induction 1 as [|s l Hs Hl IH]; [done|]. unfold encodable, concat_strs in *. simpl.
  by rewrite forallb_app, Hs.
Qed.

Lemma token_event_text seq step text : payload_text (mkEvent seq STEP_TOKEN (token_payload step text)) = text.
Proof. reflexivity. Qed.

Lemma flush_text b t :
  parts_encodable t →
  ∃ b' t', flush (b, t) = (Ok tt, (b', t')) ∧ tb_buffer t' = [] ∧
    text_so_far (b', t') = text_so_far (b, t).
Proof.
  intros Hp. unfold flush. destruct (tb_buffer t) as [|p ps] eqn:Ht; [by exists b, t|].
  rewrite <- Ht. unfold parts_encodable in Hp. apply encodable_concat in Hp.
  rewrite emit_eq. cbn zeta. replace (encodable_val _) with true.
  2: { simpl. rewrite Hp. reflexivity. }
  eexists _, _. split; [reflexivity|]. split; [done|]. unfold text_so_far. simpl.
  rewrite streamed_text_app, app_nil_r. f_equal.
  unfold streamed_text. simpl. by rewrite app_nil_r.
Qed.

Lemma push_text chunk b t :
  parts_encodable t → encodable chunk = true →
  ∃ b' t', push chunk (b, t) = (Ok tt, (b', t')) ∧ parts_encodable t' ∧
    text_so_far (b', t') = text_so_far (b, t) ++ chunk.
Proof.
  intros Hp Hc. unfold push. set (t1 := add_chunk chunk t).
  assert (Hp1 : parts_encodable t1) by (apply Forall_app; split; [done|by repeat constructor]).
  assert (Ht1 : text_so_far (b, t1) = text_so_far (b, t) ++ chunk).
  { unfold text_so_far. simpl. unfold concat_strs. rewrite join_app. simpl.
    by rewrite app_nil_r, app_assoc. }
  destruct (is_full t1).
  - destruct (flush_text b t1 Hp1) as (b' & t' & -> & He & Htx). exists b', t'.
    split_and!; [done| |by rewrite Htx]. unfold parts_encodable. rewrite He. constructor.
  - by exists b, t1.
Qed.

(** buffering loses and reorders nothing: after any sequence of encodable
    chunks and the flush at the end of the step, the text of the token events on
    the bus has grown by exactly the chunks, in order, and the buffer is empty. *)
Theorem stream_text_preserved chunks b t :
  parts_encodable t → Forall (λ s, encodable s = true) chunks →
  ∃ b' t', (_ ← m_iter push chunks; flush) (b, t) = (Ok tt, (b', t')) ∧ tb_buffer t' = [] ∧
    streamed_text (bus_published b') = text_so_far (b, t) ++ concat_strs chunks.
Proof.
  intros Hp Hc. unfold m_iter. revert b t Hp. induction Hc as [|c cs Hc Hcs IH]; intros b t Hp.
  - simpl. unfold mbind, M_bind, m_bind, m_ret.
    destruct (flush_text b t Hp) as (b' & t' & Hf & He & Htx). exists b', t'. rewrite Hf.
    split_and!; [done..|]. rewrite app_nil_r, <- Htx. unfold text_so_far. simpl.
    by rewrite He, app_nil_r.
  - destruct (push_text c b t Hp Hc) as (b1 & t1 & Hpush & Hp1 & Htx).
    destruct (IH b1 t1 Hp1) as (b' & t' & Hrun & He & Hst). exists b', t'.
    split_and!; [|done|].
    + revert Hrun. simpl. unfold mbind, M_bind, m_bind, m_ret. rewrite Hpush.
      destruct (m_mapM push cs (b1, t1)) as [[ys|e] w]; done.
    + rewrite Hst, Htx. unfold concat_strs. simpl. by rewrite app_assoc.
Qed.

(** ** Replay *)

Definition after (n : Z) (l : list Event) : list Event := List.filter (λ e, n <? ev_seq e) l.

Lemma after_app n l k : after n (l ++ k) = after n l ++ after n k.
Proof. apply List.filter_app. Qed.

Lemma after_none n l : Forall (λ e, ev_seq e ≤ n) l → after n l = [].
Proof.
  induction 1 as [|e l He Hl IH]; [done|]. simpl.
  destruct (Z.ltb_spec n (ev_seq e)); [lia|done].
Qed.

Lemma after_all n l : Forall (λ e, n < ev_seq e) l → after n l = l.
Proof.
  induction 1 as [|e l He Hl IH]; [done|]. simpl.
  destruct (Z.ltb_spec n (ev_seq e)); [by f_equal|lia].
Qed.

Lemma increasing_app_inv l k :
  increasing (l ++ k) → increasing l ∧ increasing k ∧
  ∀ x y, x ∈ l → y ∈ k → ev_seq x < ev_seq y.
Proof.
  intros Hs. apply StronglySorted_app in Hs as (H1 & H2 & H3). split_and!; [done|done|].
  intros x y Hx Hy. by apply H1.
Qed.

Lemma replay_after n b : bus_ok b → 0 ≤ n → replay n b = after n (bus_history b).
Proof.
  intros Hb Hn. unfold replay. destruct (Z.eqb_spec n 0) as [->|]; [|done].
  symmetry. apply after_all. rewrite (ok_history _ Hb). unfold last_n.
  apply Forall_drop. eapply Forall_impl; [apply (ok_range _ Hb)|]. simpl. lia.
Qed.

(** a client that missed at most 5000 events misses none of them: replaying
    after sequence number [n] returns exactly the events published after [n], in
    order. *)
Theorem replay_complete n b :
  bus_ok b → 0 ≤ n → (length (after n (bus_published b)) ≤ HISTORY_LIMIT)%nat →
  replay n b = after n (bus_published b).
Proof.
  intros Hb Hn Hlen. rewrite replay_after, (ok_history _ Hb) by done. unfold last_n.
  set (k := (length (bus_published b) - HISTORY_LIMIT)%nat).
  rewrite <- (take_drop k (bus_published b)) in Hlen |- * at 2.
  rewrite after_app in *. rewrite (after_none n (take k _)); [done|].
  apply Forall_forall. intros x Hx. destruct (Z.le_gt_cases (ev_seq x) n) as [|Hgt]; [done|].
  exfalso. pose proof (ok_increasing _ Hb) as Hi.
  rewrite <- (take_drop k (bus_published b)) in Hi.
  apply increasing_app_inv in Hi as (_ & _ & Hlt).
  rewrite (after_all n (drop k _)) in Hlen.
  2: { apply Forall_forall. intros y Hy. specialize (Hlt x y Hx Hy). lia. }
  rewrite length_app, length_drop in Hlen.
  assert (Hpos : (0 < length (after n (take k (bus_published b))))%nat).
  { apply list_elem_of_In in Hx. destruct (after n _) eqn:Ha; [|simpl; lia].
    assert (In x (after n (take k (bus_published b)))) as Hin.
    { apply filter_In. split; [done|]. by apply Z.ltb_lt. }
    by rewrite Ha in Hin. }
  subst k. destruct (decide (length (bus_published b) ≤ HISTORY_LIMIT)%nat).
  - replace (length (bus_published b) - HISTORY_LIMIT)%nat with 0%nat in Hx by lia.
    by apply elem_of_nil in Hx.
  - lia.
Qed.

(** ** The stream *)

(** The events up to the first terminal one. *)
Fixpoint until_end (l : list Event) : list Event :=
  match l with
  | [] => []
  | e :: rest => if is_terminal_event e then [e] else e :: until_end rest
  end.
Definition ends (l : list Event) : bool := existsb is_terminal_event l.

Lemma replay_frames_eq h l :
  replay_frames h l =
    (until_end l, fold_left (λ h e, Z.max h (ev_seq e)) (until_end l) h, ends l).
Proof.
  revert h. induction l as [|e l IH]; intros h; simpl; [done|].
  destruct (is_terminal_event e); [done|]. by rewrite IH.
Qed.

Lemma until_end_id l : ends l = false → until_end l = l.
Proof.
  unfold ends. induction l as [|e l IH]; simpl; [done|].
  destruct (is_terminal_event e); simpl; [done|]. intros. by rewrite IH.
Qed.

Lemma until_end_app l k : ends l = false → until_end (l ++ k) = l ++ until_end k.
Proof.
  unfold ends. induction l as [|e l IH]; simpl; [done|].
  destruct (is_terminal_event e); simpl; [done|]. intros. by rewrite IH.
Qed.

Lemma until_end_app_ends l k : ends l = true → until_end (l ++ k) = until_end l.
Proof.
  unfold ends. induction l as [|e l IH]; simpl; [done|].
  destruct (is_terminal_event e); simpl; [done|]. intros. by rewrite IH.
Qed.

Lemma until_end_prefix l : until_end l `prefix_of` l.
Proof.
  induction l as [|e l IH]; simpl; [done|]. destruct (is_terminal_event e).
  - by exists l.
  - by apply prefix_cons.
Qed.

Definition connected (l : list Event) : list (Event * bool) := map (λ e, (e, false)) l.

Lemma live_frames_skip h l k :
  Forall (λ e, ev_seq e ≤ h) l → live_frames h (connected l ++ k) = live_frames h k.
Proof.
  induction 1 as [|e l He Hl IH]; [done|]. simpl.
  destruct (Z.leb_spec (ev_seq e) h); [done|lia].
Qed.

Lemma live_frames_fresh h l :
  increasing l → Forall (λ e, h < ev_seq e) l → live_frames h (connected l) = until_end l.
Proof.
  intros Hi. revert h. induction Hi as [|e l Hl IH He]; intros h Hh; simpl; [done|].
  apply Forall_cons in Hh as [Hh1 Hh2]. destruct (Z.leb_spec (ev_seq e) h); [lia|].
  destruct (is_terminal_event e); [done|]. f_equal. by apply IH.
Qed.

Definition above (n : Z) (l : list Event) : Prop := Forall (λ e, n < ev_seq e) l.

(** Whatever the subscription delivers, the live frames are fresh and in order. *)
Lemma live_frames_increasing h l : above h (live_frames h l) ∧ increasing (live_frames h l).
Proof.
  revert h. induction l as [|[e d] l IH]; intros h; simpl; [split; constructor|].
  destruct d; [split; constructor|]. destruct (Z.leb_spec (ev_seq e) h); [apply IH|].
  destruct (is_terminal_event e); [split; repeat constructor; lia|].
  destruct (IH (ev_seq e)) as [Ha Hi]. split.
  - constructor; [done|]. eapply Forall_impl; [exact Ha|]. simpl. lia.
  - by constructor.
Qed.

Lemma fold_max_bounds l h :
  h ≤ fold_left (λ h e, Z.max h (ev_seq e)) l h ∧
  Forall (λ e, ev_seq e ≤ fold_left (λ h e, Z.max h (ev_seq e)) l h) l.
Proof.
  revert h. induction l as [|e l IH]; intros h; simpl; [split; [lia|constructor]|].
  destruct (IH (Z.max h (ev_seq e))) as [H1 H2]. split; [lia|]. constructor; [lia|done].
Qed.

Lemma increasing_app l k :
  increasing l → increasing k → (∀ x y, x ∈ l → y ∈ k → ev_seq x < ev_seq y) → increasing (l ++ k).
Proof. intros H1 H2 H3. apply StronglySorted_app. by split_and!. Qed.

Lemma increasing_after n l : increasing l → increasing (after n l).
Proof.
  induction 1 as [|e l Hl IH He]; simpl; [constructor|].
  destruct (n <? ev_seq e); [|done]. constructor; [done|].
  apply Forall_forall. intros x Hx. rewrite Forall_forall in He. apply He.
  apply list_elem_of_In, filter_In in Hx as [Hx _]. by apply list_elem_of_In.
Qed.

Lemma increasing_prefix l k : l `prefix_of` k → increasing k → increasing l.
Proof. intros [m ->] Hk. by apply increasing_app_inv in Hk as (? & _). Qed.

Lemma above_after n l : above n (after n l).
Proof.
  apply Forall_forall. intros x Hx. apply list_elem_of_In, filter_In in Hx as [_ Hx].
  by apply Z.ltb_lt.
Qed.

Lemma above_prefix n l k : l `prefix_of` k → above n k → above n l.
Proof. intros [m ->] Hk. unfold above in Hk. by apply Forall_app in Hk as [? _]. Qed.

Lemma fold_max_le l h m :
  h ≤ m → Forall (λ e, ev_seq e ≤ m) l → fold_left (λ h e, Z.max h (ev_seq e)) l h ≤ m.
Proof. intros Hh Hl. revert h Hh. induction Hl; simpl; [done|]. intros. apply IHHl. lia. Qed.

Lemma history_increasing b : bus_ok b → increasing (bus_history b).
Proof.
  intros Hb. rewrite (ok_history _ Hb). unfold last_n. pose proof (ok_increasing _ Hb) as Hi.
  rewrite <- (take_drop (length (bus_published b) - HISTORY_LIMIT) (bus_published b)) in Hi.
  by apply increasing_app_inv in Hi as (_ & ? & _).
Qed.

(** a client never sees an event twice or out of order: whatever the
    subscription delivers after the replay, the sequence numbers of the frames
    increase strictly and exceed the one the client resumed from. *)
Theorem stream_increasing n terminal status output error b live :
  bus_ok b → 0 ≤ n →
  let frames := stream n terminal (λ h, finished_frame h status output error) b live in
  increasing frames ∧ above n frames.
Proof.
  intros Hb Hn. simpl. unfold stream. rewrite replay_frames_eq, (replay_after n b) by done.
  set (fs := until_end (after n (bus_history b))).
  assert (Hp : fs `prefix_of` after n (bus_history b)) by apply until_end_prefix.
  assert (Hi : increasing fs)
    by (eapply increasing_prefix; [exact Hp|]; by apply increasing_after, history_increasing).
  assert (Ha : above n fs) by (eapply above_prefix; [exact Hp|]; apply above_after).
  destruct (ends _); [done|].
  destruct (fold_max_bounds fs n) as [Hh1 Hh2].
  set (h := fold_left (λ h e, Z.max h (ev_seq e)) fs n) in *. clearbody h fs.
  rewrite Forall_forall in Hh2.
  destruct (terminal && (h =? n)).
  - split.
    + apply increasing_snoc; [done|]. apply Forall_forall. intros x Hx. simpl.
      specialize (Hh2 x Hx). lia.
    + apply Forall_app. split; [done|]. repeat constructor. simpl. lia.
  - destruct (live_frames_increasing h live) as [Hl1 Hl2]. split.
    + apply increasing_app; [done|done|]. intros x y Hx Hy. specialize (Hh2 x Hx).
      unfold above in Hl1. rewrite Forall_forall in Hl1. specialize (Hl1 y Hy). lia.
    + apply Forall_app. split; [done|]. eapply Forall_impl; [exact Hl1|]. simpl. lia.
Qed.

(** C15: a client that reconnects sees each event once: while events are published in
    the order of their sequence numbers (no two emits of the run overlap) and at most
    5000, what the history keeps, have been published since the one the client
    resumes from, and when the subscription delivers every event published after the
    history was read, and possibly some of those before, the client of a run that has
    not finished sees every event after the one it resumed from exactly once, in
    order, up to the terminal one. *)
Theorem stream_exactly_once n finished b overlap more :
  bus_ok b → 0 ≤ n ≤ bus_seq b →
  (length (after n (bus_published b)) ≤ HISTORY_LIMIT)%nat →
  Forall (λ e, e ∈ bus_published b) overlap →
  increasing more → above (bus_seq b) more →
  stream n false finished b (connected (overlap ++ more))
    = until_end (after n (bus_published b) ++ more).
Proof.
  intros Hb Hn Hlen Hov Hmi Hma. unfold stream.
  rewrite replay_frames_eq, replay_complete by (done || lia). simpl.
  set (l := after n (bus_published b)).
  destruct (ends l) eqn:He; [by rewrite until_end_app_ends|].
  rewrite until_end_app, until_end_id by done. f_equal.
  set (h := fold_left (λ h e, Z.max h (ev_seq e)) l n).
  destruct (fold_max_bounds l n) as [Hh1 Hh2]. fold h in Hh1, Hh2.
  assert (Hr : ∀ e, e ∈ bus_published b → ev_seq e ≤ bus_seq b).
  { pose proof (ok_range _ Hb) as Hr. rewrite Forall_forall in Hr. intros e He'. apply Hr in He'. lia. }
  assert (Hhs : h ≤ bus_seq b).
  { apply fold_max_le; [lia|]. apply Forall_forall. intros e Hin.
    apply list_elem_of_In, filter_In in Hin as [Hin _]. by apply Hr, list_elem_of_In. }
  unfold connected. rewrite map_app. fold (connected overlap) (connected more).
  rewrite live_frames_skip.
  - apply live_frames_fresh; [done|]. eapply Forall_impl; [exact Hma|]. simpl. lia.
  - apply Forall_forall. intros e Hin. rewrite Forall_forall in Hov. specialize (Hov e Hin).
    destruct (Z.le_gt_cases (ev_seq e) n); [lia|].
    rewrite Forall_forall in Hh2. apply Hh2. apply list_elem_of_In, filter_In.
    split; [by apply list_elem_of_In|by apply Z.ltb_lt].
Qed.

(** ** Witnesses *)

Definition demo_bus : Bus :=
  (emit STEP_START [] (emit RUN_START [] empty_bus).2).2.
Lemma demo_bus_ok : bus_ok demo_bus.
Proof. apply emit_bus_ok, emit_bus_ok, empty_bus_ok. Qed.

Lemma emit_spec_witness :
  bus_ok (emit STEP_END [(u "output", VStr (u "x"))] demo_bus).2.
Proof. exact (proj1 (emit_spec STEP_END [(u "output", VStr (u "x"))] demo_bus demo_bus_ok)). Defined.

Lemma stream_text_preserved_witness :
  ∃ b' t', (_ ← m_iter push [u "ab"; u "c"]; flush) (demo_bus, new_buffer 1) = (Ok tt, (b', t')) ∧
    tb_buffer t' = [] ∧
    streamed_text (bus_published b') = text_so_far (demo_bus, new_buffer 1) ++ concat_strs [u "ab"; u "c"].
Proof. apply stream_text_preserved; repeat constructor. Defined.

Lemma replay_complete_witness : replay 1 demo_bus = after 1 (bus_published demo_bus).
Proof.
  apply (replay_complete 1 demo_bus demo_bus_ok); [lia|].
  apply Nat.leb_le. vm_compute. reflexivity.
Defined.

Lemma stream_increasing_witness :
  increasing (stream 1 true (λ h, finished_frame h (u "failed") None None) demo_bus []).
Proof. exact (proj1 (stream_increasing 1 true (u "failed") None None demo_bus [] demo_bus_ok ltac:(lia))). Defined.

Lemma stream_exactly_once_witness :
  stream 0 false (λ h, finished_frame h (u "failed") None None) demo_bus
    (connected ([mkEvent 2 STEP_START []] ++ [mkEvent 3 RUN_END []]))
  = until_end (after 0 (bus_published demo_bus) ++ [mkEvent 3 RUN_END []]).
Proof.
  apply (stream_exactly_once 0 _ demo_bus [mkEvent 2 STEP_START []] [mkEvent 3 RUN_END []] demo_bus_ok).
  - simpl. lia.
  - apply Nat.leb_le. vm_compute. reflexivity.
  - repeat constructor.
  - repeat constructor.
  - repeat constructor.
Defined.

(** Two emits that overlap, as those of tools that run at the same time do: the one
    that took its number first publishes last. *)
Definition overlapping : M Bus exn unit :=
  first ← next_seq; second ← next_seq;
  _ ← publish second TOOL_CALL [(u "tool", VStr (u "second"))];
  publish first TOOL_CALL [(u "tool", VStr (u "first"))].

(** A client that is connected is never shown the event with the smaller number; one
    that replays the history afterwards is. *)
Lemma overlapping_emits_lose_one :
  let b := (overlapping empty_bus).2 in
  map ev_seq (bus_published b) = [2; 1] ∧
  map ev_seq (stream 0 false (λ h, finished_frame h (u "failed") None None) empty_bus (connected (bus_published b))) = [2] ∧
  map ev_seq (stream 0 false (λ h, finished_frame h (u "failed") None None) b []) = [2; 1].
Proof. vm_compute. split_and!; reflexivity. Qed.

(** An event published after the history is read and before the subscription
    begins reaches no one: the run's last step is missing from the frames. *)
Lemma stream_gap :
  stream 0 false (λ h, finished_frame h (u "failed") None None) demo_bus
    (connected [mkEvent 4 RUN_END []])
  = bus_published demo_bus ++ [mkEvent 4 RUN_END []].
Proof. vm_compute. reflexivity. Qed.

(** A run whose row is terminal but whose history has no terminal event: a client
    that replays something is left waiting on the subscription. *)
Lemma stream_finished_without_end :
  stream 0 true (λ h, finished_frame h (u "cancelled") None None) demo_bus []
  = bus_published demo_bus.
Proof. vm_compute. reflexivity. Qed.
