(* ===== verification/World.v ===== *)
(** * The world a run executes in

    The objects one run mutates: its state, its budget, its event bus, the token
    buffer of the current step, the router's caches, and whatever the sinks
    write to ([X]; the database session in Runner).  What the code cannot decide
    is an argument: [Env] gives the clock, the replies of the model providers,
    the cancellation requests of users, the interleaving of concurrent tools and
    the interruptions an [await] can suffer.  They are indexed by a counter of
    awaits, or of provider calls, so a run can meet any sequence of them. *)

From S2P Require Import Prelude PyStr PyFloat PyVal Config State Budget Registry Providers Pricing.
From S2P Require Import Keys Events.

(** How an [await] can be interrupted: the task is cancelled, the timer of the
    run's [wait_for] or of the current tool's fires, or the awaited service fails. *)
Inductive interrupt :=
| ICancel
| IRunTimer
| IToolTimer
| IFail (e : exn).

(** What the services an [await] reaches (Redis, the database, a provider's
    client) can raise: never one of the program's own exceptions. *)
Definition service_failure (e : exn) : bool :=
  match e with ExternalError _ _ | TimeoutError | ValueError _ | TypeError _ => true | _ => false end.

Class Env := {
  env_tables :: PyTables;
  env_settings : Settings;
  env_clock : nat → Z;                                (* [time.monotonic()], float units *)
  env_interrupt : nat → option interrupt;
  env_cancel : nat → bool;                            (* a user asked to cancel by now *)
  env_reply : nat → CompletionRequest → list pystr * res exn LLMResult;
  env_stored : pystr → Provider → option pystr;
  env_decrypt : pystr → pystr → res exn pystr;
  env_schedule : nat → list nat }.

(** [ck_in_tool], [ck_in_run]: a [wait_for] of a tool, of the run, is open. *)
Record Clock := mkClock { ck_tick : nat; ck_in_tool : bool; ck_in_run : bool }.

(** One call of an adapter, as the router made it. *)
Record ProviderCall := mkProviderCall {
  pc_provider : Provider; pc_api_key : pystr; pc_request : CompletionRequest;
  pc_attempt : Z; pc_streaming : bool }.

Record RouterState := mkRouter {
  ro_resolver : KeyResolver; ro_prices : PriceBook; ro_adapters : list (Provider * pystr);
  ro_calls : list ProviderCall }.

Record World (X : Type) := mkWorld {
  w_state : RunState; w_budget : BudgetGuard; w_bus : Bus; w_buffer : TokenBuffer;
  w_router : RouterState; w_clock : Clock; w_ext : X }.
Arguments mkWorld {X}.
Arguments w_state {X}.
Arguments w_budget {X}.
Arguments w_bus {X}.
Arguments w_buffer {X}.
Arguments w_router {X}.
Arguments w_clock {X}.
Arguments w_ext {X}.

Section world.
Context {X : Type}.
Implicit Types w : World X.

Definition put_state s w := mkWorld s (w_budget w) (w_bus w) (w_buffer w) (w_router w) (w_clock w) (w_ext w).
Definition put_budget b w := mkWorld (w_state w) b (w_bus w) (w_buffer w) (w_router w) (w_clock w) (w_ext w).
Definition put_bus b w := mkWorld (w_state w) (w_budget w) b (w_buffer w) (w_router w) (w_clock w) (w_ext w).
Definition put_buffer t w := mkWorld (w_state w) (w_budget w) (w_bus w) t (w_router w) (w_clock w) (w_ext w).
Definition put_router r w := mkWorld (w_state w) (w_budget w) (w_bus w) (w_buffer w) r (w_clock w) (w_ext w).
Definition put_clock c w := mkWorld (w_state w) (w_budget w) (w_bus w) (w_buffer w) (w_router w) c (w_ext w).
Definition put_ext (x : X) w := mkWorld (w_state w) (w_budget w) (w_bus w) (w_buffer w) (w_router w) (w_clock w) x.

(** Run a computation of one component on its part of the world. *)
Definition zoom {A S} (read : World X → S) (put : S → World X → World X) (m : M S exn A)
    : M (World X) exn A := λ w, let '(r, s) := m (read w) in (r, put s w).

Definition on_state {A} : M RunState exn A → M (World X) exn A := zoom w_state put_state.
Definition on_budget {A} : M BudgetGuard exn A → M (World X) exn A := zoom w_budget put_budget.
Definition on_bus {A} : M Bus exn A → M (World X) exn A := zoom w_bus put_bus.
Definition on_ext {A} : M X exn A → M (World X) exn A := zoom w_ext put_ext.

Definition update_state (f : RunState → RunState) : M (World X) exn unit :=
  modify (λ w, put_state (f (w_state w)) w).
Definition gets {A} (f : World X → A) : M (World X) exn A := λ w, (Ok (f w), w).

Context `{Env}.

Definition tick w := 
  put_clock (mkClock (S (ck_tick (w_clock w))) (ck_in_tool (w_clock w)) (ck_in_run (w_clock w))) w.

(** An [await] of an outside service: time passes, and it may be interrupted. *)
Definition await : M (World X) exn unit := λ w,
  let t := ck_tick (w_clock w) in
  match env_interrupt t with
  | None => (Ok tt, tick w)
  | Some ICancel => (Err CancelledError, tick w)
  | Some IRunTimer => (if ck_in_run (w_clock w) then Err (TimerCancelled false) else Ok tt, tick w)
  | Some IToolTimer => (if ck_in_tool (w_clock w) then Err (TimerCancelled true) else Ok tt, tick w)
  | Some (IFail e) => (if service_failure e then Err e else Ok tt, tick w)
  end.

Definition now : M (World X) exn Z := gets (λ w, env_clock (ck_tick (w_clock w))).

(** The two round trips of [await self._emitter.emit(...)]; other tasks of the run
    may take their turn between them. *)
Definition reserve_seq : M (World X) exn Z := _ ← await; on_bus next_seq.
Definition publish_event (seq : Z) (type_ : pystr) (payload : list (pystr * pyval)) : M (World X) exn unit :=
  _ ← await; on_bus (publish seq type_ payload).
Definition emit_event (type_ : pystr) (payload : list (pystr * pyval)) : M (World X) exn unit :=
  seq ← reserve_seq; publish_event seq type_ payload.

(** [buffer.flush] and [buffer.push]: nothing is awaited unless something is
    emitted, and the buffer is empty before the emit can fail. *)
Definition flush_tokens : M (World X) exn unit := λ w,
  match tb_buffer (w_buffer w) with
  | [] => (Ok tt, w)
  | parts =>
      emit_event STEP_TOKEN (token_payload (tb_step (w_buffer w)) (concat_strs parts))
        (put_buffer (cleared (w_buffer w)) w)
  end.
Definition push_token (chunk : pystr) : M (World X) exn unit :=
  _ ← modify (λ w, put_buffer (add_chunk chunk (w_buffer w)) w);
  full ← gets (λ w, is_full (w_buffer w));
  if full : bool then flush_tokens else m_ret tt.

(** [ev.is_cancelled(run_id)], after the requests made by now *)
Definition cancel_requested : M (World X) exn bool :=
  _ ← await;
  _ ← modify (λ w, if env_cancel (ck_tick (w_clock w)) then put_bus (request_cancel (w_bus w)) w else w);
  gets (λ w, is_cancelled (w_bus w)).

(** [int((time.perf_counter() - started) * 1000)] *)
Definition latency_ms (started : Z) : M (World X) exn Z :=
  t ← now;
  match fl_mul (rnd (t - started) 1) (1000 * fl_one) with
  | Some ms => m_ret (fl_trunc ms)
  | None => raise (OverflowError (u "cannot convert float infinity to integer"))
  end.

(** ** Framing *)

(** [R] relates the worlds around every step that moves only the clock, the token
    buffer or the bus: what most invariants of a run do not look at. *)
Class Frame (R : relation (World X)) := {
  frame_preorder :: PreOrder R;
  frame_clock w c : R w (put_clock c w);
  frame_bus w b : bus_grows (w_bus w) b → R w (put_bus b w);
  frame_buffer w t : R w (put_buffer t w) }.

Lemma steps_zoom {A S} (R : relation (World X)) read (put : S → World X → World X) (m : M S exn A) :
  (∀ w, R w (put (m (read w)).2 w)) → steps R (zoom read put m).
Proof. intros HR w. unfold zoom. specialize (HR w). by destruct (m (read w)). Qed.

Section frame.
Context (R : relation (World X)) `{!Frame R}.

Lemma await_steps : steps R await.
Proof.
  intros w. unfold await, tick.
  destruct (env_interrupt _) as [[| | |e]|]; simpl; apply frame_clock.
Qed.

Lemma gets_steps {A} (f : World X → A) : steps R (gets f).
Proof. intros w. simpl. done. Qed.

Lemma now_steps : steps R now.
Proof. apply gets_steps. Qed.

Lemma on_bus_steps {A} (m : M Bus exn A) : steps bus_grows m → steps R (on_bus m).
Proof. intros Hm. apply steps_zoom. intros w. apply frame_bus, Hm. Qed.

Lemma reserve_seq_steps : steps R reserve_seq.
Proof. apply steps_bind; [tc_solve|apply await_steps|]. intros _. apply on_bus_steps, next_seq_grows. Qed.

Lemma publish_event_steps seq type_ payload : steps R (publish_event seq type_ payload).
Proof. apply steps_bind; [tc_solve|apply await_steps|]. intros _. apply on_bus_steps, publish_grows. Qed.

Lemma emit_event_steps type_ payload : steps R (emit_event type_ payload).
Proof. apply steps_bind; [tc_solve|apply reserve_seq_steps|]. intros seq. apply publish_event_steps. Qed.

Lemma flush_tokens_steps : steps R flush_tokens.
Proof.
  intros w. unfold flush_tokens. destruct (tb_buffer (w_buffer w)) as [|p ps]; [done|].
  etrans; [apply (frame_buffer w (cleared (w_buffer w)))|]. apply emit_event_steps.
Qed.

Lemma push_token_steps chunk : steps R (push_token chunk).
Proof.
  apply steps_bind; [tc_solve|apply steps_modify; intros; apply frame_buffer|]. intros _.
  apply steps_bind; [tc_solve|apply gets_steps|]. intros [].
  - apply flush_tokens_steps.
  - by apply steps_ret; tc_solve.
Qed.

Lemma cancel_requested_steps : steps R cancel_requested.
Proof.
  apply steps_bind; [tc_solve|apply await_steps|]. intros _.
  apply steps_bind; [tc_solve| |intros; apply gets_steps].
  intros w. simpl. destruct (env_cancel _); [apply frame_bus, request_cancel_grows|done].
Qed.

Lemma latency_ms_steps started : steps R (latency_ms started).
Proof.
  apply steps_bind; [tc_solve|apply now_steps|]. intros t.
  destruct (fl_mul _ _); [by apply steps_ret; tc_solve|by apply steps_raise; tc_solve].
Qed.
End frame.
End world.

#[export] Hint Resolve await_steps gets_steps now_steps reserve_seq_steps publish_event_steps emit_event_steps push_token_steps
  flush_tokens_steps cancel_requested_steps latency_ms_steps : steps.

(** ** What an interrupted [await] raises *)

Definition outage (e : exn) : Prop :=
  match e with
  | CancelledError | TimerCancelled _ | UnicodeEncodeError | OverflowError _ => True
  | _ => service_failure e = true
  end.

(** [m] raises nothing but outages. *)
Definition only_outages {X A} (m : M (World X) exn A) : Prop :=
  ∀ w, match (m w).1 with Ok _ => True | Err e => outage e end.

Section outages.
Context {X : Type} `{Env}.

Lemma only_outages_bind {A B} (m : M (World X) exn A) (k : A → M (World X) exn B) :
  only_outages m → (∀ a, only_outages (k a)) → only_outages (m_bind k m).
Proof.
  intros Hm Hk w. specialize (Hm w). unfold m_bind. destruct (m w) as [[a|e] w']; [apply Hk|done].
Qed.

Lemma only_outages_ret {A} (a : A) : only_outages (X:=X) (m_ret a).
Proof. intros w. done. Qed.

Lemma only_outages_mapM {A B} (f : A → M (World X) exn B) xs :
  (∀ x, only_outages (f x)) → only_outages (m_mapM f xs).
Proof.
  intros Hf. induction xs as [|x xs IH]; [apply only_outages_ret|].
  apply only_outages_bind; [done|]. intros y. apply only_outages_bind; [done|].
  intros ys. apply only_outages_ret.
Qed.

Lemma await_outages : only_outages (X:=X) await.
Proof.
  intros w. unfold await. destruct (env_interrupt _) as [[| | |e]|]; simpl; try done.
  - by destruct (ck_in_run _).
  - by destruct (ck_in_tool _).
  - destruct (service_failure e) eqn:He; [|done]. by destruct e.
Qed.

Lemma emit_event_outages type_ payload : only_outages (X:=X) (emit_event type_ payload).
Proof.
  apply only_outages_bind.
  - apply only_outages_bind; [apply await_outages|]. by intros _ w.
  - intros seq. apply only_outages_bind; [apply await_outages|]. intros _ w. unfold on_bus, zoom, publish.
    by destruct (encodable_val _).
Qed.

Lemma flush_tokens_outages : only_outages (X:=X) flush_tokens.
Proof.
  intros w. unfold flush_tokens. destruct (tb_buffer (w_buffer w)) as [|p ps]; [done|]. apply emit_event_outages.
Qed.

Lemma push_token_outages chunk : only_outages (X:=X) (push_token chunk).
Proof.
  apply only_outages_bind; [by intros w|]. intros _. apply only_outages_bind; [by intros w|].
  intros []; [apply flush_tokens_outages|apply only_outages_ret].
Qed.
End outages.
