(* ===== verification/Router.v ===== *)
(** * The LLM router (src/core/llm/router.py)

    One entry point per model call: resolve the credential, pick the adapter,
    retry transient failures, price the result.  The adapters of
    src/core/llm/providers are an abstract interface here: [env_reply] says, for
    the n-th call of an adapter, the tokens it streams and what it returns or
    raises. *)

From S2P Require Import Prelude PyStr PyFloat PyVal Config State Budget Registry Providers Pricing.
From S2P Require Import Keys Events World.

Record RoutedResult := mkRouted {
  rr_result : LLMResult; rr_cost_microcents : Z; rr_billed_to_platform : bool; rr_attempts : Z }.

Definition MAX_ATTEMPTS : Z := 3.

Definition is_retryable (e : exn) : bool :=
  match e with RetryableLLMError _ => true | _ => false end.

(** What an adapter lets out: the errors of the provider interface, and failures
    of the client library. *)
Definition provider_result (r : res exn LLMResult) : res exn LLMResult :=
  match r with
  | Ok x => Ok x
  | Err e => if is_llm_error e || service_failure e then Err e else Err (ExternalError (u "ProviderError") [])
  end.

(** The arguments of [complete]; [cr_stream] says whether [on_token] is given. *)
Record CompleteArgs := mkArgs {
  ca_model : pystr; ca_system : pystr; ca_messages : list Message; ca_max_tokens : Z;
  ca_effort : pystr; ca_json_mode : bool; ca_timeout_seconds : Z; ca_tools : list ToolSpec;
  ca_stream : bool }.

Definition request_of (spec : ModelSpec) (a : CompleteArgs) : CompletionRequest :=
  mkRequest spec (ca_system a) (ca_messages a) (ca_max_tokens a) (normalise_effort (ca_effort a))
    (ca_json_mode a) (ca_timeout_seconds a) (ca_tools a) true.

Section router.
Context {X : Type} `{Env}.

Definition put_resolver (k : KeyResolver) (r : RouterState) : RouterState :=
  mkRouter k (ro_prices r) (ro_adapters r) (ro_calls r).

(** [_resolver.resolve(model)]: the database is asked only for a key of the
    organisation that is not cached yet. *)
Definition needs_database (model : pystr) (k : KeyResolver) : bool :=
  match get_spec model with
  | Ok spec => negb (uses_platform (kr_mode k) model)
               && match cache_get (sp_provider spec) (kr_byok_cache k) with Some _ => false | None => true end
  | Err _ => false
  end.

Definition resolve_key (model : pystr) : M (World X) exn ResolvedKey :=
  db ← gets (λ w, needs_database model (ro_resolver (w_router w)));
  _ ← (if db : bool then await else m_ret tt);
  zoom (λ w, ro_resolver (w_router w)) (λ k w, put_router (put_resolver k (w_router w)) w)
    (resolve env_settings env_stored env_decrypt model).

(** [_adapter]: one adapter per credential; every provider of the registry has one. *)
Definition use_adapter (p : Provider) (key : pystr) (r : RouterState) : RouterState :=
  if bool_decide ((p, key) ∈ ro_adapters r) then r
  else mkRouter (ro_resolver r) (ro_prices r) ((p, key) :: ro_adapters r) (ro_calls r).

Definition log_call (c : ProviderCall) (r : RouterState) : RouterState :=
  mkRouter (ro_resolver r) (ro_prices r) (ro_adapters r) (ro_calls r ++ [c]).

(** [adapter.complete(request, on_token=...)] *)
Definition adapter_complete (c : ProviderCall) : M (World X) exn LLMResult :=
  n ← gets (λ w, length (ro_calls (w_router w)));
  _ ← modify (λ w, put_router (log_call c (w_router w)) w);
  let '(chunks, reply) := env_reply n (pc_request c) in
  _ ← (if pc_streaming c then m_iter push_token chunks else m_ret tt);
  _ ← await;
  lift_res (provider_result reply).

Definition call_of (key : ResolvedKey) (rq : CompletionRequest) (stream : bool) (attempt_no : Z) :=
  mkProviderCall (rk_provider key) (rk_api_key key) rq attempt_no (stream && (attempt_no =? 1)).

(** One pass of the retry loop, carrying [last_error]. *)
Definition try_once (model : pystr) (key : ResolvedKey) (rq : CompletionRequest) (stream : bool)
    (max_attempts attempt_no : Z) (last : option exn)
    : M (World X) exn (flow (option exn) RoutedResult) :=
  r ← attempt is_retryable (adapter_complete (call_of key rq stream attempt_no));
  match r with
  | inl e =>
      if attempt_no =? max_attempts then m_ret (Break (Some e))
      else _ ← await; m_ret (Next (Some e))          (* asyncio.sleep(delay) *)
  | inr result =>
      book ← gets (λ w, ro_prices (w_router w));
      cost ← lift_res (cost_microcents book model (lr_usage result));
      m_ret (Return (mkRouted result cost (rk_billed_to_platform key) attempt_no))
  end.

Definition complete (max_attempts : Z) (a : CompleteArgs) : M (World X) exn RoutedResult :=
  spec ← lift_res (get_spec (ca_model a));
  key ← resolve_key (ca_model a);
  _ ← modify (λ w, put_router (use_adapter (rk_provider key) (rk_api_key key) (w_router w)) w);
  out ← for_loop (seqZ 1 max_attempts)
          (try_once (ca_model a) key (request_of spec a) (ca_stream a) max_attempts) None;
  match out with
  | Return r => m_ret r
  | Next (Some e) | Break (Some e) => raise e
  | Next None | Break None => raise AssertionError
  end.

(** ** Framing: the router moves its own state, the bus and the clock *)

Class RouterFrame (R : relation (World X)) := {
  router_frame :: Frame R;
  frame_router w r : ro_prices r = ro_prices (w_router w) → R w (put_router r w) }.

Section frame.
Context (R : relation (World X)) `{!RouterFrame R}.

Lemma resolve_key_steps model : steps R (resolve_key model).
Proof.
  apply steps_bind; [tc_solve|apply gets_steps; tc_solve|]. intros db.
  apply steps_bind; [tc_solve| |].
  - destruct db; [apply await_steps; tc_solve|apply steps_ret; tc_solve].
  - intros _. apply steps_zoom. intros w. by apply frame_router.
Qed.

Lemma m_iter_steps {A} (f : A → M (World X) exn unit) xs :
  (∀ x, steps R (f x)) → steps R (m_iter f xs).
Proof.
  intros Hf. unfold m_iter. apply steps_bind; [tc_solve|by apply steps_mapM; [tc_solve|]|].
  intros _. apply steps_ret; tc_solve.
Qed.

Lemma adapter_complete_steps c : steps R (adapter_complete c).
Proof.
  apply steps_bind; [tc_solve|apply gets_steps; tc_solve|]. intros n.
  apply steps_bind; [tc_solve|apply steps_modify; intros; by apply frame_router|]. intros _.
  destruct (env_reply n (pc_request c)) as [chunks reply].
  apply steps_bind; [tc_solve| |].
  - destruct (pc_streaming c); [|apply steps_ret; tc_solve].
    apply m_iter_steps. intros. apply push_token_steps; tc_solve.
  - intros _. apply steps_bind; [tc_solve|apply await_steps; tc_solve|].
    intros _. apply steps_lift_res; tc_solve.
Qed.

Lemma try_once_steps model key rq stream m n last :
  steps R (try_once model key rq stream m n last).
Proof.
  apply steps_bind; [tc_solve|apply steps_attempt, adapter_complete_steps|]. intros [e|r].
  - destruct (n =? m); [apply steps_ret; tc_solve|].
    apply steps_bind; [tc_solve|apply await_steps; tc_solve|]. intros _. apply steps_ret; tc_solve.
  - apply steps_bind; [tc_solve|apply gets_steps; tc_solve|]. intros b.
    apply steps_bind; [tc_solve|apply steps_lift_res; tc_solve|]. intros c. apply steps_ret; tc_solve.
Qed.

Lemma complete_steps m a : steps R (complete m a).
Proof.
  apply steps_bind; [tc_solve|apply steps_lift_res; tc_solve|]. intros spec.
  apply steps_bind; [tc_solve|apply resolve_key_steps|]. intros key.
  apply steps_bind; [tc_solve|apply steps_modify|].
  { intros w. apply frame_router. unfold use_adapter. by case_bool_decide. }
  intros _. apply steps_bind; [tc_solve|apply steps_for_loop; [tc_solve|]|].
  { intros. apply try_once_steps. }
  intros [[e|]|[e|]|r]; (apply steps_ret || apply steps_raise); tc_solve.
Qed.
End frame.
End router.

(** ** The calls a completion makes *)

Section calls.
Context {X : Type} `{Env}.
Implicit Types w : World X.

Definition calls w : list ProviderCall := ro_calls (w_router w).

(** Nothing the router awaits besides its adapters makes a call. *)
Definition same_router w w' : Prop := w_router w' = w_router w.
#[global] Instance same_router_frame : Frame same_router.
Proof. split; try done. split; [done|]. intros x y z. unfold same_router. congruence. Qed.

Lemma steps_same_router_wp {A} (m : M (World X) exn A) (Q : A → World X → Prop) XX w :
  steps same_router m →
  (∀ a w', (m w).1 = Ok a → w_router w' = w_router w → Q a w') →
  (∀ e w', (m w).1 = Err e → w_router w' = w_router w → XX e w') → wp m Q XX w.
Proof.
  intros Hm HQ HX. specialize (Hm w). unfold wp. destruct (m w) as [[a|e] w']; auto.
Qed.

Definition reply_to w (c : ProviderCall) : res exn LLMResult :=
  provider_result (env_reply (length (calls w)) (pc_request c)).2.

(** An adapter call is logged once; its result is the provider's, and a retryable
    error can only come from the provider. *)
Lemma adapter_complete_wp c w :
  wp (adapter_complete c)
     (λ r w', calls w' = calls w ++ [c] ∧ reply_to w c = Ok r)
     (λ e w', calls w' = calls w ++ [c] ∧ (is_retryable e = true → reply_to w c = Err e)) w.
Proof.
  unfold adapter_complete, reply_to, calls. apply wp_bind. unfold wp at 1. simpl.
  apply wp_bind. unfold wp at 1. simpl.
  destruct (env_reply _ (pc_request c)) as [chunks reply]. simpl.
  set (w1 := put_router _ w). assert (Hr : w_router w1 = log_call c (w_router w)) by done.
  assert (Hnr : ∀ e, outage e → is_retryable e = false) by (intros []; done).
  apply wp_bind. apply steps_same_router_wp.
  { destruct (pc_streaming c); [|apply steps_ret; tc_solve].
    unfold m_iter. apply steps_bind; [tc_solve| |intros; apply steps_ret; tc_solve].
    apply steps_mapM; [tc_solve|]. intros. apply push_token_steps; tc_solve. }
  2: { intros e w2 He Hw2. rewrite Hw2, Hr. split; [done|]. intros Hret.
       assert (only_outages (X:=X) (if pc_streaming c then m_iter push_token chunks else m_ret tt)) as Ho.
       { destruct (pc_streaming c); [|apply only_outages_ret]. unfold m_iter.
         apply only_outages_bind; [apply only_outages_mapM; intros; apply push_token_outages|].
         intros. apply only_outages_ret. }
       specialize (Ho w1). rewrite He in Ho. apply Hnr in Ho. congruence. }
  intros _ w2 _ Hw2. apply wp_bind. apply steps_same_router_wp; [apply await_steps; tc_solve| |].
  2: { intros e w3 He Hw3. rewrite Hw3, Hw2, Hr. split; [done|]. intros Hret.
       pose proof (await_outages w2) as Ho. rewrite He in Ho. apply Hnr in Ho. congruence. }
  intros _ w3 _ Hw3. unfold wp, lift_res.
  destruct (provider_result reply) as [r|e]; rewrite Hw3, Hw2, Hr; done.
Qed.

Lemma try_once_wp model key rq stream m i last w :
  let c := call_of key rq stream i in
  wp (try_once model key rq stream m i last)
     (λ f w', calls w' = calls w ++ [c] ∧
        match f with
        | Return r => rr_attempts r = i ∧ rr_billed_to_platform r = rk_billed_to_platform key ∧
                      reply_to w c = Ok (rr_result r)
        | Next _ | Break _ => ∃ msg, reply_to w c = Err (RetryableLLMError msg)
        end)
     (λ e w', calls w' = calls w ++ [c]) w.
Proof.
  cbv zeta. unfold try_once. apply wp_bind. rewrite wp_attempt.
  eapply wp_mono; [apply adapter_complete_wp| |].
  - intros r w1 [Hc Hr]. cbv beta iota. apply wp_bind. unfold wp at 1. simpl.
    apply wp_bind. unfold wp at 1, lift_res.
    destruct (cost_microcents _ model _) as [cost|e]; [|done]. by apply wp_ret.
  - intros e w1 [Hc Hr]. cbv beta. destruct (is_retryable e) eqn:He; [|done].
    assert (∃ msg, reply_to w (call_of key rq stream i) = Err (RetryableLLMError msg)) as Hmsg.
    { rewrite Hr by done. destruct e; try done. by eexists. }
    destruct (i =? m); [by apply wp_ret|]. apply wp_bind.
    apply steps_same_router_wp; [apply await_steps; tc_solve| |].
    + intros _ w2 _ Hw2. apply wp_ret. split; [|done]. unfold calls in *. by rewrite Hw2.
    + intros e2 w2 _ Hw2. unfold calls in *. by rewrite Hw2.
Qed.

(** The calls logged after [n0] earlier ones, each but the last answered with a
    retryable error. *)
Definition retried (n0 : nat) (rq : CompletionRequest) (k : Z) : Prop :=
  ∀ j, 0 ≤ j < k - 1 → ∃ msg,
    provider_result (env_reply (n0 + Z.to_nat j) rq).2 = Err (RetryableLLMError msg).

Lemma retry_loop_wp model key rq stream m n : ∀ i last w,
  0 ≤ n →
  wp (for_loop (seqZ i n) (try_once model key rq stream m) last)
     (λ f w', ∃ k, 0 ≤ k ≤ n ∧ calls w' = calls w ++ map (call_of key rq stream) (seqZ i k) ∧
        retried (length (calls w)) rq k ∧
        match f with
        | Return r => 1 ≤ k ∧ rr_attempts r = i + k - 1 ∧
            rr_billed_to_platform r = rk_billed_to_platform key
        | _ => True
        end)
     (λ e w', ∃ k, 0 ≤ k ≤ n ∧ calls w' = calls w ++ map (call_of key rq stream) (seqZ i k) ∧
        retried (length (calls w)) rq k) w.
Proof.
  intros i last w Hn. revert i last w. pattern n. apply natlike_ind; [| |done]; clear n Hn.
  { intros i last w. simpl. apply wp_ret. exists 0. rewrite app_nil_r.
    split_and!; try lia; try done. intros j Hj. lia. }
  intros n Hn IH i last w. rewrite seqZ_cons by lia. cbn [for_loop].
  assert (H1 : ∀ w', calls w' = calls w ++ [call_of key rq stream i] →
      calls w' = calls w ++ map (call_of key rq stream) (seqZ i 1)).
  { intros w' ->. f_equal. }
  assert (Hone : retried (length (calls w)) rq 1) by (intros j Hj; lia).
  apply wp_bind. eapply wp_mono; [apply try_once_wp| |].
  2: { intros e w' Hc. exists 1. split_and!; [lia|lia|by apply H1|done]. }
  intros f w1 [Hc Hf]. destruct f as [s|s|r].
  - replace (Z.pred (Z.succ n)) with n by lia. destruct Hf as [msg Hmsg].
    assert (Hext : ∀ k w', 0 ≤ k → calls w' = calls w1 ++ map (call_of key rq stream) (seqZ (Z.succ i) k) →
      retried (length (calls w1)) rq k →
      calls w' = calls w ++ map (call_of key rq stream) (seqZ i (k + 1)) ∧
      retried (length (calls w)) rq (k + 1)).
    { intros k w' Hk Hcw Hr. split.
      - rewrite Hcw, Hc, (seqZ_cons i (k + 1)) by lia. rewrite <- app_assoc. simpl.
        by replace (Z.pred (k + 1)) with k by lia.
      - intros j Hj. destruct (decide (j = 0)) as [->|Hj0].
        + exists msg. rewrite Nat.add_0_r. exact Hmsg.
        + destruct (Hr (j - 1)) as [msg' Hm']; [lia|]. exists msg'.
          rewrite Hc, length_app in Hm'. simpl in Hm'.
          replace (length (calls w) + Z.to_nat j)%nat with
            (length (calls w) + 1 + Z.to_nat (j - 1))%nat by lia. done. }
    eapply wp_mono; [apply IH| |].
    + intros f w' (k & Hk & Hcw & Hr & Hf). destruct (Hext k w') as [E1 E2]; [lia|done|done|].
      exists (k + 1). split_and!; try done; try lia. destruct f; try done.
      destruct Hf as (? & ? & ?). split_and!; try done; lia.
    + intros e w' (k & Hk & Hcw & Hr). destruct (Hext k w') as [E1 E2]; [lia|done|done|].
      exists (k + 1). split_and!; try done; lia.
  - apply wp_ret. exists 1. split_and!; try lia; try done; by apply H1.
  - apply wp_ret. destruct Hf as (Ha & Hb & _). exists 1.
    split_and!; try lia; try done; by apply H1.
Qed.

(** ** What a completion costs *)

(** The price of some provider reply, under the price book [p]. *)
Definition call_cost (p : PriceBook) (cost : Z) : Prop :=
  ∃ n rq reply model, (env_reply n rq).2 = Ok reply ∧ cost_microcents p model (lr_usage reply) = Ok cost.

Definition same_prices w w' : Prop := ro_prices (w_router w') = ro_prices (w_router w).
#[global] Instance same_prices_preorder : PreOrder same_prices.
Proof. split; [done|]. intros x y z. unfold same_prices. congruence. Qed.
#[local] Instance same_prices_frame : RouterFrame same_prices.
Proof. split; [|done]. split; [tc_solve| | |]; by intros. Qed.

Lemma try_once_price p model key rq stream m i last w :
  ro_prices (w_router w) = p →
  wp (try_once model key rq stream m i last)
     (λ f w', ro_prices (w_router w') = p ∧
        match f with Return r => call_cost p (rr_cost_microcents r) | _ => True end) (λ _ _, True) w.
Proof.
  intros Hp. pose proof (try_once_steps same_prices model key rq stream m i last w) as Hs.
  pose proof (adapter_complete_wp (call_of key rq stream i) w) as Ha.
  pose proof (adapter_complete_steps same_prices (call_of key rq stream i) w) as Hap.
  unfold wp in *. unfold try_once, mbind, M_bind, m_bind, attempt in *.
  destruct (adapter_complete (call_of key rq stream i) w) as [[r|e] w1]; simpl in *.
  - destruct Ha as [_ Hr]. unfold gets, lift_res in *.
    destruct (cost_microcents (ro_prices (w_router w1)) model (lr_usage r)) as [cost|e] eqn:Hc; [|done].
    simpl. unfold same_prices in Hap. rewrite Hap, Hp in *. split; [done|].
    unfold reply_to, provider_result in Hr. exists (length (calls w)), (pc_request (call_of key rq stream i)), r, model.
    split; [|exact Hc]. destruct (env_reply _ _).2 as [r'|e]; [by injection Hr as ->|]. by destruct (_ || _).
  - destruct (is_retryable e); [|done]. destruct (i =? m); simpl in *; [by rewrite Hs|].
    destruct (await w1) as [[[]|e'] w2]; simpl in *; [|done]. by rewrite Hs.
Qed.

Lemma complete_price max_attempts a w :
  wp (complete max_attempts a)
     (λ r w', call_cost (ro_prices (w_router w)) (rr_cost_microcents r)) (λ _ _, True) w.
Proof.
  set (p := ro_prices (w_router w)). unfold complete. apply wp_bind. unfold wp at 1, lift_res.
  destruct (get_spec (ca_model a)) as [spec|e]; [|done].
  apply wp_bind. pose proof (resolve_key_steps same_prices (ca_model a) w) as Hk. unfold wp at 1.
  destruct (resolve_key (ca_model a) w) as [[key|e] w1]; [|done]. simpl in Hk.
  apply wp_bind. unfold wp at 1, modify. set (w2 := put_router _ w1).
  assert (Hw2 : ro_prices (w_router w2) = p).
  { subst w2. unfold use_adapter. simpl. by case_bool_decide. }
  clearbody w2. apply wp_bind.
  eapply wp_mono; [apply (wp_for_loop _ _ (λ _ w, ro_prices (w_router w) = p) (λ _ _, True)
                            (λ r _, call_cost p (rr_cost_microcents r)) (λ _ _, True))| |done].
  - intros i last w3 _ Hw3. eapply wp_mono; [by apply (try_once_price p)| |done].
    intros [s|s|r] w4 [? ?]; done.
  - done.
  - intros [[e|]|[e|]|r] w3 Hw3; done.
Qed.
End calls.

Section properties.
Context {X : Type} `{Env}.
Implicit Types w : World X.

Definition same_calls w w' : Prop := calls w' = calls w.
#[global] Instance same_calls_preorder : PreOrder same_calls.
Proof. split; [done|]. intros x y z. unfold same_calls. congruence. Qed.

Lemma resolve_key_calls model : steps same_calls (resolve_key model).
Proof.
  apply steps_bind; [tc_solve|by intros w|]. intros db.
  apply steps_bind; [tc_solve| |].
  - destruct db; [|by intros w]. intros w. unfold same_calls, calls.
    by rewrite (await_steps same_router w).
  - intros _. apply steps_zoom. by intros w.
Qed.

(** The provider calls of one completion: [k] attempts with one credential and
    one request. *)
Definition attempts_made (a : CompleteArgs) (n0 : nat) (new : list ProviderCall) (k : Z) : Prop :=
  ∃ key rq, new = map (call_of key rq (ca_stream a)) (seqZ 1 k) ∧ retried n0 rq k.

Lemma complete_wp max_attempts a w :
  0 ≤ max_attempts →
  wp (complete max_attempts a)
    (λ r w', ∃ new, calls w' = calls w ++ new ∧ 1 ≤ rr_attempts r ≤ max_attempts ∧
       attempts_made a (length (calls w)) new (rr_attempts r))
    (λ e w', ∃ new k, calls w' = calls w ++ new ∧ (k = 0 ∧ new = [] ∨
       0 ≤ k ≤ max_attempts ∧ attempts_made a (length (calls w)) new k)) w.
Proof.
  intros Hm. unfold complete. apply wp_bind. unfold wp at 1, lift_res.
  assert (Hnone : ∀ w', calls w' = calls w → ∃ new k, calls w' = calls w ++ new ∧
     (k = 0 ∧ new = [] ∨ 0 ≤ k ≤ max_attempts ∧ attempts_made a (length (calls w)) new k)).
  { intros w' Hw. exists [], 0. rewrite app_nil_r. auto. }
  destruct (get_spec (ca_model a)) as [spec|e]; [|by apply Hnone].
  apply wp_bind. pose proof (resolve_key_calls (ca_model a) w) as Hrk. unfold wp at 1.
  destruct (resolve_key (ca_model a) w) as [[key|e] w1]; simpl in Hrk; [|by apply Hnone].
  apply wp_bind. unfold wp at 1, modify.
  set (w2 := put_router _ w1). assert (Hw2 : calls w2 = calls w).
  { rewrite <- Hrk. subst w2. unfold calls, use_adapter. simpl. by case_bool_decide. }
  clearbody w2. apply wp_bind.
  eapply wp_mono; [by apply (retry_loop_wp _ key (request_of spec a))| |].
  - rewrite Hw2. intros f w3 (k & Hk & Hc & Hr & Hf).
    assert (Hmade : attempts_made a (length (calls w))
              (map (call_of key (request_of spec a) (ca_stream a)) (seqZ 1 k)) k) by (by eexists _, _).
    destruct f as [[e|]|[e|]|r]; try (eexists _, k; split; [exact Hc|right; by split]).
    destruct Hf as (H1 & H2 & _). replace (1 + k - 1) with k in H2 by lia.
    apply wp_ret. rewrite H2. eexists. split; [exact Hc|]. split; [lia|done].
  - rewrite Hw2. intros e w3 (k & Hk & Hc & Hr).
    eexists _, k. split; [exact Hc|]. right. split; [lia|]. by eexists _, _.
Qed.

(** one completion makes at most [max_attempts] provider calls: it makes
    attempts 1, 2, ..., with one credential and one request; the tokens are
    streamed by the first of them only; another one is made only when the
    provider answered the last with a retryable error; and the number of attempts
    it reports is the number of calls it made. *)
Theorem complete_calls max_attempts a w :
  0 ≤ max_attempts →
  let '(r, w') := complete max_attempts a w in
  ∃ new k, calls w' = calls w ++ new ∧ py_len new = k ∧ 0 ≤ k ≤ max_attempts ∧
    (k = 0 ∨ attempts_made a (length (calls w)) new k) ∧
    Forall (λ c, pc_streaming c = true → pc_attempt c = 1) new ∧
    (∀ rr, r = Ok rr → rr_attempts rr = k ∧ 1 ≤ k).
Proof.
  intros Hm. pose proof (complete_wp max_attempts a w Hm) as Hw. unfold wp in Hw.
  assert (Hst : ∀ new k, 0 ≤ k → attempts_made a (length (calls w)) new k →
            py_len new = k ∧ Forall (λ c, pc_streaming c = true → pc_attempt c = 1) new).
  { intros new k Hk (key & rq & -> & _). split.
    - unfold py_len. rewrite length_map, length_seqZ. lia.
    - apply Forall_map, Forall_true. intros j. simpl. intros [_ Hj]%andb_prop. by apply Z.eqb_eq. }
  destruct (complete max_attempts a w) as [[rr|e] w'].
  - destruct Hw as (new & Hc & Hk & Hmade). destruct (Hst new (rr_attempts rr)) as [Hl Hf]; [lia|done|].
    exists new, (rr_attempts rr). split_and!; try done; try lia; [by right|].
    intros ? [= <-]. lia.
  - destruct Hw as (new & k & Hc & [[-> ->]|[Hk Hmade]]).
    + exists [], 0. split_and!; try done; try lia; by left.
    + destruct (Hst new k) as [Hl Hf]; [lia|done|].
      exists new, k. split_and!; try done; try lia. by right.
Qed.
End properties.

(** ** Witness *)

Definition demo_result (text : pystr) (tool_calls : list ToolCallRequest) : LLMResult :=
  mkResult text (u "gpt-5") (u "openai") (mkUsage 0 0 0 0 []) (Some (u "stop")) tool_calls.

Definition demo_reply (n : nat) (rq : CompletionRequest) : list pystr * res exn LLMResult :=
  match n with
  | O => ([u "par"], Err (RetryableLLMError (u "overloaded")))
  | _ => ([u "all"], Ok (demo_result (u "all") []))
  end.

(** An uneventful world: no interruptions, the organisation's own key stored, a
    clock that stands still and replies that report no tokens, which spares the
    kernel the arithmetic of prices. *)
Definition demo_env (reply : nat → CompletionRequest → list pystr * res exn LLMResult) : Env := {|
  env_tables := ascii_tables;
  env_settings := default_settings;
  env_clock := λ _, 0;
  env_interrupt := λ _, None;
  env_cancel := λ _, false;
  env_reply := reply;
  env_stored := demo_stored;
  env_decrypt := demo_decrypt;
  env_schedule := λ _, [] |}.

Definition demo_router : RouterState :=
  mkRouter (mkResolver BYOK (u "o") []) default_price_book [] [].
Definition demo_world : World unit :=
  mkWorld (new_state (u "go")) demo_budget empty_bus (new_buffer 1) demo_router (mkClock 0 false true) tt.
Definition demo_args : CompleteArgs :=
  mkArgs (u "gpt-5") [] [mkMessage User (u "hi") [] []] 100 (u "low") false 600 [] true.

Lemma complete_calls_witness :
  let '(r, w') := @complete unit (demo_env demo_reply) 3 demo_args demo_world in
  ∃ new k, calls w' = calls demo_world ++ new ∧ py_len new = k ∧ 0 ≤ k ≤ 3 ∧
    (k = 0 ∨ @attempts_made (demo_env demo_reply) demo_args (length (calls demo_world)) new k) ∧
    Forall (λ c, pc_streaming c = true → pc_attempt c = 1) new ∧
    (∀ rr, r = Ok rr → rr_attempts rr = k ∧ 1 ≤ k).
Proof. exact (@complete_calls unit (demo_env demo_reply) 3 demo_args demo_world ltac:(lia)). Defined.

(** The retry happens: two calls, the second not streaming. *)
Lemma demo_retry :
  map pc_streaming (calls (@complete unit (demo_env demo_reply) 3 demo_args demo_world).2)
    = [true; false].
Proof. vm_compute. reflexivity. Qed.
