(* ===== verification/ToolBase.v ===== *)
(** * The tool contract (src/core/tools/base.py)

    A tool is a record of what it declares and its [run]; [invoke] wraps [run]
    with the timeout, the error handling and the size limit the engine relies
    on. *)

From S2P Require Import Prelude PyStr PyFloat PyVal Config State Budget Registry Providers Pricing.
From S2P Require Import Keys Events World.

Definition MAX_RESULT_CHARS : Z := 60000.

Inductive SideEffect := READ_ONLY | NETWORK | WRITE.
#[global] Instance SideEffect_eq_dec : EqDecision SideEffect.
Proof. solve_decision. Defined.

Record ToolResult := mkToolResult {
  tl_content : pystr; tl_is_error : bool; tl_metadata : list (pystr * pyval) }.

(** [truncated] *)
Definition truncated (limit : Z) (r : ToolResult) : ToolResult :=
  if py_len (tl_content r) <=? limit then r
  else
    let omitted := py_len (tl_content r) - limit in
    mkToolResult
      (slice_to limit (tl_content r) ++ [10; 10]%N ++ u "[... " ++ str_of_Z omitted
         ++ u " characters omitted; the result was too large to return in full. Narrow the request and try again.]")
      (tl_is_error r)
      (assoc_set (u "truncated_chars") (VInt omitted) (tl_metadata r)).

Record ToolSchema := mkSchema { sc_name : pystr; sc_description : pystr; sc_parameters : pyval }.

Definition str_key (k : string) (v : pyval) : pystr * pyval := (u k, v).

Section tools.
Context {X : Type}.

Record ToolContext := mkContext {
  tx_org_id : pystr; tx_agent_id : pystr; tx_agent_name : pystr; tx_step_index : Z;
  (* [artifacts] and [read_artifact_version] are the run's own dicts *)
  tx_write_artifact : pystr → pystr → pystr → M (World X) exn Z }.

Record Tool := mkTool {
  t_name : pystr; t_description : pystr; t_parameters : pyval; t_side_effect : SideEffect;
  t_timeout_seconds : Z;
  t_run : list (pystr * pyval) → ToolContext → M (World X) exn ToolResult }.

Definition schema (t : Tool) : ToolSchema := mkSchema (t_name t) (t_description t) (t_parameters t).

(** [asyncio.wait_for(m, timeout=...)] around a tool: its timer can only fire
    inside, and then a [TimeoutError] comes out. *)
Definition set_in_tool (b : bool) (w : World X) : World X :=
  put_clock (mkClock (ck_tick (w_clock w)) b (ck_in_run (w_clock w))) w.
Definition wait_for_tool {A} (m : M (World X) exn A) : M (World X) exn A := λ w,
  match m (set_in_tool true w) with
  | (Ok a, w') => (Ok a, set_in_tool (ck_in_tool (w_clock w)) w')
  | (Err e, w') =>
      (Err (match e with TimerCancelled true => TimeoutError | _ => e end),
       set_in_tool (ck_in_tool (w_clock w)) w')
  end.

Context `{PyTables}.

Definition error_result (t : Tool) (e : exn) : ToolResult :=
  match e with
  | TimeoutError =>
      mkToolResult (u "Error: " ++ t_name t ++ u " timed out after "
                      ++ fixed0 (t_timeout_seconds t) ++ u "s.") true []
  | _ =>
      if is_tool_error e then mkToolResult (u "Error: " ++ exn_str e) true []
      else mkToolResult (u "Error: " ++ t_name t ++ u " failed unexpectedly (" ++ exn_name e ++ u ").")
             true [(u "exception", VStr (exn_name e))]
  end.

Definition invoke (t : Tool) (arguments : list (pystr * pyval)) (context : ToolContext)
    : M (World X) exn ToolResult :=
  r ← attempt is_exception (wait_for_tool (t_run t arguments context));
  match r with
  | inl e => m_ret (error_result t e)
  | inr result => m_ret (truncated MAX_RESULT_CHARS result)
  end.

(** ** Reading arguments *)

Definition require_str (arguments : list (pystr * pyval)) (key : pystr) (max_length : Z)
    : res exn pystr :=
  let missing := Err (ToolError (u "`" ++ key ++ u "` is required and must be a non-empty string")) in
  match dict_get arguments key with
  | VStr value =>
      if bool_decide (strip value = []) then missing
      else if py_len value >? max_length
      then Err (ToolError (u "`" ++ key ++ u "` must be at most " ++ str_of_Z max_length
                             ++ u " characters"))
      else Ok (strip value)
  | _ => missing
  end.

Definition optional_int (arguments : list (pystr * pyval)) (key : pystr) (default_ low high : Z)
    : res exn Z :=
  let value := default (VInt default_) (assoc key arguments) in
  match py_int value with
  | Ok number => Ok (Z.max low (Z.min high number))
  | Err (TypeError _) | Err (ValueError _) =>
      Err (ToolError (u "`" ++ key ++ u "` must be an integer"))
  | Err e => Err e
  end.

(** ** What [invoke] guarantees *)

Definition bounded_result (r : ToolResult) : Prop :=
  tl_is_error r = false → py_len (tl_content r) ≤ MAX_RESULT_CHARS + 140.

Lemma truncated_bounded r :
  py_len (tl_content r) < 10 ^ 12 → py_len (tl_content (truncated MAX_RESULT_CHARS r)) ≤ MAX_RESULT_CHARS + 140.
Proof.
  intros Hl. unfold truncated. destruct (Z.leb_spec (py_len (tl_content r)) MAX_RESULT_CHARS); [lia|].
  cbn [tl_content]. rewrite !py_len_app.
  pose proof (length_slice_to MAX_RESULT_CHARS (tl_content r) ltac:(done)) as Hs.
  pose proof (str_of_Z_length 11 (py_len (tl_content r) - MAX_RESULT_CHARS)) as Hd.
  change (10 ^ Z.of_nat 12) with (10 ^ 12) in Hd. change (Z.of_nat 12) with 12 in Hd.
  specialize (Hd ltac:(unfold MAX_RESULT_CHARS in *; lia)).
  change (py_len [10%N; 10%N]) with 2. change (py_len (u "[... ")) with 5.
  match goal with |- context [py_len (u ?s)] => let n := eval vm_compute in (py_len (u s)) in
    change (py_len (u s)) with n end. lia.
Qed.

Lemma truncated_error limit r : tl_is_error (truncated limit r) = tl_is_error r.
Proof. unfold truncated. by destruct (_ <=? _). Qed.

(** C19: invoking a tool never ends the run with an error of the tool: whatever its
    [run] raises, a timeout included, becomes an error result, and only the
    cancellation of the task passes; a result that is not an error is the one of
    [run], cut to the limit. *)
Theorem invoke_contained t arguments context w :
  match (invoke t arguments context w).1 with
  | Ok r => match (wait_for_tool (t_run t arguments context) w).1 with
            | Ok r0 => r = truncated MAX_RESULT_CHARS r0 ∧
                       (py_len (tl_content r0) < 10 ^ 12 → py_len (tl_content r) ≤ MAX_RESULT_CHARS + 140)
            | Err e => r = error_result t e ∧ tl_is_error r = true
            end
  | Err e => is_exception e = false ∧ (t_run t arguments context (set_in_tool true w)).1 = Err e
  end.
Proof.
  unfold invoke. unfold mbind, M_bind, m_bind, attempt.
  destruct (wait_for_tool (t_run t arguments context) w) as [[r0|e] w'] eqn:Hw; simpl.
  - split; [done|]. apply truncated_bounded.
  - destruct (is_exception e) eqn:He; simpl.
    + split; [done|]. unfold error_result. destruct e; try done; by destruct (is_tool_error _).
    + split; [done|]. unfold wait_for_tool in Hw.
      destruct (t_run t arguments context (set_in_tool true w)) as [[r1|e1] w1]; simplify_eq.
      simpl. destruct e1; try done. by destruct in_tool.
Qed.
End tools.
Arguments ToolContext : clear implicits.
Arguments Tool : clear implicits.

(** A dict of tools by name holds tools of the list, under their names. *)
Lemma assoc_named {X} (ts : list (Tool X)) name t :
  assoc name (assoc_of_list (map (λ t, (t_name t, t)) ts)) = Some t → t ∈ ts ∧ t_name t = name.
Proof.
  intros Hg%assoc_Some_elem.
  assert (Hall : Forall (λ kv, kv.2 ∈ ts ∧ t_name kv.2 = kv.1)
            (assoc_of_list (map (λ t, (t_name t, t)) ts))).
  { apply Forall_assoc_of_list, Forall_map, Forall_forall. intros t' Ht'. by split. }
  rewrite Forall_forall in Hall. exact (Hall _ Hg).
Qed.

Lemma require_str_spec arguments key max_length s :
  require_str arguments key max_length = Ok s →
  ∃ v, dict_get arguments key = VStr v ∧ s = strip v ∧ s ≠ [] ∧ py_len v ≤ max_length.
Proof.
  unfold require_str. destruct (dict_get arguments key); try done.
  case_bool_decide; [done|]. destruct (Z.gtb_spec (py_len s0) max_length); [done|].
  intros [= <-]. by exists s0.
Qed.
