(* ===== verification/ToolArtifacts.v ===== *)
(** * The artifact tools (src/core/tools/artifacts.py)

    List, read, write and edit the files of a run.  They read the run's own
    dicts, so they see the latest version, and write through the context. *)

From S2P Require Import Prelude PyStr PyFloat PyVal PyRegex Artifacts Config State Budget Registry.
From S2P Require Import Providers Pricing Keys Events World ToolBase.

Definition MAX_WRITE_CHARS : Z := 400000.

Definition EXTENSION_KINDS : list (pystr * pystr) := [
  (u "md", u "markdown"); (u "markdown", u "markdown"); (u "json", u "json"); (u "yaml", u "yaml");
  (u "yml", u "yaml"); (u "csv", u "csv"); (u "txt", u "text"); (u "sql", u "sql");
  (u "html", u "html")].

(** JSON Schema of the parameters *)
Definition string_prop (description : string) : pyval :=
  VDict [str_key "type" (VStr (u "string")); str_key "description" (VStr (u description))].
Definition int_prop (description : string) : pyval :=
  VDict [str_key "type" (VStr (u "integer")); str_key "description" (VStr (u description))].
Definition object_schema (properties : list (pystr * pyval)) (required : list pystr) : pyval :=
  VDict [str_key "type" (VStr (u "object")); str_key "properties" (VDict properties);
         str_key "required" (VList (map VStr required))].

Section tools.
Context {X : Type} `{PyTables}.
Abbreviation IO A := (M (World X) exn A).

Definition tool_kind_for (path : pystr) : pystr :=
  let suffix := if contains (u ".") path then lower (after_last 46 path) else [] in
  match assoc suffix EXTENSION_KINDS with
  | Some k => k
  | None => match suffix with [] => u "text" | _ => u "code" end
  end.

Definition safe_tool_path (raw : pystr) : res exn pystr :=
  match sanitise_path raw with
  | Err (UnsafeArtifactPath m) => Err (ToolError m)
  | r => r
  end.

(** The path argument of three of the tools. *)
Definition path_argument (arguments : list (pystr * pyval)) : res exn pystr :=
  raw ← require_str arguments (u "path") 400; safe_tool_path raw.

Definition newlines (s : pystr) : Z := count [10%N] s.

Definition list_line (versions : list (pystr * Z)) (pc : pystr * pystr) : res exn pystr :=
  n ← encoded_len pc.2;
  Ok (pc.1 ++ u "  (v" ++ str_of_Z (default 1 (assoc pc.1 versions)) ++ u ", " ++ str_of_Z n
        ++ u " bytes, " ++ str_of_Z (newlines pc.2 + 1) ++ u " lines)").

Definition list_artifacts_run (arguments : list (pystr * pyval)) (context : ToolContext X)
    : IO ToolResult :=
  match py_or (dict_get arguments (u "prefix")) (VStr []) with
  | VStr prefix =>
      s ← gets w_state;
      let matches := sorted_by_key (List.filter (λ pc, startswith prefix pc.1) (st_artifacts s)) in
      match matches with
      | [] =>
          m_ret (mkToolResult
            (match prefix with [] => u "No artifacts yet."
                             | _ => u "No artifacts under " ++ repr_str prefix ++ u "." end)
            false [(u "count", VInt 0)])
      | _ =>
          ls ← lift_res (res_mapM (list_line (st_versions s)) matches);
          m_ret (mkToolResult (join [10%N] ls) false [(u "count", VInt (py_len matches))])
      end
  | _ => raise (ToolError (u "`prefix` must be a string"))
  end.

Definition numbered (start : Z) (window : list pystr) : pystr :=
  join [10%N] (imap (λ i line, str_of_Z (start + Z.of_nat i) ++ [9%N] ++ line) window).

Definition read_artifact_run (arguments : list (pystr * pyval)) (context : ToolContext X)
    : IO ToolResult :=
  path ← lift_res (path_argument arguments);
  s ← gets w_state;
  match assoc path (st_artifacts s) with
  | None =>
      let names := join (u ", ") (slice_to 20 (sorted_strs (st_artifacts s).*1)) in
      raise (ToolError (u "No artifact at " ++ repr_str path ++ u ". Existing artifacts: "
        ++ match names with [] => u "(none)" | _ => names end))
  | Some content =>
      let lines := split [10%N] content in
      if negb (has_key arguments (u "start_line")) && negb (has_key arguments (u "line_count"))
      then m_ret (mkToolResult content false
             [(u "path", VStr path); (u "lines", VInt (py_len lines))])
      else
        start ← lift_res (optional_int arguments (u "start_line") 1 1 (py_len lines));
        count_ ← lift_res (optional_int arguments (u "line_count") (py_len lines) 1 (py_len lines));
        let window := slice (start - 1) (start - 1 + count_) lines in
        m_ret (mkToolResult (numbered start window) false
          [(u "path", VStr path); (u "start_line", VInt start);
           (u "returned_lines", VInt (py_len window))])
  end.

Definition write_artifact_run (arguments : list (pystr * pyval)) (context : ToolContext X)
    : IO ToolResult :=
  path ← lift_res (path_argument arguments);
  match dict_get arguments (u "content") with
  | VStr content =>
      if py_len content >? MAX_WRITE_CHARS then
        raise (ToolError (u "`content` is " ++ str_of_Z (py_len content) ++ u " characters; the limit is "
          ++ str_of_Z MAX_WRITE_CHARS ++ u ". Split the file into smaller ones."))
      else
        kind ← (match dict_get arguments (u "kind") with
                | VNone => m_ret None
                | VStr k => m_ret (Some k)
                | _ => raise (ToolError (u "`kind` must be a string"))
                end);
        let kind := match kind with Some ((_ :: _) as k) => k | _ => tool_kind_for path end in
        version ← tx_write_artifact context path content kind;
        n ← lift_res (encoded_len content);
        m_ret (mkToolResult
          (u "Wrote " ++ path ++ u " (v" ++ str_of_Z version ++ u ", " ++ str_of_Z n ++ u " bytes).")
          false [(u "path", VStr path); (u "version", VInt version); (u "size_bytes", VInt n)])
  | _ => raise (ToolError (u "`content` is required and must be a string"))
  end.

Definition edit_artifact_run (arguments : list (pystr * pyval)) (context : ToolContext X)
    : IO ToolResult :=
  path ← lift_res (path_argument arguments);
  old_text ← lift_res (require_str arguments (u "old_text") MAX_WRITE_CHARS);
  match dict_get arguments (u "new_text") with
  | VStr new_text =>
      s ← gets w_state;
      match assoc path (st_artifacts s) with
      | None => raise (ToolError (u "No artifact at " ++ repr_str path ++ u "."))
      | Some content =>
          let occurrences := count old_text content in
          if occurrences =? 0 then
            raise (ToolError (u "`old_text` does not appear in " ++ path
              ++ u ". Read the file and copy the text exactly, including indentation."))
          else if occurrences >? 1 then
            raise (ToolError (u "`old_text` appears " ++ str_of_Z occurrences ++ u " times in " ++ path
              ++ u "; it must be unique. Include more surrounding context to disambiguate."))
          else
            version ← tx_write_artifact context path (replace_first old_text new_text content)
                        (tool_kind_for path);
            m_ret (mkToolResult (u "Edited " ++ path ++ u " (v" ++ str_of_Z version ++ u ").") false
              [(u "path", VStr path); (u "version", VInt version)])
      end
  | _ => raise (ToolError (u "`new_text` is required and must be a string"))
  end.

Definition ListArtifacts : Tool X := mkTool (u "list_artifacts")
  (u "List every file produced so far in this run, with its size and current version. Use it before reading or writing to see what already exists.")
  (object_schema [str_key "prefix" (string_prop "Optional path prefix to filter by, e.g. 'src/'.")] [])
  READ_ONLY (30 * fl_one) list_artifacts_run.

Definition ReadArtifact : Tool X := mkTool (u "read_artifact")
  (u "Read the current contents of a file produced in this run. Optionally read a line range instead of the whole file.")
  (object_schema
     [str_key "path" (string_prop "Relative path, e.g. 'src/app.py'.");
      str_key "start_line" (int_prop "First line to return, 1-indexed. Defaults to the start.");
      str_key "line_count" (int_prop "How many lines to return. Defaults to the whole file.")]
     [u "path"])
  READ_ONLY (30 * fl_one) read_artifact_run.

Definition WriteArtifact : Tool X := mkTool (u "write_artifact")
  (u "Create or replace a file in this run. Always write the complete file — the contents replace the previous version rather than merging with it. Each write creates a new version; earlier versions are kept.")
  (object_schema
     [str_key "path" (string_prop "Relative path, e.g. 'src/app.py'.");
      str_key "content" (string_prop "The complete file contents.");
      str_key "kind" (string_prop "Optional content kind: code, markdown, json, text.")]
     [u "path"; u "content"])
  WRITE (30 * fl_one) write_artifact_run.

Definition EditArtifact : Tool X := mkTool (u "edit_artifact")
  (u "Replace an exact substring in an existing file. Cheaper and safer than rewriting the whole file. The old text must appear exactly once.")
  (object_schema
     [str_key "path" (string_prop "Relative path of the file to edit.");
      str_key "old_text" (string_prop "Exact text to replace, including indentation. Must be unique.");
      str_key "new_text" (string_prop "Replacement text.")]
     [u "path"; u "old_text"; u "new_text"])
  WRITE (30 * fl_one) edit_artifact_run.
End tools.

(** ** Counting and replacing *)

Lemma partition_nil_None old : old ≠ [] → partition_at old [] = None.
Proof.
  intros Ho. simpl. destruct (startswith old []) eqn:Hs; [|done].
  apply startswith_spec in Hs. destruct old; [done|]. by rewrite drop_nil in Hs.
Qed.

(** An occurrence counted once is the first, and none begins in what follows it. *)
Lemma count_cases old s :
  old ≠ [] →
  match partition_at old s with
  | None => count old s = 0
  | Some (a, b) => s = a ++ old ++ b ∧ 1 ≤ count old s ∧ (count old s = 1 ↔ contains old b = false)
  end.
Proof.
  intros Ho. assert (count old s = py_len (split old s) - 1) as -> by (by destruct old).
  unfold split. destruct s as [|c s].
  { rewrite partition_nil_None by done. done. }
  cbn [length split_fuel]. destruct (partition_at old (c :: s)) as [[a b]|] eqn:Hp; [|done].
  split; [by apply partition_at_Some in Hp|]. rewrite py_len_cons.
  assert (Hb : (length b ≤ length s)%nat).
  { apply partition_at_Some in Hp. apply (f_equal length) in Hp. rewrite !length_app in Hp.
    destruct old; [done|]. simpl in Hp. lia. }
  assert (Hne : split_fuel (length s) old b ≠ []).
  { destruct (length s); simpl; [done|]. by destruct (partition_at old b) as [[??]|]. }
  split.
  { destruct (split_fuel (length s) old b) as [|q qs]; [done|]. rewrite py_len_cons.
    pose proof (py_len_nonneg qs). lia. }
  unfold contains. destruct (length s) as [|n] eqn:Hn.
  { assert (b = []) as -> by (destruct b; simpl in *; [done|lia]).
    rewrite partition_nil_None by done. done. }
  simpl. destruct (partition_at old b) as [[a' b']|] eqn:Hpb; [|done].
  split; [|done]. rewrite py_len_cons.
  assert (split_fuel n old b' ≠ []) as Hne'.
  { destruct n; simpl; [done|]. by destruct (partition_at old b') as [[??]|]. }
  destruct (split_fuel n old b') as [|q qs]; [done|]. rewrite py_len_cons.
  pose proof (py_len_nonneg qs). lia.
Qed.

Section properties.
Context {X : Type} `{PyTables}.

(** The read-only tools leave the world as they found it. *)
Lemma list_artifacts_pure arguments context (w : World X) :
  (list_artifacts_run arguments context w).2 = w.
Proof.
  unfold list_artifacts_run. destruct (py_or _ _); try done.
  unfold mbind, M_bind, m_bind, gets. destruct (sorted_by_key _); [done|].
  unfold lift_res. by destruct (res_mapM _ _).
Qed.

Lemma read_artifact_pure arguments context (w : World X) :
  (read_artifact_run arguments context w).2 = w.
Proof.
  unfold read_artifact_run, mbind, M_bind, m_bind, lift_res, gets.
  destruct (path_argument arguments); [|done].
  destruct (assoc _ _); [|done]. destruct (_ && _); [done|].
  destruct (optional_int _ _ _ _ _); [|done]. by destruct (optional_int _ _ _ _ _).
Qed.

(** an edit changes a file only where it is told to, and only when it is told
    unambiguously: the old text occurs at one place [a ++ old ++ b], and the new
    version, written once through the context, is [a ++ new ++ b]; without an
    occurrence, or with several, nothing is written and the model reads an error. *)
Theorem edit_artifact_spec arguments (context : ToolContext X) w path old_text new_text content :
  path_argument arguments = Ok path →
  require_str arguments (u "old_text") MAX_WRITE_CHARS = Ok old_text →
  dict_get arguments (u "new_text") = VStr new_text →
  assoc path (st_artifacts (w_state w)) = Some content →
  (count old_text content = 1 ∧ ∃ a b, content = a ++ old_text ++ b ∧ contains old_text b = false ∧
     edit_artifact_run arguments context w =
       (version ← tx_write_artifact context path (a ++ new_text ++ b) (tool_kind_for path);
        m_ret (mkToolResult (u "Edited " ++ path ++ u " (v" ++ str_of_Z version ++ u ").") false
                 [(u "path", VStr path); (u "version", VInt version)])) w) ∨
  (count old_text content ≠ 1 ∧
     ∃ m, edit_artifact_run arguments context w = (Err (ToolError m), w)).
Proof.
  intros Hp Ho Hn Hc. unfold edit_artifact_run. unfold mbind, M_bind, m_bind, lift_res, gets.
  rewrite Hp, Ho, Hn, Hc.
  apply require_str_spec in Ho as (v & _ & _ & Hne & _).
  pose proof (count_cases old_text content Hne) as Hcc. unfold replace_first.
  destruct (partition_at old_text content) as [[a b]|].
  - destruct Hcc as (Heq & Hge & Hone).
    destruct (Z.eqb_spec (count old_text content) 0); [lia|].
    destruct (Z.gtb_spec (count old_text content) 1).
    + right. split; [lia|by eexists].
    + left. split; [lia|]. exists a, b. split_and!; [done|apply Hone; lia|done].
  - right. rewrite Hcc. split; [lia|]. rewrite Z.eqb_refl. by eexists.
Qed.
End properties.

(** ** Witness *)

Definition demo_context : ToolContext unit :=
  mkContext (u "o") (u "a1") (u "Ada") 1
    (λ path content kind, on_state (record_artifact path content kind (u "Ada"))).
Definition demo_edit (old new : pystr) : list (pystr * pyval) :=
  [(u "path", VStr (u "a.md")); (u "old_text", VStr old); (u "new_text", VStr new)].
Definition demo_files : World unit :=
  mkWorld (record_artifact (u "a.md") (u "one two") (u "text") (u "Ada") (new_state (u "go"))).2
    demo_budget empty_bus (new_buffer 1)
    (mkRouter (mkResolver BYOK (u "o") []) default_price_book [] []) (mkClock 0 false true) tt.

Lemma edit_artifact_spec_witness :
  assoc (u "a.md") (st_artifacts (w_state
    (@edit_artifact_run unit ascii_tables (demo_edit (u "two") (u "2")) demo_context demo_files).2))
  = Some (u "one 2").
Proof.
  assert (H1 : @path_argument ascii_tables (demo_edit (u "two") (u "2")) = Ok (u "a.md"))
    by (vm_compute; reflexivity).
  assert (H2 : require_str (demo_edit (u "two") (u "2")) (u "old_text") MAX_WRITE_CHARS = Ok (u "two"))
    by (vm_compute; reflexivity).
  assert (H3 : dict_get (demo_edit (u "two") (u "2")) (u "new_text") = VStr (u "2"))
    by (vm_compute; reflexivity).
  assert (H4 : assoc (u "a.md") (st_artifacts (w_state demo_files)) = Some (u "one two"))
    by (vm_compute; reflexivity).
  destruct (@edit_artifact_spec unit ascii_tables _ demo_context demo_files _ _ _ _ H1 H2 H3 H4)
    as [_|[Hne _]].
  - vm_compute. reflexivity.
  - exfalso. apply Hne. vm_compute. reflexivity.
Defined.

(** Indentation at the ends of [old_text] is stripped before the search. *)
Lemma edit_strips_old_text :
  assoc (u "a.md") (st_artifacts (w_state
    (@edit_artifact_run unit ascii_tables (demo_edit (u " two ") (u "2")) demo_context demo_files).2))
  = Some (u "one 2").
Proof. vm_compute. reflexivity. Qed.

(** Two overlapping occurrences are counted as one. *)
Lemma count_overlapping : count (u "aa") (u "aaa") = 1.
Proof. vm_compute. reflexivity. Qed.
