(* ===== verification/ToolRegistry.v ===== *)
(** * Tool registry (src/core/tools/registry.py)

    Which tools exist, which are available on a deployment, and the resolution of
    an agent's allowlist.  The two network tools (src/core/tools/web.py) are
    arguments. *)

From S2P Require Import Prelude PyStr PyFloat PyVal PyRegex Artifacts Config State Budget Registry.
From S2P Require Import Providers Pricing Keys Events World ToolBase ToolArtifacts.

Record ToolInfo := mkInfo {
  ti_name : pystr; ti_description : pystr; ti_side_effect : SideEffect; ti_available : bool;
  ti_unavailable_reason : option pystr }.

Section registry.
Context {X : Type} `{PyTables} (settings : Settings) (web_fetch web_search : Tool X).

Definition ALL_TOOLS : list (Tool X) :=
  [ListArtifacts; ReadArtifact; WriteArtifact; EditArtifact; web_fetch; web_search].
Definition BY_NAME : list (pystr * Tool X) := assoc_of_list (map (λ t, (t_name t, t)) ALL_TOOLS).

Definition is_available (t : Tool X) : bool * option pystr :=
  if bool_decide (t_name t = u "web_search") && bool_decide (cfg_search_provider settings = u "none")
  then (false, Some (u "no search provider is configured on this deployment"))
  else if bool_decide (t_name t ∈ [u "web_fetch"; u "web_search"])
          && negb (cfg_tools_network_enabled settings)
  then (false, Some (u "network tools are disabled on this deployment"))
  else (true, None).

Definition catalogue : list ToolInfo :=
  map (λ t, mkInfo (t_name t) (t_description t) (t_side_effect t) (is_available t).1 (is_available t).2)
    ALL_TOOLS.

Definition known_names : list pystr := BY_NAME.*1.
Definition get_tool (name : pystr) : option (Tool X) := assoc name BY_NAME.

Definition resolve_tools (names : list pystr) : list (Tool X) :=
  omap (λ name, match get_tool name with
                | Some t => if (is_available t).1 then Some t else None
                | None => None
                end) names.

Definition schemas (tools : list (Tool X)) : list ToolSchema := map schema tools.

(** [_default_tool_resolver] of the engine: the names that are strings *)
Definition default_tool_resolver (agent : AgentSpec) : list (Tool X) :=
  resolve_tools (omap (λ v, match v with VStr s => Some s | _ => None end) (ag_tools agent)).

(** an agent only ever holds tools of its own allowlist that are available on
    the deployment: with network tools disabled it holds none of them, and
    without a search provider it cannot search, whatever was saved with it. *)
Theorem resolved_tools_allowed agent t :
  t ∈ default_tool_resolver agent →
  VStr (t_name t) ∈ ag_tools agent ∧ t ∈ ALL_TOOLS ∧ (is_available t).1 = true ∧
  (cfg_tools_network_enabled settings = false →
     t_name t ≠ u "web_fetch" ∧ t_name t ≠ u "web_search") ∧
  (cfg_search_provider settings = u "none" → t_name t ≠ u "web_search").
Proof.
  unfold default_tool_resolver, resolve_tools. intros Hin.
  apply list_elem_of_omap in Hin as (name & Hname & Ht).
  apply list_elem_of_omap in Hname as (v & Hv & Hs). destruct v; simplify_eq.
  destruct (get_tool name) as [t'|] eqn:Hg; [|done].
  destruct ((is_available t').1) eqn:Hav; simplify_eq.
  apply assoc_named in Hg as [Hmem <-].
  split_and!; [done|done|done| |].
  - intros Hn. revert Hav. unfold is_available. rewrite Hn. simpl.
    destruct (bool_decide (t_name t = u "web_search") && _); [done|].
    case_bool_decide as Hb; [done|]. intros _. rewrite !not_elem_of_cons in Hb. tauto.
  - intros Hn. revert Hav. unfold is_available. rewrite (bool_decide_eq_true_2 _ Hn), andb_true_r.
    by case_bool_decide.
Qed.
End registry.

(** ** Witness *)

Lemma resolved_tools_allowed_witness :
  ∃ t, t ∈ @default_tool_resolver unit ascii_tables default_settings (@ListArtifacts unit ascii_tables)
         (@ReadArtifact unit ascii_tables)
         (mkAgent (u "a") (u "A") (u "r") [] (u "gpt-5") (u "low") 10 [VStr (u "read_artifact"); VInt 3])
       ∧ t_name t ≠ u "web_search".
Proof.
  exists (@ReadArtifact unit ascii_tables).
  assert (Hin : @ReadArtifact unit ascii_tables ∈ @default_tool_resolver unit ascii_tables default_settings
     (@ListArtifacts unit ascii_tables) (@ReadArtifact unit ascii_tables)
     (mkAgent (u "a") (u "A") (u "r") [] (u "gpt-5") (u "low") 10 [VStr (u "read_artifact"); VInt 3])).
  { apply list_elem_of_singleton. reflexivity. }
  split; [exact Hin|].
  exact (proj2 (proj2 (proj2 (proj2 (@resolved_tools_allowed unit ascii_tables default_settings _ _ _ _ Hin)))) eq_refl).
Defined.
