(* ===== verification/Engine.v ===== *)
(** * The engine (src/core/orchestration/engine.py)

    One agent turn: the budget checks, the loop of model calls and tool calls, the
    events, the artifacts and the records handed to the sinks.  The definitions
    follow the methods of [Engine]; the sinks write to the part [X] of the world. *)

From S2P Require Import Prelude PyStr PyFloat PyVal PyRegex PyJson Artifacts Config State Budget.
From S2P Require Import Registry Providers Pricing Keys Events World Router ToolBase ToolArtifacts.
From S2P Require Import ToolRegistry.

Record StepRecord := mkStep {
  sr_index : Z; sr_agent : AgentSpec; sr_instruction : pyval; sr_output : pystr; sr_provider : pystr;
  sr_tokens_in : Z; sr_tokens_out : Z; sr_cached_tokens : Z; sr_reasoning_tokens : Z;
  sr_cost_microcents : Z; sr_billable_microcents : Z; sr_latency_ms : Z; sr_attempts : Z;
  sr_stop_reason : option pystr; sr_model_calls : Z; sr_tool_calls : Z }.

Record ToolCallRecord := mkToolCall {
  cr_step_index : Z; cr_call_index : Z; cr_agent_id : pystr; cr_agent_name : pystr; cr_tool : pystr;
  cr_arguments : list (pystr * pyval); cr_result : pystr; cr_is_error : bool; cr_latency_ms : Z;
  cr_metadata : list (pystr * pyval) }.

Record ArtifactRecord := mkArtifactRecord {
  af_path : pystr; af_version : Z; af_kind : pystr; af_language : option pystr; af_content : pystr;
  af_step_index : Z; af_agent_name : pystr }.

(** The constructor's arguments. *)
Record Engine (X : Type) := mkEngine {
  eg_step_sink : option (StepRecord → M X exn unit);
  eg_artifact_sink : option (ArtifactRecord → M X exn unit);
  eg_tool_call_sink : option (ToolCallRecord → M X exn unit);
  eg_tool_resolver : AgentSpec → list (Tool X);
  eg_markup : Z → res exn Z;
  eg_cancel_check : bool;
  eg_max_board_chars : Z;
  eg_step_timeout : Z;
  eg_max_tool_iterations : Z;
  eg_max_tool_calls_per_turn : Z;
  eg_stream_tokens : bool;
  eg_max_attempts : Z }.
Arguments mkEngine {X}.
Arguments eg_step_sink {X}.
Arguments eg_artifact_sink {X}.
Arguments eg_tool_call_sink {X}.
Arguments eg_tool_resolver {X}.
Arguments eg_markup {X}.
Arguments eg_cancel_check {X}.
Arguments eg_max_board_chars {X}.
Arguments eg_step_timeout {X}.
Arguments eg_max_tool_iterations {X}.
Arguments eg_max_tool_calls_per_turn {X}.
Arguments eg_stream_tokens {X}.
Arguments eg_max_attempts {X}.

(** ** Prompts *)

Definition fence3 : pystr := [96; 96; 96]%N.
Definition ARTIFACT_INSTRUCTIONS : pystr :=
  u "When you produce a file that later agents or the user will need, emit it as a labelled block so it is captured as a versioned artifact:"
  ++ [10; 10]%N ++ fence3 ++ u "python path=src/app.py" ++ [10%N] ++ u "<file contents>" ++ [10%N]
  ++ fence3 ++ [10; 10]%N
  ++ u "Use the real relative path you intend the file to have. Prose, reasoning and explanation stay outside these blocks. Never use absolute paths or `..`.".

Definition is_write {X} (t : Tool X) : bool := bool_decide (t_side_effect t = WRITE).

Definition tool_guidance {X} (tools : list (Tool X)) : pystr :=
  join [10%N]
    ([u "You have tools. Call them when they would give you something you do not already have; do not narrate what you are about to do before calling one."]
     ++ (if existsb is_write tools
         then [u "Write files with the artifact tools rather than pasting them into your reply — a file written by a tool is versioned and readable by the other agents. Read a file before editing it, and prefer `edit_artifact` over rewriting a whole file."]
         else [])
     ++ [u "When you have what you need, stop calling tools and give your answer."]).

Definition system_prompt {X} (agent : AgentSpec) (tools : list (Tool X)) : pystr :=
  let header := u "You are " ++ ag_name agent ++ u ", the " ++ ag_role agent
    ++ u " on a team of AI agents working one shared task." ++ [10%N]
    ++ u "Everything you write is visible to the other agents, so make your output self-contained and state assumptions explicitly. Do the work you were asked for — do not restate the task or narrate your process." in
  join blank_line
    ([header]
     ++ (match strip (ag_system_prompt agent) with [] => [] | p => [p] end)
     ++ (match tools with [] => [] | _ => [tool_guidance tools] end)
     ++ (if existsb is_write tools then [] else [ARTIFACT_INSTRUCTIONS])).

Definition section_text (title : string) (body : pystr) : pystr := u "## " ++ u title ++ [10%N] ++ body.

Definition user_message `{PyTables} (agent : AgentSpec) (state : RunState) (instruction : pyval)
    (max_chars : Z) : res exn pystr :=
  index ← artifact_index state;
  Ok (section_text "Original request" (st_user_input state) ++ blank_line
      ++ section_text "Shared board" (transcript (Some (ag_id agent)) max_chars 6 state) ++ blank_line
      ++ section_text "Artifacts so far" index ++ blank_line
      ++ section_text "Your task now" (str_of instruction)).

(** ** Redaction and JSON replies *)

Definition secret_char (c : N) : bool := ascii_alnum c || mem_char (u "_-") c.
Definition SECRETISH : re :=
  RSeq RWordB (RGroup 1 (RAlt (RSeq (RLit (u "sk-")) (RAtLeast 12 (RSet secret_char)))
                        (RAlt (RSeq (RLit (u "xai-")) (RAtLeast 8 (RSet secret_char)))
                              (RSeq (RLit (u "AIza")) (RAtLeast 16 (RSet secret_char)))))).

Definition safe_arguments `{PyTables} (arguments : list (pystr * pyval)) : list (pystr * pyval) :=
  map (λ kv, (kv.1, match kv.2 with
                    | VStr s => VStr (sub SECRETISH (u "[redacted]") (slice_to 2000 s))
                    | v => v
                    end)) arguments.

Definition JSON_FENCE : re := RSeqs [
  RLit fence3; ROpt (RLit (u "json")); RStar true RSpace;
  RGroup 1 (RSeqs [RChar 123; RStar false RAny; RChar 125]); RStar true RSpace; RLit fence3].

Definition json_candidates `{PyTables} (text : pystr) : list pystr :=
  let first := find [123%N] text in
  let last := rfind_char 125 text in
  (match search JSON_FENCE text with
   | Some m => match group 1 (r_caps m) with Some t => [t] | None => [] end
   | None => []
   end)
  ++ (if negb (first =? -1) && (first <? last) then [slice first (last + 1) text] else [])
  ++ [strip text].

Fixpoint first_object (candidates : list pystr) : res exn (option (list (pystr * pyval))) :=
  match candidates with
  | [] => Ok None
  | c :: cs =>
      match loads c with
      | Ok (VDict d) => Ok (Some d)
      | Ok _ => first_object cs
      | Err (JSONDecodeError _) | Err (TypeError _) => first_object cs
      | Err e => Err e
      end
  end.

Definition extract_json `{PyTables} (text : pystr) : res exn (list (pystr * pyval)) :=
  o ← first_object (json_candidates text);
  match o with
  | Some d => Ok d
  | None => Err (ValueError (u "expected a JSON object, got: " ++ repr_str (slice_to 200 text)))
  end.

(** ** The turn *)

(** The locals of the loop over model calls. *)
Record TurnState := mkTurn {
  tn_tokens_in : Z; tn_tokens_out : Z; tn_cached : Z; tn_reasoning : Z; tn_cost : Z; tn_billable : Z;
  tn_text_parts : list pystr; tn_provider : pystr; tn_stop_reason : option pystr; tn_attempts : Z;
  tn_model_calls : Z; tn_tool_calls : Z; tn_conversation : list Message }.

Definition start_turn (message : pystr) : TurnState :=
  mkTurn 0 0 0 0 0 0 [] [] None 1 0 0 [mkMessage User message [] []].

Definition VOpt (o : option pystr) : pyval := match o with Some s => VStr s | None => VNone end.

Section engine.
Context {X : Type} `{Env} (eg : Engine X).
Abbreviation IO A := (M (World X) exn A).

Definition check_budget : IO unit :=
  cancelled ← (if eg_cancel_check eg then cancel_requested else m_ret false);
  t ← now;
  b ← gets w_budget;
  lift_res (check_before_step cancelled t b).

Definition sink {R} (s : option (R → M X exn unit)) (r : R) : IO unit :=
  match s with
  | Some f => _ ← await; on_ext (f r)
  | None => m_ret tt
  end.

Definition artifact_payload (step : Z) (path : pystr) (version : Z) (kind : pystr) (size : Z)
    (agent_name : pystr) (via : string) : list (pystr * pyval) :=
  [str_key "step" (VInt step); str_key "path" (VStr path); str_key "version" (VInt version);
   str_key "kind" (VStr kind); str_key "size_bytes" (VInt size);
   str_key "agent_name" (VStr agent_name); str_key "via" (VStr (u via))].

(** [_make_writer] *)
Definition writer (agent : AgentSpec) (step_index : Z) (path content kind : pystr) : IO Z :=
  version ← on_state (record_artifact path content kind (ag_name agent));
  _ ← sink (eg_artifact_sink eg)
        (mkArtifactRecord path version kind None content step_index (ag_name agent));
  size ← lift_res (encoded_len content);
  _ ← emit_event ARTIFACT_WRITTEN
        (artifact_payload step_index path version kind size (ag_name agent) "tool");
  m_ret version.

(** [_capture_artifacts] *)
Definition capture_artifacts (agent : AgentSpec) (text : pystr) (step_index : Z) : IO unit :=
  m_iter (λ a : ExtractedArtifact,
    version ← on_state (record_artifact (x_path a) (x_content a) (x_kind a) (ag_name agent));
    _ ← sink (eg_artifact_sink eg)
          (mkArtifactRecord (x_path a) version (x_kind a) (x_language a) (x_content a) step_index
             (ag_name agent));
    size ← lift_res (size_bytes a);
    emit_event ARTIFACT_WRITTEN
      (artifact_payload step_index (x_path a) version (x_kind a) size (ag_name agent) "message"))
    (extract text).

(** [_complete], with the one retry against a compacted board. *)
Definition complete_args (agent : AgentSpec) (system : pystr) (conversation : list Message)
    (json_mode : bool) (tools : list ToolSpec) (stream : bool) : CompleteArgs :=
  mkArgs (ag_model agent) system conversation (ag_max_tokens agent) (ag_effort agent) json_mode
    (eg_step_timeout eg) tools stream.

Definition is_context_overflow (e : exn) : bool :=
  match e with ContextWindowExceeded _ => true | _ => false end.

Definition complete_turn (agent : AgentSpec) (system : pystr) (conversation : list Message)
    (instruction : pyval) (json_mode : bool) (tools : list ToolSpec) (first_call : bool)
    : IO RoutedResult :=
  r ← attempt is_context_overflow
        (complete (eg_max_attempts eg)
           (complete_args agent system conversation json_mode tools (eg_stream_tokens eg)));
  match r with
  | inr routed => m_ret routed
  | inl e =>
      _ ← flush_tokens;
      if first_call then
        state ← gets w_state;
        message ← lift_res (user_message agent state instruction 40000);
        complete (eg_max_attempts eg)
          (complete_args agent system [mkMessage User message [] []] json_mode tools false)
      else raise e
  end.

(** ** Tools of a turn *)

Definition tools_by_name (tools : list (Tool X)) : list (pystr * Tool X) :=
  assoc_of_list (map (λ t, (t_name t, t)) tools).

(** Where the execution of one requested tool stands, between two awaits. *)
Inductive phase :=
| PCall                                     (* about to emit [tool.call] *)
| PCalling (seq : Z)                        (* its sequence number is taken, it is not out yet *)
| PRun (started : Z)                        (* about to run the tool *)
| PReport (r : ToolResult) (latency : Z)    (* about to emit [tool.result] *)
| PReporting (r : ToolResult) (latency seq : Z)
| PSink (r : ToolResult) (latency : Z)      (* about to call the sink *)
| PDone (part : ToolResultPart).

Record Thread := mkThread { th_position : Z; th_call : ToolCallRequest; th_phase : phase }.

Section run_tools.
Context (by_name : list (pystr * Tool X)) (agent : AgentSpec) (step_index offset : Z).

Definition org_of (s : RunState) : pystr :=
  match assoc (u "org_id") (st_notes s) with Some (VStr org) => org | _ => [] end.
Definition tool_context (org : pystr) : ToolContext X :=
  mkContext org (ag_id agent) (ag_name agent) step_index (writer agent step_index).

Definition no_such_tool (name : pystr) : ToolResult :=
  let available := match join (u ", ") (sorted_strs by_name.*1) with [] => u "(none)" | s => s end in
  mkToolResult (u "Error: no tool named " ++ repr_str name ++ u ". Available tools: " ++ available) true [].

Definition run_tool (context : ToolContext X) (call : ToolCallRequest) : IO ToolResult :=
  match assoc (tc_name call) by_name with
  | None => m_ret (no_such_tool (tc_name call))
  | Some tool => invoke tool (tc_arguments call) context
  end.

(** The next phase of [execute(position, call)]. *)
Definition step_phase (context : ToolContext X) (position : Z) (call : ToolCallRequest) (p : phase)
    : IO phase :=
  match p with
  | PCall => seq ← reserve_seq; m_ret (PCalling seq)
  | PCalling seq =>
      _ ← publish_event seq TOOL_CALL
        [str_key "step" (VInt step_index); str_key "call" (VInt (offset + position));
         str_key "tool" (VStr (tc_name call)); str_key "agent_name" (VStr (ag_name agent));
         str_key "arguments" (VDict (safe_arguments (tc_arguments call)))];
      started ← now;
      m_ret (PRun started)
  | PRun started =>
      result ← run_tool context call;
      latency ← latency_ms started;
      m_ret (PReport result latency)
  | PReport result latency => seq ← reserve_seq; m_ret (PReporting result latency seq)
  | PReporting result latency seq =>
      _ ← publish_event seq TOOL_RESULT
        [str_key "step" (VInt step_index); str_key "call" (VInt (offset + position));
         str_key "tool" (VStr (tc_name call)); str_key "agent_name" (VStr (ag_name agent));
         str_key "is_error" (VBool (tl_is_error result)); str_key "latency_ms" (VInt latency);
         str_key "preview" (VStr (slice_to 400 (tl_content result)));
         str_key "metadata" (VDict (tl_metadata result))];
      m_ret (PSink result latency)
  | PSink result latency =>
      _ ← sink (eg_tool_call_sink eg)
        (mkToolCall step_index (offset + position) (ag_id agent) (ag_name agent) (tc_name call)
           (safe_arguments (tc_arguments call)) (tl_content result) (tl_is_error result) latency
           (tl_metadata result));
      m_ret (PDone (mkPart (tc_id call) (tc_name call) (tl_content result) (tl_is_error result)))
  | PDone part => m_ret (PDone part)
  end.

(** Run a thread's remaining phases, at most six. *)
Definition finish_thread (context : ToolContext X) (th : Thread) : IO ToolResultPart :=
  let step p := step_phase context (th_position th) (th_call th) p in
  p1 ← step (th_phase th); p2 ← step p1; p3 ← step p2; p4 ← step p3; p5 ← step p4; p6 ← step p5;
  match p6 with
  | PDone part => m_ret part
  | _ => raise AssertionError
  end.

(** [execute(position, call)], uninterrupted *)
Definition execute (context : ToolContext X) (position : Z) (call : ToolCallRequest)
    : IO ToolResultPart :=
  finish_thread context (mkThread position call PCall).

(** [asyncio.gather]: the threads advance phase by phase in the order of the
    schedule; whatever is left then runs to its end in the order of the calls. *)
Definition advance (context : ToolContext X) (i : nat) (threads : list Thread) : IO (list Thread) :=
  match threads !! i with
  | None => m_ret threads
  | Some th =>
      p ← step_phase context (th_position th) (th_call th) (th_phase th);
      m_ret (<[i := mkThread (th_position th) (th_call th) p]> threads)
  end.

Fixpoint advance_all (context : ToolContext X) (schedule : list nat) (threads : list Thread)
    : IO (list Thread) :=
  match schedule with
  | [] => m_ret threads
  | i :: rest => threads' ← advance context i threads; advance_all context rest threads'
  end.

Definition gather (context : ToolContext X) (schedule : list nat) (threads : list Thread)
    : IO (list ToolResultPart) :=
  threads' ← advance_all context schedule threads;
  m_mapM (finish_thread context) threads'.

Definition mutating (calls : list ToolCallRequest) : bool :=
  existsb (λ c, match assoc (tc_name c) by_name with Some t => is_write t | None => false end) calls.

Definition threads_of (calls : list ToolCallRequest) : list Thread :=
  imap (λ i c, mkThread (Z.of_nat i) c PCall) calls.

(** [_run_tools] *)
Definition run_tools (calls : list ToolCallRequest) : IO (list ToolResultPart) :=
  org ← gets (λ w, org_of (w_state w));
  let context := tool_context org in
  if mutating calls
  then m_mapM (λ th, execute context (th_position th) (th_call th)) (threads_of calls)
  else schedule ← gets (λ w, env_schedule (ck_tick (w_clock w)));
       gather context schedule (threads_of calls).
End run_tools.

(** ** [call_agent] *)

Definition add_result (routed : RoutedResult) (markup : Z) (tn : TurnState) : TurnState :=
  let r := rr_result routed in
  let us := lr_usage r in
  mkTurn (tn_tokens_in tn + us_input_tokens us) (tn_tokens_out tn + us_output_tokens us)
    (tn_cached tn + us_cached_input_tokens us) (tn_reasoning tn + us_reasoning_tokens us)
    (tn_cost tn + rr_cost_microcents routed) (tn_billable tn + markup)
    (match lr_text r with [] => tn_text_parts tn | t => tn_text_parts tn ++ [t] end)
    (lr_provider r) (lr_stop_reason r) (Z.max (tn_attempts tn) (rr_attempts routed))
    (tn_model_calls tn + 1) (tn_tool_calls tn) (tn_conversation tn).

Definition add_exchange (r : LLMResult) (requested : list ToolCallRequest)
    (results : list ToolResultPart) (tn : TurnState) : TurnState :=
  mkTurn (tn_tokens_in tn) (tn_tokens_out tn) (tn_cached tn) (tn_reasoning tn) (tn_cost tn)
    (tn_billable tn) (tn_text_parts tn) (tn_provider tn) (tn_stop_reason tn) (tn_attempts tn)
    (tn_model_calls tn) (tn_tool_calls tn + py_len results)
    (tn_conversation tn ++ [mkMessage Assistant (lr_text r) requested [];
                            mkMessage User [] [] results]).

Definition tool_spec_of (t : Tool X) : ToolSpec := mkToolSpec (t_name t) (t_description t) (t_parameters t).

Section turn.
Context (agent : AgentSpec) (instruction : pyval) (json_mode : bool).

(** One pass of the loop over model calls. *)
Definition iteration_body (index : Z) (active : list (Tool X)) (system : pystr) (iteration : Z)
    (tn : TurnState) : IO (flow TurnState unit) :=
  _ ← (if 0 <? iteration then check_budget else m_ret tt);
  let last_chance := iteration =? eg_max_tool_iterations eg in
  routed ← complete_turn agent system (tn_conversation tn) instruction json_mode
             (if last_chance then [] else map tool_spec_of active) (iteration =? 0);
  markup ← (if rr_billed_to_platform routed then lift_res (eg_markup eg (rr_cost_microcents routed))
            else m_ret 0);
  _ ← modify (λ w, put_budget (record (rr_cost_microcents routed) (w_budget w)) w);
  let tn1 := add_result routed markup tn in
  match lr_tool_calls (rr_result routed) with
  | [] => m_ret (Break tn1)
  | tool_calls =>
      let requested := slice_to (eg_max_tool_calls_per_turn eg) tool_calls in
      results ← run_tools (tools_by_name active) agent index (tn_tool_calls tn1) requested;
      m_ret (Next (add_exchange (rr_result routed) requested results tn1))
  end.

Definition note_exhausted (index : Z) (s : RunState) : RunState :=
  let old := match assoc (u "tool_loops_exhausted") (st_notes s) with Some (VList l) => l | _ => [] end in
  set_note (u "tool_loops_exhausted") (VList (old ++ [VInt index])) s.

(** The [try] block: the loop, its [else] branch and the flush of the tokens. *)
Definition model_loop (index : Z) (active : list (Tool X)) (system message : pystr) : IO TurnState :=
  out ← for_loop (seqZ 0 (eg_max_tool_iterations eg + 1)) (iteration_body index active system)
          (start_turn message);
  tn ← (match out with
        | Break tn => m_ret tn
        | Next tn => _ ← update_state (note_exhausted index); m_ret tn
        | Return _ => raise AssertionError
        end);
  _ ← flush_tokens;
  m_ret tn.

Definition is_refusal (e : exn) : bool := match e with RefusalError _ _ => true | _ => false end.

(** [except RefusalError]: the step is closed and the error goes on. *)
Definition refused (index : Z) (e : exn) : IO TurnState :=
  if is_refusal e then
    _ ← flush_tokens;
    _ ← emit_event STEP_END
      [str_key "step" (VInt index); str_key "agent_name" (VStr (ag_name agent));
       str_key "refused" (VBool true);
       str_key "category" (match e with RefusalError c _ => VOpt c | _ => VNone end)];
    raise e
  else raise e.

Definition turn_output (tn : TurnState) : pystr :=
  join blank_line (List.filter (λ p, negb (bool_decide (strip p = []))) (tn_text_parts tn)).

Definition step_record (index : Z) (tn : TurnState) (latency : Z) : StepRecord :=
  mkStep index agent instruction (turn_output tn) (tn_provider tn) (tn_tokens_in tn)
    (tn_tokens_out tn) (tn_cached tn) (tn_reasoning tn) (tn_cost tn) (tn_billable tn) latency
    (tn_attempts tn) (tn_stop_reason tn) (tn_model_calls tn) (tn_tool_calls tn).

Definition step_end_payload (r : StepRecord) (b : BudgetGuard) : list (pystr * pyval) :=
  [str_key "step" (VInt (sr_index r)); str_key "agent_id" (VStr (ag_id agent));
   str_key "agent_name" (VStr (ag_name agent)); str_key "role" (VStr (ag_role agent));
   str_key "model" (VStr (ag_model agent)); str_key "provider" (VStr (sr_provider r));
   str_key "tokens_in" (VInt (sr_tokens_in r)); str_key "tokens_out" (VInt (sr_tokens_out r));
   str_key "cached_tokens" (VInt (sr_cached_tokens r));
   str_key "cost_microcents" (VInt (sr_cost_microcents r));
   str_key "latency_ms" (VInt (sr_latency_ms r)); str_key "attempts" (VInt (sr_attempts r));
   str_key "model_calls" (VInt (sr_model_calls r)); str_key "tool_calls" (VInt (sr_tool_calls r));
   str_key "spent_microcents" (VInt (b_spent b)); str_key "steps_used" (VInt (b_steps_used b));
   str_key "output" (VStr (sr_output r))].

(** What follows the loop: the board, the artifacts, the record, the events. *)
Definition close_turn (private_to : option (list pystr)) (index started : Z) (tn : TurnState)
    : IO pystr :=
  latency ← latency_ms started;
  let output := turn_output tn in
  _ ← update_state (append agent output private_to);
  _ ← capture_artifacts agent output index;
  let r := step_record index tn latency in
  _ ← sink (eg_step_sink eg) r;
  b ← gets w_budget;
  _ ← emit_event STEP_END (step_end_payload r b);
  warn ← on_budget take_warning;
  _ ← (if warn : bool then
         b ← gets w_budget;
         emit_event BUDGET_WARNING
           [str_key "spent_microcents" (VInt (b_spent b)); str_key "limit_microcents" (VInt (b_max_cost b))]
       else m_ret tt);
  m_ret output.

Definition step_start_payload (index : Z) (active : list (Tool X)) : list (pystr * pyval) :=
  [str_key "step" (VInt index); str_key "agent_id" (VStr (ag_id agent));
   str_key "agent_name" (VStr (ag_name agent)); str_key "role" (VStr (ag_role agent));
   str_key "model" (VStr (ag_model agent)); str_key "effort" (VStr (ag_effort agent));
   str_key "instruction" instruction;
   str_key "tools" (VList (map (λ t, VStr (t_name t)) active))].

(** [call_agent], after the budget check and the new step index *)
Definition turn_body (private_to : option (list pystr)) : IO pystr :=
  index ← gets (λ w, st_step_index (w_state w));
  let active := if json_mode then [] else eg_tool_resolver eg agent in
  _ ← emit_event STEP_START (step_start_payload index active);
  let system := system_prompt agent active in
  state ← gets w_state;
  message ← lift_res (user_message agent state instruction (eg_max_board_chars eg));
  _ ← modify (put_buffer (new_buffer index));
  started ← now;
  tn ← catch (model_loop index active system message) (refused index);
  close_turn private_to index started tn.

Definition call_agent (private_to : option (list pystr)) : IO pystr :=
  _ ← check_budget;
  _ ← update_state (λ s, set_step_index (st_step_index s + 1) s);
  turn_body private_to.
End turn.

(** ** [call_agent_json] *)

Definition missing_keys (required : list pystr) (d : list (pystr * pyval)) : list pystr :=
  List.filter (λ k, negb (has_key d k)) required.

Definition parse_reply (required : list pystr) (raw : pystr) : res exn (list (pystr * pyval)) :=
  parsed ← extract_json raw;
  match missing_keys required parsed with
  | [] => Ok parsed
  | missing => Err (ValueError (u "missing required key(s): " ++ join (u ", ") missing))
  end.

Definition reprompt (instruction : pyval) (last_error : pystr) : pystr :=
  str_of instruction ++ blank_line ++ u "Your previous reply could not be parsed: " ++ last_error
    ++ u ". Reply with a single valid JSON object and nothing else — no prose, no code fence.".

(** The loop carries the prompt and the last error. *)
Definition json_attempt (agent : AgentSpec) (instruction : pyval) (required : list pystr) (retries : Z)
    (attempt_no : Z) (pe : pyval * pystr) : IO (flow (pyval * pystr) (list (pystr * pyval))) :=
  raw ← call_agent agent pe.1 true None;
  match parse_reply required raw with
  | Ok parsed => m_ret (Return parsed)
  | Err e =>
      if is_value_error e then
        if attempt_no =? retries then m_ret (Break (pe.1, exn_str e))
        else m_ret (Next (VStr (reprompt instruction (exn_str e)), exn_str e))
      else raise e
  end.

Definition call_agent_json (agent : AgentSpec) (instruction : pyval) (required : list pystr)
    (retries : Z) : IO (list (pystr * pyval)) :=
  out ← for_loop (seqZ 0 (retries + 1)) (json_attempt agent instruction required retries)
          (instruction, []);
  match out with
  | Return parsed => m_ret parsed
  | Next pe | Break pe =>
      raise (ValueError (u "agent " ++ ag_name agent ++ u " did not return usable JSON: " ++ pe.2))
  end.
End engine.
