(* ===== verification/EngineSafety.v ===== *)
(** * What a turn may do to the world

    [run_rel] is the strongest thing every operation of the engine satisfies,
    whatever the models, the tools and the interruptions are: the budget only
    moves by model calls made below its ceilings, the board and the artifact log
    only grow, versions only go up, and the bus stays in order.  It is proved once
    by framing; the properties of a run follow from it. *)

From S2P Require Import Prelude PyStr PyFloat PyVal PyRegex PyJson Artifacts Config State Budget.
From S2P Require Import Registry Providers Pricing Keys Events World Router ToolBase ToolArtifacts.
From S2P Require Import ToolRegistry Engine.

(** ** The budget moves only below the ceilings *)

Definition open_budget (b : BudgetGuard) : Prop :=
  b_steps_used b < b_max_steps b ∧ b_spent b < b_max_cost b.

(** The budget is charged the price of a reply, and only while it is open. *)
Inductive spends `{Env} (p : PriceBook) (b : BudgetGuard) : BudgetGuard → Prop :=
| spends_refl : spends p b b
| spends_call b' cost : spends p b b' → open_budget b' → call_cost p cost → spends p b (record cost b')
| spends_warn b' : spends p b b' → spends p b (set_warned b').

Section spends.
Context `{Env} (p : PriceBook).

#[global] Instance spends_preorder : PreOrder (spends p).
Proof.
  split; [intros b; constructor|]. intros b1 b2 b3 H12 H23.
  induction H23; [done|by constructor|by constructor].
Qed.

(** The ceilings never move, and the steps never exceed theirs. *)
Lemma spends_ceilings b b' :
  spends p b b' →
  b_max_steps b' = b_max_steps b ∧ b_max_cost b' = b_max_cost b ∧ b_max_seconds b' = b_max_seconds b ∧
  b_steps_used b ≤ b_steps_used b' ≤ Z.max (b_steps_used b) (b_max_steps b).
Proof.
  induction 1 as [|b' cost Hs IH [Ho _] _|b' Hs IH]; simpl; [split_and!; try done; lia| |done].
  destruct IH as (E1 & E2 & E3 & E4 & E5). split_and!; try done; lia.
Qed.

(** If no reply costs more than [c], the ceiling is overshot by less than one call. *)
Lemma spends_overshoot c b b' :
  (∀ cost, call_cost p cost → 0 ≤ cost ≤ c) → spends p b b' →
  b_spent b ≤ b_spent b' ∧ (b_spent b' = b_spent b ∨ b_spent b' < b_max_cost b + c).
Proof.
  intros Hc. induction 1 as [|b' cost Hs IH [_ Ho] Hcost|b' Hs IH]; simpl; [split; [done|by left]| |done].
  destruct (spends_ceilings _ _ Hs) as (_ & Hmax & _). specialize (Hc _ Hcost). split; [lia|right; lia].
Qed.
End spends.

(** ** The state only grows *)

Definition version_of (s : RunState) (path : pystr) : Z := default 0 (assoc path (st_versions s)).

Record state_grows (s s' : RunState) : Prop := {
  sg_input : st_user_input s' = st_user_input s;
  sg_board : st_board s `prefix_of` st_board s';
  sg_log : st_log s `prefix_of` st_log s';
  sg_versions : ∀ p, version_of s p ≤ version_of s' p }.

#[global] Instance state_grows_preorder : PreOrder state_grows.
Proof.
  split; [by split|]. intros s1 s2 s3 [H1 H2 H3 H4] [H6 H7 H8 H9]. split.
  - congruence.
  - by etrans.
  - by etrans.
  - intros p. specialize (H4 p). specialize (H9 p). lia.
Qed.

Lemma append_grows agent content v s : state_grows s (append agent content v s).
Proof. split; simpl; try done. by eexists. Qed.

Lemma set_step_grows i s : state_grows s (set_step_index i s).
Proof. by split. Qed.

Lemma set_note_grows k v s : state_grows s (set_note k v s).
Proof. by split. Qed.

Lemma set_final_output_grows o s : state_grows s (set_final_output o s).
Proof. by split. Qed.

Lemma record_artifact_grows path content kind by_ s :
  state_grows s (record_artifact path content kind by_ s).2.
Proof.
  assert (Hv : ∀ p, version_of s p ≤ default 0
            (assoc p (assoc_set path (default 0 (assoc path (st_versions s)) + 1) (st_versions s)))).
  { intros p. unfold version_of. destruct (decide (p = path)) as [->|].
    - rewrite assoc_set_eq. simpl. lia.
    - by rewrite assoc_set_ne. }
  unfold record_artifact. destruct (encoded_len content); split; simpl; try done. by eexists.
Qed.

(** ** The relations *)

Section relations.
Context {X : Type} `{Env}.
Implicit Types w : World X.

Definition run_rel w w' : Prop :=
  spends (ro_prices (w_router w)) (w_budget w) (w_budget w') ∧ state_grows (w_state w) (w_state w') ∧
  bus_grows (w_bus w) (w_bus w') ∧ ro_prices (w_router w') = ro_prices (w_router w).

Definition step_index w : Z := st_step_index (w_state w).

(** ... and without a model call being counted or a step begun. *)
Definition quiet w w' : Prop :=
  run_rel w w' ∧ w_budget w' = w_budget w ∧ step_index w' = step_index w.

#[global] Instance run_rel_preorder : PreOrder run_rel.
Proof.
  split; [intros w; split_and!; done|].
  intros w1 w2 w3 (?&?&?&Hp) (H23&?&?&?). rewrite Hp in H23. split_and!; try (by etrans).
Qed.

#[global] Instance quiet_preorder : PreOrder quiet.
Proof.
  split; [by intros w|]. intros w1 w2 w3 (? & ? & ?) (? & ? & ?).
  split_and!; [by etrans|congruence|congruence].
Qed.

Lemma quiet_run w w' : quiet w w' → run_rel w w'.
Proof. by intros [? _]. Qed.

End relations.

(** ** Framing of the engine's operations *)

#[global] Instance quiet_frame {X} `{Env} : Frame (X:=X) quiet.
Proof.
  split; [tc_solve| | |]; intros; (split; [|done]); split_and!; done.
Qed.

#[global] Instance quiet_router_frame {X} `{Env} : RouterFrame (X:=X) quiet.
Proof. split; [tc_solve|]. intros. split; [|done]. by split_and!. Qed.

(** The state may change in any way that keeps it growing; within a turn the step
    index stays. *)
Definition state_step (s s' : RunState) : Prop :=
  state_grows s s' ∧ st_step_index s' = st_step_index s.

Lemma quiet_state {X} `{Env} (w : World X) s : state_step (w_state w) s → quiet w (put_state s w).
Proof. intros [? ?]. split; [|done]. by split_and!. Qed.

Lemma append_step agent content v s : state_step s (append agent content v s).
Proof. split; [apply append_grows|done]. Qed.
Lemma set_note_step k v s : state_step s (set_note k v s).
Proof. split; [apply set_note_grows|done]. Qed.
Lemma set_final_output_step o s : state_step s (set_final_output o s).
Proof. split; [apply set_final_output_grows|done]. Qed.
Lemma record_artifact_step path content kind by_ s :
  state_step s (record_artifact path content kind by_ s).2.
Proof.
  split; [apply record_artifact_grows|]. unfold record_artifact. by destruct (encoded_len content).
Qed.

Lemma quiet_ext {X} `{Env} (w : World X) x : quiet w (put_ext x w).
Proof. split; [|done]. by split_and!. Qed.

Create HintDb quiet discriminated.
#[export] Hint Resolve quiet_state quiet_ext append_step set_note_step
  set_final_output_step record_artifact_step : quiet.

(** One step of a framing proof: go through binds and case splits, and close the
    primitive operations. *)
Ltac quiet_step :=
  lazymatch goal with
  | |- steps _ (mbind _ _) => apply steps_bind; [tc_solve| |intros ?]
  | |- steps _ (m_ret _) => apply steps_ret; tc_solve
  | |- steps _ (raise _) => apply steps_raise; tc_solve
  | |- steps _ (lift_res _) => apply steps_lift_res; tc_solve
  | |- steps _ (gets _) => apply gets_steps; tc_solve
  | |- steps _ now => apply now_steps; tc_solve
  | |- steps _ await => apply await_steps; tc_solve
  | |- steps _ reserve_seq => apply reserve_seq_steps; tc_solve
  | |- steps _ (publish_event _ _ _) => apply publish_event_steps; tc_solve
  | |- steps _ (emit_event _ _) => apply emit_event_steps; tc_solve
  | |- steps _ flush_tokens => apply flush_tokens_steps; tc_solve
  | |- steps _ (latency_ms _) => apply latency_ms_steps; tc_solve
  | |- steps _ cancel_requested => apply cancel_requested_steps; tc_solve
  | |- steps _ (complete _ _) => apply complete_steps; tc_solve
  | |- steps _ (attempt _ _) => apply steps_attempt
  | |- steps _ (m_iter _ _) => apply m_iter_steps; [tc_solve|intros ?]
  | |- steps _ (m_mapM _ _) => apply steps_mapM; [tc_solve|intros ?]
  | |- steps _ (on_ext _) => apply steps_zoom; intros ?; apply quiet_ext
  | |- steps _ (on_state _) => apply steps_zoom; intros ?; apply quiet_state; eauto with quiet
  | |- steps _ (update_state _) => apply steps_modify; intros ?; apply quiet_state; eauto with quiet
  | |- steps _ (match ?x with _ => _ end) => destruct x
  | |- steps _ (let _ := _ in _) => cbv zeta
  end.
Ltac quiet_steps := repeat first [assumption | solve [eauto with quiet] | quiet_step].

(** The tools an agent can hold change nothing but what their context lets them
    write. *)
Class QuietTools {X} `{Env} (eg : Engine X) : Prop :=
  quiet_tool agent t arguments context :
    t ∈ eg_tool_resolver eg agent →
    (∀ path content kind, steps quiet (tx_write_artifact context path content kind)) →
    steps quiet (t_run t arguments context).

Section framing.
Context {X : Type} `{Env} (eg : Engine X) `{!QuietTools eg}.

Lemma sink_quiet {R} (s : option (R → M X exn unit)) r : steps (W:=World X) quiet (sink s r).
Proof. unfold sink. quiet_steps. Qed.
Hint Resolve sink_quiet : quiet.

Lemma writer_quiet agent i path content kind : steps quiet (writer eg agent i path content kind).
Proof. unfold writer. quiet_steps. Qed.
Hint Resolve writer_quiet : quiet.

Lemma capture_artifacts_quiet agent text i : steps quiet (capture_artifacts eg agent text i).
Proof. unfold capture_artifacts. quiet_steps. Qed.
Hint Resolve capture_artifacts_quiet : quiet.

Lemma complete_turn_quiet agent system conv instr jm tools fc :
  steps quiet (complete_turn eg agent system conv instr jm tools fc).
Proof. unfold complete_turn. quiet_steps. Qed.
Hint Resolve complete_turn_quiet : quiet.

Lemma check_budget_quiet : steps quiet (check_budget eg).
Proof. unfold check_budget. quiet_steps. Qed.
Hint Resolve check_budget_quiet : quiet.

Lemma wait_for_tool_quiet {A} (m : M (World X) exn A) : steps quiet m → steps quiet (wait_for_tool m).
Proof.
  intros Hm w. unfold wait_for_tool. specialize (Hm (set_in_tool true w)).
  assert (Hq : ∀ w1 : World X, quiet w1 (set_in_tool true w1)) by (intros; by apply (frame_clock (R:=quiet))).
  destruct (m (set_in_tool true w)) as [[a|e] w']; simpl in *;
    (etrans; [apply Hq|]); (etrans; [exact Hm|]); by apply (frame_clock (R:=quiet)).
Qed.

Definition quiet_context (context : ToolContext X) : Prop :=
  ∀ path content kind, steps quiet (tx_write_artifact context path content kind).

Definition quiet_named (by_name : list (pystr * Tool X)) : Prop :=
  ∀ name t arguments context, assoc name by_name = Some t → quiet_context context →
    steps quiet (t_run t arguments context).

Section tools.
Context (by_name : list (pystr * Tool X)) (Hnamed : quiet_named by_name).
Context (agent : AgentSpec) (index offset : Z).

Lemma run_tool_quiet context call : quiet_context context → steps quiet (run_tool by_name context call).
Proof.
  intros Hc. unfold run_tool. destruct (assoc (tc_name call) by_name) as [t|] eqn:Ht; [|quiet_steps].
  unfold invoke. quiet_steps. apply wait_for_tool_quiet. by eapply Hnamed.
Qed.

Lemma step_phase_quiet context position call p :
  quiet_context context → steps quiet (step_phase eg by_name agent index offset context position call p).
Proof.
  intros Hc. pose proof (run_tool_quiet context call Hc). unfold step_phase. quiet_steps.
Qed.

Lemma finish_thread_quiet context th :
  quiet_context context → steps quiet (finish_thread eg by_name agent index offset context th).
Proof.
  intros Hc. unfold finish_thread.
  pose proof (step_phase_quiet context (th_position th) (th_call th)) as Hs. quiet_steps; auto.
Qed.

Lemma advance_all_quiet context schedule threads :
  quiet_context context →
  steps quiet (advance_all eg by_name agent index offset context schedule threads).
Proof.
  intros Hc. revert threads. induction schedule as [|i rest IH]; intros threads; simpl; [quiet_steps|].
  apply steps_bind; [tc_solve| |intros; apply IH]. unfold advance.
  destruct (threads !! i) as [th|]; [|quiet_steps].
  pose proof (step_phase_quiet context (th_position th) (th_call th)) as Hs. quiet_steps; auto.
Qed.

Lemma run_tools_quiet calls : steps quiet (run_tools eg by_name agent index offset calls).
Proof.
  assert (Hc : ∀ org, quiet_context (tool_context eg agent index org)).
  { intros org path content kind. apply writer_quiet. }
  unfold run_tools. apply steps_bind; [tc_solve|quiet_steps|]. intros org.
  cbv zeta. destruct (mutating by_name calls).
  - apply steps_mapM; [tc_solve|]. intros th. by apply finish_thread_quiet.
  - apply steps_bind; [tc_solve|quiet_steps|]. intros schedule. unfold gather.
    apply steps_bind; [tc_solve|by apply advance_all_quiet|]. intros ts.
    apply steps_mapM; [tc_solve|]. intros th. by apply finish_thread_quiet.
Qed.
End tools.

Lemma tools_by_name_quiet agent : quiet_named (tools_by_name (eg_tool_resolver eg agent)).
Proof.
  intros name t arguments context Ht Hc. apply assoc_named in Ht as [Ht _].
  by apply (quiet_tool agent).
Qed.

Lemma no_tools_quiet : quiet_named (tools_by_name (X:=X) []).
Proof. by intros name t arguments context [=]. Qed.

Definition active_tools (json_mode : bool) (agent : AgentSpec) : list (Tool X) :=
  if json_mode then [] else eg_tool_resolver eg agent.

Lemma active_tools_quiet json_mode agent : quiet_named (tools_by_name (active_tools json_mode agent)).
Proof. destruct json_mode; [apply no_tools_quiet|apply tools_by_name_quiet]. Qed.

(** ** Model calls *)

Lemma steps_wp {A} (R : relation (World X)) (m : M (World X) exn A) w w0 `{!PreOrder R} :
  steps R m → R w0 w → wp m (λ _ w', R w0 w') (λ _ w', R w0 w') w.
Proof. intros Hm Hw. eapply wp_mono; [by apply wp_steps| |]; intros; by etrans. Qed.

(** A computation that leaves the budget alone keeps what the check established. *)
Lemma quiet_wp {A} (m : M (World X) exn A) (Q : A → World X → Prop) XX w :
  steps quiet m →
  (∀ a w', quiet w w' → Q a w') → (∀ e w', quiet w w' → XX e w') → wp m Q XX w.
Proof. intros Hm HQ HX. eapply wp_mono; [by apply wp_steps| |]; auto. Qed.

(** A turn's completion costs the price of a reply. *)
Lemma complete_turn_priced agent system conv instr jm tools fc w :
  wp (complete_turn eg agent system conv instr jm tools fc)
     (λ r w', quiet w w' ∧ call_cost (ro_prices (w_router w)) (rr_cost_microcents r))
     (λ _ w', quiet w w') w.
Proof.
  assert (Hwp : wp (complete_turn eg agent system conv instr jm tools fc)
                   (λ r _, call_cost (ro_prices (w_router w)) (rr_cost_microcents r)) (λ _ _, True) w).
  { unfold complete_turn. apply wp_bind. rewrite wp_attempt.
    match goal with |- wp (complete ?n ?a) _ _ _ =>
      pose proof (complete_price n a w) as Hp; pose proof (complete_steps quiet n a w) as Hq;
      unfold wp in *; destruct (complete n a w) as [[r|e] w1]; [done|] end.
    destruct (is_context_overflow e); [|done]. apply wp_bind.
    apply quiet_wp; [quiet_steps| |done]. intros _ w2 Hq2.
    destruct fc; [|done]. apply wp_bind. apply quiet_wp; [quiet_steps| |done]. intros state w3 Hq3.
    apply wp_bind. apply quiet_wp; [quiet_steps| |done]. intros message w4 Hq4.
    assert (Hall : quiet w w4) by (etrans; [exact Hq|]; etrans; [done|]; by etrans).
    destruct Hall as ((_ & _ & _ & <-) & _). apply complete_price. }
  pose proof (complete_turn_quiet agent system conv instr jm tools fc w) as Hq.
  unfold wp in *. by destruct (complete_turn _ _ _ _ _ _ _ _ w) as [[r|e] w'].
Qed.

Definition rel_post {A} (w : World X) : A → World X → Prop := λ _ w', run_rel w w'.

Lemma check_budget_open w w' : (check_budget eg w) = (Ok tt, w') → open_budget (w_budget w').
Proof.
  unfold check_budget, mbind, M_bind, m_bind, now, gets, lift_res.
  destruct ((if eg_cancel_check eg then cancel_requested else m_ret false) w) as [[c|e] w1]; [|done].
  intros Heq. simplify_eq. destruct (check_before_step _ _ _) as [[]|] eqn:Hc; [|done].
  apply check_Ok in Hc as [_ (? & ? & _)]. simplify_eq. by split.
Qed.

Section turn.
Context (agent : AgentSpec) (instruction : pyval) (json_mode : bool).

Lemma iteration_run index system iteration tn w :
  (iteration ≤ 0 → open_budget (w_budget w)) →
  wp (iteration_body eg agent instruction json_mode index (active_tools json_mode agent) system iteration tn)
     (rel_post w) (rel_post w) w.
Proof.
  intros Hopen. unfold iteration_body. apply wp_bind.
  apply wp_mono with (λ _ w1, quiet w w1 ∧ open_budget (w_budget w1)) (λ _ w1, quiet w w1).
  { destruct (Z.ltb_spec 0 iteration); [|apply wp_ret; split; [done|by apply Hopen]].
    pose proof (check_budget_quiet w) as Hq. pose proof (check_budget_open w) as Ho.
    unfold wp. destruct (check_budget eg w) as [[[]|e] w1]; [|done]. split; [done|by apply Ho]. }
  2: { intros e w1 Hq. by apply quiet_run. }
  intros _ w1 [Hq1 Ho1]. apply wp_bind.
  eapply wp_mono; [apply (complete_turn_priced agent)| |].
  2: { intros e w2 Hq2. unfold rel_post. apply quiet_run. by etrans. }
  intros routed w2 [Hq2 Hcost]. apply wp_bind.
  apply quiet_wp; [quiet_steps| |].
  2: { intros e w3 Hq3. unfold rel_post. apply quiet_run. etrans; [done|]. by etrans. }
  intros markup w3 Hq3. apply wp_bind. unfold wp at 1, modify.
  set (w4 := put_budget _ w3).
  assert (Hq : quiet w w3) by (etrans; [done|]; by etrans).
  assert (Hrel : run_rel w w4).
  { destruct Hq as [(Hs & ? & ? & ?) Hb]. split_and!; try done. simpl. apply spends_call; [done| |].
    - destruct Hq3 as (_ & -> & _). destruct Hq2 as (_ & -> & _). done.
    - destruct Hq1 as ((_ & _ & _ & Hp) & _). by rewrite Hp in Hcost. }
  destruct (lr_tool_calls (rr_result routed)) as [|c cs]; [by apply wp_ret|].
  apply wp_bind. eapply wp_mono; [apply (steps_wp run_rel _ w4 w)| |].
  - intros w5. apply quiet_run. apply run_tools_quiet, active_tools_quiet.
  - done.
  - intros results w5 Hr5. by apply wp_ret.
  - done.
Qed.

Lemma model_loop_run index system message w :
  open_budget (w_budget w) →
  wp (model_loop eg agent instruction json_mode index (active_tools json_mode agent) system message)
     (rel_post w) (rel_post w) w.
Proof.
  intros Ho. unfold model_loop. apply wp_bind.
  assert (Hloop : wp (for_loop (seqZ 0 (eg_max_tool_iterations eg + 1))
      (iteration_body eg agent instruction json_mode index (active_tools json_mode agent) system)
      (start_turn message)) (rel_post w) (rel_post w) w).
  { destruct (Z.le_gt_cases (eg_max_tool_iterations eg + 1) 0).
    { rewrite seqZ_nil by lia. by apply wp_ret. }
    rewrite seqZ_cons by lia. cbn [for_loop]. apply wp_bind.
    eapply wp_mono; [apply iteration_run; done| |done].
    intros [tn|tn|[]] w1 Hr1; [|by apply wp_ret..].
    eapply wp_mono; [apply (wp_for_loop _ _ (λ _, run_rel w) (λ _, run_rel w) (λ _, run_rel w) (λ _, run_rel w))| |done].
    - intros i s w2 Hi Hr2. eapply wp_mono; [apply iteration_run| |].
      + intros Hle. apply elem_of_seqZ in Hi. lia.
      + intros [tn'|tn'|[]] w3 Hr3; by etrans.
      + intros e w3 Hr3. unfold rel_post in Hr3. by etrans.
    - done.
    - by intros [tn'|tn'|[]] w2. }
  eapply wp_mono; [exact Hloop| |done].
  intros out w1 Hr1. apply (steps_wp run_rel); [tc_solve| |exact Hr1].
  intros w2. apply quiet_run. revert w2. change (steps (W:=World X) quiet
    (tn ← (match out with
        | Break tn => m_ret tn
        | Next tn => _ ← update_state (note_exhausted index); m_ret tn
        | Return _ => raise AssertionError
        end);
     _ ← flush_tokens; m_ret tn)).
  quiet_steps.
Qed.

Lemma refused_quiet index e : steps quiet (refused (X:=X) agent index e).
Proof. unfold refused. quiet_steps. Qed.

Lemma close_turn_run private_to index started tn :
  steps run_rel (close_turn eg agent instruction private_to index started tn).
Proof.
  assert (Hlift : ∀ {A} (m : M (World X) exn A), steps quiet m → steps run_rel m).
  { intros A m Hm w. apply quiet_run, Hm. }
  assert (Hwarn : steps (W:=World X) run_rel (on_budget take_warning)).
  { apply steps_zoom. intros w. unfold take_warning. destruct (b_warned (w_budget w)); [by destruct w|].
    destruct (warn_threshold _); [|by destruct w]. destruct (_ <? _); [by destruct w|].
    split_and!; try done. simpl. by constructor. }
  unfold close_turn. pose proof (capture_artifacts_quiet agent) as Hcap.
  repeat (apply steps_bind; [tc_solve|first [exact Hwarn|apply Hlift; quiet_steps; try apply Hcap]|intros ?]).
  apply Hlift. quiet_steps.
Qed.

(** The whole turn. *)
Lemma call_agent_run private_to :
  steps run_rel (call_agent eg agent instruction json_mode private_to).
Proof.
  intros w. enough (Hwp : wp (call_agent eg agent instruction json_mode private_to)
                            (rel_post w) (rel_post w) w).
  { unfold wp, rel_post in Hwp. by destruct (call_agent _ _ _ _ _ w) as [[|] ?]. }
  unfold call_agent, turn_body. apply wp_bind.
  apply wp_mono with (λ _ w1, quiet w w1 ∧ open_budget (w_budget w1)) (λ _ w1, quiet w w1).
  { pose proof (check_budget_quiet w) as Hq. pose proof (check_budget_open w) as Ho.
    unfold wp. destruct (check_budget eg w) as [[[]|e] w1]; [|done]. split; [done|by apply Ho]. }
  2: { intros e w1 Hq. by apply quiet_run. }
  assert (Hstep : ∀ {A B} (m : M (World X) exn A) (k : A → M (World X) exn B) w1,
     run_rel w w1 → open_budget (w_budget w1) → steps quiet m →
     (∀ a w2, run_rel w w2 → open_budget (w_budget w2) → wp (k a) (rel_post w) (rel_post w) w2) →
     wp (m_bind k m) (rel_post w) (rel_post w) w1).
  { intros A B m k w1 Hq Ho Hm Hk. apply wp_bind. apply quiet_wp; [done| |].
    - intros a w2 Hq2. apply Hk; [etrans; [done|by apply quiet_run]|]. by destruct Hq2 as (_ & -> & _).
    - intros e w2 Hq2. unfold rel_post. etrans; [done|by apply quiet_run]. }
  intros _ w1 [Hq1%quiet_run Ho1]. apply wp_bind. unfold wp at 1, update_state, modify.
  set (w2 := put_state _ w1).
  assert (Hq2 : run_rel w w2).
  { destruct Hq1 as (?&?&?&?). split_and!; try done. etrans; [done|]. apply set_step_grows. }
  assert (Ho2 : open_budget (w_budget w2)) by done. clearbody w2. clear w1 Hq1 Ho1.
  rename w2 into w1, Hq2 into Hq1, Ho2 into Ho1.
  apply Hstep; [done|done|quiet_steps|]. clear w1 Hq1 Ho1. intros index w1 Hq1 Ho1. cbv zeta.
  apply Hstep; [done|done|quiet_steps|]. clear w1 Hq1 Ho1. intros _ w1 Hq1 Ho1.
  apply Hstep; [done|done|quiet_steps|]. clear w1 Hq1 Ho1. intros state w1 Hq1 Ho1.
  apply Hstep; [done|done|quiet_steps|]. clear w1 Hq1 Ho1. intros message w1 Hq1 Ho1.
  apply Hstep; [done|done| |].
  { apply steps_modify. intros w2. apply (frame_buffer (R:=quiet)). }
  clear w1 Hq1 Ho1. intros _ w1 Hq1 Ho1.
  apply Hstep; [done|done|quiet_steps|]. clear w1 Hq1 Ho1. intros started w1 Hq1 Ho1.
  apply wp_bind. rewrite wp_catch.
  rename Hq1 into Hw1.
  eapply wp_mono; [by apply model_loop_run| |].
  - intros tn w2 Hr2. apply (steps_wp run_rel); [tc_solve|apply close_turn_run|].
    unfold rel_post in Hr2. by etrans.
  - intros e w2 Hr2. cbv beta. unfold rel_post in Hr2.
    assert (Hr : run_rel w w2) by by etrans. clear Hr2. rename Hr into Hr2.
    eapply wp_mono; [eapply (steps_wp run_rel); [tc_solve| |exact Hr2]; intros w3; apply quiet_run, refused_quiet| |].
    + intros tn w3 Hr3. by apply (steps_wp run_rel); [tc_solve|apply close_turn_run|].
    + done.
Qed.
End turn.

Lemma call_agent_json_run agent instruction required retries :
  steps run_rel (call_agent_json eg agent instruction required retries).
Proof.
  unfold call_agent_json. apply steps_bind; [tc_solve| |].
  - apply steps_for_loop; [tc_solve|]. intros i [prompt err]. unfold json_attempt.
    apply steps_bind; [tc_solve|apply call_agent_run|]. intros raw.
    destruct (parse_reply _ _); [apply steps_ret; tc_solve|]. destruct (is_value_error e);
      [destruct (i =? retries)|]; (apply steps_ret || apply steps_raise); tc_solve.
  - intros [?|?|?]; (apply steps_ret || apply steps_raise); tc_solve.
Qed.
End framing.

(** ** The tools of the deployment are quiet *)

Section deployment.
Context {X : Type} `{Env} (settings : Settings) (web_fetch web_search : Tool X).

Lemma list_artifacts_quiet arguments context : steps quiet (list_artifacts_run (X:=X) arguments context).
Proof. intros w. by rewrite list_artifacts_pure. Qed.
Lemma read_artifact_quiet arguments context : steps quiet (read_artifact_run (X:=X) arguments context).
Proof. intros w. by rewrite read_artifact_pure. Qed.

Lemma write_artifact_quiet arguments (context : ToolContext X) :
  quiet_context context → steps quiet (write_artifact_run arguments context).
Proof.
  intros Hc. unfold write_artifact_run. quiet_steps; try apply Hc.
Qed.

Lemma edit_artifact_quiet arguments (context : ToolContext X) :
  quiet_context context → steps quiet (edit_artifact_run arguments context).
Proof. intros Hc. unfold edit_artifact_run. quiet_steps; try apply Hc. Qed.

Definition quiet_run_of (t : Tool X) : Prop :=
  ∀ arguments context, quiet_context context → steps quiet (t_run t arguments context).

Lemma ListArtifacts_quiet : quiet_run_of (ListArtifacts (X:=X)).
Proof. intros arguments context _. simpl. apply list_artifacts_quiet. Qed.
Lemma ReadArtifact_quiet : quiet_run_of (ReadArtifact (X:=X)).
Proof. intros arguments context _. simpl. apply read_artifact_quiet. Qed.
Lemma WriteArtifact_quiet : quiet_run_of (WriteArtifact (X:=X)).
Proof. intros arguments context Hc. simpl. by apply write_artifact_quiet. Qed.
Lemma EditArtifact_quiet : quiet_run_of (EditArtifact (X:=X)).
Proof. intros arguments context Hc. simpl. by apply edit_artifact_quiet. Qed.

Lemma deployed_tools_quiet agent t arguments context :
  quiet_run_of web_fetch → quiet_run_of web_search →
  t ∈ default_tool_resolver settings web_fetch web_search agent → quiet_context context →
  steps quiet (t_run t arguments context).
Proof.
  intros Hf Hs Ht Hc. unfold default_tool_resolver, resolve_tools in Ht.
  apply list_elem_of_omap in Ht as (name & _ & Ht).
  destruct (get_tool web_fetch web_search name) as [t'|] eqn:Hg; [|done].
  destruct ((is_available settings t').1); simplify_eq. apply assoc_named in Hg as [Hin _].
  unfold ALL_TOOLS in Hin. rewrite !elem_of_cons, elem_of_nil in Hin.
  destruct Hin as [->|[->|[->|[->|[->|[->|[]]]]]]].
  - by apply ListArtifacts_quiet.
  - by apply ReadArtifact_quiet.
  - by apply WriteArtifact_quiet.
  - by apply EditArtifact_quiet.
  - by apply Hf.
  - by apply Hs.
Qed.
End deployment.
