(* ===== verification/EngineTurn.v ===== *)
(** * The tool loop of a turn

    The results of the tools a model asked for go back in the order it asked,
    however the tools interleave; the number of model calls and tool calls of a
    turn is bounded; and the turn's record says exactly what the budget was
    charged. *)

From S2P Require Import Prelude PyStr PyFloat PyVal PyRegex PyJson Artifacts Config State Budget.
From S2P Require Import Registry Providers Pricing Keys Events World Router ToolBase ToolArtifacts.
From S2P Require Import ToolRegistry Engine EngineSafety.

(** ** Concurrent tools *)

Section order.
Context {X : Type} `{Env} (eg : Engine X).
Context (by_name : list (pystr * Tool X)) (agent : AgentSpec) (index offset : Z).

(** A finished thread answers its own call. *)
Definition answers (call : ToolCallRequest) (part : ToolResultPart) : Prop :=
  tr_tool_call_id part = tc_id call ∧ tr_name part = tc_name call.

Definition phase_ok (call : ToolCallRequest) (p : phase) : Prop :=
  match p with PDone part => answers call part | _ => True end.

(** How many phases are left. *)
Definition rank (p : phase) : nat :=
  match p with
  | PCall => 6 | PCalling _ => 5 | PRun _ => 4 | PReport _ _ => 3 | PReporting _ _ _ => 2
  | PSink _ _ => 1 | PDone _ => 0
  end.

(** An outcome that holds of every value a computation can return. *)
Definition returns {A} (m : M (World X) exn A) (P : A → Prop) : Prop :=
  ∀ w, match (m w).1 with Ok a => P a | Err _ => True end.

Lemma returns_bind {A B} (m : M (World X) exn A) (k : A → M (World X) exn B) P Q :
  returns m P → (∀ a, P a → returns (k a) Q) → returns (m_bind k m) Q.
Proof.
  intros Hm Hk w. specialize (Hm w). unfold m_bind. destruct (m w) as [[a|e] w']; [by apply Hk|done].
Qed.

Lemma returns_any {A} (m : M (World X) exn A) : returns m (λ _, True).
Proof. intros w. by destruct (m w).1. Qed.

Lemma returns_ret {A} (a : A) (P : A → Prop) : P a → returns (m_ret a) P.
Proof. by intros Ha w. Qed.

Lemma returns_mapM {A B C} (f : A → M (World X) exn B) (R : C → A → Prop) (P : C → B → Prop) cs xs :
  Forall2 R cs xs → (∀ c x, R c x → returns (f x) (P c)) → returns (m_mapM f xs) (Forall2 P cs).
Proof.
  intros Hcs Hf. induction Hcs as [|c x cs xs Hcx Hcs IH]; simpl; [apply returns_ret; constructor|].
  eapply returns_bind; [by eapply Hf|]. intros y Hy. eapply returns_bind; [exact IH|].
  intros ys Hys. apply returns_ret. by constructor.
Qed.

Lemma step_phase_returns context position call p :
  phase_ok call p →
  returns (step_phase eg by_name agent index offset context position call p)
    (λ p', phase_ok call p' ∧ rank p' = pred (rank p)).
Proof.
  intros Hp. destruct p; simpl;
    repeat (eapply returns_bind; [apply returns_any|intros ? _]); apply returns_ret; done.
Qed.

Lemma finish_thread_returns context th :
  phase_ok (th_call th) (th_phase th) →
  returns (finish_thread eg by_name agent index offset context th) (answers (th_call th)).
Proof.
  intros Hp. unfold finish_thread.
  eapply returns_bind; [by apply step_phase_returns|]. intros p1 [H1 R1].
  eapply returns_bind; [by apply step_phase_returns|]. intros p2 [H2 R2].
  eapply returns_bind; [by apply step_phase_returns|]. intros p3 [H3 R3].
  eapply returns_bind; [by apply step_phase_returns|]. intros p4 [H4 R4].
  eapply returns_bind; [by apply step_phase_returns|]. intros p5 [H5 R5].
  eapply returns_bind; [by apply step_phase_returns|]. intros p6 [H6 R6].
  assert (rank p6 = 0%nat) as R by (destruct (th_phase th); simpl in *; lia).
  destruct p6; try done. by apply returns_ret.
Qed.

(** Running the phases never goes wrong by itself: a finished thread is finished. *)
Definition thread_for (call : ToolCallRequest) (th : Thread) : Prop :=
  th_call th = call ∧ phase_ok call (th_phase th).

Lemma advance_returns context i calls threads :
  Forall2 thread_for calls threads →
  returns (advance eg by_name agent index offset context i threads) (Forall2 thread_for calls).
Proof.
  intros Hth. unfold advance. destruct (threads !! i) as [th|] eqn:Hi; [|by apply returns_ret].
  destruct (Forall2_lookup_r _ _ _ _ _ Hth Hi) as (call & Hc & [Heq Hok]). subst call.
  eapply returns_bind; [by apply step_phase_returns|]. intros p [Hp _].
  apply returns_ret. rewrite <- (list_insert_id calls i (th_call th)) by done.
  by apply Forall2_insert.
Qed.

Lemma advance_all_returns context schedule calls threads :
  Forall2 thread_for calls threads →
  returns (advance_all eg by_name agent index offset context schedule threads)
    (Forall2 thread_for calls).
Proof.
  revert threads. induction schedule as [|i rest IH]; intros threads Hth; simpl;
    [by apply returns_ret|].
  eapply returns_bind; [by apply advance_returns|]. intros ts Hts. by apply IH.
Qed.

Lemma threads_of_for calls : Forall2 thread_for calls (threads_of calls).
Proof.
  unfold threads_of. apply Forall2_same_length_lookup_2; [by rewrite length_imap|].
  intros i c th Hc Hth. rewrite list_lookup_imap, Hc in Hth. simpl in Hth. by simplify_eq.
Qed.

(** Whatever the schedule, the results answer the calls, one each, in their order. *)
Lemma run_tools_returns calls :
  returns (run_tools eg by_name agent index offset calls) (Forall2 answers calls).
Proof.
  unfold run_tools. eapply returns_bind; [apply returns_any|]. intros org _. cbv zeta.
  pose proof (threads_of_for calls) as Hth.
  destruct (mutating by_name calls).
  - eapply returns_mapM; [exact Hth|]. intros c th [<- _].
    exact (finish_thread_returns _ (mkThread (th_position th) (th_call th) PCall) I).
  - eapply returns_bind; [apply returns_any|]. intros schedule _. unfold gather.
    eapply returns_bind; [by apply advance_all_returns|]. intros ts Hts.
    eapply returns_mapM; [exact Hts|]. intros c th [<- Hok]. by apply finish_thread_returns.
Qed.
End order.

(** ** The invariant of the loop over model calls *)

(** A conversation as every vendor wants it: an opening message, then exchanges in
    which each tool call of the assistant is answered, in order, by the message
    that follows. *)
Inductive conversation_ok : list Message → Prop :=
| conv_open m : m_tool_calls m = [] → m_tool_results m = [] → m_role m = User → conversation_ok [m]
| conv_exchange c text calls results :
    conversation_ok c → Forall2 answers calls results →
    conversation_ok (c ++ [mkMessage Assistant text calls []; mkMessage User [] [] results]).

Section loop.
Context {X : Type} `{Env} (eg : Engine X) `{!QuietTools eg}.
Hypothesis (Hcalls : 0 ≤ eg_max_tool_calls_per_turn eg).

(** After [i] model calls of the turn [n0] that began with the budget [b0]. *)
Record turn_inv (b0 : BudgetGuard) (n0 i : Z) (tn : TurnState) (w : World X) : Prop := {
  ti_calls : tn_model_calls tn = i;
  ti_steps : b_steps_used (w_budget w) = b_steps_used b0 + i;
  ti_cost : b_spent (w_budget w) = b_spent b0 + tn_cost tn;
  ti_tools : 0 ≤ tn_tool_calls tn ≤ i * eg_max_tool_calls_per_turn eg;
  ti_conv : conversation_ok (tn_conversation tn);
  ti_index : step_index w = n0 }.

Lemma turn_inv_quiet b0 n0 i tn w w' : quiet w w' → turn_inv b0 n0 i tn w → turn_inv b0 n0 i tn w'.
Proof. intros (_ & Hb & Hi) [H1 H2 H3 H4 H5 H6]. split; rewrite ?Hb, ?Hi; done. Qed.

Lemma start_turn_inv message w : turn_inv (w_budget w) (step_index w) 0 (start_turn message) w.
Proof. split; simpl; try lia. by constructor. Qed.

Lemma slice_calls_length calls :
  py_len (slice_to (eg_max_tool_calls_per_turn eg) calls : list ToolCallRequest)
    ≤ eg_max_tool_calls_per_turn eg.
Proof. by apply length_slice_to. Qed.

Lemma add_result_inv b0 n0 i tn routed markup w :
  turn_inv b0 n0 i tn w →
  turn_inv b0 n0 (i + 1) (add_result routed markup tn)
    (put_budget (record (rr_cost_microcents routed) (w_budget w)) w).
Proof. intros [H1 H2 H3 H4 H5 H6]. split; simpl; try done; lia. Qed.

Lemma add_exchange_inv b0 n0 i tn r calls results w :
  turn_inv b0 n0 i tn w → Forall2 answers calls results →
  tn_tool_calls tn + py_len calls ≤ i * eg_max_tool_calls_per_turn eg →
  turn_inv b0 n0 i (add_exchange r calls results tn) w.
Proof.
  intros [H1 H2 H3 H4 H5 H6] Hr Hl.
  assert (py_len results = py_len calls) as Hlen.
  { unfold py_len. by rewrite (Forall2_length _ _ _ Hr). }
  split; simpl; try done; [|by constructor].
  pose proof (py_len_nonneg calls). lia.
Qed.

Lemma iteration_inv agent instruction json_mode index system b0 n0 i tn w :
  turn_inv b0 n0 i tn w → tn_tool_calls tn ≤ i * eg_max_tool_calls_per_turn eg →
  wp (iteration_body eg agent instruction json_mode index (active_tools eg json_mode agent) system i tn)
     (λ f w', match f with
              | Next tn' | Break tn' => turn_inv b0 n0 (i + 1) tn' w'
              | Return _ => False
              end) (λ _ _, True) w.
Proof.
  intros Hinv Htools. unfold iteration_body. apply wp_bind. apply quiet_wp; [|  |done].
  { destruct (0 <? i); [apply check_budget_quiet|quiet_steps]. }
  intros _ w1 Hq1. apply (turn_inv_quiet _ _ _ _ _ _ Hq1) in Hinv. clear w Hq1.
  apply wp_bind. apply quiet_wp; [apply complete_turn_quiet| |done].
  intros routed w2 Hq2. apply (turn_inv_quiet _ _ _ _ _ _ Hq2) in Hinv. clear w1 Hq2.
  apply wp_bind. apply quiet_wp; [quiet_steps| |done].
  intros markup w3 Hq3. apply (turn_inv_quiet _ _ _ _ _ _ Hq3) in Hinv. clear w2 Hq3.
  apply wp_bind. unfold wp at 1, modify.
  apply (add_result_inv _ _ _ _ routed markup) in Hinv.
  set (w4 := put_budget _ w3) in *. clearbody w4.
  destruct (lr_tool_calls (rr_result routed)) as [|c cs] eqn:Hc; [by apply wp_ret|].
  apply wp_bind. set (calls := slice_to _ (c :: cs)).
  pose proof (run_tools_returns eg (tools_by_name (active_tools eg json_mode agent)) agent index
                (tn_tool_calls (add_result routed markup tn)) calls w4) as Hret.
  pose proof (run_tools_quiet eg _ (active_tools_quiet eg json_mode agent) agent index
                (tn_tool_calls (add_result routed markup tn)) calls w4) as Hq.
  unfold wp at 1. destruct (run_tools _ _ _ _ _ _ w4) as [[results|e] w5]; [|done]. simpl in Hret, Hq.
  apply wp_ret. apply add_exchange_inv; [by eapply turn_inv_quiet|done|].
  simpl. pose proof (slice_calls_length (c :: cs)) as Hl. fold calls in Hl. lia.
Qed.

Definition turn_done (b0 : BudgetGuard) (n0 : Z) (tn : TurnState) (w : World X) : Prop :=
  ∃ i, 0 ≤ i ≤ Z.max 0 (eg_max_tool_iterations eg + 1) ∧ turn_inv b0 n0 i tn w.

Lemma model_loop_inv agent instruction json_mode index system message w :
  wp (model_loop eg agent instruction json_mode index (active_tools eg json_mode agent) system message)
     (turn_done (w_budget w) (step_index w)) (λ _ _, True) w.
Proof.
  unfold model_loop. set (b0 := w_budget w). set (n0 := step_index w). apply wp_bind.
  apply wp_mono with
    (λ f w', match f with Next tn | Break tn => turn_done b0 n0 tn w' | Return _ => False end) (λ _ _, True);
    [|  |done].
  - destruct (Z.le_gt_cases (eg_max_tool_iterations eg + 1) 0) as [Hle|Hgt].
    { rewrite seqZ_nil by lia. apply wp_ret. exists 0. split; [lia|apply start_turn_inv]. }
    eapply wp_mono; [apply (wp_for_range _ 0 _ (turn_inv b0 n0)
                             (turn_done b0 n0) (λ _ _, False) (λ _ _, True))| |done].
    + lia.
    + intros i tn w1 Hi Hinv.
      eapply wp_mono; [apply iteration_inv; [exact Hinv|apply (ti_tools _ _ _ _ _ Hinv)]| |done].
      intros [tn'|tn'|[]] w2 Hw2; try done. exists (i + 1). split; [lia|done].
    + apply start_turn_inv.
    + intros [tn|tn|[]] w1 Hw1; try done. exists (eg_max_tool_iterations eg + 1). split; [lia|done].
  - intros f w1 Hf. apply wp_bind.
    apply wp_mono with (turn_done b0 n0) (λ _ _, True); [| |done].
    + destruct f as [tn|tn|[]]; [|by apply wp_ret|done].
      destruct Hf as (i & Hi & Hinv). apply wp_bind. unfold wp at 1, update_state, modify.
      apply wp_ret. exists i. split; [done|]. by destruct Hinv.
    + intros tn w2 (i & Hi & Hinv). apply wp_bind. apply quiet_wp; [quiet_steps| |done].
      intros _ w3 Hq. apply wp_ret. exists i. split; [done|]. by eapply turn_inv_quiet.
Qed.
End loop.

(** ** The record of a turn *)

Section accounting.
Context {X : Type} `{Env} (eg : Engine X) `{!QuietTools eg}.
Hypothesis (Hcalls : 0 ≤ eg_max_tool_calls_per_turn eg).
Context (agent : AgentSpec) (instruction : pyval) (json_mode : bool).

Definition same_counts (b b' : BudgetGuard) : Prop :=
  b_spent b' = b_spent b ∧ b_steps_used b' = b_steps_used b.

(** The record was the last thing a sink wrote. *)
Definition recorded (r : StepRecord) (w : World X) : Prop :=
  match eg_step_sink eg with
  | Some f => ∃ x, f r x = (Ok tt, w_ext w)
  | None => True
  end.

Definition settled (r : StepRecord) (b : BudgetGuard) (n : Z) (w : World X) : Prop :=
  recorded r w ∧ same_counts b (w_budget w) ∧ step_index w = n.

(** Nothing but the clock, the bus and the warning flag moves. *)
Definition fading (w w' : World X) : Prop :=
  w_ext w' = w_ext w ∧ w_state w' = w_state w ∧ same_counts (w_budget w) (w_budget w').
#[local] Instance fading_preorder : PreOrder fading.
Proof.
  split; [by intros w|]. intros w1 w2 w3 (?&?&?&?) (?&?&?&?). repeat split; congruence.
Qed.
#[local] Instance fading_frame : Frame fading.
Proof. split; [tc_solve| | |]; by intros. Qed.

Lemma fading_settled r b n w w' : fading w w' → settled r b n w → settled r b n w'.
Proof.
  unfold settled, recorded, step_index. intros (He & Hst & H1 & H2) (Hr & [H3 H4] & Hn).
  rewrite He, Hst. repeat split; try done; congruence.
Qed.

Lemma warning_fading : steps fading (on_budget (X:=X) take_warning).
Proof.
  apply steps_zoom. intros w. unfold take_warning. destruct (b_warned _); [done|].
  destruct (warn_threshold _); [|done]. by destruct (_ <? _).
Qed.

Lemma sink_recorded r w :
  wp (sink (eg_step_sink eg) r) (λ _ w', settled r (w_budget w) (step_index w) w') (λ _ _, True) w.
Proof.
  unfold sink, settled, recorded. destruct (eg_step_sink eg) as [f|]; [|by apply wp_ret].
  apply wp_bind. apply quiet_wp; [quiet_steps| |done]. intros _ w1 (_ & Hb & Hi).
  unfold wp, on_ext, zoom. destruct (f r (w_ext w1)) as [[[]|e] x] eqn:Hf; [|done].
  simpl. split; [by exists (w_ext w1)|]. unfold same_counts, step_index in *. simpl.
  rewrite Hb. done.
Qed.

Lemma close_turn_settled private_to index started tn w :
  wp (close_turn eg agent instruction private_to index started tn)
     (λ output w', ∃ latency, output = turn_output tn ∧
        settled (step_record agent instruction index tn latency) (w_budget w) (step_index w) w')
     (λ _ _, True) w.
Proof.
  unfold close_turn. apply wp_bind. apply quiet_wp; [quiet_steps| |done]. intros latency w1 (_ & H1 & I1).
  cbv zeta. apply wp_bind. apply quiet_wp; [quiet_steps| |done]. intros _ w2 (_ & H2 & I2).
  apply wp_bind. apply quiet_wp; [apply capture_artifacts_quiet| |done]. intros _ w3 (_ & H3 & I3).
  set (r := step_record agent instruction index tn latency).
  apply wp_bind. eapply wp_mono; [apply sink_recorded| |done]. intros [] w4 Hs.
  cbv beta in Hs. rewrite H3, H2, H1, I3, I2, I1 in Hs.
  assert (Hstep : ∀ {A B} (m : M (World X) exn A) (k : A → M (World X) exn B) Q w',
     settled r (w_budget w) (step_index w) w' → steps fading m →
     (∀ a w'', settled r (w_budget w) (step_index w) w'' → wp (k a) Q (λ _ _, True) w'') →
     wp (m_bind k m) Q (λ _ _, True) w').
  { intros A B m k Q w' Hw' Hm Hk. apply wp_bind. eapply wp_mono; [by apply wp_steps| |done].
    intros a w'' Hf. apply Hk. exact (fading_settled _ _ _ _ _ Hf Hw'). }
  apply Hstep; [done|apply (gets_steps fading)|]. clear w4 Hs. intros b w4 Hs.
  apply Hstep; [done|apply emit_event_steps; tc_solve|]. clear w4 Hs. intros _ w4 Hs.
  apply Hstep; [done|apply warning_fading|]. clear w4 Hs. intros warn w4 Hs.
  apply Hstep; [done| |].
  { destruct warn; [|apply steps_ret; tc_solve].
    apply steps_bind; [tc_solve|apply (gets_steps fading)|]. intros b'.
    apply emit_event_steps; tc_solve. }
  clear w4 Hs. intros _ w4 Hs. apply wp_ret. by exists latency.
Qed.

Lemma refused_raises index e w Q : wp (refused (X:=X) agent index e) Q (λ _ _, True) w.
Proof.
  unfold refused. destruct (is_refusal e); [|done].
  apply wp_bind. apply quiet_wp; [quiet_steps| |done]. intros _ w1 _.
  apply wp_bind. by apply quiet_wp; [quiet_steps| |].
Qed.

(** What a finished turn is charged. *)
Record turn_account (b0 : BudgetGuard) (r : StepRecord) (w : World X) : Prop := {
  ta_agent : sr_agent r = agent;
  ta_instruction : sr_instruction r = instruction;
  ta_index : sr_index r = step_index w;
  ta_cost : sr_cost_microcents r = b_spent (w_budget w) - b_spent b0;
  ta_calls : sr_model_calls r = b_steps_used (w_budget w) - b_steps_used b0;
  ta_bound : 0 ≤ sr_model_calls r ≤ Z.max 0 (eg_max_tool_iterations eg + 1);
  ta_tools : 0 ≤ sr_tool_calls r ≤ sr_model_calls r * eg_max_tool_calls_per_turn eg;
  ta_recorded : recorded r w }.

Lemma call_agent_account private_to w :
  wp (call_agent eg agent instruction json_mode private_to)
     (λ output w', ∃ r, output = sr_output r ∧ turn_account (w_budget w) r w' ∧
        step_index w' = step_index w + 1)
     (λ _ _, True) w.
Proof.
  unfold call_agent, turn_body.
  apply wp_bind. apply quiet_wp; [apply check_budget_quiet| |done].
  intros _ w1 (_ & B1 & I1). apply wp_bind. unfold wp at 1, update_state, modify.
  set (w2 := put_state _ w1). apply wp_bind. unfold wp at 1, gets.
  assert (H1 : w_budget w2 = w_budget w ∧ step_index w2 = step_index w + 1).
  { split; [done|]. unfold step_index in *. simpl. lia. }
  change (st_step_index (w_state w2)) with (step_index w2). rewrite (proj2 H1).
  clearbody w2. clear w1 B1 I1. rename w2 into w1. set (index := step_index w + 1) in *. cbv zeta.
  assert (Hstep : ∀ {A B} (m : M (World X) exn A) (k : A → M (World X) exn B) Q w',
     w_budget w' = w_budget w ∧ step_index w' = index → steps quiet m →
     (∀ a w'', w_budget w'' = w_budget w ∧ step_index w'' = index → wp (k a) Q (λ _ _, True) w'') →
     wp (m_bind k m) Q (λ _ _, True) w').
  { intros A B m k Q w' [Hw' Hi] Hm Hk. apply wp_bind. apply quiet_wp; [done| |done].
    intros a w'' (_ & Hb & Hi'). apply Hk. split; congruence. }
  apply Hstep; [done|first [apply (gets_steps quiet)|quiet_steps]|]. clear w1 H1. intros _ w1 H1.
  apply Hstep; [done|first [apply (gets_steps quiet)|quiet_steps]|]. clear w1 H1. intros state w1 H1.
  apply Hstep; [done|first [apply (gets_steps quiet)|quiet_steps]|]. clear w1 H1. intros message w1 H1.
  apply Hstep; [done|apply steps_modify; intros; apply (frame_buffer (R:=quiet))|].
  clear w1 H1. intros _ w1 H1.
  apply Hstep; [done|first [apply (gets_steps quiet)|quiet_steps]|]. clear w1 H1. intros started w1 [H1 J1].
  apply wp_bind. rewrite wp_catch.
  eapply wp_mono; [apply (model_loop_inv eg Hcalls agent instruction json_mode)| |].
  - intros tn w2 (i & Hi & [T1 T2 T3 T4 T5 T6]).
    eapply wp_mono; [apply close_turn_settled| |done].
    intros output w3 (latency & -> & (Hrec & [Hs1 Hs2] & Hn)). rewrite H1 in T2, T3.
    rewrite T6, J1 in Hn. exists (step_record agent instruction index tn latency).
    split; [reflexivity|]. split; [|exact Hn]. split; simpl; try done; lia.
  - intros e w2 _. apply refused_raises.
Qed.

(** C3: the record of a turn is exact: when an agent's turn returns, the record
    handed to the sink (and nothing after it writes to the sink) has the turn's
    output, the number of model calls and the cost are precisely what the budget
    was charged since the turn began, and neither the model calls nor the tool
    calls exceed the engine's limits. *)
Theorem turn_account_exact private_to w output w' :
  call_agent eg agent instruction json_mode private_to w = (Ok output, w') →
  ∃ r, output = sr_output r ∧ turn_account (w_budget w) r w' ∧
       step_index w' = step_index w + 1.
Proof.
  intros Heq. pose proof (call_agent_account private_to w) as Hw. unfold wp in Hw.
  by rewrite Heq in Hw.
Qed.
End accounting.

(** C4: tool results go back to the model in the order of its requests, each with
    the id and the name of its call, for every interleaving of the concurrent
    tools that the scheduler can choose. *)
Theorem tool_results_answer_calls {X} `{Env} (eg : Engine X) by_name agent index offset calls w results w' :
  run_tools eg by_name agent index offset calls w = (Ok results, w') →
  Forall2 answers calls results.
Proof.
  intros Heq. pose proof (run_tools_returns eg by_name agent index offset calls w) as Hr.
  by rewrite Heq in Hr.
Qed.

(** ** Witnesses: a turn with one tool call, then an answer *)

Definition demo_tool_reply (n : nat) (rq : CompletionRequest) : list pystr * res exn LLMResult :=
  match n with
  | O => ([], Ok (demo_result (u "Looking.") [mkCall (u "c1") (u "list_artifacts") [];
                                              mkCall (u "c2") (u "read_file") []]))
  | _ => ([u "Done."], Ok (demo_result (u "Done.") []))
  end.
#[local] Instance tool_env : Env := demo_env demo_tool_reply.

Definition demo_engine : Engine (list StepRecord) := {|
  eg_step_sink := Some (λ r, modify (λ l, l ++ [r]));
  eg_artifact_sink := None;
  eg_tool_call_sink := None;
  eg_tool_resolver := λ _, [ListArtifacts; ReadArtifact];
  eg_markup := λ z, Ok z;
  eg_cancel_check := true;
  eg_max_board_chars := 400000;
  eg_step_timeout := 600 * fl_one;
  eg_max_tool_iterations := 8;
  eg_max_tool_calls_per_turn := 6;
  eg_stream_tokens := true;
  eg_max_attempts := 3 |}.

Definition demo_run_world : World (list StepRecord) :=
  mkWorld (new_state (u "go")) (set_warned demo_budget) empty_bus (new_buffer 1) demo_router (mkClock 0 false true) [].

#[local] Instance demo_engine_quiet : QuietTools demo_engine.
Proof.
  intros agent t arguments context Ht Hc. change (t ∈ [ListArtifacts; ReadArtifact]) in Ht.
  rewrite !elem_of_cons, elem_of_nil in Ht. destruct Ht as [->|[->|[]]].
  - exact (ListArtifacts_quiet arguments context Hc).
  - exact (ReadArtifact_quiet arguments context Hc).
Qed.

Lemma turn_account_exact_witness :
  ∃ output w', call_agent demo_engine demo_agent (VStr (u "Do it.")) false None demo_run_world = (Ok output, w') ∧
    ∃ r, output = sr_output r ∧
         turn_account demo_engine demo_agent (VStr (u "Do it.")) (w_budget demo_run_world) r w' ∧
         step_index w' = step_index demo_run_world + 1.
Proof.
  assert (Hok : is_ok (call_agent demo_engine demo_agent (VStr (u "Do it.")) false None demo_run_world).1 = true)
    by (vm_compute; reflexivity).
  destruct (call_agent demo_engine demo_agent (VStr (u "Do it.")) false None demo_run_world)
    as [[output|e] w'] eqn:Heq; [|discriminate Hok].
  exists output, w'. split; [reflexivity|].
  assert (H6 : 0 ≤ eg_max_tool_calls_per_turn demo_engine) by (simpl; lia).
  exact (turn_account_exact demo_engine H6 demo_agent (VStr (u "Do it.")) false None _ _ _ Heq).
Defined.

Definition demo_calls : list ToolCallRequest :=
  [mkCall (u "c1") (u "list_artifacts") []; mkCall (u "c2") (u "read_file") []].

Lemma tool_results_answer_calls_witness :
  ∃ results w', run_tools demo_engine (tools_by_name [ListArtifacts]) demo_agent 1 0 demo_calls demo_run_world
                = (Ok results, w') ∧ Forall2 answers demo_calls results.
Proof.
  assert (Hok : is_ok (run_tools demo_engine (tools_by_name [ListArtifacts]) demo_agent 1 0 demo_calls
                         demo_run_world).1 = true) by (vm_compute; reflexivity).
  destruct (run_tools demo_engine (tools_by_name [ListArtifacts]) demo_agent 1 0 demo_calls demo_run_world)
    as [[results|e] w'] eqn:Heq; [|discriminate Hok].
  exists results, w'. split; [reflexivity|]. exact (tool_results_answer_calls _ _ _ _ _ _ _ _ _ Heq).
Defined.

(** The run of the turn: two model calls, two tool calls, one record. *)
Lemma demo_turn :
  map (λ r, (sr_model_calls r, sr_tool_calls r))
    (w_ext (call_agent demo_engine demo_agent (VStr (u "Do it.")) false None demo_run_world).2)
  = [(2, 2)].
Proof. vm_compute. reflexivity. Qed.
