(* ===== verification/Workflow.v ===== *)
(** * Workflow graphs (src/core/orchestration/presets.py, the validators)

    A workflow graph is the JSON value a user saved, so every access to it goes
    through Python's dynamic rules: what can be iterated, subscripted or hashed,
    and which exception the rest raises.  [validate_graph] is what the API calls
    when a workflow is saved. *)

From S2P Require Import Prelude PyStr PyFloat PyVal State.

(** ** Dynamic accesses *)

Definition type_name (v : pyval) : pystr :=
  match v with
  | VNone => u "NoneType" | VBool _ => u "bool" | VInt _ => u "int" | VFloat _ => u "float"
  | VStr _ => u "str" | VList _ => u "list" | VDict _ => u "dict"
  end.

(** [list(v)]: a dict gives its keys, a string its characters. *)
Definition py_iter (v : pyval) : res exn (list pyval) :=
  match v with
  | VList l => Ok l
  | VDict d => Ok (map (λ kv, VStr kv.1) d)
  | VStr s => Ok (map (λ c, VStr [c]) s)
  | _ => Err (TypeError (u "'" ++ type_name v ++ u "' object is not iterable"))
  end.

(** [v.get(k)] *)
Definition attr_get (v : pyval) : res exn (list (pystr * pyval)) :=
  match v with
  | VDict d => Ok d
  | _ => Err (AttributeError (u "'" ++ type_name v ++ u "' object has no attribute 'get'"))
  end.

Definition not_hashable (v : pyval) : exn := TypeError (u "unhashable type: '" ++ type_name v ++ u "'").
Definition hashable (v : pyval) : bool :=
  match v with VList _ | VDict _ => false | _ => true end.
Definition hashed (v : pyval) : res exn pyval := if hashable v then Ok v else Err (not_hashable v).

(** [a == b] for hashable values: numbers compare by value, whatever their type. *)
Definition numeric (v : pyval) : option Z :=
  match v with
  | VBool b => Some (if b then fl_one else 0)
  | VInt z => Some (z * fl_one)
  | VFloat (FFin z) => Some z
  | VFloat FNegZero => Some 0
  | _ => None
  end.
Definition key_eqb (a b : pyval) : bool :=
  match numeric a, numeric b with
  | Some x, Some y => x =? y
  | None, None =>
      match a, b with
      | VNone, VNone => true
      | VStr s, VStr t => bool_decide (s = t)
      | VFloat f, VFloat g => bool_decide (f = g)
      | _, _ => false
      end
  | _, _ => false
  end.

(** Dicts and sets whose keys are any hashable values, in insertion order. *)
Fixpoint kassoc {V} (k : pyval) (d : list (pyval * V)) : option V :=
  match d with
  | [] => None
  | (k', v) :: d' => if key_eqb k k' then Some v else kassoc k d'
  end.
Fixpoint kset {V} (k : pyval) (v : V) (d : list (pyval * V)) : list (pyval * V) :=
  match d with
  | [] => [(k, v)]
  | (k', v') :: d' => if key_eqb k k' then (k', v) :: d' else (k', v') :: kset k v d'
  end.
Definition key_mem (k : pyval) (l : list pyval) : bool := existsb (key_eqb k) l.

(** [v[key]] of a graph item, with a constant string key *)
Definition subscript (v : pyval) (key : string) : res exn pyval :=
  match v with
  | VDict d => match assoc (u key) d with Some x => Ok x | None => Err (KeyError (u key)) end
  | VStr _ => Err (TypeError (u "string indices must be integers, not 'str'"))
  | VList _ => Err (TypeError (u "list indices must be integers or slices, not str"))
  | _ => Err (TypeError (u "'" ++ type_name v ++ u "' object is not subscriptable"))
  end.

Section graph.
Context `{PyTables}.

Definition Graph : Type := list (pystr * pyval).
Definition AgentMap : Type := list (pystr * AgentSpec).

Definition config_error {A} (msg : pystr) : res exn A := Err (WorkflowConfigError msg).

(** [value in (None, "", [], {})] *)
Definition is_missing (v : pyval) : bool :=
  match v with VNone | VStr [] | VList [] | VDict [] => true | _ => false end.

(** [_require] *)
Definition require_key (graph : Graph) (key : string) : res exn pyval :=
  let value := dict_get graph (u key) in
  if is_missing value
  then config_error (u "workflow graph is missing required key " ++ repr_str (u key))
  else Ok value.

(** [_agent] *)
Definition lookup_agent (agents : AgentMap) (agent_id : pyval) (what : pystr) : res exn AgentSpec :=
  id ← hashed agent_id;
  match (match id with VStr s => assoc s agents | _ => None end) with
  | Some a => Ok a
  | None => config_error (what ++ u " references agent " ++ repr agent_id
                            ++ u ", which does not exist or is inactive")
  end.

(** [_bounded]: an infinite float raises an [OverflowError], which is not caught. *)
Definition bounded (value : pyval) (default low high : Z) (name : string) : res exn Z :=
  number ← (match value with
            | VNone => Ok default
            | _ => match py_int value with
                   | Err (OverflowError m) => Err (OverflowError m)
                   | Err _ => config_error (u name ++ u " must be an integer")
                   | Ok z => Ok z
                   end
            end);
  if (low <=? number) && (number <=? high) then Ok number
  else config_error (u name ++ u " must be between " ++ str_of_Z low ++ u " and " ++ str_of_Z high).

Definition max_rounds_of (graph : Graph) := bounded (dict_get graph (u "max_rounds")) 6 1 30 "max_rounds".
Definition rounds_of (graph : Graph) := bounded (dict_get graph (u "rounds")) 2 1 6 "rounds".
Definition max_tasks_of (graph : Graph) := bounded (dict_get graph (u "max_tasks")) 8 1 25 "max_tasks".
Definition swarm_hops_of (graph : Graph) := bounded (dict_get graph (u "max_hops")) 8 1 30 "max_hops".
Definition custom_hops_of (graph : Graph) := bounded (dict_get graph (u "max_hops")) 20 1 60 "max_hops".

(** ** The validators *)

Definition the_list (v : pyval) (message : string) : res exn (list pyval) :=
  match v with VList l => Ok l | _ => config_error (u message) end.

(** [node.get("agent_id")] of an item that must be a dict with one *)
Definition node_field (node : pyval) (key : string) : option pyval :=
  match node with
  | VDict d => let v := dict_get d (u key) in if truthy v then Some v else None
  | _ => None
  end.

Fixpoint pipeline_ids (position : Z) (nodes : list pyval) : res exn (list pyval) :=
  match nodes with
  | [] => Ok []
  | node :: rest =>
      match node_field node "agent_id" with
      | None => config_error (u "pipeline node #" ++ str_of_Z position ++ u " needs an agent_id")
      | Some id => ids ← pipeline_ids (position + 1) rest; Ok (id :: ids)
      end
  end.

Definition validate_pipeline (graph : Graph) : res exn (list pyval) :=
  v ← require_key graph "nodes";
  nodes ← the_list v "pipeline `nodes` must be a list";
  pipeline_ids 0 nodes.

Definition validate_supervisor (graph : Graph) : res exn (list pyval) :=
  supervisor ← require_key graph "supervisor_agent_id";
  v ← require_key graph "workers";
  workers ← the_list v "supervisor `workers` must be a list";
  _ ← max_rounds_of graph;
  Ok (supervisor :: workers).

Definition validate_debate (graph : Graph) : res exn (list pyval) :=
  v ← require_key graph "debaters";
  judge ← require_key graph "judge_agent_id";
  let error := u "a debate needs at least two debaters" in
  debaters ← (match v with
              | VList l => if py_len l <? 2 then config_error error else Ok l
              | _ => config_error error
              end);
  _ ← rounds_of graph;
  Ok (debaters ++ [judge]).

Definition validate_blackboard (graph : Graph) : res exn (list pyval) :=
  planner ← require_key graph "planner_agent_id";
  v ← require_key graph "workers";
  workers ← the_list v "blackboard `workers` must be a list";
  _ ← max_tasks_of graph;
  Ok (planner :: workers).

Definition validate_swarm (graph : Graph) : res exn (list pyval) :=
  entry ← require_key graph "entry_agent_id";
  v ← require_key graph "agents";
  roster ← the_list v "swarm `agents` must be a list";
  _ ← swarm_hops_of graph;
  Ok (entry :: roster).

(** [node.get("type", "agent")] *)
Definition node_type (d : list (pystr * pyval)) : pyval :=
  match assoc (u "type") d with Some v => v | None => VStr (u "agent") end.
Definition is_type (d : list (pystr * pyval)) (name : string) : bool :=
  key_eqb (node_type d) (VStr (u name)).

(** The loop of [validate_custom] over the nodes: the ids seen and the agents. *)
Fixpoint custom_nodes (position : Z) (node_ids agent_ids : list pyval) (nodes : list pyval)
    : res exn (list pyval * list pyval) :=
  match nodes with
  | [] => Ok (node_ids, agent_ids)
  | node :: rest =>
      match node, node_field node "id" with
      | VDict d, Some id =>
          id ← hashed id;
          if key_mem id node_ids then config_error (u "duplicate node id " ++ repr id)
          else if is_type d "agent" || is_type d "router" then
            match node_field node "agent_id" with
            | None => config_error (u "node " ++ repr id ++ u " needs an agent_id")
            | Some agent_id =>
                custom_nodes (position + 1) (node_ids ++ [id]) (agent_ids ++ [agent_id]) rest
            end
          else custom_nodes (position + 1) (node_ids ++ [id]) agent_ids rest
      | _, _ => config_error (u "custom node #" ++ str_of_Z position ++ u " needs an id")
      end
  end.

(** The loop of [validate_custom] over the edges. *)
Definition check_edge (node_ids : list pyval) (edge : pyval) : res exn unit :=
  match edge with
  | VDict d =>
      match assoc (u "from") d, assoc (u "to") d with
      | Some from, Some to =>
          from ← hashed from;
          if negb (key_mem from node_ids)
          then config_error (u "edge starts at unknown node " ++ repr from)
          else
            to ← hashed to;
            if negb (key_mem to node_ids) && negb (key_eqb to (VStr (u "end")))
            then config_error (u "edge points at unknown node " ++ repr to)
            else Ok tt
      | _, _ => config_error (u "every edge needs `from` and `to`")
      end
  | _ => config_error (u "every edge needs `from` and `to`")
  end.

Definition edges_of (graph : Graph) : res exn (list pyval) :=
  py_iter (py_or (dict_get graph (u "edges")) (VList [])).

Definition validate_custom (graph : Graph) : res exn (list pyval) :=
  v ← require_key graph "nodes";
  s ← require_key graph "start";
  let start := str_of s in
  nodes ← the_list v "custom `nodes` must be a list";
  ids ← custom_nodes 0 [] [] nodes;
  _ ← (if key_mem (VStr start) ids.1 then Ok tt
       else config_error (u "start node " ++ repr_str start ++ u " is not in `nodes`"));
  edges ← edges_of graph;
  _ ← res_mapM (check_edge ids.1) edges;
  _ ← custom_hops_of graph;
  Ok ids.2.

(** ** The registry *)

Definition PRESET_NAMES : list pystr :=
  [u "pipeline"; u "supervisor"; u "debate"; u "blackboard"; u "swarm"; u "custom"].

Definition VALIDATORS : list (pystr * (Graph → res exn (list pyval))) :=
  [(u "pipeline", validate_pipeline); (u "supervisor", validate_supervisor);
   (u "debate", validate_debate); (u "blackboard", validate_blackboard);
   (u "swarm", validate_swarm); (u "custom", validate_custom)].

Definition unknown_preset {A} (name : pystr) : res exn A :=
  config_error (u "unknown preset " ++ repr_str name ++ u "; available presets: "
                  ++ join (u ", ") PRESET_NAMES).

Definition validate_graph (preset : pystr) (graph : Graph) : res exn (list pyval) :=
  match assoc preset VALIDATORS with
  | None => unknown_preset preset
  | Some validate =>
      agent_ids ← validate graph;
      _ ← bounded (dict_get graph (u "max_steps")) 20 1 200 "max_steps";
      _ ← bounded (dict_get graph (u "max_cost_cents")) 100 1 100000 "max_cost_cents";
      Ok agent_ids
  end.
End graph.
