(* ===== verification/Presets.v ===== *)
(** * Topology presets (src/core/orchestration/presets.py, the runs)

    Each preset decides which agent speaks next and what it is told; the engine
    does the rest.  The runs are written over the engine's world, one loop per
    loop of the code, the dynamic accesses of the graph as in [Workflow].  The
    [while] of the blackboard takes fuel; [PresetRuns] shows that one unit per task
    is enough. *)

From S2P Require Import Prelude PyStr PyFloat PyVal PyRegex PyJson Artifacts Config State Budget.
From S2P Require Import Registry Providers Pricing Keys Events World Router ToolBase ToolArtifacts.
From S2P Require Import ToolRegistry Engine Workflow.

(** A text in which [~] stands for a double quote. *)
Definition uq (s : string) : pystr := map (λ c : N, if decide (c = 126%N) then 34%N else c) (u s).

(** ** The prompts *)

Definition DEFAULT_FIRST : pystr := u "Start the work. Produce the deliverable for your role.".
Definition DEFAULT_NEXT : pystr := u "Take the previous agent's output and do your part of the job. If you find problems, fix them and say what you changed and why.".

Definition SUPERVISOR_PROMPT (roster : pystr) : pystr :=
  u "Decide the team's next action.

Workers you can delegate to:
" ++ roster ++ uq "

Reply with one JSON object and nothing else:
  {~action~: ~delegate~, ~worker~: ~<worker id>~, ~task~: ~<precise instruction>~}
  {~action~: ~finish~, ~answer~: ~<the complete final answer for the user>~}

Delegate only when a worker can make real progress; give them everything they
need in `task`, since they cannot ask you follow-up questions. Finish as soon as
the original request is fully satisfied — do not delegate busywork.".

Definition SUPERVISOR_FINAL : pystr := u "The round budget is spent. Write the final answer for the user from what is on the board. Do not delegate further. If the task is incomplete, say plainly what is missing.".

Definition DEBATE_OPENING : pystr := u "Give your answer to the original request, with the reasoning that supports it. Be specific enough to be checked.".
Definition DEBATE_REBUTTAL : pystr := u "Read the other positions on the board. Attack the weakest point you can actually justify, then restate your own position — revised if they changed your mind.".
Definition JUDGE_PROMPT : pystr := u "You are the judge. Weigh the positions on the board and write the single best answer for the user. Name briefly which argument decided it and why the others fell short.".

Definition PLANNER_PROMPT (roster max_tasks : pystr) : pystr :=
  u "Break the request into independent tasks for the team.

Available workers:
" ++ roster ++ uq "

Reply with one JSON object and nothing else:
  {~tasks~: [
      {~id~: ~t1~, ~title~: ~...~, ~worker~: ~<worker id>~, ~depends_on~: []},
      ...
  ]}

Rules: at most " ++ max_tasks ++ u " tasks; `depends_on` lists ids of tasks that must
finish first; assign each task to the worker whose role fits it. Prefer few
substantial tasks over many trivial ones.".
Definition SYNTHESIS_PROMPT : pystr := u "Every task is done. Write the final answer for the user, drawing on the whole
board. Do not summarise the process — deliver the result.".

Definition SWARM_PROMPT (roster : pystr) : pystr :=
  u "Do your part of the work, then decide what happens next.

Agents you can hand off to:
" ++ roster ++ uq "

Reply with one JSON object and nothing else:
  {~work~: ~<your contribution, in full>~,
    ~handoff_to~: ~<agent id>~ or null,
    ~reason~: ~<why you are handing off, or why the work is complete>~}

Set `handoff_to` to null only when the original request is fully answered. Never
hand off to yourself.".
Definition SWARM_FINAL : pystr := u "The hand-off budget is spent. Write the final answer for the user from what is on the board. Do not hand off. If the task is incomplete, say plainly what is missing.".

Definition ROUTER_PROMPT (options : pystr) : pystr :=
  u "Choose the next step.

Options:
" ++ options ++ uq "

Reply with one JSON object and nothing else:
  {~next~: ~<option id>~, ~reason~: ~<one sentence>~}

Pick ~end~ only when the original request is fully answered.".

(** ** Helpers of the runs *)

Definition enumerate {A} (l : list A) : list (Z * A) := imap (λ i x, (Z.of_nat i, x)) l.

(** [d.get(k, default)] *)
Definition get_or (d : list (pystr * pyval)) (k : string) (default : pyval) : pyval :=
  match assoc (u k) d with Some v => v | None => default end.

Section members.
Context `{PyTables}.

(** [{id: _agent(agents, id, what=...) for id in value}] *)
Definition member (agents : AgentMap) (what : pystr) (id : pyval) : res exn (pystr * AgentSpec) :=
  a ← lookup_agent agents id what; Ok (str_of id, a).
Definition members (agents : AgentMap) (what : pystr) (value : pyval) : res exn AgentMap :=
  ids ← py_iter value;
  l ← res_mapM (member agents what) ids;
  Ok (assoc_of_list l).

Definition roster_line (m : pystr * AgentSpec) : pystr :=
  u "- " ++ m.1 ++ u ": " ++ ag_name m.2 ++ u " — " ++ ag_role m.2.
Definition roster_text (ms : AgentMap) : pystr := join [10%N] (map roster_line ms).

(** ** Tasks of the blackboard *)

Record Task := mkTask { tk_id : pystr; tk_title : pystr; tk_worker : pystr; tk_depends_on : list pystr }.

#[global] Instance Task_eq_dec : EqDecision Task.
Proof. solve_decision. Defined.

Definition task_value (t : Task) : pyval :=
  VDict [(u "id", VStr (tk_id t)); (u "title", VStr (tk_title t)); (u "worker", VStr (tk_worker t));
         (u "depends_on", VList (map VStr (tk_depends_on t)))].

(** [isinstance(d, str | int)]: a bool is an int. *)
Definition is_str_or_int (d : pyval) : bool :=
  match d with VStr _ | VInt _ | VBool _ => true | _ => false end.

Definition task_of (workers : AgentMap) (fallback task_id : pystr) (item : list (pystr * pyval))
    : res exn Task :=
  let worker := str_of (py_or (dict_get item (u "worker")) (VStr [])) in
  let worker := if has_key workers worker then worker else fallback in
  depends ← py_iter (py_or (dict_get item (u "depends_on")) (VList []));
  Ok (mkTask task_id (str_of (py_or (dict_get item (u "title")) (VStr (u "Untitled task")))) worker
        (map str_of (List.filter is_str_or_int depends))).

(** The loop of [_normalise_tasks] over the items of the plan. *)
Fixpoint collect_tasks (workers : AgentMap) (fallback : pystr) (position : Z) (tasks : list Task)
    (seen : list pystr) (items : list pyval) : res exn (list Task) :=
  match items with
  | [] => Ok tasks
  | VDict item :: rest =>
      let task_id := str_of (py_or (dict_get item (u "id")) (VStr (u "t" ++ str_of_Z (position + 1)))) in
      if bool_decide (task_id ∈ seen) then collect_tasks workers fallback (position + 1) tasks seen rest
      else
        t ← task_of workers fallback task_id item;
        collect_tasks workers fallback (position + 1) (tasks ++ [t]) (task_id :: seen) rest
  | _ :: rest => collect_tasks workers fallback (position + 1) tasks seen rest
  end.

(** Drop the dependencies on tasks that were filtered out, and on itself. *)
Definition prune_depends (known : list pystr) (t : Task) : Task :=
  mkTask (tk_id t) (tk_title t) (tk_worker t)
    (List.filter (λ d, bool_decide (d ∈ known) && negb (bool_decide (d = tk_id t))) (tk_depends_on t)).

Definition normalise_tasks (raw : pyval) (workers : AgentMap) (max_tasks : Z) : res exn (list Task) :=
  match raw with
  | VList items =>
      match workers with
      | [] => Err (ExternalError (u "RuntimeError") (u "coroutine raised StopIteration"))
      | (fallback, _) :: _ =>
          tasks ← collect_tasks workers fallback 0 [] [] (slice_to max_tasks items);
          Ok (map (prune_depends (map tk_id tasks)) tasks)
      end
  | _ => Ok []
  end.

Definition is_ready (done : list pystr) (t : Task) : bool :=
  forallb (λ d, bool_decide (d ∈ done)) (tk_depends_on t).

(** The tasks of one pass of the [while]. *)
Definition ready_tasks (done : list pystr) (pending : list Task) : list Task :=
  match List.filter (is_ready done) pending with
  | [] => take 1 pending
  | ready => ready
  end.

(** [pending.remove(task)] *)
Fixpoint remove_task (t : Task) (pending : list Task) : list Task :=
  match pending with
  | [] => []
  | t' :: rest => if decide (t' = t) then rest else t' :: remove_task t rest
  end.

Definition task_prompt (t : Task) : pystr :=
  u "Task " ++ tk_id t ++ u ": " ++ tk_title t ++ blank_line
    ++ u "Complete this task and nothing else. Other agents are handling the remaining tasks in parallel.".
End members.

(** ** The runs *)

Section runs.
Context {X : Type} `{Env} (eg : Engine X).
Abbreviation IO A := (M (World X) exn A).

Definition turn (agent : AgentSpec) (instruction : pyval) : IO pystr :=
  call_agent eg agent instruction false None.
Definition ask (agent : AgentSpec) (instruction : pystr) (required : string)
    : IO (list (pystr * pyval)) :=
  call_agent_json eg agent (VStr instruction) [u required] 1.

Definition set_output (o : RunState → pystr) : IO unit :=
  update_state (λ s, set_final_output (o s) s).

(** [decision.get(k) or state.last_output()], as text *)
Definition answer_or_last (decision : list (pystr * pyval)) (k : string) (s : RunState) : pystr :=
  str_of (py_or (dict_get decision (u k)) (VStr (last_output s))).

Section preset.
Context (graph : Graph) (agents : AgentMap).

Definition require_agent (key : string) : IO AgentSpec :=
  lift_res (id ← require_key graph key; lookup_agent agents id (u key)).

Definition require_members (key : string) (what : string) : IO AgentMap :=
  lift_res (v ← require_key graph key; members agents (u what) v).

(** *** Pipeline *)

Definition pipeline_node (pn : Z * pyval) : IO unit :=
  node ← lift_res (attr_get pn.2);
  agent ← lift_res (lookup_agent agents (dict_get node (u "agent_id"))
                      (u "pipeline node #" ++ str_of_Z pn.1));
  let default := if pn.1 =? 0 then DEFAULT_FIRST else DEFAULT_NEXT in
  _ ← turn agent (py_or (dict_get node (u "instruction")) (VStr default));
  m_ret tt.

Definition run_pipeline : IO unit :=
  nodes ← lift_res (v ← require_key graph "nodes"; py_iter v);
  _ ← m_iter pipeline_node (enumerate nodes);
  set_output last_output.

(** *** Supervisor *)

Definition supervisor_round (supervisor : AgentSpec) (workers : AgentMap) (_ : Z) (_ : unit)
    : IO (flow unit unit) :=
  decision ← ask supervisor (SUPERVISOR_PROMPT (roster_text workers)) "action";
  let action := lower (str_of (get_or decision "action" (VStr []))) in
  if bool_decide (action = u "finish") then
    _ ← set_output (answer_or_last decision "answer");
    m_ret (Return tt)
  else
    let worker_id := str_of (get_or decision "worker" (VStr [])) in
    match assoc worker_id workers with
    | None =>
        _ ← update_state (append supervisor
              (u "(routing error: " ++ repr_str worker_id ++ u " is not a valid worker id; valid ids are "
                 ++ repr_strs (sorted_strs workers.*1) ++ u ")") None);
        m_ret (Next tt)
    | Some worker =>
        let task := str_of (py_or (dict_get decision (u "task")) (VStr (u "Continue the work."))) in
        _ ← turn worker (VStr task);
        m_ret (Next tt)
    end.

Definition run_supervisor : IO unit :=
  supervisor ← require_agent "supervisor_agent_id";
  workers ← require_members "workers" "supervisor worker";
  max_rounds ← lift_res (max_rounds_of graph);
  out ← for_loop (seqZ 0 max_rounds) (supervisor_round supervisor workers) tt;
  match out with
  | Return _ => m_ret tt
  | _ =>
      _ ← update_state (set_note (u "exhausted") (VStr (u "supervisor round budget")));
      output ← turn supervisor (VStr SUPERVISOR_FINAL);
      set_output (λ _, output)
  end.

(** *** Debate *)

Definition debate_round (debaters : list AgentSpec) (round_no : Z) : IO unit :=
  m_iter (λ debater,
    _ ← turn debater (VStr (if round_no =? 0 then DEBATE_OPENING else DEBATE_REBUTTAL));
    m_ret tt) debaters.

Definition run_debate : IO unit :=
  debaters ← lift_res (v ← require_key graph "debaters"; ids ← py_iter v;
                       res_mapM (λ id, lookup_agent agents id (u "debater")) ids);
  judge ← require_agent "judge_agent_id";
  rounds ← lift_res (rounds_of graph);
  _ ← m_iter (debate_round debaters) (seqZ 0 rounds);
  output ← turn judge (VStr JUDGE_PROMPT);
  set_output (λ _, output).

(** *** Blackboard *)

(** One task, in the [for task in ready] loop. *)
Definition run_task (workers : AgentMap) (t : Task) : IO unit :=
  worker ← lift_res (match assoc (tk_worker t) workers with
                     | Some a => Ok a
                     | None => Err (KeyError (tk_worker t))
                     end);
  _ ← turn worker (VStr (task_prompt t));
  m_ret tt.

Fixpoint run_ready (workers : AgentMap) (ready : list Task) (st : list pystr * list Task)
    : IO (list pystr * list Task) :=
  match ready with
  | [] => m_ret st
  | t :: rest =>
      _ ← run_task workers t;
      run_ready workers rest (tk_id t :: st.1, remove_task t st.2)
  end.

(** [while pending: ...]; running out of fuel is an error no code raises. *)
Fixpoint work_loop (fuel : nat) (workers : AgentMap) (st : list pystr * list Task) : IO unit :=
  match st.2, fuel with
  | [], _ => m_ret tt
  | _, O => raise (ExternalError (u "OutOfFuel") [])
  | pending, S fuel =>
      st' ← run_ready workers (ready_tasks st.1 pending) st;
      work_loop fuel workers st'
  end.

Definition run_blackboard : IO unit :=
  planner ← require_agent "planner_agent_id";
  workers ← require_members "workers" "blackboard worker";
  max_tasks ← lift_res (max_tasks_of graph);
  plan ← ask planner (PLANNER_PROMPT (roster_text workers) (str_of_Z max_tasks)) "tasks";
  tasks ← lift_res (normalise_tasks (dict_get plan (u "tasks")) workers max_tasks);
  _ ← lift_res (match tasks with
                | [] => config_error (u "planner produced no usable tasks")
                | _ => Ok tt
                end);
  _ ← update_state (set_note (u "tasks") (VList (map task_value tasks)));
  _ ← work_loop (length tasks) workers ([], tasks);
  output ← turn planner (VStr SYNTHESIS_PROMPT);
  set_output (λ _, output).
(** *** Swarm *)

Definition swarm_done (decision : list (pystr * pyval)) (visits : list pystr) (invalid : option pystr)
    (s : RunState) : RunState :=
  let s1 := set_final_output (answer_or_last decision "work" s) s in
  let s2 := set_note (u "path") (VList (map VStr visits)) s1 in
  match invalid with
  | None => s2
  | Some id => set_note (u "invalid_handoff") (VStr id) s2
  end.

(** The loop carries the current agent and the ids visited. *)
Definition swarm_hop (swarm : AgentMap) (_ : Z) (st : AgentSpec * list pystr)
    : IO (flow (AgentSpec * list pystr) unit) :=
  let '(current, visits) := st in
  let roster := roster_text (List.filter (λ m, negb (bool_decide (m.1 = ag_id current))) swarm) in
  decision ← ask current (SWARM_PROMPT roster) "work";
  let visits := visits ++ [ag_id current] in
  let next := dict_get decision (u "handoff_to") in
  if negb (truthy next) then
    _ ← update_state (swarm_done decision visits None);
    m_ret (Return tt)
  else
    let next_id := str_of next in
    match assoc next_id swarm with
    | Some agent =>
        if bool_decide (next_id = ag_id current) then
          _ ← update_state (swarm_done decision visits (Some next_id));
          m_ret (Return tt)
        else m_ret (Next (agent, visits))
    | None =>
        _ ← update_state (swarm_done decision visits (Some next_id));
        m_ret (Return tt)
    end.

Definition run_swarm : IO unit :=
  entry ← require_agent "entry_agent_id";
  roster ← require_members "agents" "swarm agent";
  let swarm := if has_key roster (ag_id entry) then roster else assoc_set (ag_id entry) entry roster in
  max_hops ← lift_res (swarm_hops_of graph);
  out ← for_loop (seqZ 0 max_hops) (swarm_hop swarm) (entry, []);
  match out with
  | Return _ => m_ret tt
  | Next (current, visits) | Break (current, visits) =>
      _ ← update_state (λ s, set_note (u "path") (VList (map VStr visits))
                               (set_note (u "exhausted") (VStr (u "swarm hop budget")) s));
      output ← turn current (VStr SWARM_FINAL);
      set_output (λ _, output)
  end.

(** *** Custom graph *)

Definition Nodes : Type := list (pyval * list (pystr * pyval)).

(** [{node["id"]: node for node in ...}] *)
Definition load_node (node : pyval) : res exn (pyval * list (pystr * pyval)) :=
  id ← subscript node "id"; id ← hashed id; d ← attr_get node; Ok (id, d).
Definition load_nodes (value : pyval) : res exn Nodes :=
  items ← py_iter value;
  l ← res_mapM load_node items;
  Ok (fold_left (λ d kv, kset kv.1 kv.2 d) l []).

(** [outgoing.setdefault(edge["from"], []).append(edge["to"])], edge by edge *)
Definition load_edge (edge : pyval) : res exn (pyval * pyval) :=
  from ← subscript edge "from"; from ← hashed from; to ← subscript edge "to"; Ok (from, to).
Definition add_edge (outgoing : list (pyval * list pyval)) (e : pyval * pyval)
    : list (pyval * list pyval) :=
  kset e.1 (default [] (kassoc e.1 outgoing) ++ [e.2]) outgoing.
Definition load_edges : res exn (list (pyval * list pyval)) :=
  edges ← edges_of graph;
  l ← res_mapM load_edge edges;
  Ok (fold_left add_edge l []).

Definition END : pyval := VStr (u "end").

(** [_describe(nodes.get(target), agents)] *)
Definition describe (nodes : Nodes) (target : pyval) : res exn pystr :=
  target ← hashed target;
  match kassoc target nodes with
  | None => Ok (u "unknown node")
  | Some d =>
      id ← hashed (get_or d "agent_id" (VStr []));
      let agent := match id with VStr s => assoc s agents | _ => None end in
      Ok (str_of (py_or (dict_get d (u "label"))
                    (match agent with
                     | Some a => VStr (ag_name a ++ u " (" ++ ag_role a ++ u ")")
                     | None => dict_get d (u "type")
                     end)))
  end.

Definition option_line (nodes : Nodes) (target : pyval) : res exn pystr :=
  text ← describe nodes target; Ok (u "- " ++ str_of target ++ u ": " ++ text).

(** Where a router's reply leads. *)
Definition route (targets : list pyval) (first : pyval) (chosen : pystr) : pyval :=
  if key_mem (VStr chosen) targets || bool_decide (chosen = u "end") then VStr chosen else first.

Definition router_hop (nodes : Nodes) (agent : AgentSpec) (node : list (pystr * pyval))
    (current_id : pyval) (targets path : list pyval) : IO (flow (pyval * list pyval) unit) :=
  match targets with
  | [] => lift_res (config_error (u "router node " ++ repr current_id ++ u " has no outgoing edges"))
  | first :: _ =>
      options ← lift_res (res_mapM (option_line nodes) targets);
      let prompt := ROUTER_PROMPT (join [10%N] options ++ [10%N] ++ u "- end: finish the run") in
      decision ← call_agent_json eg agent (py_or (dict_get node (u "instruction")) (VStr prompt))
                   [u "next"] 1;
      m_ret (Next (route targets first (str_of (get_or decision "next" (VStr []))), path))
  end.

Definition custom_hop (nodes : Nodes) (outgoing : list (pyval * list pyval)) (_ : Z)
    (st : pyval * list pyval) : IO (flow (pyval * list pyval) unit) :=
  let '(current_id, path) := st in
  if key_eqb current_id END then m_ret (Break st)
  else
    current_id ← lift_res (hashed current_id);
    match kassoc current_id nodes with
    | None => lift_res (config_error (u "graph points at unknown node " ++ repr current_id))
    | Some node =>
        let path := path ++ [current_id] in
        if is_type node "end" then m_ret (Break (current_id, path))
        else
          agent ← lift_res (lookup_agent agents (dict_get node (u "agent_id"))
                              (u "node " ++ repr current_id));
          let targets := default [] (kassoc current_id outgoing) in
          if is_type node "router" then router_hop nodes agent node current_id targets path
          else
            _ ← turn agent (py_or (dict_get node (u "instruction")) (VStr DEFAULT_NEXT));
            match targets with
            | [] => m_ret (Break (current_id, path))
            | target :: _ => m_ret (Next (target, path))
            end
    end.

Definition run_custom : IO unit :=
  nodes ← lift_res (v ← require_key graph "nodes"; load_nodes v);
  outgoing ← lift_res load_edges;
  start ← lift_res (require_key graph "start");
  max_hops ← lift_res (custom_hops_of graph);
  out ← for_loop (seqZ 0 max_hops) (custom_hop nodes outgoing) (VStr (str_of start), []);
  _ ← (match out with
       | Next _ => update_state (set_note (u "exhausted") (VStr (u "custom graph hop budget")))
       | _ => m_ret tt
       end);
  let path := match out with Next st | Break st => st.2 | Return _ => [] end in
  _ ← update_state (set_note (u "path") (VList path));
  set_output last_output.
End preset.

(** ** The registry *)

Definition PRESETS : list (pystr * (Graph → AgentMap → IO unit)) :=
  [(u "pipeline", run_pipeline); (u "supervisor", run_supervisor); (u "debate", run_debate);
   (u "blackboard", run_blackboard); (u "swarm", run_swarm); (u "custom", run_custom)].

Definition get_preset (name : pystr) : res exn (Graph → AgentMap → IO unit) :=
  match assoc name PRESETS with
  | Some run => Ok run
  | None => unknown_preset name
  end.
End runs.
