(* ===== verification/TaskOrder.v ===== *)
(** * The blackboard's order of work

    The [while] loop of [run_blackboard] is equal to running a schedule that
    depends on the task list alone.  The schedule has every task once, and every
    task comes after the tasks it depends on unless the dependencies are circular. *)

From S2P Require Import Prelude PyStr PyFloat PyVal PyRegex PyJson Artifacts Config State Budget.
From S2P Require Import Registry Providers Pricing Keys Events World Router ToolBase ToolArtifacts.
From S2P Require Import ToolRegistry Engine Workflow Presets.

(** ** The schedule *)

(** What a pass over [ready] does to the finished ids and the pending tasks. *)
Definition after_ready (ready : list Task) (st : list pystr * list Task) : list pystr * list Task :=
  fold_left (λ st t, (tk_id t :: st.1, remove_task t st.2)) ready st.

Fixpoint schedule (fuel : nat) (st : list pystr * list Task) : list Task :=
  match st.2, fuel with
  | [], _ => []
  | _, O => []
  | pending, S fuel =>
      let ready := ready_tasks st.1 pending in ready ++ schedule fuel (after_ready ready st)
  end.

Lemma remove_task_perm t pending : t ∈ pending → t :: remove_task t pending ≡ₚ pending.
Proof.
  induction pending as [|t' rest IH]; simpl; [by intros ?%elem_of_nil|].
  intros Ht. destruct (decide (t' = t)) as [->|Hne]; [done|].
  apply elem_of_cons in Ht as [->|Ht]; [done|]. rewrite Permutation_swap. by rewrite IH.
Qed.

Lemma after_ready_perm ready st :
  ready ⊆+ st.2 → ready ++ (after_ready ready st).2 ≡ₚ st.2.
Proof.
  revert st. induction ready as [|t ready IH]; intros st Hr; [done|].
  assert (Ht : t ∈ st.2) by (eapply elem_of_submseteq; [by left|done]).
  pose proof (remove_task_perm t (st.2) Ht) as Hp.
  change (t :: ready ++ (after_ready ready (tk_id t :: st.1, remove_task t st.2)).2 ≡ₚ st.2).
  rewrite IH; simpl; [done|]. rewrite <- Hp in Hr. by apply (submseteq_app_inv_l _ _ [t]) in Hr.
Qed.

Lemma after_ready_done ready st : (after_ready ready st).1 = reverse (map tk_id ready) ++ st.1.
Proof.
  revert st. induction ready as [|t ready IH]; intros st; [done|].
  change (after_ready (t :: ready) st) with (after_ready ready (tk_id t :: st.1, remove_task t st.2)).
  rewrite IH. simpl. rewrite reverse_cons. by rewrite <- app_assoc.
Qed.

Lemma ready_tasks_sub fin pending : ready_tasks fin pending ⊆+ pending.
Proof.
  unfold ready_tasks. pose proof (sublist_submseteq _ _ (sublist_take pending 1)) as H1.
  destruct (List.filter (is_ready fin) pending) as [|t ready] eqn:Hf; [done|].
  rewrite <- Hf. apply sublist_submseteq. clear. induction pending as [|t rest IH]; simpl; [done|].
  destruct (is_ready fin t); [by constructor|by constructor].
Qed.

Lemma ready_tasks_nonempty fin pending : pending ≠ [] → ready_tasks fin pending ≠ [].
Proof.
  unfold ready_tasks. destruct (List.filter _ _); [|done]. by destruct pending.
Qed.

(** Every pass makes progress. *)
Lemma pass_length fin pending :
  pending ≠ [] →
  (length (after_ready (ready_tasks fin pending) (fin, pending)).2 < length pending)%nat.
Proof.
  intros Hp. pose proof (ready_tasks_nonempty fin _ Hp) as Hne.
  pose proof (after_ready_perm (ready_tasks fin pending) (fin, pending) (ready_tasks_sub fin pending)) as Hl.
  apply Permutation_length in Hl. rewrite length_app in Hl.
  set (n := length (after_ready _ _).2) in *. clearbody n.
  destruct (ready_tasks fin pending); [done|]. simpl in Hl. lia.
Qed.

(** One unit of fuel per pending task is enough, and every task comes once. *)
Lemma schedule_perm fuel st : (length st.2 ≤ fuel)%nat → schedule fuel st ≡ₚ st.2.
Proof.
  revert st. induction fuel as [|fuel IH]; intros [fin pending] Hl; simpl in *.
  { by destruct pending; [|simpl in Hl; lia]. }
  destruct pending as [|t pending]; [done|]. set (p := t :: pending) in *.
  pose proof (pass_length fin p ltac:(done)) as Hlt.
  rewrite IH; [|simpl in *; lia]. apply (after_ready_perm _ (fin, p)), ready_tasks_sub.
Qed.

(** ** The loop runs the schedule *)

Section loop.
Context {X : Type} `{Env} (eg : Engine X) (workers : AgentMap).

Lemma m_iter_app {A} (f : A → M (World X) exn unit) xs ys w :
  m_iter f (xs ++ ys) w = m_bind (λ _, m_iter f ys) (m_iter f xs) w.
Proof.
  revert w. induction xs as [|x xs IH]; intros w; [done|].
  unfold m_iter, mbind, M_bind, m_bind in *. simpl. unfold mbind, M_bind, m_bind.
  destruct (f x w) as [[y|e] w1]; [|done]. specialize (IH w1).
  destruct (m_mapM f (xs ++ ys) w1) as [[z|e] w2], (m_mapM f xs w1) as [[z'|e'] w3]; simpl in *; done.
Qed.

Lemma m_iter_cons {A} (f : A → M (World X) exn unit) x xs w :
  m_iter f (x :: xs) w = m_bind (λ _, m_iter f xs) (f x) w.
Proof.
  unfold m_iter, mbind, M_bind, m_bind. simpl. unfold mbind, M_bind, m_bind.
  destruct (f x w) as [[y|e] w1]; [|done]. by destruct (m_mapM f xs w1) as [[z|e] w2].
Qed.

Lemma run_ready_eq ready st w :
  run_ready eg workers ready st w
  = m_bind (λ _, m_ret (after_ready ready st)) (m_iter (run_task eg workers) ready) w.
Proof.
  revert st w. induction ready as [|t ready IH]; intros st w; [done|].
  simpl. unfold mbind, M_bind, m_bind at 1 2. rewrite m_iter_cons. unfold m_bind.
  destruct (run_task eg workers t w) as [[[]|e] w1]; [|done]. rewrite IH. done.
Qed.

Lemma work_loop_schedule fuel st w :
  (length st.2 ≤ fuel)%nat →
  work_loop eg fuel workers st w = m_iter (run_task eg workers) (schedule fuel st) w.
Proof.
  revert st w. induction fuel as [|fuel IH]; intros [fin pending] w Hl; simpl in *.
  { by destruct pending; [|simpl in Hl; lia]. }
  destruct pending as [|t pending]; [done|]. set (p := t :: pending) in *.
  rewrite m_iter_app. unfold mbind, M_bind, m_bind. rewrite run_ready_eq. unfold m_bind.
  destruct (m_iter (run_task eg workers) (ready_tasks fin p) w) as [[[]|e] w1]; [|done].
  apply IH. pose proof (pass_length fin p ltac:(done)). simpl in *. lia.
Qed.
End loop.

(** ** The order respects the dependencies *)

(** Every task of [l] comes after the tasks it depends on. *)
Fixpoint in_order (fin : list pystr) (l : list Task) : Prop :=
  match l with
  | [] => True
  | t :: rest => (∀ d, d ∈ tk_depends_on t → d ∈ fin) ∧ in_order (tk_id t :: fin) rest
  end.

Lemma in_order_mono fin fin' l : fin ⊆ fin' → in_order fin l → in_order fin' l.
Proof.
  revert fin fin'. induction l as [|t l IH]; intros fin fin' Hd; [done|].
  intros [Ht Hl]. split; [set_solver|]. eapply IH; [|done].
  intros x [->|Hx]%elem_of_cons; [by left|by right; apply Hd].
Qed.

Lemma in_order_app fin l k :
  in_order fin l → in_order (reverse (map tk_id l) ++ fin) k → in_order fin (l ++ k).
Proof.
  revert fin. induction l as [|t l IH]; intros fin; [done|]. intros [Ht Hl] Hk. split; [done|].
  apply IH; [done|]. simpl in Hk. rewrite reverse_cons, <- app_assoc in Hk. done.
Qed.

Lemma in_order_ready fin l : Forall (λ t, is_ready fin t = true) l → in_order fin l.
Proof.
  intros Hl. induction Hl as [|t l Ht Hl IH]; [done|]. split.
  - intros d Hd. unfold is_ready in Ht. rewrite forallb_forall in Ht.
    specialize (Ht d (proj1 (list_elem_of_In _ _) Hd)). by apply bool_decide_eq_true in Ht.
  - eapply in_order_mono; [|exact IH]. set_solver.
Qed.

Definition acyclic (tasks : list Task) : Prop :=
  ∃ rank : pystr → nat, ∀ t d, t ∈ tasks → d ∈ tk_depends_on t → (rank d < rank (tk_id t))%nat.

(** Everything a task waits for is done or pending. *)
Definition closed (st : list pystr * list Task) : Prop :=
  ∀ t d, t ∈ st.2 → d ∈ tk_depends_on t → d ∈ st.1 ∨ d ∈ map tk_id st.2.

Lemma is_ready_false fin t : is_ready fin t = false → ∃ d, d ∈ tk_depends_on t ∧ d ∉ fin.
Proof.
  unfold is_ready. induction (tk_depends_on t) as [|d ds IH]; simpl; [done|].
  case_bool_decide; simpl; intros Hf.
  2: { exists d. split; [by left|done]. }
  destruct (IH Hf) as (d' & ? & ?). exists d'. split; [by right|done].
Qed.

(** Without a cycle, some pending task is ready. *)
Lemma some_ready st : closed st → acyclic st.2 → st.2 ≠ [] → ∃ t, t ∈ st.2 ∧ is_ready st.1 t = true.
Proof.
  intros Hc [rank Hr] Hne. destruct st as [fin pending]; simpl in *.
  assert (Hgo : ∀ n t, t ∈ pending → (rank (tk_id t) < n)%nat →
                  ∃ t', t' ∈ pending ∧ is_ready fin t' = true).
  { induction n as [|n IH]; intros t Ht Hn; [lia|].
    destruct (is_ready fin t) eqn:Hready; [by exists t|].
    apply is_ready_false in Hready as (d & Hd & Hnd).
    destruct (Hc t d Ht Hd) as [?|Hp]; [done|]. apply list_elem_of_In, in_map_iff in Hp as (t' & <- & Ht').
    apply list_elem_of_In in Ht'. apply (IH t'); [done|]. specialize (Hr t (tk_id t') Ht Hd). lia. }
  destruct pending as [|t rest]; [done|]. apply (Hgo (S (rank (tk_id t))) t); [by left|lia].
Qed.

Lemma ready_tasks_ready fin pending t :
  t ∈ pending → is_ready fin t = true → Forall (λ t, is_ready fin t = true) (ready_tasks fin pending).
Proof.
  intros Ht Hready. unfold ready_tasks. destruct (List.filter (is_ready fin) pending) as [|t' ready] eqn:Hf.
  - assert (Hin : In t (List.filter (is_ready fin) pending)).
    { apply filter_In. split; [by apply list_elem_of_In|done]. }
    by rewrite Hf in Hin.
  - rewrite <- Hf. apply Forall_forall. intros x Hx.
    by apply list_elem_of_In, filter_In in Hx as [_ ?].
Qed.

Lemma acyclic_sub tasks tasks' : tasks' ⊆ tasks → acyclic tasks → acyclic tasks'.
Proof. intros Hs [rank Hr]. exists rank. intros t d Ht. apply Hr. set_solver. Qed.

(** What is left after a pass is still closed. *)
Lemma after_ready_closed fin pending :
  closed (fin, pending) → closed (after_ready (ready_tasks fin pending) (fin, pending)).
Proof.
  intros Hc. set (ready := ready_tasks fin pending).
  pose proof (after_ready_perm ready (fin, pending) (ready_tasks_sub fin pending)) as Hp. simpl in Hp.
  set (st' := after_ready ready (fin, pending)) in *.
  assert (Hdone : st'.1 = reverse (map tk_id ready) ++ fin) by apply after_ready_done.
  intros t d Ht Hd. assert (Hin : t ∈ pending) by (rewrite <- Hp; apply elem_of_app; by right).
  rewrite Hdone, elem_of_app, elem_of_reverse.
  destruct (Hc t d Hin Hd) as [?|Hids]; simpl in *; [by left; right|].
  rewrite <- Hp, map_app, elem_of_app in Hids. destruct Hids; auto.
Qed.

Lemma schedule_in_order fuel st :
  (length st.2 ≤ fuel)%nat → closed st → acyclic st.2 → in_order st.1 (schedule fuel st).
Proof.
  revert st. induction fuel as [|fuel IH]; intros [fin pending] Hl Hc Ha; simpl in *.
  { by destruct pending. }
  destruct pending as [|t0 pending]; [done|]. set (p := t0 :: pending) in *.
  destruct (some_ready (fin, p) Hc Ha ltac:(done)) as (t & Ht & Hready). simpl in Ht, Hready.
  apply in_order_app; [by apply in_order_ready, (ready_tasks_ready _ _ t)|].
  pose proof (after_ready_perm (ready_tasks fin p) (fin, p) (ready_tasks_sub fin p)) as Hp.
  pose proof (pass_length fin p ltac:(done)) as Hlt.
  pose proof (after_ready_done (ready_tasks fin p) (fin, p)) as Hdone. simpl in Hdone.
  rewrite <- Hdone. apply IH.
  - simpl in *. lia.
  - by apply after_ready_closed.
  - eapply acyclic_sub; [|exact Ha]. simpl in Hp. intros x Hx. rewrite <- Hp. apply elem_of_app. by right.
Qed.

(** ** What the plan is reduced to *)

Section normalise.
Context `{PyTables} (workers : AgentMap).

(** A task list the loop can run. *)
Record plan_ok (tasks : list Task) : Prop := {
  pl_ids : NoDup (map tk_id tasks);
  pl_workers : Forall (λ t, has_key workers (tk_worker t) = true) tasks;
  pl_depends : Forall (λ t, ∀ d, d ∈ tk_depends_on t → d ∈ map tk_id tasks ∧ d ≠ tk_id t) tasks }.

Lemma collect_tasks_ok fallback position tasks seen items out :
  has_key workers fallback = true →
  NoDup (map tk_id tasks) → (∀ t, t ∈ tasks → tk_id t ∈ seen) →
  Forall (λ t, has_key workers (tk_worker t) = true) tasks →
  collect_tasks workers fallback position tasks seen items = Ok out →
  NoDup (map tk_id out) ∧ Forall (λ t, has_key workers (tk_worker t) = true) out ∧
  (length out ≤ length tasks + length items)%nat.
Proof.
  intros Hf. revert position tasks seen. induction items as [|item items IH];
    intros position tasks seen Hn Hs Hw; simpl.
  { intros [= <-]. split_and!; [done|done|lia]. }
  assert (Hskip : collect_tasks workers fallback (position + 1) tasks seen items = Ok out →
    NoDup (map tk_id out) ∧ Forall (λ t, has_key workers (tk_worker t) = true) out ∧
    (length out ≤ length tasks + S (length items))%nat).
  { intros Heq. destruct (IH _ _ _ Hn Hs Hw Heq) as (?&?&?). split_and!; [done|done|lia]. }
  destruct item as [| | | | | |d]; try done.
  case_bool_decide as Hseen; [done|].
  set (id := str_of _) in *. destruct (task_of workers fallback id d) as [t|e] eqn:Ht; [|done]. simpl.
  assert (Htid : tk_id t = id ∧ has_key workers (tk_worker t) = true).
  { unfold task_of in Ht. destruct (py_iter _); [|done]. simpl in Ht. injection Ht as <-. simpl.
    split; [done|].
    match goal with |- context[if ?b then _ else _] => by destruct b eqn:? end. }
  destruct Htid as [Htid Htw]. intros Heq. apply IH in Heq as (?&?&Hl).
  - rewrite length_app in Hl. simpl in Hl. split_and!; [done|done|lia].
  - rewrite map_app. simpl. apply NoDup_app. split_and!; [done| |apply NoDup_singleton].
    intros x Hx ->%list_elem_of_singleton. apply Hseen. apply list_elem_of_In, in_map_iff in Hx as (t' & Ht' & Hin).
    rewrite <- Htid, <- Ht'. by apply Hs, list_elem_of_In.
  - intros t' [Hin| ->%list_elem_of_singleton]%elem_of_app; [right; by apply Hs|]. rewrite Htid. by left.
  - apply Forall_app. split; [done|]. by constructor.
Qed.

Lemma prune_ids known tasks : map tk_id (map (prune_depends known) tasks) = map tk_id tasks.
Proof. rewrite map_map. by apply map_ext. Qed.

Lemma normalise_tasks_ok raw max_tasks tasks :
  0 ≤ max_tasks → normalise_tasks raw workers max_tasks = Ok tasks →
  plan_ok tasks ∧ py_len tasks ≤ max_tasks.
Proof.
  intros Hmax. unfold normalise_tasks.
  assert (Hnil : plan_ok []) by (split; constructor).
  destruct raw as [| | | | |items|]; try (intros [= <-]; split; [done|done]).
  destruct workers as [|[fallback a] ws] eqn:Hws; [done|]. rewrite <- Hws in *.
  destruct (collect_tasks workers fallback 0 [] [] (slice_to max_tasks items)) as [out|e] eqn:Hc; [|done].
  simpl. intros [= <-]. apply collect_tasks_ok in Hc as (Hn & Hw & Hl).
  - pose proof (length_slice_to max_tasks items Hmax) as Hs. split.
    + split; rewrite ?prune_ids; [done| |].
      * apply Forall_map. eapply Forall_impl; [exact Hw|]. done.
      * apply Forall_map, Forall_true. intros t d. simpl. rewrite list_elem_of_In, filter_In.
        intros [_ [Hk Hne]%andb_true_iff]. apply bool_decide_eq_true in Hk.
        split; [done|]. apply negb_true_iff, bool_decide_eq_false in Hne. done.
    + unfold py_len in *. rewrite length_map. simpl in Hl. lia.
  - rewrite Hws. unfold has_key. simpl. by rewrite decide_True.
  - constructor.
  - by intros t ?%elem_of_nil.
  - constructor.
Qed.
End normalise.
