(* ===== verification/EngineSinks.v ===== *)
(** * What a run may do to the world outside it

    The engine reaches the part [X] of the world only through its sinks, and
    through tools that reach it only through the writer they are given.  So any
    relation the sinks respect is respected by a whole preset, whatever the models
    reply and however the run is interrupted. *)

From S2P Require Import Prelude PyStr PyFloat PyVal PyRegex PyJson Artifacts Config State Budget.
From S2P Require Import Registry Providers Pricing Keys Events World Router ToolBase ToolArtifacts.
From S2P Require Import ToolRegistry Engine EngineSafety Workflow Presets TaskOrder.

Section sinks.
Context {X : Type} `{Env} (RX : relation X).

Definition ext_rel (w w' : World X) : Prop := RX (w_ext w) (w_ext w').

(** Every sink the engine has is within the relation. *)
Record sinks_in (eg : Engine X) : Prop := {
  si_step f r : eg_step_sink eg = Some f → steps RX (f r);
  si_artifact f r : eg_artifact_sink eg = Some f → steps RX (f r);
  si_tool_call f r : eg_tool_call_sink eg = Some f → steps RX (f r) }.

Definition ext_context (context : ToolContext X) : Prop :=
  ∀ path content kind, steps ext_rel (tx_write_artifact context path content kind).

(** A tool does nothing to the outside that its context does not. *)
Definition ext_tool (t : Tool X) : Prop :=
  ∀ arguments context, ext_context context → steps ext_rel (t_run t arguments context).

Context `{!PreOrder RX}.

#[export] Instance ext_preorder : PreOrder ext_rel.
Proof. split; [intros w; by unfold ext_rel|]. unfold ext_rel. intros w1 w2 w3. by etrans. Qed.
#[export] Instance ext_frame : Frame ext_rel.
Proof. split; [tc_solve| | |]; unfold ext_rel; simpl; intros; done. Qed.
#[export] Instance ext_router_frame : RouterFrame ext_rel.
Proof. split; [tc_solve|]. unfold ext_rel. simpl. intros; done. Qed.

Lemma ext_same (f : World X → World X) : (∀ w, w_ext (f w) = w_ext w) → steps (E:=exn) ext_rel (modify f).
Proof. intros Hf w. unfold ext_rel. simpl. by rewrite Hf. Qed.

Lemma ext_zoom {A S} read (put : S → World X → World X) (m : M S exn A) :
  (∀ s w, w_ext (put s w) = w_ext w) → steps ext_rel (zoom read put m).
Proof. intros Hp. apply steps_zoom. intros w. unfold ext_rel. by rewrite Hp. Qed.

Lemma ext_on_ext {A} (m : M X exn A) : steps RX m → steps ext_rel (on_ext m).
Proof. intros Hm. apply steps_zoom. intros w. unfold ext_rel. simpl. apply Hm. Qed.

(** One step of a proof that a computation stays within [ext_rel]. *)
Ltac ext_step :=
  lazymatch goal with
  | |- steps _ (mbind _ _) => apply steps_bind; [tc_solve| |intros ?]
  | |- steps _ (m_bind _ _) => apply steps_bind; [tc_solve| |intros ?]
  | |- steps _ (m_ret _) => apply steps_ret; tc_solve
  | |- steps _ (raise _) => apply steps_raise; tc_solve
  | |- steps _ (lift_res _) => apply steps_lift_res; tc_solve
  | |- steps _ (gets _) => apply gets_steps; tc_solve
  | |- steps _ now => apply now_steps; tc_solve
  | |- steps _ await => apply await_steps; tc_solve
  | |- steps _ reserve_seq => apply reserve_seq_steps; tc_solve
  | |- steps _ (publish_event _ _ _) => apply publish_event_steps; tc_solve
  | |- steps _ (emit_event _ _) => apply emit_event_steps; tc_solve
  | |- steps _ flush_tokens => apply flush_tokens_steps; tc_solve
  | |- steps _ (latency_ms _) => apply latency_ms_steps; tc_solve
  | |- steps _ cancel_requested => apply cancel_requested_steps; tc_solve
  | |- steps _ (complete _ _) => apply complete_steps; tc_solve
  | |- steps _ (attempt _ _) => apply steps_attempt
  | |- steps _ (catch _ _) => apply steps_catch; [tc_solve| |intros ?]
  | |- steps _ (m_iter _ _) => apply m_iter_steps; [tc_solve|intros ?]
  | |- steps _ (m_mapM _ _) => apply steps_mapM; [tc_solve|intros ?]
  | |- steps _ (for_loop _ _ _) => apply steps_for_loop; [tc_solve|intros ? ?]
  | |- steps _ (on_state _) => by apply ext_zoom
  | |- steps _ (on_budget _) => by apply ext_zoom
  | |- steps _ (update_state _) => by apply ext_same
  | |- steps _ (set_output _) => by apply ext_same
  | |- steps _ (modify _) => by apply ext_same
  | |- steps _ (match ?x with _ => _ end) => destruct x
  | |- steps _ (let _ := _ in _) => cbv zeta
  end.
Ltac ext_steps := repeat first [assumption | solve [eauto with ext] | ext_step].

Create HintDb ext discriminated.

Section engine.
Context (eg : Engine X) (Hsinks : sinks_in eg).
Context (Htools : ∀ agent t, t ∈ eg_tool_resolver eg agent → ext_tool t).

Lemma sink_ext {R} (s : option (R → M X exn unit)) r :
  (∀ f, s = Some f → steps RX (f r)) → steps (W:=World X) ext_rel (sink s r).
Proof.
  intros Hs. unfold sink. destruct s as [f|]; [|ext_steps].
  ext_steps. apply ext_on_ext. by apply Hs.
Qed.

Lemma step_sink_ext r : steps ext_rel (sink (eg_step_sink eg) r).
Proof. apply sink_ext. intros f. by apply si_step. Qed.
Lemma artifact_sink_ext r : steps ext_rel (sink (eg_artifact_sink eg) r).
Proof. apply sink_ext. intros f. by apply si_artifact. Qed.
Lemma tool_call_sink_ext r : steps ext_rel (sink (eg_tool_call_sink eg) r).
Proof. apply sink_ext. intros f. by apply si_tool_call. Qed.
Hint Resolve step_sink_ext artifact_sink_ext tool_call_sink_ext : ext.

Lemma writer_ext agent i path content kind : steps ext_rel (writer eg agent i path content kind).
Proof. unfold writer. ext_steps. Qed.

Lemma capture_artifacts_ext agent text i : steps ext_rel (capture_artifacts eg agent text i).
Proof. unfold capture_artifacts. ext_steps. Qed.
Hint Resolve writer_ext capture_artifacts_ext : ext.

Lemma complete_turn_ext agent system conv instr jm tools fc :
  steps ext_rel (complete_turn eg agent system conv instr jm tools fc).
Proof. unfold complete_turn. ext_steps. Qed.

Lemma check_budget_ext : steps ext_rel (check_budget eg).
Proof. unfold check_budget. ext_steps. Qed.
Hint Resolve complete_turn_ext check_budget_ext : ext.

Section tools.
Context (by_name : list (pystr * Tool X)) (agent : AgentSpec) (index offset : Z) (context : ToolContext X).
Context (Hnamed : ∀ name t, assoc name by_name = Some t → ext_tool t) (Hc : ext_context context).

Lemma run_tool_ext call : steps ext_rel (run_tool by_name context call).
Proof.
  unfold run_tool. destruct (assoc (tc_name call) by_name) as [t|] eqn:Ht; [|ext_steps].
  unfold invoke. ext_steps. intros w. unfold wait_for_tool.
  pose proof (Hnamed _ _ Ht (tc_arguments call) context Hc (set_in_tool true w)) as Hr.
  unfold ext_rel in *. by destruct (t_run t (tc_arguments call) context _) as [[a|e] w'].
Qed.
Hint Resolve run_tool_ext : ext.

Lemma step_phase_ext position call p :
  steps ext_rel (step_phase eg by_name agent index offset context position call p).
Proof. unfold step_phase. ext_steps. Qed.
Hint Resolve step_phase_ext : ext.

Lemma finish_thread_ext th : steps ext_rel (finish_thread eg by_name agent index offset context th).
Proof. unfold finish_thread. ext_steps. Qed.

Lemma advance_all_ext schedule threads :
  steps ext_rel (advance_all eg by_name agent index offset context schedule threads).
Proof.
  revert threads. induction schedule as [|i rest IH]; intros threads; simpl; [ext_steps|].
  apply steps_bind; [tc_solve| |intros; apply IH]. unfold advance. ext_steps.
Qed.
End tools.

Lemma run_tools_ext by_name agent index offset calls :
  (∀ name t, assoc name by_name = Some t → ext_tool t) →
  steps ext_rel (run_tools eg by_name agent index offset calls).
Proof.
  intros Hn. assert (Hc : ∀ org, ext_context (tool_context eg agent index org)).
  { intros org path content kind. apply writer_ext. }
  unfold run_tools. apply steps_bind; [tc_solve|ext_steps|]. intros org. cbv zeta.
  pose proof (λ th, finish_thread_ext by_name agent index offset _ Hn (Hc org) th) as Hf.
  pose proof (λ s t, advance_all_ext by_name agent index offset _ Hn (Hc org) s t) as Ha.
  unfold gather. ext_steps; auto.
Qed.

Lemma named_ext json_mode agent name t :
  assoc name (tools_by_name (active_tools eg json_mode agent)) = Some t → ext_tool t.
Proof.
  intros [Ht _]%assoc_named. unfold active_tools in Ht. destruct json_mode; [by apply elem_of_nil in Ht|].
  by eapply Htools.
Qed.

Lemma call_agent_ext agent instruction json_mode private_to :
  steps ext_rel (call_agent eg agent instruction json_mode private_to).
Proof.
  pose proof (λ index offset calls, run_tools_ext (tools_by_name (active_tools eg json_mode agent)) agent
    index offset calls (named_ext json_mode agent)) as Hrun.
  unfold call_agent, turn_body, model_loop, iteration_body, refused, close_turn.
  ext_steps; apply Hrun.
Qed.

Lemma call_agent_json_ext agent instruction required retries :
  steps ext_rel (call_agent_json eg agent instruction required retries).
Proof.
  pose proof (call_agent_ext agent) as Hcall. unfold call_agent_json, json_attempt. ext_steps; apply Hcall.
Qed.

(** ** Presets *)

Lemma turn_ext agent instruction : steps ext_rel (turn eg agent instruction).
Proof. apply call_agent_ext. Qed.
Lemma ask_ext agent instruction required : steps ext_rel (ask eg agent instruction required).
Proof. apply call_agent_json_ext. Qed.
Hint Resolve turn_ext ask_ext call_agent_json_ext : ext.

Lemma work_loop_ext fuel workers st : steps ext_rel (work_loop eg fuel workers st).
Proof.
  revert st. induction fuel as [|fuel IH]; intros [fin pending]; simpl; destruct pending; try by ext_steps.
  apply steps_bind; [tc_solve| |intros; apply IH].
  generalize (ready_tasks fin (t :: pending)), (fin, t :: pending).
  intros ready. induction ready as [|t' ready IHr]; intros st; simpl; [ext_steps|].
  apply steps_bind; [tc_solve| |intros; apply IHr]. unfold run_task. ext_steps.
Qed.
Hint Resolve work_loop_ext : ext.

(** A preset does to the outside what the sinks may do. *)
Lemma preset_ext name graph agents run :
  get_preset eg name = Ok run → steps ext_rel (run graph agents).
Proof.
  unfold get_preset, PRESETS. simpl.
  repeat (case_decide; [intros [= <-]|]); [..|done].
  - unfold run_pipeline, pipeline_node. ext_steps.
  - unfold run_supervisor, supervisor_round, require_agent, require_members. ext_steps.
  - unfold run_debate, debate_round, require_agent. ext_steps.
  - unfold run_blackboard, require_agent, require_members. ext_steps.
  - unfold run_swarm, swarm_hop, require_agent, require_members. ext_steps.
  - unfold run_custom, custom_hop, router_hop. ext_steps.
Qed.
End engine.

(** ** The tools of the deployment *)

Lemma artifact_tools_ext :
  ext_tool ListArtifacts ∧ ext_tool ReadArtifact ∧ ext_tool WriteArtifact ∧ ext_tool EditArtifact.
Proof.
  split_and!; intros arguments context Hc; simpl.
  - intros w. rewrite list_artifacts_pure. done.
  - intros w. rewrite read_artifact_pure. done.
  - unfold write_artifact_run. ext_steps; apply Hc.
  - unfold edit_artifact_run. ext_steps; apply Hc.
Qed.

Lemma deployed_tools_ext settings web_fetch web_search agent t :
  ext_tool web_fetch → ext_tool web_search →
  t ∈ default_tool_resolver settings web_fetch web_search agent → ext_tool t.
Proof.
  intros Hf Hs Ht. destruct artifact_tools_ext as (H1 & H2 & H3 & H4).
  unfold default_tool_resolver, resolve_tools in Ht.
  apply list_elem_of_omap in Ht as (name & _ & Ht).
  destruct (get_tool web_fetch web_search name) as [t'|] eqn:Hg; [|done].
  destruct ((is_available settings t').1); simplify_eq.
  apply assoc_named in Hg as [Hm _].
  unfold ALL_TOOLS in Hm. rewrite !elem_of_cons, elem_of_nil in Hm.
  destruct Hm as [->|[->|[->|[->|[->|[->|[]]]]]]]; done.
Qed.
End sinks.
