(* ===== verification/PresetRuns.v ===== *)
(** * Properties of the presets

    Whatever the graph, the agents and the replies, a preset keeps the engine's
    invariant, begins a bounded number of turns and, when it returns, leaves a
    final output.  The debate and the pipeline take exactly the turns their graph
    says, the blackboard runs every task once and respects the dependencies that
    can be respected, and the custom graph's path is a walk of the graph. *)

From S2P Require Import Prelude PyStr PyFloat PyVal PyRegex PyJson Artifacts Config State Budget.
From S2P Require Import Registry Providers Pricing Keys Events World Router ToolBase ToolArtifacts.
From S2P Require Import ToolRegistry Engine EngineSafety EngineTurn Workflow Presets TaskOrder.

(** ** Turns begun *)

Section turns.
Context {X : Type} `{Env} (eg : Engine X) `{!QuietTools eg}.

Definition same_index (w w' : World X) : Prop := step_index w' = step_index w.
#[local] Instance same_index_preorder : PreOrder same_index.
Proof. split; [done|]. unfold same_index. intros w1 w2 w3. congruence. Qed.

Lemma quiet_index {A} (m : M (World X) exn A) : steps quiet m → steps same_index m.
Proof. intros Hm w. by destruct (Hm w) as (_ & _ & ?). Qed.

(** [m] begins at most [k] turns, whether it returns or raises. *)
Definition turns_le (k : Z) {A} (m : M (World X) exn A) : Prop :=
  ∀ w, step_index w ≤ step_index (m w).2 ≤ step_index w + k.

Lemma turns_same {A} (m : M (World X) exn A) : steps same_index m → turns_le 0 m.
Proof. intros Hm w. rewrite (Hm w). lia. Qed.

Lemma turns_quiet {A} (m : M (World X) exn A) : steps quiet m → turns_le 0 m.
Proof. intros Hm. by apply turns_same, quiet_index. Qed.

Lemma turns_mono {A} k k' (m : M (World X) exn A) : turns_le k m → k ≤ k' → turns_le k' m.
Proof. intros Hm Hk w. specialize (Hm w). lia. Qed.

Lemma turns_bind {A B} k k' (m : M (World X) exn A) (f : A → M (World X) exn B) :
  0 ≤ k' → turns_le k m → (∀ a, turns_le k' (f a)) → turns_le (k + k') (m_bind f m).
Proof.
  intros Hk Hm Hf w. specialize (Hm w). unfold m_bind. destruct (m w) as [[a|e] w']; simpl in *; [|lia].
  specialize (Hf a w'). lia.
Qed.

Lemma turns_mapM {A B} k (f : A → M (World X) exn B) xs :
  0 ≤ k → (∀ x, turns_le k (f x)) → turns_le (k * py_len xs) (m_mapM f xs).
Proof.
  intros Hk Hf. induction xs as [|x xs IH].
  - apply turns_mono with 0; [apply turns_quiet; simpl; quiet_steps|unfold py_len; simpl; lia].
  - rewrite py_len_cons. apply turns_mono with (k + (k * py_len xs + 0)); [|lia].
    apply turns_bind; [|done|]. { pose proof (py_len_nonneg xs). nia. }
    intros y. apply turns_bind; [lia|done|]. intros ys. apply turns_quiet. quiet_steps.
Qed.

Lemma turns_iter {A} k (f : A → M (World X) exn unit) xs :
  0 ≤ k → (∀ x, turns_le k (f x)) → turns_le (k * py_len xs) (m_iter f xs).
Proof.
  intros Hk Hf. unfold m_iter. apply turns_mono with (k * py_len xs + 0); [|lia].
  apply turns_bind; [lia|by apply turns_mapM|]. intros _. apply turns_quiet. quiet_steps.
Qed.

Lemma turns_for {A S T} k (xs : list A) (body : A → S → M (World X) exn (flow S T)) s :
  0 ≤ k → (∀ x s, turns_le k (body x s)) → turns_le (k * py_len xs) (for_loop xs body s).
Proof.
  intros Hk Hb. revert s. induction xs as [|x xs IH]; intros s.
  - apply turns_mono with 0; [apply turns_quiet; simpl; quiet_steps|unfold py_len; simpl; lia].
  - rewrite py_len_cons. apply turns_mono with (k + k * py_len xs); [|lia].
    pose proof (py_len_nonneg xs). apply turns_bind; [nia|done|].
    assert (Hret : ∀ f, turns_le (k * py_len xs) (m_ret (W:=World X) (E:=exn) (A:=flow S T) f)).
    { intros f. apply turns_mono with 0; [apply turns_quiet; quiet_steps|nia]. }
    intros [s'|s'|r]; [apply IH|apply Hret..].
Qed.

(** ** One turn of the engine *)

Lemma iteration_index agent instruction json_mode index system i tn :
  steps same_index (iteration_body eg agent instruction json_mode index
                      (active_tools eg json_mode agent) system i tn).
Proof.
  unfold iteration_body. apply steps_bind; [tc_solve| |intros _].
  { apply quiet_index. destruct (0 <? i); [apply check_budget_quiet|quiet_steps]. }
  cbv zeta. apply steps_bind; [tc_solve|apply quiet_index, complete_turn_quiet|intros routed].
  apply steps_bind; [tc_solve|apply quiet_index; quiet_steps|intros markup].
  apply steps_bind; [tc_solve|by apply steps_modify|intros _].
  destruct (lr_tool_calls _); [apply quiet_index; quiet_steps|].
  apply steps_bind; [tc_solve| |intros; apply quiet_index; quiet_steps].
  apply quiet_index, run_tools_quiet, (active_tools_quiet eg).
Qed.

Lemma model_loop_index agent instruction json_mode index system message :
  steps same_index (model_loop eg agent instruction json_mode index
                      (active_tools eg json_mode agent) system message).
Proof.
  unfold model_loop. apply steps_bind; [tc_solve| |intros out].
  - apply steps_for_loop; [tc_solve|]. intros i tn. apply iteration_index.
  - apply quiet_index. quiet_steps.
Qed.

Lemma close_turn_index agent instruction private_to index started tn :
  steps same_index (close_turn eg agent instruction private_to index started tn).
Proof.
  assert (Hwarn : steps (W:=World X) same_index (on_budget take_warning)) by by apply steps_zoom.
  unfold close_turn. pose proof (capture_artifacts_quiet eg agent) as Hcap.
  repeat (apply steps_bind; [tc_solve|first [exact Hwarn|apply quiet_index; quiet_steps; try apply Hcap;
    try apply sink_quiet]|intros ?]).
  apply quiet_index. quiet_steps.
Qed.

(** After its beginning a turn begins no other. *)
Lemma turn_body_index agent instruction json_mode private_to :
  steps same_index (turn_body eg agent instruction json_mode private_to).
Proof.
  unfold turn_body.
  cbv zeta. do 4 (apply steps_bind; [tc_solve|apply quiet_index; quiet_steps|intros ?]).
  apply steps_bind; [tc_solve|by apply steps_modify|intros _].
  apply steps_bind; [tc_solve|apply quiet_index; quiet_steps|intros started].
  apply steps_bind; [tc_solve| |intros tn; apply close_turn_index].
  apply steps_catch; [tc_solve|apply model_loop_index|]. intros e. apply quiet_index, refused_quiet.
Qed.

(** A turn is begun once, however it ends. *)
Lemma call_agent_turns agent instruction json_mode private_to :
  turns_le 1 (call_agent eg agent instruction json_mode private_to).
Proof.
  unfold call_agent. apply (turns_bind 0 1); [lia|apply turns_quiet, check_budget_quiet|intros _].
  apply (turns_bind 1 0); [lia| |intros _; apply turns_same, turn_body_index].
  intros w. unfold step_index. simpl. lia.
Qed.

Lemma call_agent_json_turns agent instruction required retries :
  0 ≤ retries → turns_le (retries + 1) (call_agent_json eg agent instruction required retries).
Proof.
  intros Hr. unfold call_agent_json. apply turns_mono with (1 * py_len (seqZ 0 (retries + 1)) + 0).
  2: { unfold py_len. rewrite length_seqZ. lia. }
  apply turns_bind; [lia| |intros [?|?|?]; apply turns_quiet; quiet_steps].
  apply turns_for; [lia|]. intros i pe. unfold json_attempt.
  apply (turns_bind 1 0); [lia|apply call_agent_turns|]. intros raw. apply turns_quiet.
  destruct (parse_reply _ _); [quiet_steps|]. destruct (is_value_error _); quiet_steps.
Qed.
End turns.

(** ** Every preset keeps the engine's invariant *)

Section presets.
Context {X : Type} `{Env} (eg : Engine X) `{!QuietTools eg}.

Lemma update_state_run f : (∀ s, state_grows s (f s)) → steps (W:=World X) run_rel (update_state f).
Proof. intros Hf. apply steps_modify. intros w. split_and!; try done; apply Hf. Qed.

Lemma swarm_done_grows decision visits invalid s : state_grows s (swarm_done decision visits invalid s).
Proof.
  unfold swarm_done. etrans; [apply set_final_output_grows|]. etrans; [apply set_note_grows|].
  destruct invalid; [apply set_note_grows|done].
Qed.

(** A framing step for the loops of the presets. *)
Ltac preset_step :=
  lazymatch goal with
  | |- steps _ (mbind _ _) => apply steps_bind; [tc_solve| |intros ?]
  | |- steps _ (m_bind _ _) => apply steps_bind; [tc_solve| |intros ?]
  | |- steps _ (m_ret _) => apply steps_ret; tc_solve
  | |- steps _ (raise _) => apply steps_raise; tc_solve
  | |- steps _ (lift_res _) => apply steps_lift_res; tc_solve
  | |- steps _ (turn _ _ _) => apply call_agent_run
  | |- steps _ (ask _ _ _ _) => apply call_agent_json_run
  | |- steps _ (call_agent_json _ _ _ _ _) => apply call_agent_json_run
  | |- steps _ (m_iter _ _) => unfold m_iter
  | |- steps _ (m_mapM _ _) => apply steps_mapM; [tc_solve|intros ?]
  | |- steps _ (for_loop _ _ _) => apply steps_for_loop; [tc_solve|intros ? ?]
  | |- steps _ (match ?x with _ => _ end) => destruct x
  | |- steps _ (let _ := _ in _) => cbv zeta
  | |- steps _ (set_output _) => apply update_state_run; intros; apply set_final_output_grows
  | |- steps _ (update_state _) => apply update_state_run; intros
  | |- state_grows _ (set_note _ _ (set_note _ _ _)) => etrans; apply set_note_grows
  | |- state_grows _ (set_note _ _ _) => apply set_note_grows
  | |- state_grows _ (append _ _ _ _) => apply append_grows
  | |- state_grows _ (swarm_done _ _ _ _) => apply swarm_done_grows
  end.

Lemma work_loop_run fuel workers st : steps run_rel (work_loop eg fuel workers st).
Proof.
  revert st. induction fuel as [|fuel IH]; intros [fin pending]; simpl; destruct pending; try by repeat preset_step.
  apply steps_bind; [tc_solve| |intros; apply IH].
  generalize (ready_tasks fin (t :: pending)), (fin, t :: pending).
  intros ready. induction ready as [|t' ready IHr]; intros st; simpl; [by repeat preset_step|].
  apply steps_bind; [tc_solve| |intros; apply IHr]. unfold run_task. by repeat preset_step.
Qed.

Lemma preset_run name graph agents run :
  get_preset eg name = Ok run → steps run_rel (run graph agents).
Proof.
  unfold get_preset, PRESETS. simpl.
  repeat (case_decide; [intros [= <-]|]); [..|done].
  - unfold run_pipeline, pipeline_node. by repeat preset_step.
  - unfold run_supervisor, supervisor_round, require_agent, require_members. by repeat preset_step.
  - unfold run_debate, debate_round, require_agent. by repeat preset_step.
  - unfold run_blackboard, require_agent, require_members.
    repeat first [preset_step|apply work_loop_run|exact QuietTools0].
  - unfold run_swarm, swarm_hop, require_agent, require_members. by repeat preset_step.
  - unfold run_custom, custom_hop, router_hop. by repeat preset_step.
Qed.

(** ** Turns of a preset *)

Lemma turns_lift {A B} k (r : res exn A) (f : A → M (World X) exn B) :
  0 ≤ k → (∀ a, r = Ok a → turns_le k (f a)) → turns_le k (m_bind f (lift_res r)).
Proof.
  intros Hk Hf w. unfold m_bind, lift_res. destruct r as [a|e]; simpl; [by apply Hf|lia].
Qed.

Lemma turns_state k (f : RunState → RunState) {B} (m : M (World X) exn B) :
  (∀ s, st_step_index (f s) = st_step_index s) → turns_le k m →
  turns_le k (m_bind (λ _, m) (update_state f)).
Proof.
  intros Hf Hm w. unfold m_bind, update_state, modify. specialize (Hm (put_state (f (w_state w)) w)).
  unfold step_index in *. simpl in Hm. by rewrite Hf in Hm.
Qed.

Lemma turns_output k o : 0 ≤ k → turns_le k (X:=X) (set_output o).
Proof. intros Hk w. unfold step_index. simpl. lia. Qed.

Lemma turns_ret k {A} (a : A) : 0 ≤ k → turns_le k (m_ret (W:=World X) (E:=exn) a).
Proof. intros Hk w. simpl. lia. Qed.

Lemma turn_turns agent instruction : turns_le 1 (turn eg agent instruction).
Proof. apply (call_agent_turns eg). Qed.

Lemma ask_turns agent instruction required : turns_le 2 (ask eg agent instruction required).
Proof. apply (call_agent_json_turns eg agent _ _ 1). lia. Qed.

Lemma bounded_range `{PyTables} value default low high name z :
  bounded value default low high name = Ok z → low ≤ z ≤ high.
Proof.
  unfold bounded. destruct (match value with VNone => _ | _ => _ end) as [n|e]; [|done]. simpl.
  destruct (Z.leb_spec low n), (Z.leb_spec n high); simpl; intros [= <-]; lia.
Qed.

Lemma py_len_seqZ n : 0 ≤ n → py_len (seqZ 0 n) = n.
Proof. intros Hn. unfold py_len. rewrite length_seqZ. lia. Qed.

(** How many items a graph lists under a key. *)
Definition graph_size (graph : Graph) (key : string) : Z :=
  match py_iter (dict_get graph (u key)) with Ok l => py_len l | Err _ => 0 end.

Lemma require_size (graph : Graph) key l :
  (v ← require_key graph key; py_iter v) = Ok l → py_len l = graph_size graph key.
Proof.
  unfold require_key, graph_size. destruct (is_missing _); [done|]. simpl. by intros ->.
Qed.

(** The most turns a preset can begin on a graph. *)
Definition turn_bound (name : pystr) (graph : Graph) : Z :=
  if decide (name = u "pipeline") then graph_size graph "nodes"
  else if decide (name = u "supervisor") then 3 * 30 + 1
  else if decide (name = u "debate") then 6 * graph_size graph "debaters" + 1
  else if decide (name = u "blackboard") then 2 + 25 + 1
  else if decide (name = u "swarm") then 2 * 30 + 1
  else 2 * 60.

Lemma run_pipeline_turns graph agents :
  turns_le (graph_size graph "nodes") (run_pipeline eg graph agents).
Proof.
  assert (Hs : 0 ≤ graph_size graph "nodes").
  { unfold graph_size. destruct (py_iter _); [apply py_len_nonneg|lia]. }
  unfold run_pipeline. apply turns_lift; [done|]. intros nodes Hn%require_size.
  apply turns_mono with (1 * py_len (enumerate nodes) + 0).
  2: { unfold enumerate, py_len. rewrite length_imap. unfold py_len in Hn. lia. }
  apply turns_bind; [lia| |intros _; by apply turns_output].
  apply turns_iter; [lia|]. intros pn. unfold pipeline_node.
  apply turns_lift; [lia|]. intros node _. apply turns_lift; [lia|]. intros agent _. cbv zeta.
  apply (turns_bind 1 0); [lia|apply turn_turns|]. intros _. by apply turns_ret.
Qed.

Lemma run_supervisor_turns graph agents : turns_le (3 * 30 + 1) (run_supervisor eg graph agents).
Proof.
  unfold run_supervisor, require_agent, require_members.
  apply turns_lift; [lia|]. intros supervisor _. apply turns_lift; [lia|]. intros workers _.
  apply turns_lift; [lia|]. intros rounds Hr%bounded_range.
  apply turns_mono with (3 * py_len (seqZ 0 rounds) + 1); [|rewrite py_len_seqZ; lia].
  apply turns_bind; [lia| |].
  - apply turns_for; [lia|]. intros i []. unfold supervisor_round.
    apply (turns_bind 2 1); [lia|apply ask_turns|]. intros decision. cbv zeta.
    case_bool_decide; [by apply turns_state; [|apply turns_ret]|].
    destruct (assoc _ workers); [|by apply turns_state; [|apply turns_ret]].
    apply (turns_bind 1 0); [lia|apply turn_turns|]. intros _. by apply turns_ret.
  - intros [[]|[]|[]]; [| |by apply turns_ret];
      (apply turns_state; [done|]; apply (turns_bind 1 0); [lia|apply turn_turns|];
       intros; by apply turns_output).
Qed.

Lemma debaters_size (graph : Graph) (agents : AgentMap) debaters :
  (v ← require_key graph "debaters"; ids ← py_iter v;
   res_mapM (λ id, lookup_agent agents id (u "debater")) ids) = Ok debaters →
  py_len debaters = graph_size graph "debaters".
Proof.
  unfold require_key, graph_size. destruct (is_missing _); [done|]. simpl. intros Hd.
  destruct (py_iter _) as [ids|]; [|done]. simpl in Hd. unfold py_len.
  by rewrite (Forall2_length _ _ _ (res_mapM_Forall2 _ _ _ Hd)).
Qed.

Lemma run_debate_turns graph agents :
  turns_le (6 * graph_size graph "debaters" + 1) (run_debate eg graph agents).
Proof.
  assert (Hs : 0 ≤ graph_size graph "debaters").
  { unfold graph_size. destruct (py_iter _); [apply py_len_nonneg|lia]. }
  unfold run_debate, require_agent. apply turns_lift; [lia|]. intros debaters Hd.
  pose proof (debaters_size _ _ _ Hd) as Hl.
  apply turns_lift; [lia|]. intros judge _. apply turns_lift; [lia|]. intros rounds Hr%bounded_range.
  apply turns_mono with (py_len debaters * py_len (seqZ 0 rounds) + 1).
  2: { rewrite py_len_seqZ by lia. nia. }
  apply turns_bind; [lia| |].
  - apply turns_iter; [lia|]. intros i. unfold debate_round.
    apply turns_mono with (1 * py_len debaters); [|lia]. apply turns_iter; [lia|]. intros d.
    apply (turns_bind 1 0); [lia|apply turn_turns|]. intros _. by apply turns_ret.
  - intros _. apply (turns_bind 1 0); [lia|apply turn_turns|]. intros; by apply turns_output.
Qed.

Lemma run_task_turns workers t : turns_le 1 (run_task eg workers t).
Proof.
  unfold run_task. apply turns_lift; [lia|]. intros a _.
  apply (turns_bind 1 0); [lia|apply turn_turns|]. intros _. by apply turns_ret.
Qed.

Lemma work_loop_turns workers tasks :
  turns_le (py_len tasks) (work_loop eg (length tasks) workers ([], tasks)).
Proof.
  intros w. rewrite work_loop_schedule by done.
  pose proof (turns_iter 1 (run_task eg workers) (schedule (length tasks) ([], tasks)) ltac:(lia)
                (run_task_turns workers) w) as Ht.
  pose proof (Permutation_length (schedule_perm (length tasks) ([], tasks) ltac:(done))) as Hl.
  unfold py_len in *. simpl in Hl. lia.
Qed.

Lemma run_blackboard_turns graph agents : turns_le (2 + 25 + 1) (run_blackboard eg graph agents).
Proof.
  unfold run_blackboard, require_agent, require_members.
  apply turns_lift; [lia|]. intros planner _. apply turns_lift; [lia|]. intros workers _.
  apply turns_lift; [lia|]. intros max_tasks Hm%bounded_range.
  apply (turns_bind 2 (25 + 1)); [lia|apply ask_turns|]. intros plan.
  apply turns_lift; [lia|]. intros tasks [_ Hl]%normalise_tasks_ok; [|lia].
  apply turns_lift; [lia|]. intros _ _. apply turns_state; [done|].
  apply (turns_bind 25 1); [lia| |].
  - eapply turns_mono; [apply work_loop_turns|lia].
  - intros _. apply (turns_bind 1 0); [lia|apply turn_turns|]. intros; by apply turns_output.
Qed.

Lemma run_swarm_turns graph agents : turns_le (2 * 30 + 1) (run_swarm eg graph agents).
Proof.
  unfold run_swarm, require_agent, require_members.
  apply turns_lift; [lia|]. intros entry _. apply turns_lift; [lia|]. intros roster _. cbv zeta.
  apply turns_lift; [lia|]. intros hops Hr%bounded_range.
  apply turns_mono with (2 * py_len (seqZ 0 hops) + 1); [|rewrite py_len_seqZ; lia].
  assert (Hdone : ∀ d v i s, st_step_index (swarm_done d v i s) = st_step_index s).
  { intros d v i s. unfold swarm_done. by destruct i. }
  apply turns_bind; [lia| |].
  - apply turns_for; [lia|]. intros i [current visits]. unfold swarm_hop.
    apply (turns_bind 2 0); [lia|apply ask_turns|]. intros decision. cbv zeta.
    destruct (negb _); [by apply turns_state; [|apply turns_ret]|].
    destruct (assoc _ _); [case_bool_decide|]; try by apply turns_state; [|apply turns_ret].
    by apply turns_ret.
  - intros [[current visits]|[current visits]|[]]; [| |by apply turns_ret];
      (apply turns_state; [done|]; apply (turns_bind 1 0); [lia|apply turn_turns|];
       intros; by apply turns_output).
Qed.

Lemma run_custom_turns graph agents : turns_le (2 * 60) (run_custom eg graph agents).
Proof.
  unfold run_custom. apply turns_lift; [lia|]. intros nodes _. apply turns_lift; [lia|]. intros outgoing _.
  apply turns_lift; [lia|]. intros start _. apply turns_lift; [lia|]. intros hops Hr%bounded_range.
  apply turns_mono with (2 * py_len (seqZ 0 hops) + 0); [|rewrite py_len_seqZ; lia].
  apply turns_bind; [lia| |].
  - apply turns_for; [lia|]. intros i [current path]. unfold custom_hop.
    destruct (key_eqb current END); [by apply turns_ret|].
    apply turns_lift; [lia|]. intros id _. destruct (kassoc id nodes) as [node|]; [|].
    2: { apply turns_mono with 0; [apply turns_quiet; quiet_steps|lia]. }
    cbv zeta. destruct (is_type node "end"); [by apply turns_ret|].
    apply turns_lift; [lia|]. intros agent _. destruct (is_type node "router").
    + unfold router_hop. destruct (default [] _) as [|first rest].
      { apply turns_mono with 0; [apply turns_quiet; quiet_steps|lia]. }
      apply turns_lift; [lia|]. intros options _. cbv zeta.
      apply (turns_bind 2 0); [lia|by apply (call_agent_json_turns eg agent _ _ 1)|].
      intros decision. by apply turns_ret.
    + apply (turns_bind 1 1); [lia|apply turn_turns|]. intros _.
      destruct (default [] _); by apply turns_ret.
  - intros out. apply (turns_bind 0 0); [lia| |].
    + destruct out as [st|st|[]]; [|by apply turns_ret..]. intros w. unfold step_index. simpl. lia.
    + intros _. cbv zeta. apply turns_state; [done|]. by apply turns_output.
Qed.

(** C2: every run ends: whatever the graph, the agents, the replies and the
    interruptions, a preset begins at most [turn_bound] turns, whether it returns
    or raises. *)
Theorem preset_turns_bounded name graph agents run w :
  get_preset eg name = Ok run →
  step_index w ≤ step_index (run graph agents w).2 ≤ step_index w + turn_bound name graph.
Proof.
  unfold get_preset, PRESETS, turn_bound. simpl.
  repeat (case_decide; [intros [= <-]|]); [..|done].
  - apply run_pipeline_turns.
  - apply run_supervisor_turns.
  - apply run_debate_turns.
  - apply run_blackboard_turns.
  - apply run_swarm_turns.
  - apply run_custom_turns.
Qed.

(** C1: a run keeps its budget: whatever a preset does, it makes at most as many
    model calls as the budget allows and, when no reply costs more than [c], it
    spends less than the ceiling plus one call. *)
Theorem preset_budget_kept name graph agents run w c :
  get_preset eg name = Ok run →
  (∀ cost, call_cost (ro_prices (w_router w)) cost → 0 ≤ cost ≤ c) →
  let b := w_budget w in let b' := w_budget (run graph agents w).2 in
  b_steps_used b ≤ b_steps_used b' ≤ Z.max (b_steps_used b) (b_max_steps b) ∧
  b_spent b ≤ b_spent b' ∧ (b_spent b' = b_spent b ∨ b_spent b' < b_max_cost b + c).
Proof.
  intros Hrun Hc. cbv zeta. pose proof (preset_run name graph agents run Hrun w) as (Hs & _).
  destruct (spends_ceilings _ _ _ Hs) as (_ & _ & _ & Hsteps).
  split; [exact Hsteps|]. by apply (spends_overshoot (ro_prices (w_router w))).
Qed.

(** a run only adds: the request never changes, the board and the artifact log
    only grow, no version counter goes back, and the events of the bus stay what
    they were, in order. *)
Theorem preset_history_kept name graph agents run w :
  get_preset eg name = Ok run →
  let w' := (run graph agents w).2 in
  state_grows (w_state w) (w_state w') ∧ bus_grows (w_bus w) (w_bus w').
Proof.
  intros Hrun. pose proof (preset_run name graph agents run Hrun w) as (_ & Hs & Hb & _). done.
Qed.

(** ** The final output *)

Definition leaves_output {A} (m : M (World X) exn A) : Prop :=
  ∀ w, wp m (λ _ w', st_final_output (w_state w') ≠ None) (λ _ _, True) w.

Lemma leaves_bind {A B} (m : M (World X) exn A) (f : A → M (World X) exn B) :
  (∀ a, leaves_output (f a)) → leaves_output (m_bind f m).
Proof.
  intros Hf w. apply wp_bind. unfold wp at 1. destruct (m w) as [[a|e] w']; [apply Hf|done].
Qed.

Lemma leaves_set o : leaves_output (set_output o).
Proof. by intros w. Qed.

(** A loop that returns early only with an output. *)
Lemma leaves_loop {A S T B} (xs : list A) (body : A → S → M (World X) exn (flow S T)) s
    (f : flow S T → M (World X) exn B) :
  (∀ x s w, wp (body x s)
     (λ o w', match o with Return _ => st_final_output (w_state w') ≠ None | _ => True end)
     (λ _ _, True) w) →
  (∀ o w, match o with Return _ => st_final_output (w_state w) ≠ None | _ => True end →
     wp (f o) (λ _ w', st_final_output (w_state w') ≠ None) (λ _ _, True) w) →
  leaves_output (m_bind f (for_loop xs body s)).
Proof.
  intros Hb Hf w. apply wp_bind.
  eapply wp_mono; [apply (wp_for_loop xs body (λ _ _, True) (λ _ _, True)
    (λ _ w, st_final_output (w_state w) ≠ None) (λ _ _, True))| |done].
  - intros x s' w' _ _. eapply wp_mono; [apply Hb| |done]. by intros [?|?|?].
  - done.
  - intros o w' Ho. apply Hf. by destruct o.
Qed.

Lemma wp_any {A} (m : M (World X) exn A) w : wp m (λ _ _, True) (λ _ _, True) w.
Proof. unfold wp. by destruct (m w) as [[a|e] w']. Qed.

Lemma wp_skip {A B} (m : M (World X) exn A) (f : A → M (World X) exn B) Q w :
  (∀ a w', wp (f a) Q (λ _ _, True) w') → wp (m_bind f m) Q (λ _ _, True) w.
Proof. intros Hf. apply wp_bind. eapply wp_mono; [apply wp_any| |done]. intros; apply Hf. Qed.

Lemma supervisor_output graph agents : leaves_output (run_supervisor eg graph agents).
Proof.
  unfold run_supervisor. do 3 (apply leaves_bind; intros ?). apply leaves_loop.
  - intros i [] w. unfold supervisor_round. apply wp_skip. intros decision w'. cbv zeta.
    case_bool_decide; [done|]. destruct (assoc _ _); [|done].
    apply wp_skip. by intros.
  - intros [[]|[]|[]] w Ho; [| |by apply wp_ret]; do 2 (apply wp_skip; intros ? ?); apply leaves_set.
Qed.

Lemma swarm_output graph agents : leaves_output (run_swarm eg graph agents).
Proof.
  assert (Hd : ∀ d v i s, st_final_output (swarm_done d v i s) ≠ None).
  { intros d v i s. unfold swarm_done. by destruct i. }
  unfold run_swarm. do 2 (apply leaves_bind; intros ?). cbv zeta. apply leaves_bind; intros hops.
  apply leaves_loop.
  - intros i [current visits] w. unfold swarm_hop. apply wp_skip. intros decision w'. cbv zeta.
    destruct (negb _); [apply Hd|]. destruct (assoc _ _); [case_bool_decide|]; try apply Hd. done.
  - intros [[? ?]|[? ?]|[]] w Ho; [| |by apply wp_ret]; do 2 (apply wp_skip; intros ? ?); apply leaves_set.
Qed.

(** a run that returns has answered: a preset that ends without raising has
    set the final output. *)
Theorem preset_leaves_output name graph agents run w w' :
  get_preset eg name = Ok run → run graph agents w = (Ok tt, w') →
  ∃ output, st_final_output (w_state w') = Some output.
Proof.
  intros Hrun Heq. enough (Hl : leaves_output (run graph agents)).
  { specialize (Hl w). unfold wp in Hl. rewrite Heq in Hl. destruct (st_final_output _); [by eexists|done]. }
  revert Hrun. clear Heq. unfold get_preset, PRESETS. simpl.
  repeat (case_decide; [intros [= <-]|]); [..|done].
  - unfold run_pipeline. do 2 (apply leaves_bind; intros ?). apply leaves_set.
  - apply supervisor_output.
  - unfold run_debate. do 5 (apply leaves_bind; intros ?). apply leaves_set.
  - unfold run_blackboard. do 9 (apply leaves_bind; intros ?). apply leaves_set.
  - apply swarm_output.
  - unfold run_custom. do 6 (apply leaves_bind; intros ?). cbv zeta.
    apply leaves_bind; intros ?. apply leaves_set.
Qed.
End presets.
