(* ===== verification/PresetFlow.v ===== *)
(** * What each preset does with its graph

    A validated pipeline is the sequence of its nodes' turns; a debate takes
    exactly rounds x debaters + 1 turns; the blackboard runs every planned task
    once, in an order that respects the dependencies; the custom graph's path is a
    walk of the graph. *)

From S2P Require Import Prelude PyStr PyFloat PyVal PyRegex PyJson Artifacts Config State Budget.
From S2P Require Import Registry Providers Pricing Keys Events World Router ToolBase ToolArtifacts.
From S2P Require Import ToolRegistry Engine EngineSafety EngineTurn Workflow Presets TaskOrder.
From S2P Require Import PresetRuns.

Lemma default_eq_Some {A} (o : option (list A)) x xs : default [] o = x :: xs → o = Some (x :: xs).
Proof. destruct o as [l|]; simpl; intros; by simplify_eq. Qed.

Section flow.
Context {X : Type} `{Env} (eg : Engine X) `{!QuietTools eg}.
Context (graph : Graph) (agents : AgentMap).

(** ** Pipeline *)

(** The agents a list of ids names. *)
Definition resolves (ids : list pyval) (specs : list AgentSpec) : Prop :=
  Forall2 (λ id a, ∃ s, id = VStr s ∧ assoc s agents = Some a) ids specs.

(** What node [i] tells its agent. *)
Definition node_instruction (i : Z) (node : pyval) : pyval :=
  match node with
  | VDict d => py_or (dict_get d (u "instruction")) (VStr (if i =? 0 then DEFAULT_FIRST else DEFAULT_NEXT))
  | _ => VNone
  end.

Definition plan_turn (p : AgentSpec * pyval) : M (World X) exn unit :=
  _ ← turn eg p.1 p.2; m_ret tt.

Lemma pipeline_ids_nodes i nodes ids specs :
  pipeline_ids i nodes = Ok ids → resolves ids specs →
  Forall2 (λ node a, ∃ d s, node = VDict d ∧ dict_get d (u "agent_id") = VStr s ∧ assoc s agents = Some a)
    nodes specs.
Proof.
  revert i ids specs. induction nodes as [|node nodes IH]; simpl; intros i ids specs.
  { intros [= <-] Hr. by inversion_clear Hr. }
  destruct (node_field node "agent_id") as [id|] eqn:Hf; [|done].
  unfold mbind, res_bind. destruct (pipeline_ids (i + 1) nodes) as [ids'|e] eqn:Hids; [|done].
  intros [= <-] Hr. apply Forall2_cons_inv_l in Hr as (a & specs' & (s & Hid & Ha) & Hr & ->).
  constructor; [|by eapply IH]. unfold node_field in Hf. destruct node as [| | | | | |d]; try done.
  destruct (truthy _); [|done]. injection Hf as Hf. exists d, s. split_and!; [done|congruence|done].
Qed.

Lemma pipeline_node_turn i d s a w :
  dict_get d (u "agent_id") = VStr s → assoc s agents = Some a →
  pipeline_node eg agents (i, VDict d) w = plan_turn (a, node_instruction i (VDict d)) w.
Proof.
  intros Hd Ha. assert (Hl : ∀ what, lookup_agent agents (dict_get d (u "agent_id")) what = Ok a).
  { intros what. unfold lookup_agent. rewrite Hd. simpl. by rewrite Ha. }
  unfold pipeline_node, mbind, M_bind, m_bind, lift_res. cbn [fst snd attr_get]. by rewrite Hl.
Qed.

Lemma pipeline_turns i nodes specs w :
  Forall2 (λ node a, ∃ d s, node = VDict d ∧ dict_get d (u "agent_id") = VStr s ∧ assoc s agents = Some a)
    nodes specs →
  m_iter (pipeline_node eg agents) (imap (λ k x, (Z.of_nat (i + k), x)) nodes) w
  = m_iter plan_turn (zip specs (imap (λ k x, node_instruction (Z.of_nat (i + k)) x) nodes)) w.
Proof.
  intros Hn. revert i w. induction Hn as [|node a nodes specs (d & s & -> & Hd & Ha) Hn IH];
    intros i w; [done|].
  rewrite !imap_cons. cbn [zip zip_with]. rewrite !m_iter_cons, !Nat.add_0_r. unfold m_bind.
  rewrite (pipeline_node_turn _ d s a w Hd Ha).
  destruct (plan_turn _ w) as [[[]|e] w']; [|done]. specialize (IH (S i) w').
  rewrite (imap_ext _ (λ k x, (Z.of_nat (S i + k), x))) by (intros; simpl; do 2 f_equal; lia).
  rewrite IH. do 2 f_equal. apply imap_ext. intros; simpl. do 2 f_equal. lia.
Qed.

(** C16: a graph that validates as a pipeline, and whose agents exist, is run as
    the sequence of its nodes: one turn of each validated agent, in order, with the
    node's own instruction or the default of its position, and the last
    contribution becomes the output.  It raises nothing of its own. *)
Theorem pipeline_follows_graph ids specs nodes w :
  validate_pipeline graph = Ok ids → resolves ids specs →
  dict_get graph (u "nodes") = VList nodes →
  run_pipeline eg graph agents w
  = m_bind (λ _, set_output last_output)
      (m_iter plan_turn (zip specs (imap (λ k x, node_instruction (Z.of_nat k) x) nodes))) w.
Proof.
  intros Hv Hr Hn. unfold validate_pipeline, run_pipeline, require_key in *. rewrite Hn in *.
  destruct nodes as [|node nodes]; [done|]. set (all := node :: nodes) in *.
  change (pipeline_ids 0 all = Ok ids) in Hv.
  assert (Ht : m_iter (pipeline_node eg agents) (enumerate all) w
    = m_iter plan_turn (zip specs (imap (λ k x, node_instruction (Z.of_nat k) x) all)) w)
    by exact (pipeline_turns 0 all specs w (pipeline_ids_nodes _ _ _ _ Hv Hr)).
  change (m_bind (λ _, set_output last_output) (m_iter (pipeline_node eg agents) (enumerate all)) w
          = m_bind (λ _, set_output last_output)
              (m_iter plan_turn (zip specs (imap (λ k x, node_instruction (Z.of_nat k) x) all))) w).
  unfold m_bind. by rewrite Ht.
Qed.

(** ** Debate *)

(** [m] begins exactly [k] turns when it returns. *)
Definition turns_exactly (k : Z) {A} (m : M (World X) exn A) : Prop :=
  ∀ w, wp m (λ _ w', step_index w' = step_index w + k) (λ _ _, True) w.

Lemma exactly_bind {A B} k k' (m : M (World X) exn A) (f : A → M (World X) exn B) :
  turns_exactly k m → (∀ a, turns_exactly k' (f a)) → turns_exactly (k + k') (m_bind f m).
Proof.
  intros Hm Hf w. apply wp_bind. eapply wp_mono; [apply Hm| |done]. intros a w1 H1.
  eapply wp_mono; [apply Hf| |done]. intros b w2 H2. cbv beta in *. lia.
Qed.

Lemma exactly_same {A} (m : M (World X) exn A) : steps same_index m → turns_exactly 0 m.
Proof.
  intros Hm w. eapply wp_mono; [by apply wp_steps| |done]. unfold same_index. simpl. lia.
Qed.

Lemma exactly_iter {A} k (f : A → M (World X) exn unit) xs :
  (∀ x, turns_exactly k (f x)) → turns_exactly (k * py_len xs) (m_iter f xs).
Proof.
  intros Hf. induction xs as [|x xs IH]; intros w.
  - apply wp_ret. unfold py_len. simpl. lia.
  - rewrite py_len_cons. unfold wp. rewrite m_iter_cons. fold (wp (m_bind (λ _, m_iter f xs) (f x))
      (λ _ w', step_index w' = step_index w + k * (1 + py_len xs)) (λ _ _, True) w).
    replace (k * (1 + py_len xs)) with (k + k * py_len xs) by lia. by apply exactly_bind.
Qed.

(** A turn that returns was begun once. *)
Lemma turn_exactly agent instruction : turns_exactly 1 (turn eg agent instruction).
Proof.
  unfold turn, call_agent.
  apply (exactly_bind 0 1); [by apply exactly_same, quiet_index, (check_budget_quiet eg)|intros _].
  apply (exactly_bind 1 0); [by intros w|intros _]. apply exactly_same. by apply turn_body_index.
Qed.

Lemma debate_round_exactly debaters i :
  turns_exactly (py_len debaters) (debate_round eg debaters i).
Proof.
  unfold debate_round. replace (py_len debaters) with (1 * py_len debaters) by lia.
  apply exactly_iter. intros d. apply (exactly_bind 1 0); [apply turn_exactly|].
  intros _ w. apply wp_ret. lia.
Qed.

(** a debate that returns took rounds x debaters + 1 turns, with between one
    and six rounds of all the listed debaters, and then the judge. *)
Theorem debate_length w w' :
  run_debate eg graph agents w = (Ok tt, w') →
  ∃ rounds, rounds_of graph = Ok rounds ∧ 1 ≤ rounds ≤ 6 ∧
    step_index w' = step_index w + (rounds * graph_size graph "debaters" + 1).
Proof.
  intros Heq.
  assert (Hwp : wp (run_debate eg graph agents)
    (λ _ w', ∃ rounds, rounds_of graph = Ok rounds ∧ 1 ≤ rounds ≤ 6 ∧
      step_index w' = step_index w + (rounds * graph_size graph "debaters" + 1)) (λ _ _, True) w).
  2: { unfold wp in Hwp. by rewrite Heq in Hwp. }
  clear w' Heq. unfold run_debate. apply wp_bind. unfold wp at 1, lift_res.
  destruct (v ← require_key graph "debaters"; _) as [debaters|] eqn:Hd; [|done].
  apply debaters_size in Hd. apply wp_bind. unfold wp at 1, require_agent, lift_res.
  destruct (id ← _; _) as [judge|]; [|done].
  apply wp_bind. unfold wp at 1, lift_res. destruct (rounds_of graph) as [rounds|] eqn:Hr; [|done].
  pose proof (bounded_range _ _ _ _ _ _ Hr) as Hb.
  apply wp_mono with (λ _ w', step_index w' = step_index w + (py_len debaters * py_len (seqZ 0 rounds) + 1))
    (λ _ _, True).
  - apply exactly_bind; [apply exactly_iter; intros; apply debate_round_exactly|]. intros _.
    apply (exactly_bind 1 0); [apply turn_exactly|]. intros output. by apply exactly_same; intros w1.
  - intros _ w1 Hw1. exists rounds. rewrite py_len_seqZ, Hd in Hw1 by lia. split_and!; try done; lia.
  - done.
Qed.

(** ** Blackboard *)

(** the blackboard does the planned work: whatever the planner sent, the loop
    over the normalised tasks ends, each task has an existing worker and runs
    exactly once, in an order that depends on the list alone, and every task comes
    after all the tasks it depends on when the dependencies are not circular. *)
Theorem blackboard_work raw workers max_tasks tasks :
  0 ≤ max_tasks → normalise_tasks raw workers max_tasks = Ok tasks →
  py_len tasks ≤ max_tasks ∧ plan_ok workers tasks ∧
  ∃ order, order ≡ₚ tasks ∧ (acyclic tasks → in_order [] order) ∧
    ∀ w, work_loop eg (length tasks) workers ([], tasks) w = m_iter (run_task eg workers) order w.
Proof.
  intros Hm Hn. apply normalise_tasks_ok in Hn as [Hok Hl]; [|done]. split; [done|]. split; [done|].
  exists (schedule (length tasks) ([], tasks)). split_and!.
  - by apply schedule_perm.
  - intros Ha. apply (schedule_in_order _ ([], tasks)); [done| |done].
    intros t d Ht Hd. right. destruct Hok as [_ _ Hdep]. rewrite Forall_forall in Hdep.
    by apply (Hdep t Ht d).
  - intros w. by apply work_loop_schedule.
Qed.

(** ** Custom graphs *)

(** A run may go from [a] to [b]: [a] is a node; an agent's node leads to its first
    target, a router's to one of its targets or to the end. *)
Inductive hop (nodes : Nodes) (outgoing : list (pyval * list pyval)) (a : pyval) : pyval → Prop :=
| hop_agent node b rest :
    kassoc a nodes = Some node → is_type node "end" = false → is_type node "router" = false →
    kassoc a outgoing = Some (b :: rest) → hop nodes outgoing a b
| hop_router node targets b :
    kassoc a nodes = Some node → is_type node "router" = true →
    kassoc a outgoing = Some targets → b = END ∨ key_mem b targets = true ∨ head targets = Some b →
    hop nodes outgoing a b.

Inductive walk nodes outgoing (start : pyval) : list pyval → pyval → Prop :=
| walk_nil : walk nodes outgoing start [] start
| walk_snoc path a b :
    walk nodes outgoing start path a → is_Some (kassoc a nodes) → hop nodes outgoing a b →
    walk nodes outgoing start (path ++ [a]) b.

(** The path ends at a node the run stopped at. *)
Definition stopped nodes outgoing start (path : list pyval) : Prop :=
  (∃ a, walk nodes outgoing start path a) ∨
  (∃ path' a, path = path' ++ [a] ∧ walk nodes outgoing start path' a ∧ is_Some (kassoc a nodes)).

Lemma custom_hop_walk nodes outgoing start i st w :
  walk nodes outgoing start st.2 st.1 →
  wp (custom_hop eg agents nodes outgoing i st)
     (λ f _, match f with
             | Next st' => walk nodes outgoing start st'.2 st'.1 ∧ py_len st'.2 = py_len st.2 + 1
             | Break st' => stopped nodes outgoing start st'.2 ∧ py_len st'.2 ≤ py_len st.2 + 1
             | Return _ => False
             end) (λ _ _, True) w.
Proof.
  destruct st as [cur path]. simpl. intros Hwalk.
  assert (Hlen : py_len (path ++ [cur]) = py_len path + 1) by (unfold py_len; rewrite length_app; simpl; lia).
  destruct (key_eqb cur END); [apply wp_ret; split; [left; by eexists|simpl; lia]|].
  apply wp_bind. unfold wp at 1, lift_res. unfold hashed at 1. destruct (hashable cur); [|done].
  destruct (kassoc cur nodes) as [node|] eqn:Hnode; [|done]. cbv zeta.
  assert (Hstop : stopped nodes outgoing start (path ++ [cur])) by (right; eexists _, _; eauto).
  destruct (is_type node "end") eqn:Hend; [by apply wp_ret; simpl; rewrite Hlen|].
  apply wp_bind. unfold wp at 1, lift_res. destruct (lookup_agent _ _ _) as [agent|e]; [|done].
  destruct (is_type node "router") eqn:Hrouter.
  - unfold router_hop. destruct (default [] (kassoc cur outgoing)) as [|first rest] eqn:Hout; [done|].
    apply default_eq_Some in Hout. apply wp_bind. unfold wp at 1, lift_res.
    destruct (res_mapM _ _) as [options|e]; [|done]. cbv zeta.
    apply wp_skip. intros decision w'. apply wp_ret. simpl. split; [|done].
    apply walk_snoc; [done|by eexists|]. eapply hop_router; [done|done|done|].
    unfold route. destruct (key_mem _ (first :: rest)) eqn:Hk; simpl; [by right; left|].
    case_bool_decide as Hc; [left; by rewrite Hc|by right; right].
  - apply wp_skip. intros output w'. destruct (default [] (kassoc cur outgoing)) as [|b rest] eqn:Hout;
      apply wp_ret; simpl; rewrite Hlen; [done|]. split; [|done].
    apply default_eq_Some in Hout. apply walk_snoc; [done|by eexists|].
    by eapply hop_agent.
Qed.

(** C17: a custom run is a walk of the graph: when it returns, the path it noted
    starts at the start node, every next node is one the graph allows after the
    previous, and it is at most sixty nodes long. *)
Theorem custom_run_is_walk w w' :
  run_custom eg graph agents w = (Ok tt, w') →
  ∃ nodes outgoing start path,
    (v ← require_key graph "nodes"; load_nodes v) = Ok nodes ∧ load_edges graph = Ok outgoing ∧
    require_key graph "start" = Ok start ∧
    assoc (u "path") (st_notes (w_state w')) = Some (VList path) ∧
    stopped nodes outgoing (VStr (str_of start)) path ∧ py_len path ≤ 60.
Proof.
  intros Heq. pose (Q := λ (_ : unit) (w' : World X), ∃ nodes outgoing start path,
    (v ← require_key graph "nodes"; load_nodes v) = Ok nodes ∧ load_edges graph = Ok outgoing ∧
    require_key graph "start" = Ok start ∧
    assoc (u "path") (st_notes (w_state w')) = Some (VList path) ∧
    stopped nodes outgoing (VStr (str_of start)) path ∧ py_len path ≤ 60).
  assert (Hwp : wp (run_custom eg graph agents) Q (λ _ _, True) w).
  2: { unfold wp in Hwp. by rewrite Heq in Hwp. }
  clear w' Heq. unfold run_custom. apply wp_bind. unfold wp at 1, lift_res.
  destruct (v ← require_key graph "nodes"; load_nodes v) as [nodes|] eqn:Hnodes; [|done].
  apply wp_bind. unfold wp at 1. destruct (load_edges graph) as [outgoing|] eqn:Hedges; [|done].
  apply wp_bind. unfold wp at 1. destruct (require_key graph "start") as [start|] eqn:Hstart; [|done].
  apply wp_bind. unfold wp at 1. destruct (custom_hops_of graph) as [hops|] eqn:Hh; [|done].
  apply bounded_range in Hh. set (first := VStr (str_of start)).
  assert (Hdone : ∀ path w1, stopped nodes outgoing first path ∧ py_len path ≤ 60 →
    wp (_ ← update_state (set_note (u "path") (VList path)); set_output last_output) Q (λ _ _, True) w1).
  { intros path w1 [Hs Hl]. apply wp_bind. unfold wp at 1, update_state, modify. unfold wp, set_output, Q.
    exists nodes, outgoing, start, path. split_and!; try done. simpl. by rewrite assoc_set_eq. }
  apply wp_bind. eapply wp_mono; [apply (wp_for_range _ 0 hops
      (λ i st _, walk nodes outgoing first st.2 st.1 ∧ py_len st.2 = i)
      (λ st _, stopped nodes outgoing first st.2 ∧ py_len st.2 ≤ 60) (λ _ _, False) (λ _ _, True))| |done].
  - lia.
  - intros i st w1 Hi [Hw Hl]. eapply wp_mono; [by apply custom_hop_walk| |done].
    intros [st'|st'|[]] w2 Hf; cbv beta iota in *; [|destruct Hf; split; [done|lia]|done].
    destruct Hf. split; [done|lia].
  - split; [apply walk_nil|done].
  - intros [st|st|[]] w1 Hf; cbv beta iota in Hf; [| |done]; apply wp_bind.
    + unfold wp at 1, update_state, modify. cbv zeta. apply Hdone.
      destruct Hf as [Hw Hl]. split; [left; by eexists|lia].
    + apply wp_ret. cbv zeta. by apply Hdone.
Qed.
End flow.

(** ** Witnesses *)

(** An agent that always answers with the same text. *)
Definition steady_reply (text : string) (n : nat) (rq : CompletionRequest) : list pystr * res exn LLMResult :=
  ([], Ok (demo_result (u text) [])).
Definition demo_agents : AgentMap := [(u "a", demo_agent); (u "b", demo_agent)].
Definition node_of (kvs : list (string * string)) : pyval :=
  VDict (map (λ kv, (u kv.1, VStr (u kv.2))) kvs).

Definition demo_nodes : list pyval :=
  [node_of [("agent_id", "a")]; node_of [("agent_id", "b"); ("instruction", "Check it.")]]%string.
Definition demo_pipeline : Graph := [(u "nodes", VList demo_nodes)].

Lemma pipeline_follows_graph_witness :
  @run_pipeline _ tool_env demo_engine demo_pipeline demo_agents demo_run_world
  = m_bind (λ _, set_output last_output)
      (m_iter (@plan_turn _ tool_env demo_engine)
        (zip [demo_agent; demo_agent] (imap (λ k x, node_instruction (Z.of_nat k) x) demo_nodes)))
      demo_run_world.
Proof.
  assert (Hv : @validate_pipeline (@env_tables tool_env) demo_pipeline = Ok [VStr (u "a"); VStr (u "b")])
    by (vm_compute; reflexivity).
  assert (Hr : resolves demo_agents [VStr (u "a"); VStr (u "b")] [demo_agent; demo_agent]).
  { repeat constructor; eexists; split; reflexivity. }
  assert (Hn : dict_get demo_pipeline (u "nodes") = VList demo_nodes) by reflexivity.
  exact (pipeline_follows_graph demo_engine demo_pipeline demo_agents _ _ _ demo_run_world Hv Hr Hn).
Defined.
