(* ===== verification/PresetDemo.v ===== *)
(** * Concrete runs of the presets

    Small graphs run on the engine of [EngineTurn]'s demonstration, where the
    theorems about presets are applied. *)

From S2P Require Import Prelude PyStr PyFloat PyVal PyRegex PyJson Artifacts Config State Budget.
From S2P Require Import Registry Providers Pricing Keys Events World Router ToolBase ToolArtifacts.
From S2P Require Import ToolRegistry Engine EngineSafety EngineTurn Workflow Presets TaskOrder.
From S2P Require Import PresetRuns PresetFlow.

(** ** An agent that always says "Done." *)

Definition steady_reply (n : nat) (rq : CompletionRequest) : list pystr * res exn LLMResult :=
  ([], Ok (demo_result (u "Done.") [])).
#[local] Instance steady_env : Env := demo_env steady_reply.
#[local] Instance steady_engine_quiet : QuietTools demo_engine.
Proof.
  intros agent t arguments context Ht Hc. change (t ∈ [ListArtifacts; ReadArtifact]) in Ht.
  rewrite !elem_of_cons, elem_of_nil in Ht. destruct Ht as [->|[->|[]]].
  - exact (ListArtifacts_quiet arguments context Hc).
  - exact (ReadArtifact_quiet arguments context Hc).
Qed.

Definition demo_debate : Graph :=
  [(u "debaters", VList [VStr (u "a"); VStr (u "b")]); (u "judge_agent_id", VStr (u "a"))].

#[local] Abbreviation debate_run := (run_debate demo_engine demo_debate demo_agents demo_run_world).

Lemma debate_preset : get_preset demo_engine (u "debate") = Ok (run_debate demo_engine).
Proof. reflexivity. Qed.

Definition demo_result_usage : Usage := mkUsage 0 0 0 0 [].

Definition cheap (r : Rate) : bool :=
  match usd_cost r demo_result_usage with
  | Some x => match usd_to_microcents x with
              | Some c => (0 <=? c) && (c <=? 10000000)
              | None => true
              end
  | None => true
  end.

Lemma models_cheap : forallb (λ kv : pystr * ModelSpec, cheap (rate_from_spec kv.2)) MODELS = true.
Proof. vm_cast_no_check (eq_refl true). Qed.

(** Every reply is priced below ten cents. *)
Lemma steady_costs cost : call_cost default_price_book cost → 0 ≤ cost ≤ 10000000.
Proof.
  intros (n & rq & reply & model & Hr & Hc).
  assert (Hus : lr_usage reply = demo_result_usage) by by injection Hr as <-.
  rewrite Hus in Hc. clear Hr Hus. unfold cost_microcents, rate_for in Hc.
  change (assoc model (pb_overrides default_price_book)) with (@None Rate) in Hc.
  unfold get_spec in Hc. destruct (assoc model MODELS) as [spec|] eqn:Hm; [|done].
  apply assoc_Some_elem in Hm. pose proof models_cheap as Hall.
  rewrite forallb_forall in Hall. specialize (Hall _ (proj1 (list_elem_of_In _ _) Hm)).
  unfold cheap in Hall. cbn [snd] in Hall. unfold mbind, res_bind, fmap, res_fmap in Hc.
  destruct (usd_cost (rate_from_spec spec) demo_result_usage) as [x|]; [|done]. cbn [of_float] in Hc.
  destruct (usd_to_microcents x) as [c|]; [|done]. injection Hc as <-.
  apply andb_true_iff in Hall as [H1%Z.leb_le H2%Z.leb_le]. by split.
Qed.

(** ** The theorems about every preset *)

Lemma preset_turns_bounded_witness :
  step_index demo_run_world ≤ step_index debate_run.2
    ≤ step_index demo_run_world + turn_bound (u "debate") demo_debate.
Proof.
  exact (preset_turns_bounded demo_engine (u "debate") demo_debate demo_agents (run_debate demo_engine) demo_run_world debate_preset).
Defined.

Lemma preset_budget_kept_witness :
  let b := w_budget demo_run_world in let b' := w_budget debate_run.2 in
  b_steps_used b ≤ b_steps_used b' ≤ Z.max (b_steps_used b) (b_max_steps b) ∧
  b_spent b ≤ b_spent b' ∧ (b_spent b' = b_spent b ∨ b_spent b' < b_max_cost b + 10000000).
Proof.
  exact (preset_budget_kept demo_engine (u "debate") demo_debate demo_agents (run_debate demo_engine) demo_run_world 10000000
           debate_preset steady_costs).
Defined.

Lemma preset_history_kept_witness :
  state_grows (w_state demo_run_world) (w_state debate_run.2) ∧
  bus_grows (w_bus demo_run_world) (w_bus debate_run.2).
Proof.
  exact (preset_history_kept demo_engine (u "debate") demo_debate demo_agents (run_debate demo_engine) demo_run_world debate_preset).
Defined.

Lemma debate_returns : ∃ w', debate_run = (Ok tt, w').
Proof.
  assert (Hok : is_ok debate_run.1 = true) by (vm_compute; reflexivity).
  destruct debate_run as [[[]|e] w']; [exists w'; exact eq_refl|discriminate Hok].
Qed.

Lemma preset_leaves_output_witness :
  ∃ w' output, debate_run = (Ok tt, w') ∧ st_final_output (w_state w') = Some output.
Proof.
  destruct debate_returns as [w' Heq].
  destruct (preset_leaves_output demo_engine (u "debate") demo_debate demo_agents (run_debate demo_engine) demo_run_world w'
              debate_preset Heq) as [output Ho].
  exists w', output. split; [exact Heq|exact Ho].
Defined.

Lemma debate_length_witness :
  ∃ w' rounds, debate_run = (Ok tt, w') ∧ 1 ≤ rounds ≤ 6 ∧
    step_index w' = step_index demo_run_world + (rounds * graph_size demo_debate "debaters" + 1).
Proof.
  destruct debate_returns as [w' Heq].
  destruct (debate_length demo_engine demo_debate demo_agents demo_run_world w' Heq)
    as (rounds & _ & Hr & Hs).
  exists w', rounds. split; [exact Heq|]. split; [exact Hr|exact Hs].
Defined.

(** The blackboard: a plan given backwards. *)
Definition demo_task (id dep : string) : pyval :=
  VDict [(u "id", VStr (u id)); (u "worker", VStr (u "b")); (u "depends_on", VList [VStr (u dep)])].
Definition demo_plan : pyval := VList [demo_task "t3" "t2"; demo_task "t2" "t1"; demo_task "t1" "t0"].

Lemma blackboard_work_witness :
  ∃ tasks order, normalise_tasks demo_plan demo_agents 8 = Ok tasks ∧ order ≡ₚ tasks ∧
    (acyclic tasks → in_order [] order) ∧
    work_loop demo_engine (length tasks) demo_agents ([], tasks) demo_run_world
    = m_iter (run_task demo_engine demo_agents) order demo_run_world.
Proof.
  assert (Hok : is_ok (normalise_tasks demo_plan demo_agents 8) = true) by (vm_compute; reflexivity).
  destruct (normalise_tasks demo_plan demo_agents 8) as [tasks|e] eqn:Hn; [|discriminate Hok].
  assert (H8 : 0 ≤ 8) by lia.
  destruct (blackboard_work demo_engine demo_plan demo_agents 8 tasks H8 Hn)
    as (_ & _ & order & Hp & Ho & Hw).
  exists tasks, order. split; [reflexivity|]. split; [exact Hp|]. split; [exact Ho|exact (Hw demo_run_world)].
Defined.

(** ... runs t1, t2, t3. *)
Lemma demo_order :
  (λ r, map tk_id (schedule 3 ([], r))) <$> normalise_tasks demo_plan demo_agents 8
  = Ok [u "t1"; u "t2"; u "t3"].
Proof. vm_compute. reflexivity. Qed.

(** A custom graph of two agents in a row. *)
Definition demo_custom : Graph :=
  [(u "start", VStr (u "n1"));
   (u "nodes", VList [node_of [("id", "n1"); ("agent_id", "a")]; node_of [("id", "n2"); ("agent_id", "b")]]);
   (u "edges", VList [node_of [("from", "n1"); ("to", "n2")]; node_of [("from", "n2"); ("to", "end")]])]%string.
#[local] Abbreviation custom_run := (run_custom demo_engine demo_custom demo_agents demo_run_world).

Lemma custom_run_is_walk_witness :
  ∃ w' nodes outgoing start path, custom_run = (Ok tt, w') ∧
    assoc (u "path") (st_notes (w_state w')) = Some (VList path) ∧
    stopped nodes outgoing (VStr (str_of start)) path ∧ py_len path ≤ 60.
Proof.
  assert (Hok : is_ok custom_run.1 = true) by (vm_compute; reflexivity).
  destruct custom_run as [[[]|e] w'] eqn:Heq; [|discriminate Hok].
  destruct (custom_run_is_walk demo_engine demo_custom demo_agents demo_run_world w' Heq)
    as (nodes & outgoing & start & path & _ & _ & _ & Hp & Hs & Hl).
  exists w', nodes, outgoing, start, path. split; [reflexivity|]. split; [exact Hp|]. split; [exact Hs|exact Hl].
Defined.

(** A router without outgoing edges validates, and fails when the run reaches it,
    after the turns before it have been paid for. *)
Definition dangling_router : Graph :=
  [(u "start", VStr (u "n1"));
   (u "nodes", VList [node_of [("id", "n1"); ("agent_id", "a")];
                      node_of [("id", "n2"); ("agent_id", "b"); ("type", "router")]]);
   (u "edges", VList [node_of [("from", "n1"); ("to", "n2")]])]%string.

Lemma dangling_router_validates :
  is_ok (validate_graph (u "custom") dangling_router) = true ∧
  (let '(r, w') := run_custom demo_engine dangling_router demo_agents demo_run_world in
   r = Err (WorkflowConfigError (u "router node 'n2' has no outgoing edges")) ∧
   b_steps_used (w_budget w') = 1).
Proof. vm_compute. split; [reflexivity|]. split; reflexivity. Qed.

(** An infinite bound is not a configuration error. *)
Lemma infinite_bound_escapes :
  validate_graph (u "debate") (demo_debate ++ [(u "max_steps", VFloat (FInf false))])
  = Err (OverflowError (u "cannot convert float infinity to integer")).
Proof. vm_compute. reflexivity. Qed.

(** Dependencies that are not a list abort the run. *)
Lemma scalar_dependencies_escape :
  normalise_tasks (VList [VDict [(u "depends_on", VInt 5)]]) demo_agents 8
  = Err (TypeError (u "'int' object is not iterable")).
Proof. vm_compute. reflexivity. Qed.
