(* ===== verification/Database.v ===== *)
(** * Tables and sessions (src/core/models.py, src/core/db.py)

    The tables, as lists of rows with the columns models.py declares (creation and
    update times, and row ids that nothing reads, are left out), and a session: the
    committed tables, the tables as the open transaction sees them, and whether a
    failed statement has left the transaction unusable.  SQLAlchemy and the
    database behind it are not part of the repository; what the model takes from
    their documentation is that a unique constraint refuses a second row, that
    after a statement has failed every other one is refused until [rollback], and
    that only [commit] publishes.  Which statements fail is an argument
    ([db_fault]), so every pattern of failures is covered. *)

From S2P Require Import Prelude PyStr PyFloat PyVal State Pricing Workflow World.

(** ** Rows *)

Record Org := mkOrg {
  og_id : pystr; og_name : pystr; og_slug : pystr; og_key_mode : pystr; og_credits_cents : Z;
  og_is_active : bool }.

Record User := mkUser {
  us_id : pystr; us_email : pystr; us_password_hash : pystr; us_name : option pystr; us_is_active : bool;
  us_is_superuser : bool; us_last_login_at : option Z; us_token_epoch : Z }.

Record Membership := mkMembership { ms_user_id : pystr; ms_org_id : pystr; ms_role : pystr }.

Record RefreshToken := mkRefresh {
  rt_user_id : pystr; rt_token_hash : pystr; rt_family_id : pystr; rt_expires_at : Z;
  rt_used_at : option Z; rt_revoked_at : option Z; rt_user_agent : option pystr;
  rt_ip_address : option pystr }.

Record ApiKey := mkApiKey {
  ak_id : pystr; ak_org_id : pystr; ak_provider : pystr; ak_ciphertext : pystr; ak_mask : pystr;
  ak_fingerprint : pystr; ak_is_active : bool; ak_last_used_at : option Z; ak_last_error : option pystr;
  ak_created_by : option pystr }.

(** The columns an [AgentSpec] is made of, and the rest. *)
Record AgentRow := mkAgentRow {
  ar_org_id : pystr; ar_is_active : bool; ar_created_by : option pystr; ar_spec : AgentSpec }.

Record WorkflowRow := mkWorkflowRow {
  wf_id : pystr; wf_org_id : pystr; wf_name : pystr; wf_description : pystr; wf_preset : pystr;
  wf_graph : Graph; wf_is_active : bool; wf_created_by : option pystr }.

Record Run := mkRun {
  ru_id : pystr; ru_org_id : pystr; ru_workflow_id : pystr; ru_created_by : option pystr;
  ru_status : pystr; ru_input : pystr; ru_output : option pystr; ru_error : option pystr;
  ru_key_mode : pystr; ru_cost_microcents : Z; ru_cost_cents : Z; ru_billable_microcents : Z;
  ru_tokens_in : Z; ru_tokens_out : Z; ru_steps_used : Z; ru_max_steps : Z; ru_max_cost_cents : Z;
  ru_cancel_requested : bool; ru_idempotency_key : option pystr;
  ru_started_at : option Z; ru_finished_at : option Z }.

Record RunStep := mkRunStep {
  rs_run_id : pystr; rs_index : Z; rs_agent_id : pystr; rs_agent_name : pystr; rs_role : pystr;
  rs_model : pystr; rs_provider : pystr; rs_input : pyval; rs_output : pystr;
  rs_stop_reason : option pystr; rs_tokens_in : Z; rs_tokens_out : Z; rs_cached_tokens : Z;
  rs_reasoning_tokens : Z; rs_cost_microcents : Z; rs_latency_ms : Z; rs_attempts : Z;
  rs_model_calls : Z; rs_tool_calls : Z }.

Record ArtifactRow := mkArtifactRow {
  aw_id : pystr; aw_run_id : pystr; aw_org_id : pystr; aw_path : pystr; aw_kind : pystr; aw_language : option pystr;
  aw_content : pystr; aw_size_bytes : Z; aw_version : Z; aw_produced_by_step : Z;
  aw_produced_by_agent : pystr }.

Record ToolCallLog := mkToolLog {
  tg_run_id : pystr; tg_step_index : Z; tg_call_index : Z; tg_agent_id : pystr; tg_agent_name : pystr;
  tg_tool : pystr; tg_arguments : list (pystr * pyval); tg_result : pystr; tg_is_error : bool;
  tg_latency_ms : Z; tg_meta : list (pystr * pyval) }.

Record CreditLedger := mkLedger {
  cl_id : pystr; cl_org_id : pystr; cl_kind : pystr; cl_amount_cents : Z; cl_balance_after_cents : Z;
  cl_run_id : option pystr; cl_description : pystr; cl_idempotency_key : pystr;
  cl_created_by : option pystr }.

(** A model and the columns of its price a [Rate] is made of, and the rest. *)
Record ModelPrice := mkPrice {
  mp_model : pystr; mp_rate : Rate; mp_note : pystr; mp_updated_by : option pystr }.

Record AuditLog := mkAudit {
  al_org_id : option pystr; al_actor_user_id : option pystr; al_action : pystr;
  al_target_type : option pystr; al_target_id : option pystr; al_ip_address : option pystr;
  al_user_agent : option pystr; al_detail : list (pystr * pyval) }.

Record Db := mkDb {
  db_orgs : list Org; db_users : list User; db_memberships : list Membership;
  db_tokens : list RefreshToken; db_api_keys : list ApiKey; db_agents : list AgentRow;
  db_workflows : list WorkflowRow; db_runs : list Run; db_steps : list RunStep;
  db_artifacts : list ArtifactRow; db_tool_calls : list ToolCallLog; db_ledger : list CreditLedger;
  db_prices : list ModelPrice; db_audit : list AuditLog }.

Definition empty_db : Db := mkDb [] [] [] [] [] [] [] [] [] [] [] [] [] [].
Definition set_orgs x d :=
  mkDb x (db_users d) (db_memberships d) (db_tokens d) (db_api_keys d) (db_agents d) (db_workflows d)
    (db_runs d) (db_steps d) (db_artifacts d) (db_tool_calls d) (db_ledger d) (db_prices d)
    (db_audit d).
Definition set_users x d :=
  mkDb (db_orgs d) x (db_memberships d) (db_tokens d) (db_api_keys d) (db_agents d) (db_workflows d)
    (db_runs d) (db_steps d) (db_artifacts d) (db_tool_calls d) (db_ledger d) (db_prices d)
    (db_audit d).
Definition set_memberships x d :=
  mkDb (db_orgs d) (db_users d) x (db_tokens d) (db_api_keys d) (db_agents d) (db_workflows d) (db_runs d)
    (db_steps d) (db_artifacts d) (db_tool_calls d) (db_ledger d) (db_prices d) (db_audit d).
Definition set_tokens x d :=
  mkDb (db_orgs d) (db_users d) (db_memberships d) x (db_api_keys d) (db_agents d) (db_workflows d)
    (db_runs d) (db_steps d) (db_artifacts d) (db_tool_calls d) (db_ledger d) (db_prices d)
    (db_audit d).
Definition set_api_keys x d :=
  mkDb (db_orgs d) (db_users d) (db_memberships d) (db_tokens d) x (db_agents d) (db_workflows d)
    (db_runs d) (db_steps d) (db_artifacts d) (db_tool_calls d) (db_ledger d) (db_prices d)
    (db_audit d).
Definition set_agents x d :=
  mkDb (db_orgs d) (db_users d) (db_memberships d) (db_tokens d) (db_api_keys d) x (db_workflows d)
    (db_runs d) (db_steps d) (db_artifacts d) (db_tool_calls d) (db_ledger d) (db_prices d)
    (db_audit d).
Definition set_workflows x d :=
  mkDb (db_orgs d) (db_users d) (db_memberships d) (db_tokens d) (db_api_keys d) (db_agents d) x
    (db_runs d) (db_steps d) (db_artifacts d) (db_tool_calls d) (db_ledger d) (db_prices d)
    (db_audit d).
Definition set_runs x d :=
  mkDb (db_orgs d) (db_users d) (db_memberships d) (db_tokens d) (db_api_keys d) (db_agents d)
    (db_workflows d) x (db_steps d) (db_artifacts d) (db_tool_calls d) (db_ledger d) (db_prices d)
    (db_audit d).
Definition set_steps x d :=
  mkDb (db_orgs d) (db_users d) (db_memberships d) (db_tokens d) (db_api_keys d) (db_agents d)
    (db_workflows d) (db_runs d) x (db_artifacts d) (db_tool_calls d) (db_ledger d) (db_prices d)
    (db_audit d).
Definition set_artifact_rows x d :=
  mkDb (db_orgs d) (db_users d) (db_memberships d) (db_tokens d) (db_api_keys d) (db_agents d)
    (db_workflows d) (db_runs d) (db_steps d) x (db_tool_calls d) (db_ledger d) (db_prices d)
    (db_audit d).
Definition set_tool_calls x d :=
  mkDb (db_orgs d) (db_users d) (db_memberships d) (db_tokens d) (db_api_keys d) (db_agents d)
    (db_workflows d) (db_runs d) (db_steps d) (db_artifacts d) x (db_ledger d) (db_prices d)
    (db_audit d).
Definition set_ledger x d :=
  mkDb (db_orgs d) (db_users d) (db_memberships d) (db_tokens d) (db_api_keys d) (db_agents d)
    (db_workflows d) (db_runs d) (db_steps d) (db_artifacts d) (db_tool_calls d) x (db_prices d)
    (db_audit d).
Definition set_prices x d :=
  mkDb (db_orgs d) (db_users d) (db_memberships d) (db_tokens d) (db_api_keys d) (db_agents d)
    (db_workflows d) (db_runs d) (db_steps d) (db_artifacts d) (db_tool_calls d) (db_ledger d) x
    (db_audit d).
Definition set_audit x d :=
  mkDb (db_orgs d) (db_users d) (db_memberships d) (db_tokens d) (db_api_keys d) (db_agents d)
    (db_workflows d) (db_runs d) (db_steps d) (db_artifacts d) (db_tool_calls d) (db_ledger d)
    (db_prices d) x.

(** [session.get(Org, id)], [session.get(Run, id)] *)
Definition find_org (id : pystr) (d : Db) : option Org :=
  List.find (λ o, bool_decide (og_id o = id)) (db_orgs d).
Definition find_run (id : pystr) (d : Db) : option Run :=
  List.find (λ r, bool_decide (ru_id r = id)) (db_runs d).
Definition find_workflow (id : pystr) (d : Db) : option WorkflowRow :=
  List.find (λ w, bool_decide (wf_id w = id)) (db_workflows d).

(** Assigning the attributes of a loaded row *)
Definition update_org (id : pystr) (f : Org → Org) (d : Db) : Db :=
  set_orgs (map (λ o, if bool_decide (og_id o = id) then f o else o) (db_orgs d)) d.
Definition update_run (id : pystr) (f : Run → Run) (d : Db) : Db :=
  set_runs (map (λ r, if bool_decide (ru_id r = id) then f r else r) (db_runs d)) d.
Definition set_credits (z : Z) (o : Org) : Org :=
  mkOrg (og_id o) (og_name o) (og_slug o) (og_key_mode o) z (og_is_active o).

(** ** Sessions *)

Record Session := mkSession {
  ss_committed : Db; ss_working : Db; ss_broken : bool; ss_clock : nat }.

(** A fresh session on the committed tables. *)
Definition open_session (d : Db) : Session := mkSession d d false 0.

Definition set_working d s := mkSession (ss_committed s) d (ss_broken s) (ss_clock s).
Definition break s := mkSession (ss_committed s) (ss_working s) true (S (ss_clock s)).
Definition tick_session s := mkSession (ss_committed s) (ss_working s) (ss_broken s) (S (ss_clock s)).

(** What the winner of a race for a ledger key had posted under it. *)
Record Rival := mkRival {
  rv_id : pystr; rv_kind : pystr; rv_amount_cents : Z; rv_description : pystr; rv_run_id : option pystr;
  rv_created_by : option pystr }.

Class DbEnv := {
  db_fault : nat → option exn;       (* does the n-th statement of the session fail? *)
  db_race : nat → bool;              (* has another transaction committed the same unique key? *)
  db_rival : nat → Rival;            (* and with what? *)
  db_uuid : nat → pystr;
  db_now : nat → Z }.

(** How a statement can fail: the database or its driver, or a cancelled task. *)
Definition statement_failure (e : exn) : bool :=
  service_failure e || match e with CancelledError | TimerCancelled false => true | _ => false end.

Definition PendingRollback : exn :=
  ExternalError (u "PendingRollbackError")
    (u "This Session's transaction has been rolled back due to a previous exception during flush.").

Section session.
Context `{DbEnv}.
Abbreviation DB A := (M Session exn A).

(** One statement reaches the database, or fails and breaks the transaction. *)
Definition statement : DB unit := λ s,
  if ss_broken s then (Err PendingRollback, s)
  else match db_fault (ss_clock s) with
       | Some e => if statement_failure e then (Err e, break s) else (Ok tt, tick_session s)
       | None => (Ok tt, tick_session s)
       end.

(** [await session.execute(select(...))] *)
Definition query {A} (f : Db → A) : DB A := λ s,
  match statement s with
  | (Ok _, s') => (Ok (f (ss_working s')), s')
  | (Err e, s') => (Err e, s')
  end.

(** Attribute assignments and [session.add] wait for the next flush. *)
Definition change (f : Db → Db) : DB unit := λ s, (Ok tt, set_working (f (ss_working s)) s).

(** [session.add(row); await session.flush()], with the unique constraint of the
    row's table.  When another transaction has committed the same key first, the
    committed tables are those with what it wrote, [theirs]: a [rollback] goes back
    to them. *)
Definition insert_against (theirs : nat → Db → option Db) (allowed : Db → bool) (add : Db → Db) : DB unit := λ s,
  match statement s with
  | (Ok _, s') =>
      match (if db_race (ss_clock s) then theirs (ss_clock s) (ss_committed s') else None) with
      | Some d => (Err IntegrityError, mkSession d (ss_working s') true (S (ss_clock s')))
      | None => if allowed (ss_working s') then (Ok tt, set_working (add (ss_working s')) s')
                else (Err IntegrityError, break s')
      end
  | (Err e, s') => (Err e, s')
  end.

(** Where the code does not go back to what the other transaction wrote, the rest
    of the session does not read it. *)
Definition insert : (Db → bool) → (Db → Db) → DB unit := insert_against (λ _ d, Some d).

(** A new transaction sees the committed tables. *)
Definition rollback : DB unit := λ s,
  (Ok tt, mkSession (ss_committed s) (ss_committed s) false (ss_clock s)).

Definition commit : DB unit := λ s,
  match statement s with
  | (Ok _, s') => (Ok tt, mkSession (ss_working s') (ss_working s') false (ss_clock s'))
  | (Err e, s') => (Err e, s')
  end.

(** [datetime.now(UTC)] *)
Definition now_utc : DB Z := λ s, (Ok (db_now (ss_clock s)), s).

(** [session_scope]: commit on success, roll back on an [Exception]; a
    [CancelledError] only closes the session, which drops the transaction too.
    The body runs in a world that contains the session. *)
Definition session_scope {W A} (on_session : DB unit → M W exn unit) (body : M W exn A) : M W exn A := λ w,
  match (a ← body; _ ← on_session commit; m_ret a) w with
  | (Ok a, w') => (Ok a, w')
  | (Err e, w') => (Err e, (on_session rollback w').2)
  end.

End session.

(** ** Unique constraints *)

Definition step_allowed (row : RunStep) (d : Db) : bool :=
  forallb (λ r, negb (bool_decide (rs_run_id r = rs_run_id row) && (rs_index r =? rs_index row))) (db_steps d).
Definition tool_call_allowed (row : ToolCallLog) (d : Db) : bool :=
  forallb (λ r, negb (bool_decide (tg_run_id r = tg_run_id row) && (tg_step_index r =? tg_step_index row)
                       && (tg_call_index r =? tg_call_index row))) (db_tool_calls d).
Definition artifact_allowed (row : ArtifactRow) (d : Db) : bool :=
  forallb (λ r, negb (bool_decide (aw_run_id r = aw_run_id row) && bool_decide (aw_path r = aw_path row)
                       && (aw_version r =? aw_version row))) (db_artifacts d).
Definition ledger_allowed (row : CreditLedger) (d : Db) : bool :=
  forallb (λ r, negb (bool_decide (cl_org_id r = cl_org_id row)
                       && bool_decide (cl_idempotency_key r = cl_idempotency_key row))) (db_ledger d).
