(* ===== verification/Auditing.v ===== *)
(** * The audit log (src/core/audit.py)

    Entries are added to the caller's session, so they are committed or dropped
    with the change they describe; what looks like a credential is masked first. *)

From S2P Require Import Prelude PyStr PyFloat PyVal State Pricing Workflow World Database.

(** Keys whose values must never reach the audit log. *)
Definition REDACT : list pystr :=
  [u "password"; u "api_key"; u "token"; u "secret"; u "ciphertext"; u "authorization"].

Section audit.
Context `{PyTables}.

Definition sensitive (key : pystr) : bool := existsb (λ marker, contains marker (lower key)) REDACT.

Definition REDACTED : pyval := VStr (u "[redacted]").

(** [_scrub], the [elif isinstance(value, dict)] branch on the value *)
Fixpoint scrub_value (v : pyval) : pyval :=
  match v with
  | VDict d =>
      VDict ((fix scrub_items (d : list (pystr * pyval)) : list (pystr * pyval) :=
        match d with
        | [] => []
        | (k, x) :: d' => (k, if sensitive k then REDACTED else scrub_value x) :: scrub_items d'
        end) d)
  | _ => v
  end.

Definition scrub (detail : list (pystr * pyval)) : list (pystr * pyval) :=
  map (λ kv, (kv.1, if sensitive kv.1 then REDACTED else scrub_value kv.2)) detail.

(** The agent string, bounded, and [None] when empty *)
Definition bounded_agent (user_agent : option pystr) : option pystr :=
  match slice_to 400 (default [] user_agent) with
  | [] => None
  | s => Some s
  end.

Definition audit_row (action : pystr) (org_id actor target_type target_id ip_address user_agent : option pystr)
    (detail : list (pystr * pyval)) : AuditLog :=
  mkAudit org_id actor action target_type target_id ip_address (bounded_agent user_agent) (scrub detail).

(** [audit.record] *)
Definition audit_record (row : AuditLog) : M Session exn unit :=
  change (λ d, set_audit (db_audit d ++ [row]) d).

(** ** Properties *)

Lemma scrub_items_eq d :
  scrub_value (VDict d) = VDict (scrub d).
Proof.
  simpl. f_equal. unfold scrub. induction d as [|[k x] d IH]; [done|]. simpl. by rewrite IH.
Qed.

(** A value of the detail reached through dicts, with the keys on the way. *)
Inductive reached : list (pystr * pyval) → list pystr → pyval → Prop :=
| reached_here d k v : (k, v) ∈ d → reached d [k] v
| reached_inside d k d' ks v : (k, VDict d') ∈ d → reached d' ks v → reached d (k :: ks) v.

(** nothing under a sensitive key survives: in the detail that is stored,
    every value reached through dicts under a key that contains a marker, in any
    letter case, is the mask, and every other key is kept with its value scrubbed. *)
Theorem scrub_redacts d ks v :
  reached (scrub d) ks v → Exists (λ k, sensitive k = true) ks → v = REDACTED.
Proof.
  intros Hr. remember (scrub d) as d' eqn:Hd. revert d Hd. induction Hr as [d' k v Hin|d' k d1 ks v Hin Hr IH];
    intros d ->; unfold scrub in Hin; apply list_elem_of_fmap in Hin as ([k0 x] & Heq & Hx); simpl in Heq.
  - intros Hs. inversion Hs as [? ? Hk|? ? Hn]; subst; [|by inversion Hn].
    injection Heq as -> ->. by rewrite Hk.
  - injection Heq as -> Hv. destruct (sensitive k0) eqn:Hk0; [done|].
    intros Hs. apply Exists_cons in Hs as [Hk|Hks]; [congruence|].
    destruct x as [| | | | | |d0]; try done. rewrite scrub_items_eq in Hv. injection Hv as ->.
    by eapply IH.
Qed.
End audit.

Definition demo_detail : list (pystr * pyval) :=
  [(u "user", VDict [(u "API_Key", VStr (u "sk-1")); (u "name", VStr (u "Ada"))])].

#[local] Existing Instance ascii_tables.

Lemma scrub_redacts_witness :
  ∃ v, reached (scrub demo_detail) [u "user"; u "API_Key"] v ∧ v = REDACTED.
Proof.
  eexists. split.
  - apply (reached_inside _ (u "user") (scrub [(u "API_Key", VStr (u "sk-1")); (u "name", VStr (u "Ada"))])).
    + left.
    + apply reached_here. left.
  - apply (scrub_redacts demo_detail [u "user"; u "API_Key"]).
    + apply (reached_inside _ (u "user") (scrub [(u "API_Key", VStr (u "sk-1")); (u "name", VStr (u "Ada"))])).
      * left.
      * apply reached_here. left.
    + right. left. reflexivity.
Defined.
