(* ===== verification/Billing.v ===== *)
(** * The credit ledger (src/core/billing.py)

    The ledger is append-only and keyed: one entry per organisation and
    idempotency key; the organisation's balance is a projection of it kept in the
    same transaction. *)

From S2P Require Import Prelude PyStr PyFloat PyVal Config State Registry Providers Pricing Workflow.
From S2P Require Import World Database.

(** What [post_entry] returns. *)
Record LedgerEntry := mkEntry' {
  le_id : pystr; le_kind : pystr; le_amount_cents : Z; le_balance_after_cents : Z; le_description : pystr }.

Definition entry_of (row : CreditLedger) : LedgerEntry :=
  mkEntry' (cl_id row) (cl_kind row) (cl_amount_cents row) (cl_balance_after_cents row) (cl_description row).

(** [int(round(raw_microcents * (100 + percent) / 100))], in binary64 *)
Definition apply_markup (settings : Settings) (raw_microcents : Z) : res exn Z :=
  match fl_div_ZZ (raw_microcents * (100 + cfg_credit_markup_percent settings)) 100 with
  | Some x => Ok (fl_round x)
  | None => Err (OverflowError (u "integer division result too large for a float"))
  end.

Definition is_integrity (e : exn) : bool := match e with IntegrityError => true | _ => false end.

Definition posted (org_id key : pystr) (row : CreditLedger) : bool :=
  bool_decide (cl_org_id row = org_id) && bool_decide (cl_idempotency_key row = key).
Definition find_entry (org_id key : pystr) (d : Db) : option CreditLedger :=
  List.find (posted org_id key) (db_ledger d).

(** What an entry is about, the arguments of [post_entry]. *)
Record Posting := mkPosting {
  po_org_id : pystr; po_kind : pystr; po_amount_cents : Z; po_key : pystr; po_description : pystr;
  po_run_id : option pystr; po_created_by : option pystr }.

(** The row of a posting, and the tables with it: the balance and the entry. *)
Definition row_of (p : Posting) (id : pystr) (balance_after : Z) : CreditLedger :=
  mkLedger id (po_org_id p) (po_kind p) (po_amount_cents p) balance_after (po_run_id p)
    (slice_to 400 (po_description p)) (po_key p) (po_created_by p).

Definition post_db (p : Posting) (id : pystr) (after : Z) (d : Db) : Db :=
  let d1 := update_org (po_org_id p) (set_credits after) d in
  set_ledger (db_ledger d1 ++ [row_of p id after]) d1.

(** The committed tables after another transaction has posted under the key of [p];
    nobody else can post for an organisation that is not committed. *)
Definition rival_posting (p : Posting) (v : Rival) : Posting :=
  mkPosting (po_org_id p) (rv_kind v) (rv_amount_cents v) (po_key p) (rv_description v) (rv_run_id v)
    (rv_created_by v).
Definition rival_commits (p : Posting) (v : Rival) (d : Db) : option Db :=
  match find_org (po_org_id p) d with
  | None => None
  | Some org =>
      match find_entry (po_org_id p) (po_key p) d with
      | Some _ => Some d
      | None => Some (post_db (rival_posting p v) (rv_id v) (og_credits_cents org + rv_amount_cents v) d)
      end
  end.

Section billing.
Context `{DbEnv} (settings : Settings).
Abbreviation DB A := (M Session exn A).

Definition org_not_found {A} (org_id : pystr) : DB A :=
  raise (ValueError (u "organisation " ++ org_id ++ u " not found")).

(** [_locked_org] *)
Definition locked_org (org_id : pystr) : DB Org :=
  o ← query (find_org org_id);
  match o with Some org => m_ret org | None => org_not_found org_id end.

Definition balance (org_id : pystr) : DB Z :=
  o ← query (find_org org_id);
  m_ret (match o with Some org => og_credits_cents org | None => 0 end).

Definition ensure_can_start (org_id : pystr) (required_cents : Z) : DB unit :=
  if negb (cfg_billing_enabled settings) then m_ret tt
  else
    o ← query (find_org org_id);
    match o with
    | None => org_not_found org_id
    | Some org =>
        if og_credits_cents org <? required_cents
        then raise (InsufficientCredits (og_credits_cents org) required_cents)
        else m_ret tt
    end.

Definition uuid : DB pystr := λ s, (Ok (db_uuid (ss_clock s)), s).

(** [post_entry]; a lost race rolls the transaction back, to tables that have the
    winner's entry, and starts again, at most as often as the interpreter lets a
    function call itself. *)
Fixpoint post_entry (recursion : nat) (p : Posting) : DB LedgerEntry :=
  existing ← query (find_entry (po_org_id p) (po_key p));
  match existing with
  | Some row => m_ret (entry_of row)
  | None =>
      org ← locked_org (po_org_id p);
      let after := og_credits_cents org + po_amount_cents p in
      _ ← change (update_org (po_org_id p) (set_credits after));
      id ← uuid;
      let row := row_of p id after in
      r ← attempt is_integrity
            (insert_against (λ k, rival_commits p (db_rival k)) (ledger_allowed row)
               (λ d, set_ledger (db_ledger d ++ [row]) d));
      match r with
      | inr _ => m_ret (entry_of row)
      | inl _ =>
          _ ← rollback;
          match recursion with
          | O => raise (ExternalError (u "RecursionError") (u "maximum recursion depth exceeded"))
          | S recursion => post_entry recursion p
          end
      end
  end.

(** CPython's limit of a thousand nested calls leaves room for this many. *)
Definition recursion_limit : nat := 900.
Opaque recursion_limit.

Definition run_key (run_id : pystr) : pystr := u "run:" ++ run_id.

Definition run_debit (org_id run_id : pystr) (cents : Z) : Posting :=
  mkPosting org_id (u "debit") (- cents) (run_key run_id) (u "run " ++ run_id) (Some run_id) None.

Definition charge_run (org_id run_id : pystr) (billable_microcents : Z) : DB (option LedgerEntry) :=
  if negb (cfg_billing_enabled settings) || (billable_microcents <=? 0) then m_ret None
  else
    let cents := microcents_to_cents billable_microcents in
    if cents =? 0 then m_ret None
    else
      e ← post_entry recursion_limit (run_debit org_id run_id cents);
      m_ret (Some e).

(** [grant]; without a key of the caller's the entry gets a fresh one. *)
Definition grant (org_id : pystr) (amount_cents : Z) (kind description : pystr)
    (idempotency_key created_by : option pystr) : DB LedgerEntry :=
  if amount_cents <=? 0 then raise (ValueError (u "grant amount must be positive"))
  else
    id ← uuid;
    let key := match idempotency_key with
               | Some ((_ :: _) as k) => k
               | _ => kind ++ u ":" ++ id
               end in
    post_entry recursion_limit (mkPosting org_id kind amount_cents key description None created_by).

(** The entries of an organisation, and their sum *)
Definition entries_of (org_id : pystr) (d : Db) : list CreditLedger :=
  List.filter (λ r, bool_decide (cl_org_id r = org_id)) (db_ledger d).
Definition ledger_sum (org_id : pystr) (d : Db) : Z := sum_Z (map cl_amount_cents (entries_of org_id d)).

Definition reconcile (org_id : pystr) : DB Z :=
  total ← query (ledger_sum org_id);
  _ ← locked_org org_id;
  _ ← change (update_org org_id (set_credits total));
  _ ← statement;
  m_ret total.
End billing.
