(* ===== verification/BillingSafety.v ===== *)
(** * Properties of the ledger

    Posting refines a two-line specification: an entry with the same key is
    returned as it is, otherwise the entry is appended and the balance moves by its
    amount; when another transaction has committed the key first, the transaction is
    rolled back to the tables it left and its entry returned.  From it: the balance is always the sum of the entries, and nothing is
    charged twice. *)

From S2P Require Import Prelude PyStr PyFloat PyVal Config State Registry Providers Pricing Workflow.
From S2P Require Import World Database Billing.

(** ** Statements *)

Section statements.
Context `{DbEnv}.
Implicit Types s : Session.

Definition same_tables s s' : Prop := ss_committed s' = ss_committed s ∧ ss_working s' = ss_working s.
Definition kept s s' : Prop := ss_committed s' = ss_committed s.

(** The same tables, some statements later. *)
Definition later s s' : Prop := same_tables s s' ∧ (ss_clock s ≤ ss_clock s')%nat.

(** Why a statement fails: an earlier one has, or the database does. *)
Definition failing s (e : exn) : Prop :=
  (ss_broken s = true ∧ e = PendingRollback) ∨
  ∃ n, (ss_clock s ≤ n)%nat ∧ db_fault n = Some e ∧ statement_failure e = true.

Lemma failing_integrity s e : failing s e → is_integrity e = false.
Proof. intros [[_ ->]|(n & _ & _ & Hf)]; [done|by destruct e]. Qed.

Lemma failing_later s s' e : later s s' → ss_broken s' = false → failing s' e → failing s e.
Proof. intros [_ Hc] Hb [[Hb' _]|(n & Hn & Hf)]; [congruence|]. right. exists n. split; [lia|done]. Qed.

Lemma statement_later (Q : unit → Session → Prop) X s :
  (∀ s', later s s' → ss_broken s' = false → Q tt s') →
  (∀ e s', later s s' → ss_broken s' = true → failing s e → X e s') → wp statement Q X s.
Proof.
  intros HQ HX. unfold wp, statement. destruct (ss_broken s) eqn:Hb; [by apply HX; [|done|left]|].
  assert (Hl : ∀ b n, (ss_clock s ≤ n)%nat → later s (mkSession (ss_committed s) (ss_working s) b n)) by done.
  destruct (db_fault _) as [e|] eqn:Hf; [destruct (statement_failure e) eqn:He|].
  - apply HX; [by apply Hl; simpl; lia|done|]. right. by exists (ss_clock s).
  - apply HQ; [|by simpl]. unfold tick_session. rewrite Hb. apply Hl. lia.
  - apply HQ; [|by simpl]. unfold tick_session. rewrite Hb. apply Hl. lia.
Qed.

Lemma query_later {A} (f : Db → A) (Q : A → Session → Prop) X s :
  (∀ s', later s s' → ss_broken s' = false → Q (f (ss_working s)) s') →
  (∀ e s', later s s' → ss_broken s' = true → failing s e → X e s') → wp (query f) Q X s.
Proof.
  intros HQ HX.
  pose proof (statement_later (λ _ s', later s s' ∧ ss_broken s' = false)
                (λ e s', later s s' ∧ ss_broken s' = true ∧ failing s e) s ltac:(done) ltac:(done)) as Ht.
  unfold wp, query in *. destruct (statement s) as [[[]|e] s']; [|by destruct_and!; apply HX].
  destruct Ht as [Hl Hb]. rewrite (proj2 (proj1 Hl)). by apply HQ.
Qed.

Lemma statement_wp (Q : unit → Session → Prop) X s :
  (∀ s', same_tables s s' → ss_broken s' = false → Q tt s') →
  (∀ e s', same_tables s s' → ss_broken s' = true → X e s') → wp statement Q X s.
Proof. intros HQ HX. apply statement_later; [intros s' []|intros e s' []]; auto. Qed.

Lemma query_wp {A} (f : Db → A) (Q : A → Session → Prop) X s :
  (∀ s', same_tables s s' → ss_broken s' = false → Q (f (ss_working s)) s') →
  (∀ e s', same_tables s s' → ss_broken s' = true → X e s') → wp (query f) Q X s.
Proof. intros HQ HX. apply query_later; [intros s' []|intros e s' []]; auto. Qed.

(** An insertion adds its row when the constraint allows it; or a statement fails;
    or the race for the key is lost, and the committed tables are the winner's. *)
Lemma insert_against_wp theirs allowed add (Q : unit → Session → Prop) X s :
  (∀ s', kept s s' → ss_working s' = add (ss_working s) → allowed (ss_working s) = true →
     ss_broken s' = false → Q tt s') →
  (∀ e s', later s s' → ss_broken s' = true →
     failing s e ∨ (e = IntegrityError ∧ allowed (ss_working s) = false) → X e s') →
  (∀ d s', db_race (ss_clock s) = true → theirs (ss_clock s) (ss_committed s) = Some d →
     ss_committed s' = d → ss_working s' = ss_working s → ss_broken s' = true →
     X IntegrityError s') →
  wp (insert_against theirs allowed add) Q X s.
Proof.
  intros HQ HX HL.
  pose proof (statement_later (λ _ s', later s s' ∧ ss_broken s' = false)
                (λ e s', later s s' ∧ ss_broken s' = true ∧ failing s e) s ltac:(done) ltac:(done)) as Ht.
  unfold wp, insert_against in *. destruct (statement s) as [[[]|e] s'].
  2: { destruct Ht as (Hl & Hb & Hf). by apply HX; [..|left]. }
  destruct Ht as [[[Hc Hw] Hn] Hb]. rewrite Hc, Hw.
  destruct (if db_race _ then _ else _) as [d|] eqn:Hr.
  { destruct (db_race (ss_clock s)) eqn:Hrace; [|done]. by apply (HL d). }
  destruct (allowed (ss_working s)) eqn:Ha.
  - apply HQ; [done|done|done|by simpl].
  - apply HX; [|done|by right]. split; [by split|]. simpl. lia.
Qed.

(** An insertion succeeds with the row added when the constraint allows it. *)
Lemma insert_wp allowed add (Q : unit → Session → Prop) X s :
  (∀ s', kept s s' → ss_working s' = add (ss_working s) → allowed (ss_working s) = true →
     ss_broken s' = false → Q tt s') →
  (∀ e s', same_tables s s' → ss_broken s' = true → X e s') → wp (insert allowed add) Q X s.
Proof.
  intros HQ HX. apply insert_against_wp; [done|by intros e s' [] ? _; apply HX|].
  intros d s' _ [= <-] Hc Hw Hb. by apply HX.
Qed.
End statements.

(** ** The specification of a posting *)

Inductive posts (p : Posting) (d : Db) : Db → LedgerEntry → Prop :=
| posts_existing row :
    find_entry (po_org_id p) (po_key p) d = Some row → posts p d d (entry_of row)
| posts_new org id :
    find_entry (po_org_id p) (po_key p) d = None → find_org (po_org_id p) d = Some org →
    let after := og_credits_cents org + po_amount_cents p in
    posts p d (post_db p id after d) (entry_of (row_of p id after)).

Lemma find_none_allowed row d :
  find_entry (cl_org_id row) (cl_idempotency_key row) d = None ↔ ledger_allowed row d = true.
Proof.
  unfold find_entry, ledger_allowed. induction (db_ledger d) as [|r l IH]; simpl; [done|].
  unfold posted at 1. destruct (bool_decide _ && bool_decide _); simpl; [done|exact IH].
Qed.

(** The entry is there afterwards, and is the one returned. *)
Lemma post_db_found p id after d :
  find_entry (po_org_id p) (po_key p) d = None →
  find_entry (po_org_id p) (po_key p) (post_db p id after d) = Some (row_of p id after).
Proof.
  intros Hf. unfold find_entry, post_db in *. simpl. induction (db_ledger d) as [|r l IH]; simpl in *.
  - unfold posted. simpl. by rewrite !bool_decide_eq_true_2.
  - destruct (posted _ _ r); [done|]. by apply IH.
Qed.

Lemma posts_found p d d' e :
  posts p d d' e → ∃ row, find_entry (po_org_id p) (po_key p) d' = Some row ∧ e = entry_of row.
Proof. intros [row Hf|org id Hf Hg after]; [by exists row|]. eexists. split; [by apply post_db_found|done]. Qed.

(** What the winner of a race leaves has its entry, and is one posting. *)
Lemma rival_commits_posts p v d d' :
  rival_commits p v d = Some d' → ∃ e, posts (rival_posting p v) d d' e.
Proof.
  unfold rival_commits. destruct (find_org (po_org_id p) d) as [org|] eqn:Ho; [|done].
  destruct (find_entry _ _ d) as [row|] eqn:Hf; intros [= <-].
  - exists (entry_of row). by constructor.
  - eexists. exact (posts_new (rival_posting p v) d org (rv_id v) Hf Ho).
Qed.

Section refinement.
Context `{DbEnv}.

(** The race for the key was lost: the key was not in the caller's transaction,
    another transaction has committed it, and [d] are the tables it left. *)
Definition race_lost (p : Posting) (s : Session) (d : Db) : Prop :=
  find_entry (po_org_id p) (po_key p) (ss_working s) = None ∧
  ∃ k, (ss_clock s ≤ k)%nat ∧ db_race k = true ∧ rival_commits p (db_rival k) (ss_committed s) = Some d.

(** What a posting that returns does: it is made to the caller's transaction, or
    the race was lost, and the transaction is a new one on the winner's tables and
    the entry the winner's. *)
Inductive post_result (p : Posting) (s : Session) (e : LedgerEntry) (s' : Session) : Prop :=
| result_posted : kept s s' → posts p (ss_working s) (ss_working s') e → post_result p s e s'
| result_lost row :
    race_lost p s (ss_committed s') → ss_working s' = ss_committed s' →
    find_entry (po_org_id p) (po_key p) (ss_committed s') = Some row → e = entry_of row →
    post_result p s e s'.

(** And one that raises: a statement has failed or the organisation is missing, and
    nothing was committed; or the race was lost, and committed is what the winner
    left. *)
Inductive post_refused (p : Posting) (s : Session) (e : exn) (s' : Session) : Prop :=
| refused_kept :
    kept s s' → failing s e ∨ find_org (po_org_id p) (ss_working s) = None → post_refused p s e s'
| refused_lost : race_lost p s (ss_committed s') → post_refused p s e s'.

(** A key that is posted is only looked up. *)
Lemma post_entry_found n p s row :
  find_entry (po_org_id p) (po_key p) (ss_working s) = Some row →
  wp (post_entry n p) (λ e s', e = entry_of row ∧ same_tables s s') (λ e s', same_tables s s') s.
Proof.
  intros Hf. destruct n as [|n]; cbn [post_entry]; apply wp_bind; apply query_wp; try done;
    intros s' Hs _; rewrite Hf; by apply wp_ret.
Qed.

Lemma post_entry_outcome recursion p s : wp (post_entry recursion p) (post_result p s) (post_refused p s) s.
Proof.
  destruct recursion as [|n]; cbn [post_entry]; apply wp_bind; apply query_later;
    try (intros e s1 [[Hk _] _] _ Hx; apply refused_kept; [done|by left]); intros s1 L1 B1.
  all: destruct (find_entry (po_org_id p) (po_key p) (ss_working s)) as [row|] eqn:Hf;
    [apply wp_ret; destruct L1 as [[Hk Hw] _]; apply result_posted; [done|]; rewrite Hw; by constructor|].
  all: apply wp_bind; unfold locked_org; apply wp_bind; apply query_later;
    try (intros e s2 L2 _ Hx; apply refused_kept;
         [unfold kept; rewrite (proj1 (proj1 L2)); apply L1|left; by eapply failing_later]).
  all: intros s2 L2 B2; rewrite (proj2 (proj1 L1));
    destruct (find_org (po_org_id p) (ss_working s)) as [org|] eqn:Ho;
    [apply wp_ret|apply refused_kept; [unfold kept; simpl; rewrite (proj1 (proj1 L2)); apply L1|by right]].
  all: destruct L1 as [[K1 W1] C1], L2 as [[K2 W2] C2];
    assert (E1 : ss_committed s2 = ss_committed s) by congruence;
    assert (E2 : ss_working s2 = ss_working s) by congruence;
    assert (E3 : (ss_clock s ≤ ss_clock s2)%nat) by lia; clear K1 W1 C1 K2 W2 C2 B1 s1.
  all: cbv zeta; apply wp_bind; unfold wp at 1, change; apply wp_bind; unfold wp at 1, uuid.
  all: apply wp_bind; rewrite wp_attempt; rewrite E2; apply insert_against_wp; simpl ss_committed; simpl ss_working;
    simpl ss_clock; rewrite ?E1.
  all: try (intros s3 K3 W3 _ _; apply wp_ret; apply result_posted; [unfold kept in *; simpl in K3; congruence|];
            rewrite W3; exact (posts_new p _ org _ Hf Ho)).
  all: try (intros e s3 [[K3 _] _] _ [Hx|[_ Hx]];
            [assert (Hs : failing s e) by (destruct Hx as [[Hx _]|(m & Hm & Hx)];
               [simpl in Hx; congruence|right; exists m; simpl in Hm; split; [lia|done]]);
             rewrite (failing_integrity _ _ Hs); apply refused_kept; [unfold kept; simpl in K3; congruence|by left]
            |exfalso; match type of Hx with ledger_allowed ?row ?d = false =>
               pose proof (proj1 (find_none_allowed row d) Hf) as Ha end; congruence]).
  all: intros d s3 Hrace Hd Hc3 _ _; assert (Hl : race_lost p s d) by (split; [done|]; by exists (ss_clock s2)).
  - apply refused_lost. simpl. by rewrite Hc3.
  - apply rival_commits_posts in Hd as [e0 (row & Hrow & _)%posts_found]. apply wp_bind. unfold wp at 1, rollback.
    eapply wp_mono; [apply (post_entry_found n p _ row); by simpl; rewrite Hc3| |].
    + intros e s4 [-> [K4 W4]]. simpl in K4, W4. apply (result_lost _ _ _ _ row); rewrite ?K4, ?W4, ?Hc3; done.
    + intros e s4 [K4 W4]. apply refused_lost. simpl in K4. by rewrite K4, Hc3.
Qed.

(** C5: [post_entry] implements its specification, whatever statements fail: when it
    returns, either its tables are those of one posting made to the caller's
    transaction and nothing was committed, or, only if another transaction has
    committed the key first, the caller's transaction is gone, the new one has the
    tables the winner committed, and the entry returned is the winner's; when it
    raises, nothing was committed and a statement has failed or the organisation does
    not exist, or the key was lost to another transaction. *)
Theorem post_entry_refines recursion p s :
  match post_entry recursion p s with
  | (Ok e, s') => post_result p s e s'
  | (Err e, s') => post_refused p s e s'
  end.
Proof.
  pose proof (post_entry_outcome recursion p s) as Hp. unfold wp in Hp.
  by destruct (post_entry recursion p s) as [[e|e] s'].
Qed.

(** While nobody else posts under the same key, a posting is made to the caller's
    own transaction. *)
Lemma post_entry_alone n p s :
  (∀ k, db_race k = false) →
  wp (post_entry n p) (λ e s', kept s s' ∧ posts p (ss_working s) (ss_working s') e)
     (λ e s', kept s s' ∧ (failing s e ∨ find_org (po_org_id p) (ss_working s) = None)) s.
Proof.
  intros Hrace. eapply wp_mono; [apply post_entry_outcome| |].
  - intros e s' [|row (_ & k & _ & Hk & _)]; [done|congruence].
  - intros e s' [|(_ & k & _ & Hk & _)]; [done|congruence].
Qed.
End refinement.

(** ** The balance is the sum of the entries *)

Record ledger_ok (d : Db) : Prop := {
  lk_orgs : NoDup (map og_id (db_orgs d));
  lk_keys : NoDup (map (λ r, (cl_org_id r, cl_idempotency_key r)) (db_ledger d));
  lk_balance : ∀ o, o ∈ db_orgs d → og_credits_cents o = ledger_sum (og_id o) d }.

Lemma find_org_elem id d o : find_org id d = Some o → o ∈ db_orgs d ∧ og_id o = id.
Proof.
  intros Hf. apply List.find_some in Hf as [Hin Hid]. apply bool_decide_eq_true in Hid.
  split; [by apply list_elem_of_In|done].
Qed.

Lemma ledger_sum_app org d rows :
  ledger_sum org (set_ledger (db_ledger d ++ rows) d)
  = ledger_sum org d + sum_Z (map cl_amount_cents (List.filter (λ r, bool_decide (cl_org_id r = org)) rows)).
Proof. unfold ledger_sum, entries_of. simpl. by rewrite List.filter_app, map_app, sum_Z_app. Qed.

Lemma find_entry_None org key d :
  find_entry org key d = None → (org, key) ∉ map (λ r, (cl_org_id r, cl_idempotency_key r)) (db_ledger d).
Proof.
  intros Hf Hin. apply list_elem_of_In, in_map_iff in Hin as (r & Heq & Hin).
  pose proof (List.find_none _ _ Hf r Hin) as Hn. injection Heq as Ho Hk.
  unfold posted in Hn. by rewrite Ho, Hk, !bool_decide_eq_true_2 in Hn.
Qed.

Lemma update_org_ids id f d : (∀ o, og_id (f o) = og_id o) → map og_id (db_orgs (update_org id f d)) = map og_id (db_orgs d).
Proof.
  intros Hf. simpl. rewrite map_map. apply map_ext. intros o. case_bool_decide; [apply Hf|done].
Qed.

Lemma NoDup_map_eq {A B} (f : A → B) l x y : NoDup (map f l) → x ∈ l → y ∈ l → f x = f y → x = y.
Proof.
  induction l as [|a l IH]; [by intros _ ?%elem_of_nil|]. simpl. intros [Hn Hl]%NoDup_cons.
  rewrite !elem_of_cons. intros [->|Hx] [->|Hy] Hf; [done| | |by apply IH].
  - destruct Hn. rewrite Hf. apply list_elem_of_In, in_map, list_elem_of_In. done.
  - destruct Hn. rewrite <- Hf. apply list_elem_of_In, in_map, list_elem_of_In. done.
Qed.

Lemma posts_ledger_ok p d d' e : ledger_ok d → posts p d d' e → ledger_ok d'.
Proof.
  intros [Ho Hk Hb] [row Hf|org id Hf Hg after]; [done|].
  apply find_org_elem in Hg as [Hin Hid]. split.
  - change (NoDup (map og_id (db_orgs (update_org (po_org_id p) (set_credits after) d)))).
    by rewrite update_org_ids.
  - simpl. rewrite map_app. simpl. apply NoDup_app. split_and!; [done| |apply NoDup_singleton].
    intros x Hx ->%list_elem_of_singleton. by apply (find_entry_None _ _ _ Hf).
  - intros o Hin'. apply list_elem_of_In, in_map_iff in Hin' as (o0 & Heq & Hin0).
    apply list_elem_of_In in Hin0. specialize (Hb o0 Hin0) as Hb0.
    unfold post_db. rewrite ledger_sum_app.
    change (ledger_sum (og_id o) (update_org (po_org_id p) (set_credits after) d)) with (ledger_sum (og_id o) d).
    simpl. case_bool_decide as Ho0.
    + subst o. simpl. rewrite Ho0, bool_decide_eq_true_2 by done. simpl.
      assert (org = o0) as -> by (apply (NoDup_map_eq og_id (db_orgs d)); congruence).
      subst after. rewrite Hb0, Ho0. lia.
    + subst o. rewrite bool_decide_eq_false_2 by congruence. simpl. lia.
Qed.

(** Tables that differ in nothing the ledger is about. *)
Lemma ledger_ok_ext d d' : db_orgs d' = db_orgs d → db_ledger d' = db_ledger d → ledger_ok d → ledger_ok d'.
Proof.
  intros Ho Hl [H1 H2 H3]. split; [by rewrite Ho|by rewrite Hl|]. intros o Hin. rewrite Ho in Hin.
  rewrite (H3 o Hin). unfold ledger_sum, entries_of. by rewrite Hl.
Qed.

(** A second posting with the key changes nothing. *)
Lemma posts_again p q d d1 d2 e1 e2 :
  po_org_id q = po_org_id p → po_key q = po_key p →
  posts p d d1 e1 → posts q d1 d2 e2 → d2 = d1 ∧ e2 = e1.
Proof.
  intros Ho Hk H1 H2. apply posts_found in H1 as (row & Hf & ->).
  destruct H2 as [row' Hf'|org id Hf' Hg after]; rewrite Ho, Hk, Hf in Hf'; by simplify_eq.
Qed.

(** ** Nothing is charged twice *)

Section charging.
Context `{DbEnv}.

(** C6: a posting keeps the books: when the tables of the transaction and the
    committed ones have balances that are the sums of their entries and one entry
    per key, so have the tables after it, and the entry it returns is in them. *)
Theorem post_entry_keeps_books recursion p s e s' :
  ledger_ok (ss_working s) → ledger_ok (ss_committed s) →
  post_entry recursion p s = (Ok e, s') →
  ledger_ok (ss_working s') ∧
  ∃ row, find_entry (po_org_id p) (po_key p) (ss_working s') = Some row ∧ e = entry_of row.
Proof.
  intros Hw Hc Heq. pose proof (post_entry_outcome recursion p s) as Hr. unfold wp in Hr. rewrite Heq in Hr.
  destruct Hr as [_ Hp|row (_ & k & _ & _ & [e0 Hp]%rival_commits_posts) Hs Hrow ->].
  - split; [exact (posts_ledger_ok _ _ _ _ Hw Hp)|by eapply posts_found].
  - rewrite Hs. split; [exact (posts_ledger_ok _ _ _ _ Hc Hp)|by exists row].
Qed.

(** a key is charged once: when a posting has returned, any later posting of
    the transaction under the same organisation and key returns the same entry and
    leaves every table as it is, whatever it asks for. *)
Theorem post_entry_once n m p q s e s1 e2 s2 :
  po_org_id q = po_org_id p → po_key q = po_key p →
  post_entry n p s = (Ok e, s1) → post_entry m q s1 = (Ok e2, s2) →
  e2 = e ∧ ss_working s2 = ss_working s1 ∧ ss_committed s2 = ss_committed s1.
Proof.
  intros Ho Hk H1 H2. pose proof (post_entry_outcome n p s) as R1. unfold wp in R1. rewrite H1 in R1.
  assert (∃ row, find_entry (po_org_id q) (po_key q) (ss_working s1) = Some row ∧ e = entry_of row) as (row & Hf & ->).
  { rewrite Ho, Hk. destruct R1 as [_ Hp|row _ Hs Hrow ->]; [by eapply posts_found|]. exists row. by rewrite Hs. }
  pose proof (post_entry_found m q s1 row Hf) as Hwp. unfold wp in Hwp. rewrite H2 in Hwp.
  by destruct Hwp as (-> & ? & ?).
Qed.

Context (settings : Settings).

(** The specification of a charge: what it does to the tables [d]
    ([charge_run_alone]). *)
Inductive charges (org_id run_id : pystr) (billable : Z) (d : Db) : Db → option LedgerEntry → Prop :=
| charge_nothing :
    cfg_billing_enabled settings = false ∨ billable ≤ 0 → charges org_id run_id billable d d None
| charge_posted d' e :
    cfg_billing_enabled settings = true → 0 < billable →
    posts (run_debit org_id run_id (microcents_to_cents billable)) d d' e →
    charges org_id run_id billable d d' (Some e).

(** While nobody else posts under the run's key, [charge_run] does just that to the
    caller's transaction. *)
Lemma charge_run_alone org_id run_id billable s :
  (∀ k, db_race k = false) →
  wp (charge_run settings org_id run_id billable)
     (λ o s', kept s s' ∧ charges org_id run_id billable (ss_working s) (ss_working s') o)
     (λ e s', kept s s' ∧ (failing s e ∨ find_org org_id (ss_working s) = None)) s.
Proof.
  intros Hrace. unfold charge_run. generalize recursion_limit as n. intros n.
  destruct (cfg_billing_enabled settings) eqn:Hb; simpl.
  2: { apply wp_ret. split; [done|]. constructor. by left. }
  destruct (Z.leb_spec billable 0) as [Hle|Hgt].
  { apply wp_ret. split; [done|]. constructor. by right. }
  destruct (Z.eqb_spec (microcents_to_cents billable) 0) as [Hz|Hz].
  { destruct (microcents_to_cents_spec billable) as [Hpos _]. specialize (Hpos Hgt). lia. }
  apply wp_bind. eapply wp_mono; [by apply post_entry_alone| |done].
  intros e s' [Hk Hp]. apply wp_ret. split; [done|]. by constructor.
Qed.

(** A run that is in the ledger is only looked up. *)
Lemma charge_run_found org_id run_id billable s row :
  cfg_billing_enabled settings = true → 0 < billable →
  find_entry org_id (run_key run_id) (ss_working s) = Some row →
  wp (charge_run settings org_id run_id billable)
     (λ o s', o = Some (entry_of row) ∧ same_tables s s') (λ e s', same_tables s s') s.
Proof.
  intros Hb Hpos Hf. unfold charge_run. generalize recursion_limit as n. intros n. rewrite Hb. simpl.
  destruct (Z.leb_spec billable 0); [lia|].
  destruct (Z.eqb_spec (microcents_to_cents billable) 0) as [Hz|Hz].
  { destruct (microcents_to_cents_spec billable) as [Hp _]. specialize (Hp Hpos). lia. }
  apply wp_bind. eapply wp_mono; [by apply (post_entry_found n _ _ row)| |done].
  intros e s' [-> Hs]. by apply wp_ret.
Qed.

(** The balance an organisation has in the tables. *)
Definition credits (org_id : pystr) (d : Db) : option Z := og_credits_cents <$> find_org org_id d.

Lemma update_org_find org_id z d :
  find_org org_id (update_org org_id (set_credits z) d) = set_credits z <$> find_org org_id d.
Proof.
  unfold find_org, update_org. simpl. induction (db_orgs d) as [|o l IH]; [done|]. simpl.
  case_bool_decide as Ho; simpl; case_bool_decide as Ho'; simpl; try done; congruence.
Qed.

(** What charging a run that has not been charged leaves: the balance of its
    organisation has fallen by the spend in cents rounded up, and the ledger has one
    more entry, which says so. *)
Record charged_once (org_id run_id : pystr) (billable : Z) (d d' : Db) (o : option LedgerEntry) : Prop := {
  ch_cents : ∃ cents balance row,
    billable ≤ cents * 1000000 < billable + 1000000 ∧
    credits org_id d = Some balance ∧ credits org_id d' = Some (balance - cents) ∧
    db_ledger d' = db_ledger d ++ [row] ∧ cl_org_id row = org_id ∧ cl_kind row = u "debit" ∧
    cl_amount_cents row = - cents ∧ cl_balance_after_cents row = balance - cents ∧
    cl_run_id row = Some run_id ∧ cl_idempotency_key row = u "run:" ++ run_id ∧ o = Some (entry_of row);
  ch_books : ledger_ok d → ledger_ok d' }.

Lemma charges_once org_id run_id billable d d' o :
  cfg_billing_enabled settings = true → 0 < billable → find_entry org_id (run_key run_id) d = None →
  charges org_id run_id billable d d' o → charged_once org_id run_id billable d d' o.
Proof.
  intros Hb Hpos Hf [[?|?]|d1 e _ _ Hp]; [congruence|lia|]. split.
  2: { intros Hok. exact (posts_ledger_ok _ _ _ _ Hok Hp). }
  destruct Hp as [row Hf'|org id _ Hg after]; [simpl in Hf'; congruence|]. simpl in Hg.
  destruct (microcents_to_cents_spec billable) as [Hc _]. specialize (Hc Hpos).
  exists (microcents_to_cents billable), (og_credits_cents org).
  eexists. split_and!; try reflexivity; try done.
  - unfold cents_to_microcents, MICROCENTS_PER_CENT in Hc. lia.
  - unfold cents_to_microcents, MICROCENTS_PER_CENT in Hc. lia.
  - unfold credits. by rewrite Hg.
  - unfold credits.
    change (find_org org_id (post_db _ id after d)) with (find_org org_id (update_org org_id (set_credits after) d)).
    rewrite update_org_find, Hg. done.
Qed.

(** C7: a run is charged exactly, and once: while nobody else posts under the run's
    key, charging a run whose key is not in the ledger takes its spend in cents,
    rounded up, from the balance of its organisation, with one ledger entry that says
    so and the books still balanced; charging it again, for whatever positive amount,
    returns that entry and changes nothing.  Without billable spend, or with billing off,
    nothing is charged.  Nothing is committed by a charge, and one that raises has
    met a failing statement or a missing organisation. *)
Theorem charge_run_exact org_id run_id billable s :
  (∀ k, db_race k = false) →
  match charge_run settings org_id run_id billable s with
  | (Ok o, s1) =>
      ss_committed s1 = ss_committed s ∧
      (cfg_billing_enabled settings = false ∨ billable ≤ 0 → o = None ∧ ss_working s1 = ss_working s) ∧
      (cfg_billing_enabled settings = true → 0 < billable →
       find_entry org_id (run_key run_id) (ss_working s) = None →
       charged_once org_id run_id billable (ss_working s) (ss_working s1) o) ∧
      (cfg_billing_enabled settings = true → 0 < billable → ∀ again, 0 < again →
       match charge_run settings org_id run_id again s1 with
       | (Ok o2, s2) => o2 = o ∧ same_tables s1 s2
       | (Err _, s2) => same_tables s1 s2
       end)
  | (Err e, s1) =>
      ss_committed s1 = ss_committed s ∧ (failing s e ∨ find_org org_id (ss_working s) = None)
  end.
Proof.
  intros Hrace. pose proof (charge_run_alone org_id run_id billable s Hrace) as H1. unfold wp in H1.
  destruct (charge_run settings org_id run_id billable s) as [[o|e] s1]; [|exact H1].
  destruct H1 as [Hk Hc]. split_and!; [done| |by intros; apply charges_once|].
  - intros Hno. remember (ss_working s1) as d1 eqn:Hd1. destruct Hc as [_|d' e Hb Hpos _]; [done|]. destruct Hno; [congruence|lia].
  - intros Hb Hpos again Hagain. remember (ss_working s1) as d1 eqn:Hd1. destruct Hc as [[?|?]|d' e _ _ (row & Hf & ->)%posts_found]; [congruence|lia|].
    rewrite Hd1 in Hf. pose proof (charge_run_found org_id run_id again s1 row Hb Hagain Hf) as H2. unfold wp in H2.
    by destruct (charge_run settings org_id run_id again s1) as [[o2|e2] s2].
Qed.

(** reconciling restores the books: it sets the cached balance to the sum of
    the organisation's entries, and does nothing when the books are right. *)
Theorem reconcile_spec org_id s total s' :
  reconcile org_id s = (Ok total, s') →
  credits org_id (ss_working s') = Some total ∧ total = ledger_sum org_id (ss_working s) ∧
  db_ledger (ss_working s') = db_ledger (ss_working s) ∧
  (ledger_ok (ss_working s) → credits org_id (ss_working s') = credits org_id (ss_working s)).
Proof.
  intros Heq. set (d := ss_working s).
  enough (Hwp : wp (reconcile org_id) (λ total s', ∃ org, find_org org_id d = Some org ∧
            total = ledger_sum org_id d ∧ ss_working s' = update_org org_id (set_credits total) d)
            (λ _ _, True) s).
  { unfold wp in Hwp. rewrite Heq in Hwp. destruct Hwp as (org & Ho & -> & Hw). unfold credits.
    rewrite Hw, update_org_find, Ho. simpl. split_and!; try done.
    intros [_ _ Hb]. f_equal. apply find_org_elem in Ho as [Hin <-]. symmetry. by apply Hb. }
  unfold reconcile. apply wp_bind. apply query_wp; [|done]. intros s1 [_ Hw1] _.
  apply wp_bind. unfold locked_org. apply wp_bind. apply query_wp; [|done]. intros s2 [_ Hw2] _.
  rewrite Hw1. fold d. destruct (find_org org_id d) as [org|] eqn:Ho; [apply wp_ret|done].
  apply wp_bind. unfold wp at 1, change. apply wp_bind. apply statement_wp; [|done].
  intros s3 [_ Hw3] _. apply wp_ret. exists org. simpl in Hw3. rewrite Hw3, Hw2, Hw1. done.
Qed.

(** the margin is exact: for spends below 2^50 / (100 + percent) micro-cents the
    binary64 computation gives the exact product rounded half to even, so it is
    monotone, and with a percentage that is not negative never below the spend. *)
Theorem apply_markup_exact raw :
  0 ≤ raw → 0 ≤ cfg_credit_markup_percent settings →
  raw * (100 + cfg_credit_markup_percent settings) * 8 ≤ 2 ^ 53 →
  apply_markup settings raw = Ok (rhe (raw * (100 + cfg_credit_markup_percent settings)) 100) ∧
  raw ≤ rhe (raw * (100 + cfg_credit_markup_percent settings)) 100.
Proof.
  intros Hr Hp Hs. set (n := raw * (100 + cfg_credit_markup_percent settings)) in *.
  assert (Hn : 0 ≤ n) by (apply Z.mul_nonneg_nonneg; lia).
  assert (Hge : raw ≤ rhe n 100).
  { rewrite <- (rhe_exact raw 100) by lia. apply rhe_mono; lia. }
  split; [|done]. unfold apply_markup. fold n. unfold fl_div_ZZ, checked.
  pose proof fl_one_pos as H1.
  assert (Hb : Z.abs (rnd (n * fl_one) 100) < fl_max).
  { rewrite Z.abs_eq by (apply rnd_pos_nonneg; nia).
    apply Z.le_lt_trans with (rnd (2 ^ 50 * fl_one * 100) 100).
    - apply rnd_mono; nia.
    - rewrite rnd_b64; [|lia|].
      + unfold fl_one, fl_max. rewrite <- Z.pow_add_r by lia. apply Z.pow_lt_mono_r; lia.
      + exists 1, 1124. split_and!; [lia|lia|lia|]. unfold fl_one. rewrite <- Z.pow_add_r by lia. lia. }
  destruct (Z.ltb_spec (Z.abs (rnd (n * fl_one) 100)) fl_max); [|lia].
  f_equal. apply (fl_round_div n 50); lia.
Qed.
End charging.

(** ** Witnesses *)

Definition no_rival : Rival := mkRival [] [] 0 [] None None.
Definition quiet_db : DbEnv := {|
  db_fault := λ _, None; db_race := λ _, false; db_rival := λ _, no_rival; db_uuid := λ n, u "id" ++ str_of_Z (Z.of_nat n);
  db_now := λ n, Z.of_nat n |}.
(** The first insertion loses a race, to a top-up of 700. *)
Definition racy_db : DbEnv := {|
  db_fault := λ _, None; db_race := λ n, Nat.eqb n 2;
  db_rival := λ _, mkRival (u "theirs") (u "topup") 700 (u "winner") None None; db_uuid := λ n, u "id"; db_now := λ n, 0 |}.

Definition demo_org : Org := mkOrg (u "o") (u "Acme") (u "acme") (u "managed") 0 true.
Definition demo_db : Db := set_orgs [demo_org] empty_db.
Definition demo_topup : Posting :=
  mkPosting (u "o") (u "topup") 500 (u "k1") (u "top up") None None.

Lemma demo_db_ok : ledger_ok demo_db.
Proof.
  split; simpl; [apply NoDup_singleton|constructor|]. intros o ->%list_elem_of_singleton. done.
Qed.

Lemma post_entry_keeps_books_witness :
  ∃ e s', @post_entry quiet_db 0 demo_topup (open_session demo_db) = (Ok e, s') ∧ ledger_ok (ss_working s') ∧
    ∃ row, find_entry (u "o") (u "k1") (ss_working s') = Some row ∧ e = entry_of row.
Proof.
  destruct (@post_entry quiet_db 0 demo_topup (open_session demo_db)) as [[e|x] s'] eqn:Heq;
    [|vm_compute in Heq; discriminate Heq].
  exists e, s'. split; [reflexivity|].
  exact (@post_entry_keeps_books quiet_db 0 demo_topup (open_session demo_db) e s' demo_db_ok demo_db_ok Heq).
Defined.

Lemma post_entry_once_witness :
  ∃ e s1 s2, @post_entry quiet_db 0 demo_topup (open_session demo_db) = (Ok e, s1) ∧
    @post_entry quiet_db 0 demo_topup s1 = (Ok e, s2) ∧ ss_working s2 = ss_working s1.
Proof.
  destruct (@post_entry quiet_db 0 demo_topup (open_session demo_db)) as [[e|x] s1] eqn:H1;
    [|vm_compute in H1; discriminate H1].
  destruct (@post_entry quiet_db 0 demo_topup s1) as [[e2|x] s2] eqn:H2.
  2: { vm_compute in H1. injection H1 as <- <-. vm_compute in H2. discriminate H2. }
  destruct (@post_entry_once quiet_db 0 0 demo_topup demo_topup _ _ _ _ _ eq_refl eq_refl H1 H2)
    as (-> & Hw & _).
  exists e, s1, s2. split; [reflexivity|]. split; [exact H2|exact Hw].
Defined.

Definition demo_funded : Db := set_orgs [mkOrg (u "o") (u "Acme") (u "acme") (u "managed") 100 true] empty_db.

(** A cent and a half are charged as two. *)
Lemma charge_run_exact_witness :
  ∃ o s1, @charge_run quiet_db default_settings (u "o") (u "r") 1500000 (open_session demo_funded) = (Ok o, s1) ∧
    credits (u "o") (ss_working s1) = Some 98 ∧ is_Some o.
Proof.
  assert (Hrace : ∀ k, @db_race quiet_db k = false) by reflexivity.
  pose proof (@charge_run_exact quiet_db default_settings (u "o") (u "r") 1500000 (open_session demo_funded) Hrace) as Hx.
  destruct (@charge_run quiet_db default_settings (u "o") (u "r") 1500000 (open_session demo_funded)) as [[o|e] s1] eqn:Heq.
  2: { with_strategy transparent [recursion_limit] (vm_compute in Heq). discriminate Heq. }
  exists o, s1. split; [reflexivity|]. destruct Hx as (_ & _ & Hc & _).
  assert (Hf : find_entry (u "o") (run_key (u "r")) (ss_working (open_session demo_funded)) = None) by (vm_compute; reflexivity).
  destruct (Hc eq_refl eq_refl Hf) as [(cents & balance & row & Hcents & Hb & -> & _ & _ & _ & _ & _ & _ & _ & ->) _].
  vm_compute in Hb. injection Hb as <-. split; [f_equal; lia|by eexists].
Defined.

Lemma reconcile_spec_witness :
  ∃ total s', @reconcile quiet_db (u "o") (open_session demo_db) = (Ok total, s') ∧
    credits (u "o") (ss_working s') = Some total.
Proof.
  destruct (@reconcile quiet_db (u "o") (open_session demo_db)) as [[total|x] s'] eqn:Heq;
    [|vm_compute in Heq; discriminate Heq].
  exists total, s'. split; [reflexivity|].
  exact (proj1 (@reconcile_spec quiet_db (u "o") (open_session demo_db) total s' Heq)).
Defined.

Lemma apply_markup_exact_witness :
  apply_markup default_settings 1001 = Ok (rhe (1001 * 140) 100) ∧ 1001 ≤ rhe (1001 * 140) 100.
Proof.
  assert (H0 : 0 ≤ 1001) by lia. assert (Hp : 0 ≤ cfg_credit_markup_percent default_settings) by (vm_compute; discriminate).
  assert (Hs : 1001 * (100 + cfg_credit_markup_percent default_settings) * 8 ≤ 2 ^ 53) by (vm_compute; discriminate).
  exact (apply_markup_exact default_settings 1001 H0 Hp Hs).
Defined.

(** A lost race rolls back the caller's transaction with it: what the caller had
    changed before posting is gone although the posting succeeds; the entry it gets,
    and the balance it sees, are the winner's. *)
Lemma lost_race_drops_the_caller :
  let s := set_working (update_org (u "o") (λ o, mkOrg (u "o") (u "Renamed") (og_slug o) (og_key_mode o)
                                                   (og_credits_cents o) true) demo_db) (open_session demo_db) in
  let '(r, s') := @post_entry racy_db 1 demo_topup s in
  r = Ok (mkEntry' (u "theirs") (u "topup") 700 700 (u "winner")) ∧
  map og_name (db_orgs (ss_working s')) = [u "Acme"] ∧ credits (u "o") (ss_working s') = Some 700.
Proof. vm_compute. split_and!; reflexivity. Qed.
