(* ===== verification/BillingRace.v ===== *)
(** * Concurrent postings (src/core/billing.py, [post_entry] and [_locked_org])

    Several transactions post to one organisation's ledger at the same time, on
    any number of API and worker processes.  Between two statements any other
    transaction may move: the check for an existing entry reads what is committed,
    the lock on the organisation's row is held to the end of the transaction, the
    unique constraint refuses a key another transaction has committed, and a lost
    race rolls back and starts again.

    [pr_loaded] is the balance the session already holds for the organisation when
    the posting begins: SQLAlchemy does not refresh an object it has loaded, even
    by a [SELECT ... FOR UPDATE], unless it is told to. *)

From S2P Require Import Prelude PyStr PyVal.

(** Where a posting stands. *)
Inductive progress :=
| Checking                       (* about to look for an existing entry *)
| Waiting                        (* no entry found; about to lock the row *)
| Holding (after : Z)            (* the row is locked, the new balance computed *)
| Flushed (after : Z)            (* the entry is inserted, not committed *)
| Finished (found : bool)        (* returned: an existing entry, or its own *)
| Crashed.

Record Poster := mkPoster {
  pr_key : pystr; pr_amount : Z; pr_loaded : option Z; pr_progress : progress }.

Record Books := mkBooks {
  bk_ledger : list (pystr * Z);  (* the committed entries: key and amount *)
  bk_credits : Z;                (* the committed balance *)
  bk_lock : option nat;          (* who holds the organisation's row *)
  bk_posters : list Poster }.

Definition at_point (p : Poster) (g : progress) : Poster := mkPoster (pr_key p) (pr_amount p) (pr_loaded p) g.
(** Rolling back expires the objects of the session. *)
Definition rolled_back (p : Poster) : Poster := mkPoster (pr_key p) (pr_amount p) None Checking.

Definition put_poster (i : nat) (p : Poster) (b : Books) : Books :=
  mkBooks (bk_ledger b) (bk_credits b) (bk_lock b) (<[i := p]> (bk_posters b)).
Definition with_lock (l : option nat) (b : Books) : Books :=
  mkBooks (bk_ledger b) (bk_credits b) l (bk_posters b).
Definition with_entry (p : Poster) (after : Z) (b : Books) : Books :=
  mkBooks (bk_ledger b ++ [(pr_key p, pr_amount p)]) after (bk_lock b) (bk_posters b).

Definition posted_key (k : pystr) (b : Books) : Prop := k ∈ (bk_ledger b).*1.
Definition release (i : nat) (b : Books) : Books :=
  with_lock (if decide (bk_lock b = Some i) then None else bk_lock b) b.

Inductive race_step (b : Books) : Books → Prop :=
| step_found i p :
    bk_posters b !! i = Some p → pr_progress p = Checking → posted_key (pr_key p) b →
    race_step b (put_poster i (at_point p (Finished true)) b)
| step_absent i p :
    bk_posters b !! i = Some p → pr_progress p = Checking → ¬ posted_key (pr_key p) b →
    race_step b (put_poster i (at_point p Waiting) b)
| step_lock i p :
    bk_posters b !! i = Some p → pr_progress p = Waiting → bk_lock b = None →
    let read := default (bk_credits b) (pr_loaded p) in
    race_step b (put_poster i (at_point p (Holding (read + pr_amount p))) (with_lock (Some i) b))
| step_insert i p after :
    bk_posters b !! i = Some p → pr_progress p = Holding after → ¬ posted_key (pr_key p) b →
    race_step b (put_poster i (at_point p (Flushed after)) b)
| step_conflict i p after :
    bk_posters b !! i = Some p → pr_progress p = Holding after → posted_key (pr_key p) b →
    race_step b (put_poster i (rolled_back p) (with_lock None b))
| step_commit i p after :
    bk_posters b !! i = Some p → pr_progress p = Flushed after →
    race_step b (put_poster i (at_point p (Finished false)) (with_lock None (with_entry p after b)))
| step_crash i p :
    bk_posters b !! i = Some p →
    race_step b (put_poster i (at_point p Crashed) (release i b)).

(** ** The invariant *)

Definition books_balance (b : Books) : Prop := bk_credits b = sum_Z (bk_ledger b).*2.

Record race_inv (b : Books) : Prop := {
  ri_balance : books_balance b;
  ri_keys : NoDup (bk_ledger b).*1;
  ri_fresh : ∀ i p, bk_posters b !! i = Some p → pr_loaded p = None;
  ri_holder : ∀ i p after, bk_posters b !! i = Some p →
    pr_progress p = Holding after ∨ pr_progress p = Flushed after →
    bk_lock b = Some i ∧ after = bk_credits b + pr_amount p;
  ri_flushed : ∀ i p after, bk_posters b !! i = Some p → pr_progress p = Flushed after →
    ¬ posted_key (pr_key p) b;
  ri_done : ∀ i p found, bk_posters b !! i = Some p → pr_progress p = Finished found →
    posted_key (pr_key p) b }.

(** A change of one poster, and what is left to check for it. *)
Lemma put_inv b i p' :
  race_inv b → pr_loaded p' = None →
  (∀ after, pr_progress p' = Holding after ∨ pr_progress p' = Flushed after →
     bk_lock b = Some i ∧ after = bk_credits b + pr_amount p') →
  (∀ after, pr_progress p' = Flushed after → ¬ posted_key (pr_key p') b) →
  (∀ found, pr_progress p' = Finished found → posted_key (pr_key p') b) →
  race_inv (put_poster i p' b).
Proof.
  intros [H1 H2 H3 H4 H5 H6] Hl Hh Hf Hd.
  split; simpl; [done|done|..]; intros j q *; rewrite list_lookup_insert_Some;
    (intros [(<- & <- & _)|[_ Hj]]).
  - done.
  - by eapply H3.
  - apply Hh.
  - by apply H4.
  - apply Hf.
  - by eapply H5.
  - apply Hd.
  - by eapply H6.
Qed.

Lemma fresh_lock b i : race_inv b → bk_lock b = None → race_inv (with_lock (Some i) b).
Proof.
  intros [H1 H2 H3 H4 H5 H6] Hn. split; simpl; try done.
  intros j p after Hj Hp. destruct (H4 j p after Hj Hp) as [Hl _]. congruence.
Qed.

(** The others keep their places when the holder lets go, with a balance that only
    the holder could have moved. *)
Lemma release_inv b i p g credits ledger :
  race_inv b → bk_posters b !! i = Some p → bk_lock b = Some i →
  credits = sum_Z ledger.*2 → NoDup ledger.*1 → (∀ k, k ∈ (bk_ledger b).*1 → k ∈ ledger.*1) →
  pr_progress g = Checking ∨ pr_progress g = Crashed ∨
    (pr_progress g = Finished false ∧ pr_key g ∈ ledger.*1) →
  pr_loaded g = None →
  race_inv (put_poster i g (mkBooks ledger credits None (bk_posters b))).
Proof.
  intros [H1 H2 H3 H4 H5 H6] Hi Hl Hb Hn Hk Hg Hf.
  assert (Hother : ∀ j q after, i ≠ j → bk_posters b !! j = Some q →
            pr_progress q = Holding after ∨ pr_progress q = Flushed after → False).
  { intros j q after Hne Hj Hq. destruct (H4 j q after Hj Hq). congruence. }
  split; simpl; [done|done|..]; intros j q *; rewrite list_lookup_insert_Some;
    intros [(<- & <- & _)|[Hne Hj]]; try done.
  - eauto.
  - intros Hq. destruct Hg as [Hg|[Hg|[Hg _]]]; rewrite Hg in Hq; by destruct Hq.
  - intros Hq. by destruct (Hother j q after Hne Hj Hq).
  - intros Hq. destruct Hg as [Hg|[Hg|[Hg _]]]; by rewrite Hg in Hq.
  - intros Hq. by destruct (Hother j q after Hne Hj (or_intror Hq)).
  - intros Hq. destruct Hg as [Hg|[Hg|[Hg Hin]]]; [by rewrite Hg in Hq..|exact Hin].
  - intros Hq. apply Hk. by eapply H6.
Qed.

Lemma race_step_inv b b' : race_inv b → race_step b b' → race_inv b'.
Proof.
  intros Hinv Hstep. pose proof Hinv as [H1 H2 H3 H4 H5 H6].
  destruct Hstep as [i p Hi Hp Hk|i p Hi Hp Hk|i p Hi Hp Hl read|i p after Hi Hp Hk|i p after Hi Hp Hk
                    |i p after Hi Hp|i p Hi].
  - apply put_inv; simpl; [done|by eapply H3|by intros ? [|]|done|done].
  - apply put_inv; simpl; [done|by eapply H3|by intros ? [|]|done|done].
  - assert (Hread : read = bk_credits b) by (unfold read; by rewrite (H3 i p Hi)).
    apply put_inv; simpl; [by apply fresh_lock|by eapply H3| |done|done].
    intros a [Ha|Ha]; [|done]. split; [done|]. injection Ha as <-. by rewrite Hread.
  - destruct (H4 i p after Hi (or_introl Hp)) as [Hl Ha].
    apply put_inv; simpl; [done|by eapply H3| | |done].
    + intros a [Hq|Hq]; [done|]. injection Hq as <-. done.
    + done.
  - destruct (H4 i p after Hi (or_introl Hp)) as [Hl _].
    apply (release_inv b i p); simpl; auto.
  - destruct (H4 i p after Hi (or_intror Hp)) as [Hl Ha].
    apply (release_inv b i p); simpl; auto.
    + rewrite fmap_app, sum_Z_app. simpl. unfold books_balance in H1. lia.
    + rewrite fmap_app. simpl. apply NoDup_app. split_and!; [done| |apply NoDup_singleton].
      intros k Hk ->%list_elem_of_singleton. by apply (H5 i p after Hi Hp).
    + intros k Hk. rewrite fmap_app, elem_of_app. by left.
    + right. right. split; [done|]. rewrite fmap_app, elem_of_app. right. by left.
    + by eapply H3.
  - unfold release. destruct (decide (bk_lock b = Some i)) as [Hl|Hl].
    + apply (release_inv b i p); simpl; auto. by eapply H3.
    + apply put_inv; simpl; [|by eapply H3|by intros ? [|]|done|done]. by destruct b.
Qed.

(** C8: concurrent postings are safe: however the statements of any number of
    postings interleave, and whichever of them crash, if every session reads the
    organisation's row afresh the balance is at all times the sum of the entries,
    no key has two entries, and a posting that has returned has its key in the
    ledger. *)
Theorem concurrent_postings_safe b b' :
  books_balance b → NoDup (bk_ledger b).*1 → bk_lock b = None →
  Forall (λ p, pr_loaded p = None ∧ pr_progress p = Checking) (bk_posters b) →
  rtc race_step b b' →
  books_balance b' ∧ NoDup (bk_ledger b').*1 ∧
  ∀ i p found, bk_posters b' !! i = Some p → pr_progress p = Finished found → posted_key (pr_key p) b'.
Proof.
  intros Hb Hn Hl Hp Hsteps.
  assert (Hinv : race_inv b).
  { rewrite Forall_lookup in Hp.
    split; [done|done|..]; intros i p *; intros Hi; destruct (Hp i p Hi) as [? Hc]; try done;
      rewrite Hc; try done. by intros [|]. }
  assert (Hinv' : race_inv b').
  { clear Hb Hn Hl Hp. induction Hsteps as [|b1 b2 b3 Hs _ IH]; [done|]. by apply IH, (race_step_inv b1). }
  destruct Hinv' as [H1 H2 _ _ _ H6]. done.
Qed.

(** ** Witness, and what a stale object does *)

Definition two_debits (loaded : option Z) : Books :=
  mkBooks [(u "bonus", 100)] 100 None
    [mkPoster (u "run:1") (-30) loaded Checking; mkPoster (u "run:2") (-50) loaded Checking].

Definition last_books (loaded : option Z) : Books :=
  let first := default 100 loaded - 30 in
  mkBooks [(u "bonus", 100); (u "run:1", -30); (u "run:2", -50)] (default first loaded - 50) None
    [mkPoster (u "run:1") (-30) loaded (Finished false); mkPoster (u "run:2") (-50) loaded (Finished false)].

Lemma absent_key k ks : bool_decide (k ∈ ks) = false → ¬ k ∈ (ks : list pystr).
Proof. by intros H%bool_decide_eq_false. Qed.

Lemma two_debits_run loaded : rtc race_step (two_debits loaded) (last_books loaded).
Proof.
  eapply rtc_l; [eapply (step_absent _ 0); [reflexivity|reflexivity|by apply absent_key]|].
  eapply rtc_l; [eapply (step_absent _ 1); [reflexivity|reflexivity|by apply absent_key]|].
  eapply rtc_l; [eapply (step_lock _ 0); reflexivity|].
  eapply rtc_l; [eapply (step_insert _ 0); [reflexivity|reflexivity|by apply absent_key]|].
  eapply rtc_l; [eapply (step_commit _ 0); reflexivity|].
  eapply rtc_l; [eapply (step_lock _ 1); reflexivity|].
  eapply rtc_l; [eapply (step_insert _ 1); [reflexivity|reflexivity|by apply absent_key]|].
  eapply rtc_l; [eapply (step_commit _ 1); reflexivity|].
  apply rtc_refl.
Qed.

Lemma concurrent_postings_safe_witness :
  rtc race_step (two_debits None) (last_books None) ∧ bk_credits (last_books None) = 20 ∧
  books_balance (last_books None) ∧ NoDup (bk_ledger (last_books None)).*1.
Proof.
  assert (Hn : NoDup (bk_ledger (two_debits None)).*1) by apply NoDup_singleton.
  assert (Hp : Forall (λ p, pr_loaded p = None ∧ pr_progress p = Checking) (bk_posters (two_debits None)))
    by (repeat constructor).
  destruct (concurrent_postings_safe (two_debits None) (last_books None) eq_refl Hn eq_refl Hp
              (two_debits_run None)) as (Hb & Hk & _).
  split; [apply two_debits_run|]. split; [reflexivity|]. split; [exact Hb|exact Hk].
Defined.

(** When both sessions had loaded the organisation before (as every request that
    depends on the organisation has), the second debit overwrites the first: the
    balance ends above the sum of the entries. *)
Lemma stale_organisation_loses_a_debit :
  rtc race_step (two_debits (Some 100)) (last_books (Some 100)) ∧
  bk_credits (last_books (Some 100)) = 50 ∧ sum_Z (bk_ledger (last_books (Some 100))).*2 = 20.
Proof. split; [apply two_debits_run|]. split; reflexivity. Qed.
