(* ===== verification/RateLimit.v ===== *)
(** * Rate limits and concurrency slots (src/core/ratelimit.py, and the slots of src/worker/main.py)

    The sliding window is the Lua script of the module on one key's sorted set;
    the slots are a counter that workers take from and give back to, that Redis
    may expire, and that the worker's sweep overwrites from the database. *)

From S2P Require Import Prelude PyStr PyFloat PyVal Database.

(** ** The sliding window *)

(** The members of a sorted set, ascending by score; times in float units. *)
Definition Window : Type := list (Z * pystr).

Fixpoint zinsert (score : Z) (member : pystr) (zs : Window) : Window :=
  match zs with
  | [] => [(score, member)]
  | (s, m) :: rest => if score <? s then (score, member) :: zs else (s, m) :: zinsert score member rest
  end.

(** [ZADD key score member]: a member that is there already gets the new score.
    (Redis orders equal scores by their members; only scores are read here.) *)
Definition zadd (score : Z) (member : pystr) (zs : Window) : Window :=
  zinsert score member (List.filter (λ e, negb (bool_decide (e.2 = member))) zs).

(** [ZREMRANGEBYSCORE key 0 (now - window)] *)
Definition prune (bound : Z) (zs : Window) : Window :=
  List.filter (λ e, negb ((0 <=? e.1) && (e.1 <=? bound))) zs.

Record RateLimitResult := mkLimit {
  rl_allowed : bool; rl_limit : Z; rl_used : Z; rl_retry_after_seconds : Z }.
Definition remaining (r : RateLimitResult) : Z := Z.max (rl_limit r - rl_used r) 0.

(** [math.ceil] of a number of float units *)
Definition fl_ceil (x : Z) : Z := - ((- x) / fl_one).

(** The script, on the set as Redis holds it: empty when the key has expired. *)
Definition sliding_window (zs : Window) (now window limit : Z) (member : pystr)
    : (Z * Z * Z) * Window :=
  let zs1 := prune (rnd (now - window * fl_one) 1) zs in
  let used := py_len zs1 in
  if limit <=? used then
    let reset := match zs1 with
                 | (oldest, _) :: _ => fl_ceil (rnd (rnd (oldest + window * fl_one) 1 - now) 1)
                 | [] => window
                 end in
    ((0, used, reset), zs1)
  else ((1, used + 1, 0), zadd now member zs1).

(** [RateLimiter.check]; [expired]: has the key's time to live run out? [token] is
    the [uuid.uuid4().hex] of the call. *)
Definition check `{PyTables} (expired : bool) (limit window now : Z) (token : pystr) (zs : Window)
    : RateLimitResult * Window :=
  let member := str_of_float (FFin now) ++ u ":" ++ slice_to 8 token in
  let '((allowed, used, reset), zs') :=
    sliding_window (if expired then [] else zs) now window limit member in
  (mkLimit (negb (allowed =? 0)) limit used reset, zs').

(** ** Slots *)

(** The counter of an organisation; [None]: no such key. *)
Definition slot_value (c : option Z) : Z := default 0 c.

(** The script of [acquire_slot] *)
Definition acquire_slot (limit : Z) (c : option Z) : bool * option Z :=
  let current := slot_value c in
  if limit <=? current then (false, c) else (true, Some (current + 1)).

(** [release_slot]: a decrement, and a second command when it went below zero. *)
Definition release_decr (c : option Z) : Z * option Z :=
  let value := slot_value c - 1 in (value, Some value).
Definition release_slot (c : option Z) : option Z :=
  let '(value, c') := release_decr c in if value <? 0 then Some 0 else c'.

Definition slots_in_use (c : option Z) : Z := slot_value c.

(** [release_stale_slots] for one key: [running] counts the rows whose status is
    [running] in the committed tables. *)
Definition running_runs (org_id : pystr) (d : Db) : Z :=
  py_len (List.filter (λ r, bool_decide (ru_org_id r = org_id) && bool_decide (ru_status r = u "running"))
            (db_runs d)).
Definition sweep_slots (running : Z) (c : option Z) : option Z :=
  match c with
  | None => None
  | Some current => if running <? current then Some running else c
  end.

(** ** The window never admits more than its limit *)

Section window.
Context `{PyTables} (limit window : Z) (Hwindow : 0 < window).

(** A clock of a resolution that the window is a multiple of. *)
Definition clock_ok (now : Z) : Prop :=
  ∃ m e j, 0 ≤ e ∧ now = m * 2 ^ e ∧ window * fl_one = j * 2 ^ e ∧ 0 ≤ j ≤ m ∧ m < 2 ^ 53.

Lemma clock_sub now : clock_ok now → rnd (now - window * fl_one) 1 = now - window * fl_one.
Proof.
  intros (m & e & j & He & -> & -> & Hj & Hm).
  replace (m * 2 ^ e - j * 2 ^ e) with ((m - j) * 2 ^ e) by ring.
  pose proof (rnd_b64 ((m - j) * 2 ^ e) 1 ltac:(lia)) as Hb. rewrite Z.mul_1_r in Hb. apply Hb.
  exists (m - j), e. split_and!; try done; lia.
Qed.

(** One call: its time, whether Redis had dropped the key, its UUID. *)
Record Call := mkCallAt { ca_now : Z; ca_expired : bool; ca_token : pystr }.

Fixpoint run_checks (calls : list Call) (zs : Window) : list (Z * bool) :=
  match calls with
  | [] => []
  | c :: rest =>
      let '(r, zs') := check (ca_expired c) limit window (ca_now c) (ca_token c) zs in
      (ca_now c, rl_allowed r) :: run_checks rest zs'
  end.

(** The calls admitted in the window that ends at [t]. *)
Definition admitted_in (t : Z) (trace : list (Z * bool)) : Z :=
  py_len (List.filter (λ c, c.2 && (t - window * fl_one <? c.1) && (c.1 <=? t)) trace).

(** Times go forward from [t0], and a key is dropped only when everything in it is
    out of the window: Redis expires it a window after the last admission. *)
Inductive timely : Z → Window → list Call → Prop :=
| timely_nil t zs : timely t zs []
| timely_cons t zs c rest :
    t ≤ ca_now c → clock_ok (ca_now c) →
    (ca_expired c = true → Forall (λ e, e.1 ≤ ca_now c - window * fl_one) zs) →
    timely (ca_now c) (check (ca_expired c) limit window (ca_now c) (ca_token c) zs).2 rest →
    timely t zs (c :: rest).

Definition in_window (t : Z) (zs : Window) : Z :=
  py_len (List.filter (λ e : Z * pystr, t - window * fl_one <? e.1) zs).

Lemma in_window_later t t' zs : t ≤ t' → in_window t' zs ≤ in_window t zs.
Proof.
  intros Ht. unfold in_window, py_len. induction zs as [|e zs IH]; [done|]. simpl.
  destruct (Z.ltb_spec (t' - window * fl_one) e.1), (Z.ltb_spec (t - window * fl_one) e.1); simpl; lia.
Qed.

Lemma in_window_prune t now zs :
  now ≤ t → in_window t (prune (now - window * fl_one) zs) = in_window t zs.
Proof.
  intros Ht. unfold in_window, prune, py_len. induction zs as [|[s m] zs IH]; [done|]. simpl.
  destruct (negb _) eqn:Hn; simpl.
  - destruct (_ <? s); simpl; lia.
  - destruct (Z.ltb_spec (t - window * fl_one) s); simpl; [|done].
    apply negb_false_iff, andb_true_iff in Hn as [_ Hn%Z.leb_le]. lia.
Qed.

Lemma in_window_zinsert t score member zs :
  in_window t (zinsert score member zs) = in_window t zs + (if t - window * fl_one <? score then 1 else 0).
Proof.
  unfold in_window, py_len. induction zs as [|[s m] zs IH]; simpl.
  - destruct (_ <? score); simpl; lia.
  - destruct (score <? s); simpl; destruct (_ <? s); simpl in *; try destruct (_ <? score); simpl in *; lia.
Qed.

(** A member that is not in the set yet. *)
Definition unheard (member : pystr) (zs : Window) : Prop := Forall (λ e : Z * pystr, e.2 ≠ member) zs.

Lemma zadd_unheard score member zs : unheard member zs → zadd score member zs = zinsert score member zs.
Proof.
  intros Hn. unfold zadd. f_equal. induction Hn as [|e l He Hl IH]; [done|]. simpl.
  rewrite bool_decide_eq_false_2 by done. simpl. by f_equal.
Qed.

Lemma zinsert_unheard score member m zs : m ≠ member → unheard member zs → unheard member (zinsert score m zs).
Proof.
  intros Hm Hn. induction Hn as [|[s x] l He Hl IH]; simpl; [by repeat constructor|].
  destruct (score <? s); by repeat constructor.
Qed.

Lemma filter_unheard f member zs : unheard member zs → unheard member (List.filter f zs).
Proof. intros Hn. induction Hn as [|e l He Hl IH]; [constructor|]. simpl. destruct (f e); [by constructor|done]. Qed.

Lemma in_window_le t zs : in_window t zs ≤ py_len zs.
Proof. unfold in_window, py_len. induction zs as [|e zs IH]; simpl; [lia|]. destruct (_ <? _); simpl; lia. Qed.

(** Calls draw different tokens, of eight characters. *)
Abbreviation token8 c := (slice_to 8 (ca_token c)).
Definition fresh_tokens (calls : list Call) : Prop :=
  NoDup (map (λ c, token8 c) calls) ∧ Forall (λ c, length (token8 c) = 8%nat) calls.

Definition member_of (c : Call) : pystr := str_of_float (FFin (ca_now c)) ++ u ":" ++ token8 c.

Lemma member_of_inj c c' : length (token8 c) = length (token8 c') → member_of c = member_of c' → token8 c = token8 c'.
Proof.
  unfold member_of. intros Hl Hm. rewrite !(app_assoc _ (u ":")) in Hm. by apply app_inj_2 in Hm as [_ ?].
Qed.

(** What one call does to the counts: the set it leaves, seen from any later time. *)
Lemma check_counts c zs t (now := ca_now c) :
  clock_ok now → now ≤ t → (ca_expired c = true → Forall (λ e, e.1 ≤ now - window * fl_one) zs) →
  unheard (member_of c) zs →
  let '(r, zs') := check (ca_expired c) limit window now (ca_token c) zs in
  in_window t zs' = in_window t zs + (if rl_allowed r && (t - window * fl_one <? now) then 1 else 0) ∧
  (rl_allowed r = true → in_window now zs' ≤ limit) ∧
  (rl_allowed r = false → limit ≤ rl_used r) ∧
  ∀ m, m ≠ member_of c → unheard m zs → unheard m zs'.
Proof.
  intros Hc Ht Hx Hn. unfold check, sliding_window. rewrite clock_sub by done.
  set (zs0 := if ca_expired c then [] else zs).
  assert (H0 : in_window t zs0 = in_window t zs).
  { subst zs0. destruct (ca_expired c); [|done]. specialize (Hx eq_refl). symmetry. unfold in_window, py_len.
    induction Hx as [|e l He Hl IH]; [done|]. simpl.
    destruct (Z.ltb_spec (t - window * fl_one) e.1); [lia|]. apply IH. by inversion Hn. }
  set (zs1 := prune (now - window * fl_one) zs0).
  assert (H1 : in_window t zs1 = in_window t zs) by (rewrite <- H0; by apply in_window_prune).
  assert (Hkeep : ∀ m, unheard m zs → unheard m zs1).
  { intros m Hm. apply filter_unheard. subst zs0. destruct (ca_expired c); [constructor|done]. }
  change (prune (now - window * fl_one) (if ca_expired c then [] else zs)) with zs1.
  destruct (limit <=? py_len zs1) eqn:Hf; simpl; [apply Z.leb_le in Hf|apply Z.leb_gt in Hf].
  - split_and!; [lia|done|done|]. intros m _. apply Hkeep.
  - fold (member_of c). rewrite zadd_unheard by by apply Hkeep. rewrite !in_window_zinsert, H1. split_and!; [done| |done|].
    + intros _. pose proof (in_window_le now zs1). destruct (_ <? now); lia.
    + intros m Hm Hu. apply zinsert_unheard; [done|by apply Hkeep].
Qed.

Lemma run_checks_later calls t zs :
  timely t zs calls → Forall (λ c, t ≤ c.1) (run_checks calls zs).
Proof.
  revert t zs. induction calls as [|c calls IH]; intros t zs Ht; [constructor|].
  inversion_clear Ht as [|? ? ? ? Hle Hc Hx Hrest]. simpl.
  destruct (check _ _ _ _ _ zs) as [r zs'] eqn:Heq. simpl in Hrest. constructor; [done|].
  eapply Forall_impl; [by apply IH|]. intros [n b] Hn. simpl in *. lia.
Qed.

Lemma admitted_none t trace : Forall (λ c : Z * bool, t < c.1) trace → admitted_in t trace = 0.
Proof.
  unfold admitted_in, py_len. intros Hf. induction Hf as [|[n b] l Hn Hl IH]; [done|]. simpl in *.
  destruct (Z.leb_spec n t); [lia|]. by rewrite andb_false_r.
Qed.

Lemma run_checks_bound calls t0 zs t :
  timely t0 zs calls → fresh_tokens calls → Forall (λ c, unheard (member_of c) zs) calls →
  t0 ≤ t → in_window t0 zs ≤ limit →
  in_window t zs + admitted_in t (run_checks calls zs) ≤ limit.
Proof.
  revert t0 zs. induction calls as [|c calls IH]; intros t0 zs Ht Hfr Hun Hle Hl.
  { pose proof (in_window_later t0 t zs Hle). unfold admitted_in, py_len. simpl. lia. }
  inversion Ht as [|? ? ? ? Hn Hc Hx Hrest Heq1 Heq2 Heq3]. subst.
  destruct (Z.lt_ge_cases t (ca_now c)) as [Hlt|Hge].
  { rewrite admitted_none.
    - pose proof (in_window_later t0 t zs Hle). lia.
    - pose proof (run_checks_later _ _ _ Ht) as Hall. simpl in Hall |- *.
      destruct (check _ _ _ _ _ zs) as [r zs']. simpl in Hrest. constructor; [done|].
      eapply Forall_impl; [by apply (run_checks_later _ _ _ Hrest)|]. intros [n b] Hb. simpl in *. lia. }
  destruct Hfr as [[Hd Hds]%NoDup_cons [Hlen Hlens]%Forall_cons]. apply Forall_cons in Hun as [Hu Hun].
  pose proof (check_counts c zs t Hc Hge Hx Hu) as Hcount.
  pose proof (check_counts c zs (ca_now c) Hc ltac:(lia) Hx Hu) as Hnow.
  pose proof (in_window_later t0 (ca_now c) zs Hn) as Hlater. simpl.
  destruct (check (ca_expired c) limit window (ca_now c) (ca_token c) zs) as [r zs'] eqn:Heq.
  simpl in Hrest. destruct Hcount as (Hcount & _ & _ & Hkeep), Hnow as (Hnow & Hadm & _ & _).
  assert (Hl' : in_window (ca_now c) zs' ≤ limit).
  { destruct (rl_allowed r); [by apply Hadm|]. simpl in Hnow. lia. }
  assert (Hun' : Forall (λ c', unheard (member_of c') zs') calls).
  { apply Forall_forall. intros c' Hin. rewrite Forall_forall in Hun, Hlens. apply Hkeep; [|by apply Hun].
    intros Hm. apply Hd. apply member_of_inj in Hm; [|by rewrite Hlen, Hlens]. rewrite <- Hm.
    by apply list_elem_of_In, (in_map (λ c, token8 c)), list_elem_of_In. }
  specialize (IH _ _ Hrest (conj Hds Hlens) Hun' Hge Hl'). unfold admitted_in, py_len in *. simpl.
  destruct (rl_allowed r); simpl in *; [|lia].
  destruct (Z.leb_spec (ca_now c) t); [|lia]. rewrite andb_true_r.
  destruct (t - window * fl_one <? ca_now c); simpl in *; lia.
Qed.

(** C18: the window never admits too many: whatever calls arrive on one key, in any
    interval one window long at most [limit] of them are admitted; when the clocks of
    the callers go forward and are precise enough (the window is a multiple of their
    resolution, so that [now - window] is exact in binary64), when the calls draw
    different tokens of eight characters for their members, and when Redis drops the
    key no earlier than it was told to. *)
Theorem window_never_exceeds calls t0 t :
  0 ≤ limit → timely t0 [] calls → fresh_tokens calls → admitted_in t (run_checks calls []) ≤ limit.
Proof.
  intros Hl Ht Hfr. destruct (Z.le_gt_cases t0 t) as [Hle|Hgt].
  - assert (Hun : Forall (λ c, unheard (member_of c) []) calls) by (apply Forall_forall; intros; constructor).
    pose proof (run_checks_bound calls t0 [] t Ht Hfr Hun Hle) as Hb. unfold in_window in Hb at 1 2. simpl in Hb.
    unfold py_len in Hb at 1 2. simpl in Hb. lia.
  - rewrite admitted_none; [done|]. eapply Forall_impl; [by apply (run_checks_later _ _ _ Ht)|].
    intros [n b] Hn. simpl in *. lia.
Qed.
End window.

(** ** Slots as workers use them *)

(** The counter, and the runs that hold a slot. *)
Record Slots := mkSlots { sl_counter : option Z; sl_held : Z }.

Inductive slot_step (limit : Z) (s : Slots) : Slots → Prop :=
| slot_taken c : acquire_slot limit (sl_counter s) = (true, c) →
    slot_step limit s (mkSlots c (sl_held s + 1))
| slot_refused c : acquire_slot limit (sl_counter s) = (false, c) →
    slot_step limit s (mkSlots c (sl_held s))
| slot_given : 0 < sl_held s → slot_step limit s (mkSlots (release_slot (sl_counter s)) (sl_held s - 1)).

Inductive sweep_step (limit : Z) (s : Slots) : Slots → Prop :=
| sweep_slot s' : slot_step limit s s' → sweep_step limit s s'
| sweep_now running : sweep_step limit s (mkSlots (sweep_slots running (sl_counter s)) (sl_held s)).

(** an organisation never exceeds its ceiling: as long as the counter is only
    taken from and given back to, it is the number of runs that hold a slot, and
    that is at most the limit. *)
Theorem slots_within_ceiling limit s s' :
  0 ≤ limit → slot_value (sl_counter s) = sl_held s → 0 ≤ sl_held s ≤ limit →
  rtc (slot_step limit) s s' →
  slot_value (sl_counter s') = sl_held s' ∧ 0 ≤ sl_held s' ≤ limit.
Proof.
  intros Hl Heq Hheld Hsteps. induction Hsteps as [s|s1 s2 s3 Hs _ IH]; [done|].
  apply IH; destruct Hs as [c Ha|c Ha|Hpos]; simpl in *.
  - unfold acquire_slot in Ha. destruct (_ <=? _); [done|]. injection Ha as <-. simpl. lia.
  - unfold acquire_slot in Ha. destruct (_ <=? _); [|done]. by injection Ha as <-.
  - unfold release_slot, release_decr. destruct (Z.ltb_spec (slot_value (sl_counter s1) - 1) 0); simpl; lia.
  - unfold acquire_slot in Ha. destruct (Z.leb_spec limit (slot_value (sl_counter s1))); [done|]. lia.
  - lia.
  - lia.
Qed.

Lemma slots_within_ceiling_witness :
  rtc (slot_step 1) (mkSlots None 0) (mkSlots (Some 1) 1) ∧
  slot_value (Some 1) = 1 ∧ 0 ≤ 1 ≤ 1.
Proof.
  assert (Hr : rtc (slot_step 1) (mkSlots None 0) (mkSlots (Some 1) 1)).
  { eapply rtc_l; [by apply slot_taken|]. apply rtc_refl. }
  split; [exact Hr|].
  assert (H0 : 0 ≤ 1) by lia. assert (Hh : 0 ≤ sl_held (mkSlots None 0) ≤ 1) by (simpl; lia).
  exact (slots_within_ceiling 1 (mkSlots None 0) (mkSlots (Some 1) 1) H0 eq_refl Hh Hr).
Defined.

(** The sweep breaks it: a run in flight is not [running] in the committed tables
    (see [Runner]), so the sweep resets the counter under it and the organisation
    runs twice its ceiling. *)
Lemma sweep_admits_beyond_ceiling :
  rtc (sweep_step 1) (mkSlots None 0) (mkSlots (Some 1) 2).
Proof.
  eapply rtc_l; [apply sweep_slot; by apply slot_taken|].
  eapply rtc_l; [apply (sweep_now _ _ 0)|].
  eapply rtc_l; [apply sweep_slot; by apply slot_taken|]. apply rtc_refl.
Qed.

(** ** Witness for the window: three calls of two a minute *)

#[local] Existing Instance ascii_tables.
Definition demo_token (n : Z) : pystr := u "abcde" ++ str_of_Z n ++ u "0123".
Definition demo_call (n : Z) : Call := mkCallAt (n * fl_one) false (demo_token n).
Definition demo_calls : list Call := [demo_call 100; demo_call 130; demo_call 150].

Lemma demo_clock n : 60 ≤ n → n < 2 ^ 53 → clock_ok 60 (n * fl_one).
Proof. intros H1 H2. exists n, 1074, 60. unfold fl_one. split_and!; try done; lia. Qed.

Lemma timely_demo k n zs rest :
  k ≤ n → 60 ≤ n → n < 2 ^ 53 →
  timely 2 60 (n * fl_one) (check false 2 60 (n * fl_one) (demo_token n) zs).2 rest →
  timely 2 60 (k * fl_one) zs (demo_call n :: rest).
Proof.
  intros Hk H1 H2 Hrest. apply timely_cons; [|by apply demo_clock|discriminate|exact Hrest].
  apply Z.mul_le_mono_nonneg_r; [by unfold fl_one; lia|done].
Qed.

Lemma window_never_exceeds_witness :
  map snd (run_checks 2 60 demo_calls []) = [true; true; false] ∧
  admitted_in 60 (150 * fl_one) (run_checks 2 60 demo_calls []) ≤ 2.
Proof.
  assert (Ht : timely 2 60 (0 * fl_one) [] demo_calls).
  { do 3 (apply timely_demo; [lia|lia|lia|]). apply timely_nil. }
  split; [vm_compute; reflexivity|].
  assert (H2 : 0 ≤ 2) by lia.
  assert (Hf : fresh_tokens demo_calls) by (split; [apply (bool_decide_unpack _)|repeat constructor]; by vm_compute).
  exact (window_never_exceeds 2 60 demo_calls (0 * fl_one) (150 * fl_one) H2 Ht Hf).
Defined.

(** Calls that draw the same member at the same time count as one: a limit of two
    lets three through. *)
Lemma same_member_counts_once :
  let call := mkCallAt (100 * fl_one) false (u "12345678") in
  map snd (run_checks 2 60 [call; call; call] []) = [true; true; true].
Proof. vm_compute. reflexivity. Qed.
