(* ===== verification/Runner.v ===== *)
(** * Executing a run (src/core/runner.py)

    [execute_run] claims a queued run, runs its workflow on the engine, settles the
    run row and the ledger and emits the terminal event, all in one transaction
    that is committed at the end.  The sinks the engine writes to are the
    inserts of steps, tool calls and artifacts into that transaction.  A database
    read of the resolver or the price book that fails is an exception of the
    [await]; whether the session can still be used afterwards is up to
    [db_fault]. *)

From S2P Require Import Prelude PyStr PyFloat PyVal PyRegex PyJson Config State Budget Registry.
From S2P Require Import Providers Pricing Keys Events World Router ToolBase ToolArtifacts ToolRegistry.
From S2P Require Import Engine Workflow Presets Database Auditing Billing.

Definition TERMINAL_STATUSES : list pystr :=
  [u "succeeded"; u "failed"; u "cancelled"; u "budget_exceeded"; u "timed_out"].
Definition is_terminal (status : pystr) : bool := bool_decide (status ∈ TERMINAL_STATUSES).

(** The session of the run and the counters [totals]. *)
Record RunExt := mkExt {
  re_session : Session; re_tokens_in : Z; re_tokens_out : Z; re_billable : Z }.

Definition put_session s x := mkExt s (re_tokens_in x) (re_tokens_out x) (re_billable x).
Definition on_session {A} (m : M Session exn A) : M RunExt exn A := λ x,
  let '(r, s) := m (re_session x) in (r, put_session s x).

(** ** Rows *)

Definition start_run (t : Z) (r : Run) : Run :=
  mkRun (ru_id r) (ru_org_id r) (ru_workflow_id r) (ru_created_by r) (u "running") (ru_input r) (ru_output r)
    (ru_error r) (ru_key_mode r) (ru_cost_microcents r) (ru_cost_cents r) (ru_billable_microcents r)
    (ru_tokens_in r) (ru_tokens_out r) (ru_steps_used r) (ru_max_steps r) (ru_max_cost_cents r)
    (ru_cancel_requested r) (ru_idempotency_key r) (Some t) (ru_finished_at r).

Definition set_limits (max_steps max_cost_cents : Z) (r : Run) : Run :=
  mkRun (ru_id r) (ru_org_id r) (ru_workflow_id r) (ru_created_by r) (ru_status r) (ru_input r) (ru_output r)
    (ru_error r) (ru_key_mode r) (ru_cost_microcents r) (ru_cost_cents r) (ru_billable_microcents r)
    (ru_tokens_in r) (ru_tokens_out r) (ru_steps_used r) max_steps max_cost_cents
    (ru_cancel_requested r) (ru_idempotency_key r) (ru_started_at r) (ru_finished_at r).

(** The assignments of the [finally] block *)
Record Outcome := mkOutcome {
  oc_status : pystr; oc_error : option pystr; oc_output : option pystr; oc_steps_used : Z;
  oc_cost_microcents : Z; oc_billable : Z; oc_tokens_in : Z; oc_tokens_out : Z; oc_finished_at : Z }.

Definition settle (o : Outcome) (r : Run) : Run :=
  mkRun (ru_id r) (ru_org_id r) (ru_workflow_id r) (ru_created_by r) (oc_status o) (ru_input r) (oc_output o)
    (oc_error o) (ru_key_mode r) (oc_cost_microcents o) (microcents_to_cents (oc_cost_microcents o))
    (oc_billable o) (oc_tokens_in o) (oc_tokens_out o) (oc_steps_used o) (ru_max_steps r)
    (ru_max_cost_cents r) (ru_cancel_requested r) (ru_idempotency_key r) (ru_started_at r)
    (Some (oc_finished_at o)).

Definition step_row (run_id : pystr) (r : StepRecord) : RunStep :=
  mkRunStep run_id (sr_index r) (ag_id (sr_agent r)) (ag_name (sr_agent r)) (ag_role (sr_agent r))
    (ag_model (sr_agent r)) (sr_provider r) (sr_instruction r) (sr_output r) (sr_stop_reason r)
    (sr_tokens_in r) (sr_tokens_out r) (sr_cached_tokens r) (sr_reasoning_tokens r)
    (sr_cost_microcents r) (sr_latency_ms r) (sr_attempts r) (sr_model_calls r) (sr_tool_calls r).

Definition tool_call_row (run_id : pystr) (r : ToolCallRecord) : ToolCallLog :=
  mkToolLog run_id (cr_step_index r) (cr_call_index r) (cr_agent_id r) (cr_agent_name r) (cr_tool r)
    (cr_arguments r) (slice_to 20000 (cr_result r)) (cr_is_error r) (cr_latency_ms r) (cr_metadata r).

Definition artifact_row (id run_id org_id : pystr) (size : Z) (r : ArtifactRecord) : ArtifactRow :=
  mkArtifactRow id run_id org_id (af_path r) (af_kind r) (af_language r) (af_content r) size (af_version r)
    (af_step_index r) (af_agent_name r).

(** [_load_agents]: the active agents of the organisation, by id *)
Definition load_agents (org_id : pystr) (d : Db) : AgentMap :=
  assoc_of_list
    (map (λ row, (ag_id (ar_spec row), ar_spec row))
       (List.filter (λ row, bool_decide (ar_org_id row = org_id) && ar_is_active row) (db_agents d))).

Section sinks.
Context `{DbEnv} (run_id org_id : pystr).

Definition add_totals (r : StepRecord) (x : RunExt) : RunExt :=
  mkExt (re_session x) (re_tokens_in x + sr_tokens_in r) (re_tokens_out x + sr_tokens_out r)
    (re_billable x + sr_billable_microcents r).

Definition persist_step (r : StepRecord) : M RunExt exn unit :=
  _ ← modify (add_totals r);
  let row := step_row run_id r in
  on_session (insert (step_allowed row) (λ d, set_steps (db_steps d ++ [row]) d)).

Definition persist_tool_call (r : ToolCallRecord) : M RunExt exn unit :=
  let row := tool_call_row run_id r in
  on_session (insert (tool_call_allowed row) (λ d, set_tool_calls (db_tool_calls d ++ [row]) d)).

Definition persist_artifact (r : ArtifactRecord) : M RunExt exn unit :=
  size ← lift_res (encoded_len (af_content r));
  id ← on_session uuid;
  let row := artifact_row id run_id org_id size r in
  on_session (insert (artifact_allowed row) (λ d, set_artifact_rows (db_artifacts d ++ [row]) d)).
End sinks.

(** ** How a run ends *)

(** [(status, error)] of the [except] clauses, in their order *)
Definition verdict `{PyTables} (settings : Settings) (e : exn) : pystr * option pystr :=
  match e with
  | RunCancelled reason => (u "cancelled", Some reason)
  | BudgetExceeded reason => (u "budget_exceeded", Some reason)
  | RunTimedOut reason => (u "timed_out", Some reason)
  | TimeoutError =>
      (u "timed_out", Some (u "run exceeded " ++ str_of_Z (cfg_run_timeout_seconds settings) ++ u "s"))
  | CancelledError | TimerCancelled _ => (u "cancelled", Some (u "worker shut down"))
  | WorkflowConfigError _ | KeyResolutionError _ | UnknownModelError _ => (u "failed", Some (exn_str e))
  | RefusalError _ explanation =>
      (u "failed", Some (u "model refused the request: " ++ default [] explanation))
  | _ =>
      if is_llm_error e then (u "failed", Some (exn_str e))
      else (u "failed", Some (exn_name e ++ u ": " ++ exn_str e))
  end.

(** [asyncio.wait_for(run, timeout=settings.run_timeout_seconds)] *)
Definition set_in_run {X} (b : bool) (w : World X) : World X :=
  put_clock (mkClock (ck_tick (w_clock w)) (ck_in_tool (w_clock w)) b) w.
Definition wait_for_run {X A} (m : M (World X) exn A) : M (World X) exn A := λ w,
  match m (set_in_run true w) with
  | (Ok a, w') => (Ok a, set_in_run (ck_in_run (w_clock w)) w')
  | (Err e, w') =>
      (Err (match e with TimerCancelled false => TimeoutError | _ => e end),
       set_in_run (ck_in_run (w_clock w)) w')
  end.

(** The ceilings: what the graph asks for, at most what the platform allows *)
Definition run_limits `{PyTables} (settings : Settings) (graph : Graph) : res exn (Z * Z) :=
  steps ← py_int (get_or graph "max_steps" (VInt (cfg_max_steps_per_run settings)));
  cents ← py_int (get_or graph "max_cost_cents" (VInt (cfg_max_cost_cents_per_run settings)));
  Ok (Z.min steps (cfg_max_steps_per_run settings), Z.min cents (cfg_max_cost_cents_per_run settings)).

(** [float(n)] for a number of seconds *)
Definition seconds (n : Z) : Z := rnd (n * fl_one) 1.

Section runner.
Context `{Env} `{DbEnv} (web_fetch web_search : Tool RunExt).
Abbreviation IO A := (M (World RunExt) exn A).

Definition on_db {A} (m : M Session exn A) : IO A := on_ext (on_session m).

Definition run_not_found {A} (run_id : pystr) : IO A :=
  raise (ValueError (u "run " ++ run_id ++ u " not found")).

(** [_claim] *)
Definition claim (run_id : pystr) : IO (option Run) :=
  o ← on_db (query (find_run run_id));
  match o with
  | None => run_not_found run_id
  | Some run =>
      if bool_decide (ru_status run = u "queued") then
        t ← on_db now_utc;
        _ ← on_db (change (update_run run_id (start_run t)));
        _ ← on_db statement;
        m_ret (Some run)
      else m_ret None
  end.

(** [price_book.refresh(session)] *)
Definition refresh_prices : IO unit :=
  t ← now;
  book ← gets (λ w, ro_prices (w_router w));
  if rnd (t - pb_loaded_at book) 1 <? pb_ttl book then m_ret tt
  else
    rows ← on_db (query (λ d, map (λ p, (mp_model p, mp_rate p)) (db_prices d)));
    t' ← now;
    modify (λ w, put_router (mkRouter (ro_resolver (w_router w)) (refresh rows false t t' book)
                               (ro_adapters (w_router w)) (ro_calls (w_router w))) w).

(** [LLMRouter(KeyResolver(session, run.org_id, run.key_mode), price_book)] *)
Definition open_router (run : Run) : IO unit :=
  resolver ← lift_res (new_resolver (ru_org_id run) (ru_key_mode run));
  modify (λ w, put_router (mkRouter resolver (ro_prices (w_router w)) [] []) w).

Definition run_engine (run : Run) : Engine RunExt := {|
  eg_step_sink := Some (persist_step (ru_id run));
  eg_artifact_sink := Some (persist_artifact (ru_id run) (ru_org_id run));
  eg_tool_call_sink := Some (persist_tool_call (ru_id run));
  eg_tool_resolver :=
    if cfg_tools_enabled env_settings
    then default_tool_resolver env_settings web_fetch web_search
    else (λ _, []);
  eg_markup := apply_markup env_settings;
  eg_cancel_check := true;
  eg_max_board_chars := cfg_max_board_chars env_settings;
  eg_step_timeout := seconds (cfg_step_timeout_seconds env_settings);
  eg_max_tool_iterations := cfg_max_tool_iterations env_settings;
  eg_max_tool_calls_per_turn := cfg_max_tool_calls_per_turn env_settings;
  eg_stream_tokens := true;
  eg_max_attempts := MAX_ATTEMPTS |}.

Definition start_payload (run : Run) (wf : WorkflowRow) (limits : Z * Z) : list (pystr * pyval) :=
  [str_key "workflow_id" (VStr (wf_id wf)); str_key "workflow_name" (VStr (wf_name wf));
   str_key "preset" (VStr (wf_preset wf)); str_key "key_mode" (VStr (ru_key_mode run));
   str_key "max_steps" (VInt limits.1); str_key "max_cost_cents" (VInt limits.2)].

(** From the claimed row to the running engine: the objects of the run *)
Definition set_up (run : Run) (wf : WorkflowRow) : IO unit :=
  limits ← lift_res (run_limits env_settings (wf_graph wf));
  t ← now;
  _ ← modify (put_budget (new_budget limits.1 (limits.2 * 1000000)
                            (seconds (cfg_run_timeout_seconds env_settings)) t));
  _ ← on_db (change (update_run (ru_id run) (set_limits limits.1 limits.2)));
  _ ← modify (λ w, put_ext (mkExt (re_session (w_ext w)) 0 0 0) w);
  _ ← refresh_prices;
  _ ← open_router run;
  _ ← modify (put_state (set_note (u "org_id") (VStr (ru_org_id run)) (new_state (ru_input run))));
  emit_event RUN_START (start_payload run wf limits).

(** The [try] block *)
Definition run_workflow_graph (run : Run) (wf : WorkflowRow) (agents : AgentMap) : IO unit :=
  preset ← lift_res (get_preset (run_engine run) (wf_preset wf));
  wait_for_run (preset (wf_graph wf) agents).

(** [state.final_output or (state.last_output() if state.board else None)] *)
Definition run_output (s : RunState) : option pystr :=
  match st_final_output s with
  | Some ((_ :: _) as out) => Some out
  | _ => match st_board s with [] => None | _ => Some (last_output s) end
  end.

Definition outcome_of (status : pystr) (error : option pystr) (t : Z) (w : World RunExt) : Outcome :=
  mkOutcome status error (run_output (w_state w)) (b_steps_used (w_budget w)) (b_spent (w_budget w))
    (re_billable (w_ext w)) (re_tokens_in (w_ext w)) (re_tokens_out (w_ext w)) t.

(** The [finally] block *)
Definition finish (run : Run) (status : pystr) (error : option pystr) : IO Outcome :=
  t ← on_db now_utc;
  o ← gets (outcome_of status error t);
  _ ← on_db (change (update_run (ru_id run) (settle o)));
  _ ← on_db (charge_run env_settings (ru_org_id run) (ru_id run) (oc_billable o));
  _ ← await;
  _ ← modify (λ w, put_bus (clear_cancel (w_bus w)) w);
  _ ← await;
  m_ret o.

Definition artifact_ref_value (a : ArtifactRef) : pyval :=
  VDict [str_key "path" (VStr (ar_path a)); str_key "version" (VInt (ar_version a));
         str_key "kind" (VStr (ar_kind a))].

Definition end_payload (o : Outcome) (s : RunState) : list (pystr * pyval) :=
  [str_key "status" (VStr (oc_status o)); str_key "error" (VOpt (oc_error o));
   str_key "output" (VOpt (oc_output o)); str_key "steps_used" (VInt (oc_steps_used o));
   str_key "cost_cents" (VInt (microcents_to_cents (oc_cost_microcents o)));
   str_key "tokens_in" (VInt (oc_tokens_in o)); str_key "tokens_out" (VInt (oc_tokens_out o));
   str_key "artifacts" (VList (map artifact_ref_value (st_log s)));
   str_key "notes" (VDict (st_notes s))].

Definition finished_audit (run : Run) (o : Outcome) : AuditLog :=
  audit_row (u "run.finished") (Some (ru_org_id run)) None (Some (u "run")) (Some (ru_id run)) None None
    [str_key "status" (VStr (oc_status o)); str_key "steps" (VInt (oc_steps_used o));
     str_key "cost_cents" (VInt (microcents_to_cents (oc_cost_microcents o)))].

Definition end_event (status : pystr) : pystr :=
  if bool_decide (status = u "cancelled") then RUN_CANCELLED else RUN_END.

(** [try], [except], [finally] and what follows them *)
Definition run_and_settle (run : Run) (wf : WorkflowRow) (agents : AgentMap) : IO unit :=
  r ← attempt (λ _, true) (run_workflow_graph run wf agents);
  let '(status, error) := match r with
                          | inr _ => (u "succeeded", None)
                          | inl e => verdict env_settings e
                          end in
  o ← finish run status error;
  _ ← (match r with
       | inl e => if is_exception e then m_ret tt else raise e
       | inr _ => m_ret tt
       end);
  s ← gets w_state;
  _ ← emit_event (end_event status) (end_payload o s);
  on_db (audit_record (finished_audit run o)).

Definition execute_claimed (run : Run) : IO unit :=
  o ← on_db (query (find_workflow (ru_workflow_id run)));
  match o with
  | None => raise (ValueError (u "workflow " ++ ru_workflow_id run ++ u " not found"))
  | Some wf =>
      agents ← on_db (query (load_agents (ru_org_id run)));
      _ ← set_up run wf;
      run_and_settle run wf agents
  end.

Definition execute_body (run_id : pystr) : IO unit :=
  o ← claim run_id;
  match o with
  | None => m_ret tt
  | Some run => execute_claimed run
  end.

(** ** The office: what outlives one execution *)

Record Office := mkOffice { of_db : Db; of_bus : pystr → Bus; of_prices : PriceBook }.

(** The objects that [set_up] replaces start out empty. *)
Definition job_world (run_id : pystr) (o : Office) : World RunExt :=
  mkWorld (new_state []) (new_budget 0 0 0 0) (of_bus o run_id) (new_buffer 0)
    (mkRouter (mkResolver MANAGED [] []) (of_prices o) [] []) (mkClock 0 false false)
    (mkExt (open_session (of_db o)) 0 0 0).

Definition set_bus (run_id : pystr) (b : Bus) (bus : pystr → Bus) : pystr → Bus :=
  λ r, if bool_decide (r = run_id) then b else bus r.

Definition office_after (run_id : pystr) (o : Office) (w : World RunExt) : Office :=
  mkOffice (ss_committed (re_session (w_ext w))) (set_bus run_id (w_bus w) (of_bus o)) (ro_prices (w_router w)).

Definition execute_run (run_id : pystr) (o : Office) : res exn unit * Office :=
  let '(r, w) := session_scope (λ m, on_db m) (execute_body run_id) (job_world run_id o) in
  (r, office_after run_id o w).
End runner.
