(* ===== verification/RunnerSafety.v ===== *)
(** * Properties of a run's execution

    What an execution leaves behind is decided by how it ends, while nobody else posts
    under the key of its run: if it raises, the committed tables are exactly what they
    were (runner.py means the [finally] block to settle the run even then; see
    RunnerDemo); if it returns, either the run was
    not queued and nothing happened, or the run row is terminal, its figures are
    those of the rows that were written, and the ledger was charged for it at most
    once. *)

From S2P Require Import Prelude PyStr PyFloat PyVal PyRegex PyJson Config State Budget Registry.
From S2P Require Import Providers Pricing Keys Events World Router ToolBase ToolArtifacts ToolRegistry.
From S2P Require Import Engine EngineSafety EngineSinks Workflow Presets Database Auditing Billing.
From S2P Require Import BillingSafety PresetRuns Runner.

(** A tool that changes nothing of the run and of what is around it, but through
    its context. *)
Class OutsideTool {X} `{Env} (t : Tool X) : Prop := {
  outside_tool (RX : relation X) : PreOrder RX → ext_tool RX t;
  outside_quiet : quiet_run_of t }.

(** ** Sessions *)

Section sessions.
Context `{DbEnv}.

#[export] Instance kept_preorder : PreOrder kept.
Proof. split; [done|]. unfold kept. intros s1 s2 s3. congruence. Qed.

Lemma statement_same s : same_tables s (statement s).2.
Proof. unfold statement. by repeat case_match. Qed.

Lemma statement_kept : steps kept statement.
Proof. intros s. unfold statement. by repeat case_match. Qed.

Lemma query_kept {A} (f : Db → A) : steps kept (query f).
Proof.
  intros s. pose proof (statement_kept s) as Hs. unfold query.
  by destruct (statement s) as [[[]|e] s'].
Qed.

Lemma change_kept f : steps kept (change f).
Proof. by intros s. Qed.

Lemma insert_kept allowed add : steps kept (insert allowed add).
Proof.
  intros s. pose proof (insert_wp allowed add (λ _ s', kept s s') (λ _ s', kept s s') s) as Hw. unfold wp in Hw.
  destruct (insert allowed add s) as [[[]|e] s']; apply Hw; try done; by intros ? ? [].
Qed.

Lemma charge_run_kept settings org run_id billable :
  (∀ k, db_race k = false) → steps kept (charge_run settings org run_id billable).
Proof.
  intros Hrace s. pose proof (charge_run_alone settings org run_id billable s Hrace) as Hc. unfold wp in Hc.
  by destruct (charge_run _ _ _ _ s) as [[o|e] s']; destruct Hc.
Qed.

Lemma now_utc_kept : steps kept now_utc.
Proof. by intros s. Qed.

Lemma audit_kept row : steps kept (audit_record row).
Proof. apply change_kept. Qed.

End sessions.

Create HintDb kept discriminated.
#[export] Hint Resolve statement_kept query_kept change_kept insert_kept charge_run_kept now_utc_kept
  audit_kept : kept.

(** ** Nothing is committed on the way *)

Section atomicity.
Context `{Env} `{DbEnv} (web_fetch web_search : Tool RunExt).
Context `{!OutsideTool web_fetch} `{!OutsideTool web_search}.

Definition kept_ext (x x' : RunExt) : Prop := kept (re_session x) (re_session x').
#[local] Instance kept_ext_preorder : PreOrder kept_ext.
Proof. split; [done|]. unfold kept_ext. intros x1 x2 x3. by etrans. Qed.

Lemma on_session_kept {A} (m : M Session exn A) : steps kept m → steps kept_ext (on_session m).
Proof.
  intros Hm x. unfold kept_ext, on_session. specialize (Hm (re_session x)).
  by destruct (m (re_session x)).
Qed.

Lemma on_db_kept {A} (m : M Session exn A) : steps kept m → steps (ext_rel kept_ext) (on_db m).
Proof. intros Hm. by apply (ext_on_ext kept_ext), on_session_kept. Qed.

Lemma sinks_kept run : sinks_in kept_ext (run_engine web_fetch web_search run).
Proof.
  split; simpl; intros f r [= <-].
  - unfold persist_step. apply steps_bind; [tc_solve|by intros x|]. intros _.
    apply on_session_kept; auto with kept.
  - unfold persist_artifact. apply steps_bind; [tc_solve|by intros x|]. intros size.
    apply steps_bind; [tc_solve|by intros x|]. intros id. apply on_session_kept; auto with kept.
  - apply on_session_kept; auto with kept.
Qed.

Lemma run_tools_outside run (RX : relation RunExt) `{!PreOrder RX} agent t :
  t ∈ eg_tool_resolver (run_engine web_fetch web_search run) agent → ext_tool RX t.
Proof.
  simpl. destruct (cfg_tools_enabled env_settings); [|by intros ?%elem_of_nil].
  apply deployed_tools_ext; [done|by apply outside_tool..].
Qed.

(** The preset, under the timer of the run, does to the session what the sinks do. *)
Lemma run_graph_ext run wf agents (RX : relation RunExt) `{!PreOrder RX} :
  sinks_in RX (run_engine web_fetch web_search run) →
  steps (ext_rel RX) (run_workflow_graph web_fetch web_search run wf agents).
Proof.
  intros Hs. unfold run_workflow_graph. intros w. unfold mbind, M_bind, m_bind, lift_res.
  destruct (get_preset _ (wf_preset wf)) as [preset|e] eqn:Hp; [|unfold ext_rel; simpl; reflexivity].
  pose proof (preset_ext RX _ Hs (λ a t, run_tools_outside run RX a t) _ (wf_graph wf) agents _ Hp
                (set_in_run true w)) as Hr.
  unfold wait_for_run. by destruct (preset (wf_graph wf) agents (set_in_run true w)) as [[a|e] w'].
Qed.

Ltac kept_step :=
  lazymatch goal with
  | |- steps _ (mbind _ _) => apply steps_bind; [tc_solve| |intros ?]
  | |- steps _ (m_ret _) => apply steps_ret; tc_solve
  | |- steps _ (raise _) => apply steps_raise; tc_solve
  | |- steps _ (lift_res _) => apply steps_lift_res; tc_solve
  | |- steps _ (gets _) => apply gets_steps; tc_solve
  | |- steps _ now => apply now_steps; tc_solve
  | |- steps _ await => apply await_steps; tc_solve
  | |- steps _ (emit_event _ _) => apply emit_event_steps; tc_solve
  | |- steps _ (attempt _ _) => apply steps_attempt
  | |- steps _ (on_db _) => apply on_db_kept; auto with kept
  | |- steps _ (modify _) => by intros ?
  | |- steps _ (match ?x with _ => _ end) => destruct x
  | |- steps _ (let _ := _ in _) => cbv zeta
  end.

(** While nobody else posts under the run's key, nothing is committed on the way. *)
Context (Hrace : ∀ k, db_race k = false).

Lemma execute_body_kept run_id : steps (ext_rel kept_ext) (execute_body web_fetch web_search run_id).
Proof.
  unfold execute_body, claim, run_not_found, execute_claimed, set_up, refresh_prices, open_router.
  unfold run_and_settle, finish.
  repeat first [kept_step|apply run_graph_ext; [tc_solve|apply sinks_kept]].
Qed.

(** So an execution that raises leaves the tables as they were: the run stays in the
    queue, and nothing is charged. *)
Lemma raised_keeps_tables run_id o e o' :
  execute_run web_fetch web_search run_id o = (Err e, o') → of_db o' = of_db o.
Proof.
  unfold execute_run, session_scope. set (w0 := job_world run_id o).
  pose proof (execute_body_kept run_id w0) as Hk. unfold ext_rel, kept_ext, kept in Hk.
  unfold mbind, M_bind, m_bind in *.
  destruct (execute_body web_fetch web_search run_id w0) as [[a|e'] w1]; simpl in Hk.
  2: { intros [= _ <-]. simpl. done. }
  unfold on_db, on_ext, zoom, on_session, commit.
  pose proof (statement_kept (re_session (w_ext w1))) as Hs. unfold kept in Hs. simpl.
  destruct (statement (re_session (w_ext w1))) as [[[]|e'] s1]; simpl in *; [done|].
  intros [= _ <-]. simpl. congruence.
Qed.

End atomicity.

(** ** What the sinks write *)

Definition add_rows (ss : list RunStep) (aws : list ArtifactRow) (ts : list ToolCallLog) (d : Db) : Db :=
  mkDb (db_orgs d) (db_users d) (db_memberships d) (db_tokens d) (db_api_keys d) (db_agents d)
    (db_workflows d) (db_runs d) (db_steps d ++ ss) (db_artifacts d ++ aws) (db_tool_calls d ++ ts)
    (db_ledger d) (db_prices d) (db_audit d).

Lemma add_rows_nil d : add_rows [] [] [] d = d.
Proof. destruct d. unfold add_rows. cbn. by rewrite !app_nil_r. Qed.

Lemma add_rows_app ss aws ts ss' aws' ts' d :
  add_rows ss' aws' ts' (add_rows ss aws ts d) = add_rows (ss ++ ss') (aws ++ aws') (ts ++ ts') d.
Proof. destruct d. unfold add_rows. cbn. by rewrite !app_assoc. Qed.

Lemma add_step row d : set_steps (db_steps d ++ [row]) d = add_rows [row] [] [] d.
Proof. destruct d. unfold add_rows, set_steps. cbn. by rewrite !app_nil_r. Qed.
Lemma add_artifact row d : set_artifact_rows (db_artifacts d ++ [row]) d = add_rows [] [row] [] d.
Proof. destruct d. unfold add_rows, set_artifact_rows. cbn. by rewrite !app_nil_r. Qed.
Lemma add_tool_call row d : set_tool_calls (db_tool_calls d ++ [row]) d = add_rows [] [] [row] d.
Proof. destruct d. unfold add_rows, set_tool_calls. cbn. by rewrite !app_nil_r. Qed.

(** Rows of the run are appended, and while no statement has failed the totals are
    the sums of the steps'. *)
Definition sink_rel (run_id : pystr) (x x' : RunExt) : Prop :=
  let s := re_session x in let s' := re_session x' in
  kept s s' ∧ (ss_broken s = true → ss_broken s' = true) ∧
  ∃ ss aws ts, ss_working s' = add_rows ss aws ts (ss_working s) ∧
    Forall (λ r, rs_run_id r = run_id) ss ∧ Forall (λ r, aw_run_id r = run_id) aws ∧
    Forall (λ r, tg_run_id r = run_id) ts ∧
    (ss_broken s' = false →
       re_tokens_in x' = re_tokens_in x + sum_Z (map rs_tokens_in ss) ∧
       re_tokens_out x' = re_tokens_out x + sum_Z (map rs_tokens_out ss)).

Section totals.
Context `{DbEnv} (run_id : pystr).

#[export] Instance sink_rel_preorder : PreOrder (sink_rel run_id).
Proof.
  split.
  - intros x. split_and!; [done|done|]. exists [], [], []. rewrite add_rows_nil. simpl.
    split_and!; try done. intros _. lia.
  - intros x1 x2 x3 (K1 & B1 & ss & aws & ts & W1 & F1 & F2 & F3 & T1)
      (K2 & B2 & ss' & aws' & ts' & W2 & G1 & G2 & G3 & T2).
    split_and!; [by etrans|by auto|]. exists (ss ++ ss'), (aws ++ aws'), (ts ++ ts').
    rewrite W2, W1, add_rows_app, !Forall_app. split_and!; try done.
    intros Hb. rewrite !map_app, !sum_Z_app. destruct (T2 Hb) as [-> ->].
    destruct T1 as [-> ->]; [|lia]. destruct (ss_broken (re_session x2)); [|done].
    specialize (B2 eq_refl). congruence.
Qed.

(** An insert that adds rows, after the totals were raised by [di] and [do]. *)
Lemma insert_sink_rel (allowed : Db → bool) (add : Db → Db) x ss aws ts di do_ b :
  (∀ d, add d = add_rows ss aws ts d) →
  Forall (λ r, rs_run_id r = run_id) ss → Forall (λ r, aw_run_id r = run_id) aws →
  Forall (λ r, tg_run_id r = run_id) ts →
  di = sum_Z (map rs_tokens_in ss) → do_ = sum_Z (map rs_tokens_out ss) →
  let x1 := mkExt (re_session x) (re_tokens_in x + di) (re_tokens_out x + do_) (re_billable x + b) in
  sink_rel run_id x (on_session (insert allowed add) x1).2.
Proof.
  intros Hadd F1 F2 F3 -> -> x1. unfold on_session. simpl.
  unfold insert, insert_against, statement. destruct (ss_broken (re_session x)) eqn:Hb.
  { split_and!; [done|by simpl; rewrite Hb|]. exists [], [], []. rewrite add_rows_nil.
    split_and!; try done. simpl. congruence. }
  set (failed := break (re_session x)).
  assert (Hfail : sink_rel run_id x (put_session failed x1)).
  { split_and!; [done|done|]. exists [], [], []. rewrite add_rows_nil. by split_and!. }
  destruct (db_fault _) as [e|]; [destruct (statement_failure e); [exact Hfail|]|].
  all: destruct (if db_race _ then _ else _) as [d|] eqn:Hr;
    [destruct (db_race _) in Hr; [injection Hr as <-; exact Hfail|done]|]; simpl.
  all: destruct (allowed _); [|split_and!; [done|done|]; exists [], [], []; rewrite add_rows_nil;
    by split_and!].
  all: split_and!; [done|by simpl; rewrite Hb|]; exists ss, aws, ts; simpl; by rewrite Hadd.
Qed.

Lemma add_nothing x : mkExt (re_session x) (re_tokens_in x + 0) (re_tokens_out x + 0) (re_billable x + 0) = x.
Proof. destruct x. simpl. by rewrite !Z.add_0_r. Qed.

(** Drawing an id leaves the session as it is. *)
Lemma draw_id x : on_session uuid x = (Ok (db_uuid (ss_clock (re_session x))), x).
Proof. by destruct x. Qed.

Lemma persist_step_rel r : steps (sink_rel run_id) (persist_step run_id r).
Proof.
  intros x. unfold persist_step, modify, mbind, M_bind, m_bind. cbv zeta. unfold add_totals.
  apply (insert_sink_rel _ _ _ [step_row run_id r] [] []); [apply add_step|by repeat constructor|done|done| |];
    cbn; lia.
Qed.

Lemma persist_tool_call_rel r : steps (sink_rel run_id) (persist_tool_call run_id r).
Proof.
  intros x. unfold persist_tool_call. cbv zeta. rewrite <- (add_nothing x) at 2.
  apply (insert_sink_rel _ _ _ [] [] [tool_call_row run_id r]); [apply add_tool_call|done|done| |done|done].
  by repeat constructor.
Qed.

Lemma persist_artifact_rel org_id r : steps (sink_rel run_id) (persist_artifact run_id org_id r).
Proof.
  intros x. unfold persist_artifact, lift_res, mbind, M_bind, m_bind. cbv zeta.
  destruct (encoded_len (af_content r)) as [size|e]; [|simpl; reflexivity].
  rewrite draw_id. generalize (db_uuid (ss_clock (re_session x))). intros id. cbv beta iota.
  rewrite <- (add_nothing x) at 2.
  apply (insert_sink_rel _ _ _ [] [artifact_row id run_id org_id size r] []); [apply add_artifact|done| |done|done|done].
  by repeat constructor.
Qed.
End totals.

(** ** Steps that change no table *)

Definition calm (x x' : RunExt) : Prop :=
  same_tables (re_session x) (re_session x') ∧
  (ss_broken (re_session x) = true → ss_broken (re_session x') = true) ∧
  re_tokens_in x' = re_tokens_in x ∧ re_tokens_out x' = re_tokens_out x ∧ re_billable x' = re_billable x.

#[export] Instance calm_preorder : PreOrder calm.
Proof.
  split; [intros x; by split_and!|]. intros x1 x2 x3 ([K1 W1] & B1 & T1 & U1 & V1) ([K2 W2] & B2 & T2 & U2 & V2).
  split_and!; [split; congruence|auto|congruence..].
Qed.

(** ... nor the budget, as a relation of worlds. *)
Definition calm_world (w w' : World RunExt) : Prop :=
  calm (w_ext w) (w_ext w') ∧ w_budget w' = w_budget w.

#[export] Instance calm_world_preorder : PreOrder calm_world.
Proof.
  split; [intros w; split; done|]. intros w1 w2 w3 [C1 B1] [C2 B2]. split; [by etrans|congruence].
Qed.
#[export] Instance calm_world_frame `{Env} : Frame calm_world.
Proof. split; [tc_solve| | |]; intros; split; done. Qed.

Section settling.
Context `{Env} `{DbEnv} (web_fetch web_search : Tool RunExt).
Context `{!OutsideTool web_fetch} `{!OutsideTool web_search}.
Context (Hrace : ∀ k, db_race k = false).
Abbreviation IO A := (M (World RunExt) exn A).
Implicit Types w : World RunExt.

Lemma query_calm {A} (f : Db → A) : steps calm_world (on_db (query f)).
Proof.
  apply steps_zoom. intros w. split; [|done]. simpl. generalize (w_ext w) as x. intros x.
  unfold on_session, query, statement.
  destruct (ss_broken (re_session x)) eqn:Hb; [split_and!; done|].
  destruct (db_fault _) as [e|]; [destruct (statement_failure e)|]; split_and!; simpl; try done; congruence.
Qed.

Lemma now_utc_calm : steps calm_world (on_db now_utc).
Proof. intros w. by split. Qed.

(** What holds of the session and the totals carries over every calm step. *)
Lemma calm_bind {A B} (m : IO A) (k : A → IO B) Q w :
  steps calm_world m →
  (∀ a w', calm_world w w' → wp (k a) Q (λ _ _, True) w') →
  wp (m_bind k m) Q (λ _ _, True) w.
Proof.
  intros Hm Hk. apply wp_bind. eapply wp_mono; [by apply wp_steps| |done]. intros a w' Hr. by apply Hk.
Qed.

(** An operation of the session. *)
Lemma db_bind {A B} (m : M Session exn A) (k : A → IO B) P Q w :
  wp m P (λ _ _, True) (re_session (w_ext w)) →
  (∀ a s, P a s → wp (k a) Q (λ _ _, True) (put_ext (put_session s (w_ext w)) w)) →
  wp (m_bind k (on_db m)) Q (λ _ _, True) w.
Proof.
  intros Hm Hk. apply wp_bind. unfold wp at 1, on_db, on_ext, zoom, on_session. unfold wp in Hm.
  destruct (m (re_session (w_ext w))) as [[a|e] s]; simpl; [by apply Hk|done].
Qed.

Definition changed (f : Db → Db) (x : RunExt) : RunExt :=
  put_session (set_working (f (ss_working (re_session x))) (re_session x)) x.

Lemma change_bind {B} (f : Db → Db) (k : unit → IO B) Q w :
  wp (k tt) Q (λ _ _, True) (put_ext (changed f (w_ext w)) w) →
  wp (m_bind k (on_db (change f))) Q (λ _ _, True) w.
Proof. done. Qed.

Lemma refresh_prices_calm : steps calm_world refresh_prices.
Proof.
  unfold refresh_prices. apply steps_bind; [tc_solve|apply now_steps; tc_solve|intros t].
  apply steps_bind; [tc_solve|apply gets_steps; tc_solve|intros book].
  destruct (_ <? _); [apply steps_ret; tc_solve|].
  apply steps_bind; [tc_solve|apply query_calm|intros rows].
  apply steps_bind; [tc_solve|apply now_steps; tc_solve|intros t']. apply steps_modify. intros w. by split.
Qed.

Lemma open_router_calm run : steps calm_world (open_router run).
Proof.
  unfold open_router. apply steps_bind; [tc_solve|apply steps_lift_res; tc_solve|intros r].
  apply steps_modify. intros w. by split.
Qed.

(** The tables a run has when its engine starts. *)
Definition limited (run : Run) (limits : Z * Z) (d : Db) : Db :=
  update_run (ru_id run) (set_limits limits.1 limits.2) d.

Lemma set_up_wp run wf w :
  wp (set_up run wf)
     (λ _ w', ∃ limits, run_limits env_settings (wf_graph wf) = Ok limits ∧
        kept (re_session (w_ext w)) (re_session (w_ext w')) ∧
        ss_working (re_session (w_ext w')) = limited run limits (ss_working (re_session (w_ext w))) ∧
        re_tokens_in (w_ext w') = 0 ∧ re_tokens_out (w_ext w') = 0 ∧
        b_steps_used (w_budget w') = 0 ∧ b_max_steps (w_budget w') = limits.1)
     (λ _ _, True) w.
Proof.
  unfold set_up. apply wp_bind. unfold wp at 1, lift_res.
  destruct (run_limits env_settings (wf_graph wf)) as [limits|e] eqn:Hl; [|done].
  apply calm_bind; [apply now_steps; tc_solve|]. intros t w1 [([K1 W1] & _) D1].
  apply wp_bind. unfold wp at 1, modify.
  apply change_bind. apply wp_bind. unfold wp at 1, modify. set (w2 := put_ext _ _).
  assert (H2 : kept (re_session (w_ext w)) (re_session (w_ext w2)) ∧
     ss_working (re_session (w_ext w2)) = limited run limits (ss_working (re_session (w_ext w))) ∧
     re_tokens_in (w_ext w2) = 0 ∧ re_tokens_out (w_ext w2) = 0 ∧
     b_steps_used (w_budget w2) = 0 ∧ b_max_steps (w_budget w2) = limits.1).
  { subst w2. simpl. unfold kept, limited. simpl. by rewrite K1, W1. }
  clearbody w2. clear - H2 Hl.
  apply calm_bind; [apply refresh_prices_calm|]. intros _ w3 [([K3 W3] & _ & T3 & U3 & _) D3].
  apply calm_bind; [apply open_router_calm|]. intros _ w4 [([K4 W4] & _ & T4 & U4 & _) D4].
  apply wp_bind. unfold wp at 1, modify.
  eapply wp_mono; [apply (wp_steps calm_world), emit_event_steps; tc_solve| |done].
  intros _ w5 [([K5 W5] & _ & T5 & U5 & _) D5]. exists limits. destruct H2 as (K2 & W2 & T2 & U2 & S2 & M2).
  simpl in *. unfold kept in *. split_and!; congruence.
Qed.

(** What [run_and_settle] leaves: the rows of the run, its settled row, at most one
    ledger entry, the audit row. *)
Record settled_from (run : Run) (w w' : World RunExt) (oc : Outcome) : Prop := mkSettled {
  sf_kept : kept (re_session (w_ext w)) (re_session (w_ext w'));
  sf_terminal : is_terminal (oc_status oc) = true;
  sf_steps : oc_steps_used oc ≤ Z.max (b_steps_used (w_budget w)) (b_max_steps (w_budget w));
  sf_tables : ∃ ss aws ts d e row,
    let d0 := add_rows ss aws ts (ss_working (re_session (w_ext w))) in
    Forall (λ r, rs_run_id r = ru_id run) ss ∧ Forall (λ r, aw_run_id r = ru_id run) aws ∧
    Forall (λ r, tg_run_id r = ru_id run) ts ∧
    (ss_broken (re_session (w_ext w')) = false →
       oc_tokens_in oc = re_tokens_in (w_ext w) + sum_Z (map rs_tokens_in ss) ∧
       oc_tokens_out oc = re_tokens_out (w_ext w) + sum_Z (map rs_tokens_out ss)) ∧
    charges env_settings (ru_org_id run) (ru_id run) (oc_billable oc)
      (update_run (ru_id run) (settle oc) d0) d e ∧
    ss_working (re_session (w_ext w')) = set_audit (db_audit d ++ [row]) d;
  sf_event : ∃ e s, last (bus_published (w_bus w')) = Some e ∧ ev_type e = end_event (oc_status oc) ∧
    ev_payload e = end_payload oc s }.

Lemma verdict_terminal e : is_terminal (verdict env_settings e).1 = true.
Proof. destruct e; reflexivity. Qed.

Lemma sinks_rel run : sinks_in (sink_rel (ru_id run)) (run_engine web_fetch web_search run).
Proof.
  split; simpl; intros f r [= <-].
  - apply persist_step_rel.
  - apply persist_artifact_rel.
  - apply persist_tool_call_rel.
Qed.

(** A broken transaction stays broken through a charge that returns. *)
Lemma charge_run_broken settings org run_id billable s :
  ss_broken s = true →
  wp (charge_run settings org run_id billable) (λ _ s', ss_broken s' = true) (λ _ _, True) s.
Proof.
  intros Hb. unfold charge_run. generalize recursion_limit as n. intros n.
  destruct (_ || _); [done|]. cbv zeta. destruct (_ =? _); [done|]. apply wp_bind.
  destruct n as [|n]; cbn [post_entry]; apply wp_bind; unfold wp at 1, query, statement; by rewrite Hb.
Qed.

Lemma wp_and {A} (m : M Session exn A) (P Q : A → Session → Prop) s :
  wp m P (λ _ _, True) s → wp m Q (λ _ _, True) s → wp m (λ a s', P a s' ∧ Q a s') (λ _ _, True) s.
Proof. unfold wp. by destruct (m s) as [[a|e] s']. Qed.

Lemma finish_wp run status error w (x := w_ext w) :
  wp (finish run status error)
     (λ oc w', oc_status oc = status ∧ oc_tokens_in oc = re_tokens_in x ∧ oc_tokens_out oc = re_tokens_out x ∧
        oc_steps_used oc = b_steps_used (w_budget w) ∧
        kept (re_session x) (re_session (w_ext w')) ∧
        (ss_broken (re_session x) = true → ss_broken (re_session (w_ext w')) = true) ∧
        ∃ e, charges env_settings (ru_org_id run) (ru_id run) (oc_billable oc)
               (update_run (ru_id run) (settle oc) (ss_working (re_session x)))
               (ss_working (re_session (w_ext w'))) e)
     (λ _ _, True) w.
Proof.
  subst x. unfold finish. apply calm_bind; [apply now_utc_calm|].
  intros t w1 [([K1 W1] & B1 & T1 & U1 & V1) D1].
  apply wp_bind. unfold wp at 1, gets. set (oc := outcome_of status error t w1).
  assert (Hoc : oc_status oc = status ∧ oc_tokens_in oc = re_tokens_in (w_ext w) ∧
                oc_tokens_out oc = re_tokens_out (w_ext w) ∧ oc_steps_used oc = b_steps_used (w_budget w))
    by (subst oc; simpl; by rewrite T1, U1, D1).
  clearbody oc. apply change_bind.
  eapply db_bind.
  { apply wp_and; [by eapply wp_mono; [apply charge_run_alone| |]|].
    instantiate (1 := λ _ s', ss_broken (re_session (w_ext w1)) = true → ss_broken s' = true).
    destruct (ss_broken (re_session (w_ext w1))) eqn:Hb.
    - eapply wp_mono; [by apply charge_run_broken| |done]. by intros ? ? ? _.
    - unfold wp. by destruct (charge_run _ _ _ _ _) as [[?|?] ?]. }
  intros e s [[Hk Hc] Hb]. cbn [changed put_session re_session w_ext put_ext set_working ss_working ss_committed] in Hk, Hc.
  apply calm_bind; [apply await_steps; tc_solve|]. intros _ w2 [([K2 W2] & B2 & _) _].
  apply wp_bind. unfold wp at 1, modify.
  apply calm_bind; [apply await_steps; tc_solve|]. intros _ w3 [([K3 W3] & B3 & _) _].
  apply wp_ret. destruct Hoc as (-> & -> & -> & ->). simpl in *. unfold kept in *. simpl in *. split_and!; try done.
  - congruence.
  - auto.
  - exists e. rewrite W3, W2, <- W1. exact Hc.
Qed.

(** A successful emit is the last event published. *)
Lemma emit_event_last type_ payload w :
  wp (emit_event type_ payload)
     (λ _ w', calm_world w w' ∧
        ∃ e, last (bus_published (w_bus w')) = Some e ∧ ev_type e = type_ ∧ ev_payload e = payload)
     (λ _ _, True) w.
Proof.
  unfold emit_event. apply calm_bind; [apply reserve_seq_steps; tc_solve|]. intros seq w1 C1.
  unfold publish_event. apply calm_bind; [apply await_steps; tc_solve|]. intros _ w2 C2.
  unfold wp, on_bus, zoom, publish. destruct (encodable_val _); [|done]. cbn.
  split; [by etrans; [exact C1|exact C2]|]. rewrite last_snoc. by eexists.
Qed.

(** Everything after the [try] block, from the world [w1] in which it ended. *)
Lemma conclude_wp run status error (reraise : IO unit) w w1 :
  is_terminal status = true → ext_rel (sink_rel (ru_id run)) w w1 →
  b_steps_used (w_budget w1) ≤ Z.max (b_steps_used (w_budget w)) (b_max_steps (w_budget w)) →
  steps calm_world reraise →
  wp (o ← finish run status error; _ ← reraise; s ← gets w_state;
      _ ← emit_event (end_event status) (end_payload o s); on_db (audit_record (finished_audit run o)))
     (λ _ w', ∃ oc, settled_from run w w' oc) (λ _ _, True) w1.
Proof.
  intros Hterm (K1 & B1 & ss & aws & ts & W1 & F1 & F2 & F3 & T1) Hsteps Hre.
  apply wp_bind. eapply wp_mono; [apply finish_wp| |done].
  intros oc w2 (S2 & T2 & U2 & M2 & K2 & B2 & e2 & C2).
  assert (Hsf : ∀ w' row, calm_world w2 w' →
            (∃ e s, last (bus_published (w_bus w')) = Some e ∧ ev_type e = end_event status ∧
               ev_payload e = end_payload oc s) →
            settled_from run w (put_ext (changed (λ d, set_audit (db_audit d ++ [row]) d) (w_ext w')) w') oc).
  { intros w' row [([K3 W3] & B3 & _) _] Hev.
    split; [unfold kept in *; simpl; congruence|by rewrite S2|by rewrite M2| |by rewrite S2].
    exists ss, aws, ts, (ss_working (re_session (w_ext w2))), e2, row.
    split_and!; [done..| |by rewrite <- W1|simpl; by rewrite W3].
    simpl. intros Hb. rewrite T2, U2. apply T1.
    destruct (ss_broken (re_session (w_ext w1))); [rewrite B3 in Hb by auto; done|done]. }
  clear - Hsf Hre.
  apply calm_bind; [exact Hre|]. intros _ w3 C3.
  apply calm_bind; [apply gets_steps; tc_solve|]. intros s w4 C4.
  apply wp_bind. eapply wp_mono; [apply emit_event_last| |done]. intros _ w5 [C5 (e & He1 & He2 & He3)].
  exists oc. apply Hsf; [|by exists e, s]. etrans; [|exact C5]. by etrans.
Qed.

#[local] Instance run_engine_quiet run : QuietTools (run_engine web_fetch web_search run).
Proof.
  intros agent t arguments context. simpl. destruct (cfg_tools_enabled env_settings); [|by intros ?%elem_of_nil].
  by apply deployed_tools_quiet; apply outside_quiet.
Qed.

(** The preset counts its steps on the budget. *)
Lemma run_graph_steps run wf agents w :
  b_steps_used (w_budget (run_workflow_graph web_fetch web_search run wf agents w).2)
  ≤ Z.max (b_steps_used (w_budget w)) (b_max_steps (w_budget w)).
Proof.
  unfold run_workflow_graph, mbind, M_bind, m_bind, lift_res.
  destruct (get_preset _ (wf_preset wf)) as [preset|e] eqn:Hp; [|simpl; lia].
  pose proof (preset_run _ _ (wf_graph wf) agents _ Hp (set_in_run true w)) as (Hs & _).
  apply spends_ceilings in Hs as (_ & _ & _ & _ & Hs). unfold wait_for_run.
  by destruct (preset (wf_graph wf) agents (set_in_run true w)) as [[a|e] w'].
Qed.

Lemma run_and_settle_wp run wf agents w :
  wp (run_and_settle web_fetch web_search run wf agents)
     (λ _ w', ∃ oc, settled_from run w w' oc) (λ _ _, True) w.
Proof.
  unfold run_and_settle. apply wp_bind. rewrite wp_attempt.
  pose proof (run_graph_steps run wf agents w) as Hsteps.
  pose proof (run_graph_ext web_fetch web_search run wf agents (sink_rel (ru_id run)) (sinks_rel run) w) as Hr.
  unfold wp at 1. destruct (run_workflow_graph _ _ _ _ _ w) as [[a|e] w1].
  - apply conclude_wp; [done|exact Hr|exact Hsteps|apply steps_ret; tc_solve].
  - cbv beta iota. pose proof (verdict_terminal e) as Ht.
    destruct (verdict env_settings e) as [status error].
    apply conclude_wp; [exact Ht|exact Hr|exact Hsteps|].
    destruct (is_exception e); [apply steps_ret|apply steps_raise]; tc_solve.
Qed.
End settling.
