(* ===== verification/RunnerRuns.v ===== *)
(** * Runs and their executions

    The tables before and after an execution that returns, and what stays true
    however often, and with whatever failures, runs are executed. *)

From S2P Require Import Prelude PyStr PyFloat PyVal PyRegex PyJson Config State Budget Registry.
From S2P Require Import Providers Pricing Keys Events World Router ToolBase ToolArtifacts ToolRegistry.
From S2P Require Import Engine EngineSafety EngineSinks Workflow Presets Database Auditing Billing.
From S2P Require Import BillingSafety Runner RunnerSafety.

(** ** Rows under updates *)

Lemma find_run_id id d r : find_run id d = Some r → ru_id r = id.
Proof. intros [_ Hid]%List.find_some. by apply bool_decide_eq_true in Hid. Qed.

Lemma find_run_update id id' f d :
  (∀ r, ru_id (f r) = ru_id r) →
  find_run id (update_run id' f d) = if bool_decide (id = id') then f <$> find_run id d else find_run id d.
Proof.
  intros Hf. unfold find_run, update_run. cbn [set_runs db_runs]. induction (db_runs d) as [|r l IH].
  - by case_bool_decide.
  - cbn [map List.find]. rewrite IH. destruct (bool_decide (ru_id r = id')) eqn:H1;
      [apply bool_decide_eq_true in H1|apply bool_decide_eq_false in H1]; rewrite ?Hf;
      destruct (bool_decide (ru_id r = id)) eqn:H2;
      [apply bool_decide_eq_true in H2|apply bool_decide_eq_false in H2|
       apply bool_decide_eq_true in H2|apply bool_decide_eq_false in H2];
      case_bool_decide; simpl; try done; congruence.
Qed.

(** A charge moves the balances and the ledger only. *)
Lemma charges_tables settings org run_id billable d d' e :
  charges settings org run_id billable d d' e →
  db_runs d' = db_runs d ∧ db_steps d' = db_steps d ∧ db_artifacts d' = db_artifacts d ∧
  db_tool_calls d' = db_tool_calls d ∧ db_audit d' = db_audit d ∧ map og_id (db_orgs d') = map og_id (db_orgs d).
Proof.
  intros [Hn|d1 e1 _ _ [row Hf|o id Hf Ho after]]; try (by split_and!).
  split_and!; try done. unfold post_db. cbn [set_ledger db_orgs]. by rewrite update_org_ids.
Qed.

Lemma charges_ledger_ok settings org run_id billable d d' e :
  ledger_ok d → charges settings org run_id billable d d' e → ledger_ok d'.
Proof. intros Hok [Hn|d1 e1 _ _ Hp]; [done|by eapply posts_ledger_ok]. Qed.

(** What an execution costs: the billable spend in whole cents, unless billing is
    off or the run is in the ledger already. *)
Definition charge_of (settings : Settings) (org run_id : pystr) (billable : Z) (d : Db) : Z :=
  match find_entry org (run_key run_id) d with
  | Some _ => 0
  | None => if cfg_billing_enabled settings then microcents_to_cents billable else 0
  end.

Lemma charges_credits settings org run_id billable d d' e :
  charges settings org run_id billable d d' e →
  credits org d' = (λ b, b - charge_of settings org run_id billable d) <$> credits org d.
Proof.
  assert (Hzero : ∀ o : option Z, o = (λ b, b - 0) <$> o) by (intros [b|]; simpl; f_equal; lia).
  intros [[Hn|Hn]|d1 e1 Hb Hpos [row Hf|o id Hf Ho after]]; unfold charge_of.
  - rewrite Hn. destruct (find_entry _ _ _); apply Hzero.
  - destruct (microcents_to_cents_spec billable) as (_ & Hz & _). rewrite Hz by done.
    destruct (find_entry _ _ _); [|destruct (cfg_billing_enabled _)]; apply Hzero.
  - simpl in Hf. rewrite Hf. apply Hzero.
  - simpl in Hf, Ho. rewrite Hf, Hb. unfold credits.
    change (find_org org (post_db _ id after d)) with (find_org org (update_org org (set_credits after) d)).
    rewrite update_org_find, Ho. simpl. subst after. simpl. f_equal.
Qed.

(** Postings about a run never touch what is posted under other keys. *)
Lemma charges_entries settings org run_id billable d d' e org' key :
  charges settings org run_id billable d d' e → (org', key) ≠ (org, run_key run_id) →
  find_entry org' key d' = find_entry org' key d.
Proof.
  intros [Hn|d1 e1 _ _ [row Hf|o id Hf Ho after]] Hne; [done|done|].
  unfold find_entry, post_db. simpl. induction (db_ledger d) as [|r l IH]; simpl.
  - unfold posted. simpl. destruct (bool_decide (org = org')) eqn:E1; [|done].
    destruct (bool_decide (run_key run_id = key)) eqn:E2; [|done].
    apply bool_decide_eq_true in E1, E2. congruence.
  - by destruct (posted org' key r).
Qed.

(** ** An execution that returns *)

Section executing.
Context `{Env} `{DbEnv} (web_fetch web_search : Tool RunExt).
Context `{!OutsideTool web_fetch} `{!OutsideTool web_search}.
Abbreviation IO A := (M (World RunExt) exn A).

Definition capped (limits : Z * Z) : Prop :=
  limits.1 ≤ cfg_max_steps_per_run env_settings ∧ limits.2 ≤ cfg_max_cost_cents_per_run env_settings.

Lemma run_limits_capped graph limits : run_limits env_settings graph = Ok limits → capped limits.
Proof.
  unfold run_limits, mbind, res_bind. destruct (py_int _) as [a|]; [|done].
  destruct (py_int _) as [c|]; [|done]. intros [= <-]. unfold capped. simpl. lia.
Qed.

(** The world [w1] in which the engine starts, and the one the execution leaves. *)
Definition executed (run : Run) (d : Db) (w' : World RunExt) : Prop :=
  ∃ t limits oc w1,
    capped limits ∧ ss_working (re_session (w_ext w1)) = limited run limits (update_run (ru_id run) (start_run t) d) ∧
    re_tokens_in (w_ext w1) = 0 ∧ re_tokens_out (w_ext w1) = 0 ∧
    b_steps_used (w_budget w1) = 0 ∧ b_max_steps (w_budget w1) = limits.1 ∧ settled_from run w1 w' oc.

Lemma execute_body_wp run_id run w :
  (∀ k, db_race k = false) →
  find_run run_id (ss_working (re_session (w_ext w))) = Some run → ru_status run = u "queued" →
  wp (execute_body web_fetch web_search run_id)
     (λ _ w', executed run (ss_working (re_session (w_ext w))) w') (λ _ _, True) w.
Proof.
  intros Hrace Hf Hq. pose proof (find_run_id _ _ _ Hf) as Hid. subst run_id.
  unfold execute_body, claim. apply wp_bind, wp_bind.
  unfold wp at 1, on_db at 1, on_ext, zoom, on_session at 1.
  pose proof (query_wp (find_run (ru_id run)) (λ o s', o = find_run (ru_id run) (ss_working (re_session (w_ext w)))
     ∧ same_tables (re_session (w_ext w)) s') (λ _ _, True) (re_session (w_ext w))) as Hquery.
  unfold wp in Hquery. destruct (query _ (re_session (w_ext w))) as [[o|e] s1]; [|done].
  destruct Hquery as [-> [K1 W1]]; [done|done|]. rewrite Hf. cbv beta iota. rewrite bool_decide_eq_true_2 by done.
  apply calm_bind; [apply now_utc_calm|]. intros t w1 [([K2 W2] & _) _]. simpl in K2, W2.
  apply change_bind.
  eapply (db_bind _ _ (λ _ s', same_tables (re_session (changed (update_run (ru_id run) (start_run t)) (w_ext w1))) s')).
  { apply statement_wp; done. }
  intros [] s3 [K3 W3]. apply wp_ret. cbn [changed put_session re_session set_working ss_working] in W3.
  unfold execute_claimed. apply calm_bind; [apply query_calm|]. intros wf w4 [([K4 W4] & _) _].
  destruct wf as [wf|]; [|done].
  apply calm_bind; [apply query_calm|]. intros agents w5 [([K5 W5] & _) _].
  apply wp_bind. eapply wp_mono; [apply set_up_wp| |done].
  intros _ w6 (limits & Hl & K6 & W6 & T6 & U6 & S6 & M6).
  eapply wp_mono; [by apply run_and_settle_wp| |done]. intros _ w7 [oc Hs].
  exists t, limits, oc, w6. split_and!; try done; [by apply (run_limits_capped (wf_graph wf))|].
  rewrite W6, W5, W4. simpl. by rewrite W3, W2, W1.
Qed.

(** The committed tables around an execution of a queued run that returned. *)
Record run_settled (run : Run) (d d' : Db) : Prop := {
  rd_row : ∃ r steps, find_run (ru_id run) d' = Some r ∧
    is_terminal (ru_status r) = true ∧ is_Some (ru_finished_at r) ∧ ru_org_id r = ru_org_id run ∧
    ru_max_steps r ≤ cfg_max_steps_per_run env_settings ∧
    ru_max_cost_cents r ≤ cfg_max_cost_cents_per_run env_settings ∧
    ru_steps_used r ≤ Z.max 0 (ru_max_steps r) ∧
    ru_cost_cents r = microcents_to_cents (ru_cost_microcents r) ∧
    db_steps d' = db_steps d ++ steps ∧ Forall (λ s, rs_run_id s = ru_id run) steps ∧
    ru_tokens_in r = sum_Z (map rs_tokens_in steps) ∧ ru_tokens_out r = sum_Z (map rs_tokens_out steps) ∧
    credits (ru_org_id run) d'
    = (λ b, b - charge_of env_settings (ru_org_id run) (ru_id run) (ru_billable_microcents r) d)
        <$> credits (ru_org_id run) d;
  rd_others id : id ≠ ru_id run → find_run id d' = find_run id d;
  rd_entries org key : (org, key) ≠ (ru_org_id run, run_key (ru_id run)) →
    find_entry org key d' = find_entry org key d;
  rd_books : ledger_ok d → ledger_ok d' }.

(** The row that is committed is the settled one. *)
Lemma settled_row run d w1 w' oc t limits :
  find_run (ru_id run) d = Some run →
  ss_working (re_session (w_ext w1)) = limited run limits (update_run (ru_id run) (start_run t) d) →
  settled_from run w1 w' oc →
  find_run (ru_id run) (ss_working (re_session (w_ext w')))
  = Some (settle oc (set_limits limits.1 limits.2 (start_run t run))).
Proof.
  intros Hf W1 [_ _ _ (ss & aws & ts & d4 & e & row & _ & _ & _ & _ & Hch & Hw) _].
  destruct (charges_tables _ _ _ _ _ _ _ Hch) as (R4 & _).
  transitivity (find_run (ru_id run) (update_run (ru_id run) (settle oc)
                  (add_rows ss aws ts (ss_working (re_session (w_ext w1)))))).
  { rewrite Hw. unfold find_run. cbn [set_audit db_runs]. by rewrite R4. }
  rewrite find_run_update, bool_decide_eq_true_2 by done.
  change (find_run (ru_id run) (add_rows ss aws ts (ss_working (re_session (w_ext w1)))))
    with (find_run (ru_id run) (ss_working (re_session (w_ext w1)))).
  rewrite W1. unfold limited. rewrite !find_run_update, !bool_decide_eq_true_2 by done. by rewrite Hf.
Qed.

Lemma executed_settled run d w' :
  find_run (ru_id run) d = Some run → executed run d w' → ss_broken (re_session (w_ext w')) = false →
  run_settled run d (ss_working (re_session (w_ext w'))).
Proof.
  intros Hf (t & limits & oc & w1 & [Hc1 Hc2] & W1 & T1 & U1 & S1 & M1 & Hset) Hb.
  pose proof Hset as [_ Hterm Hsteps (ss & aws & ts & d4 & e & row & F1 & _ & _ & Htok & Hch & Hw) _].
  destruct (Htok Hb) as [Ht Hu]. rewrite T1 in Ht. rewrite U1 in Hu. rewrite S1, M1 in Hsteps.
  set (d0 := add_rows ss aws ts (ss_working (re_session (w_ext w1)))) in *.
  set (d3 := update_run (ru_id run) (settle oc) d0) in *.
  destruct (charges_tables _ _ _ _ _ _ _ Hch) as (R4 & S4 & A4 & T4 & U4 & _).
  assert (Hrun : ∀ id, find_run id (ss_working (re_session (w_ext w'))) = find_run id d3).
  { intros id. rewrite Hw. unfold find_run. simpl. by rewrite R4. }
  assert (Hd0 : ∀ id, find_run id d0 = find_run id (ss_working (re_session (w_ext w1)))) by done.
  assert (Horgs : db_orgs d3 = db_orgs d ∧ db_ledger d3 = db_ledger d ∧ db_steps d3 = db_steps d ++ ss)
    by (subst d3 d0; simpl; by rewrite W1).
  destruct Horgs as (O3 & L3 & P3).
  assert (Hent : ∀ org key, find_entry org key d3 = find_entry org key d)
    by (intros; unfold find_entry; by rewrite L3).
  assert (Hcr : ∀ org, credits org (ss_working (re_session (w_ext w'))) = credits org d4)
    by (intros org; unfold credits, find_org; by rewrite Hw).
  split.
  - exists (settle oc (set_limits limits.1 limits.2 (start_run t run))), ss.
    rewrite (settled_row run d w1 w' oc t limits Hf W1 Hset).
    split_and!; try done; cbn; try lia.
    + rewrite Hw. cbn [set_audit db_steps]. by rewrite S4, P3.
    + rewrite Hcr, (charges_credits _ _ _ _ _ _ _ Hch). unfold charge_of. rewrite Hent.
      unfold credits at 1, find_org. rewrite O3. done.
  - intros id Hne. rewrite Hrun. unfold d3. rewrite find_run_update, bool_decide_eq_false_2 by done.
    rewrite Hd0, W1. unfold limited. by rewrite !find_run_update, !bool_decide_eq_false_2.
  - intros org key Hne. rewrite <- Hent, <- (charges_entries _ _ _ _ _ _ _ _ _ Hch Hne).
    unfold find_entry. by rewrite Hw.
  - intros Hok. rewrite Hw. eapply (ledger_ok_ext d4); [done|done|].
    eapply charges_ledger_ok; [|exact Hch]. by apply (ledger_ok_ext d).
Qed.

(** An execution that returns has committed the tables its body left. *)
Lemma execute_run_ok run_id run o o' :
  (∀ k, db_race k = false) →
  find_run run_id (of_db o) = Some run → ru_status run = u "queued" →
  execute_run web_fetch web_search run_id o = (Ok tt, o') →
  ∃ w', executed run (of_db o) w' ∧ ss_broken (re_session (w_ext w')) = false ∧
    of_db o' = ss_working (re_session (w_ext w')) ∧ of_bus o' run_id = w_bus w'.
Proof.
  intros Hrace Hf Hq. unfold execute_run, session_scope, mbind, M_bind, m_bind. set (w0 := job_world run_id o).
  pose proof (execute_body_wp run_id run w0 Hrace Hf Hq) as Hwp. unfold wp in Hwp.
  destruct (execute_body web_fetch web_search run_id w0) as [[a|e] w1]; [|done].
  unfold on_db, on_ext, zoom, on_session, commit, statement.
  destruct (ss_broken (re_session (w_ext w1))) eqn:Hb; [done|].
  destruct (db_fault _) as [e|]; [destruct (statement_failure e); [done|]|];
    intros [= _ <-]; exists w1; split_and!; try done; cbn; unfold set_bus; by rewrite bool_decide_eq_true_2.
Qed.

Lemma execution_settled run_id run o o' :
  (∀ k, db_race k = false) →
  find_run run_id (of_db o) = Some run → ru_status run = u "queued" →
  execute_run web_fetch web_search run_id o = (Ok tt, o') →
  run_settled run (of_db o) (of_db o').
Proof.
  intros Hrace Hf Hq Heq. pose proof (find_run_id _ _ _ Hf) as Hid. subst run_id.
  destruct (execute_run_ok _ _ _ _ Hrace Hf Hq Heq) as (w' & Hex & Hb & -> & _).
  by apply executed_settled.
Qed.


(** C40: a run that finishes is announced: when the execution of a queued run
    returns, and nobody else posts under the run's key, the last event published for it is terminal, [run.cancelled] exactly
    for a cancelled run, and carries the status, the output and the error of the
    committed row. *)
Theorem finished_run_announced run_id run o o' :
  (∀ k, db_race k = false) →
  find_run run_id (of_db o) = Some run → ru_status run = u "queued" →
  execute_run web_fetch web_search run_id o = (Ok tt, o') →
  ∃ r e, find_run run_id (of_db o') = Some r ∧ last (bus_published (of_bus o' run_id)) = Some e ∧
    is_terminal_event e = true ∧ (ev_type e = RUN_CANCELLED ↔ ru_status r = u "cancelled") ∧
    dict_get (ev_payload e) (u "status") = VStr (ru_status r) ∧
    dict_get (ev_payload e) (u "output") = VOpt (ru_output r) ∧
    dict_get (ev_payload e) (u "error") = VOpt (ru_error r).
Proof.
  intros Hrace Hf Hq Heq. pose proof (find_run_id _ _ _ Hf) as Hid. subst run_id.
  destruct (execute_run_ok _ _ _ _ Hrace Hf Hq Heq)
    as (w' & (t & limits & oc & w1 & _ & W1 & _ & _ & _ & _ & Hset) & _ & -> & ->).
  pose proof (settled_row run _ w1 w' oc t limits Hf W1 Hset) as Hrow.
  pose proof (sf_event _ _ _ _ Hset) as (e & s & Hl & Ht & Hp).
  exists (settle oc (set_limits limits.1 limits.2 (start_run t run))), e. rewrite Hp.
  split_and!; try done.
  - unfold is_terminal_event. rewrite Ht. unfold end_event.
    by destruct (bool_decide (oc_status oc = u "cancelled")).
  - rewrite Ht. unfold end_event. cbn [settle ru_status]. by case_bool_decide.
Qed.

Lemma not_queued_kept run_id run o r o' :
  find_run run_id (of_db o) = Some run → ru_status run ≠ u "queued" →
  execute_run web_fetch web_search run_id o = (r, o') →
  of_db o' = of_db o ∧ (∀ id, of_bus o' id = of_bus o id) ∧ of_prices o' = of_prices o.
Proof.
  intros Hf Hq.
  assert (Hbus : ∀ id, set_bus run_id (of_bus o run_id) (of_bus o) id = of_bus o id)
    by (intros id; unfold set_bus; case_bool_decide; congruence).
  unfold execute_run, session_scope, execute_body, claim, mbind, M_bind, m_bind.
  unfold on_db, on_ext, zoom, on_session, query, commit, statement. cbn [job_world w_ext re_session open_session
    ss_broken ss_clock ss_working ss_committed].
  destruct (db_fault 0) as [e|]; [destruct (statement_failure e)|];
    [intros [= _ <-]; by split_and!|..].
  all: cbn; rewrite Hf; rewrite bool_decide_eq_false_2 by done; cbn.
  all: destruct (db_fault 1) as [e2|]; [destruct (statement_failure e2)|]; intros [= _ <-]; by split_and!.
Qed.

(** a duplicate delivery does nothing: executing a run that is not queued leaves
    the tables, the events of every run and the price book as they are; no model is
    called and nothing is charged, even when the execution raises. *)
Theorem not_queued_untouched run_id run o r o' :
  find_run run_id (of_db o) = Some run → ru_status run ≠ u "queued" →
  execute_run web_fetch web_search run_id o = (r, o') →
  of_db o' = of_db o ∧ (∀ id, of_bus o' id = of_bus o id) ∧ of_prices o' = of_prices o.
Proof. apply not_queued_kept. Qed.

Lemma unknown_run_raises run_id o : 
  find_run run_id (of_db o) = None → is_ok (execute_run web_fetch web_search run_id o).1 = false.
Proof.
  intros Hf.
  unfold execute_run, session_scope, execute_body, claim, mbind, M_bind, m_bind.
  unfold on_db, on_ext, zoom, on_session, query, statement. cbn [job_world w_ext re_session open_session
    ss_broken ss_clock ss_working ss_committed].
  destruct (db_fault 0) as [e|]; [destruct (statement_failure e)|]; cbn; rewrite ?Hf; done.
Qed.
End executing.

(** ** Any number of executions *)

(** One execution of any run, in any environment: whatever the models reply,
    whatever fails. *)
Inductive office_step (o o' : Office) : Prop :=
| office_execution (E : Env) (D : DbEnv) web_fetch web_search run_id r :
    OutsideTool web_fetch → OutsideTool web_search → (∀ k, db_race k = false) →
    execute_run web_fetch web_search run_id o = (r, o') → office_step o o'.

(** A run is waiting or finished: [running] is never in the committed tables. *)
Definition at_rest (r : Run) : Prop := ru_status r = u "queued" ∨ is_terminal (ru_status r) = true.
Definition all_at_rest (d : Db) : Prop := ∀ id r, find_run id d = Some r → at_rest r.

(** What one execution may do to one run. *)
Definition run_step (id : pystr) (d d' : Db) : Prop :=
  ∀ r, find_run id d = Some r →
    ∃ r', find_run id d' = Some r' ∧
      (ru_status r ≠ u "queued" → r' = r ∧
         ∀ org, find_entry org (run_key id) d' = find_entry org (run_key id) d).

Lemma office_step_kept o o' :
  office_step o o' → ledger_ok (of_db o) → ledger_ok (of_db o') ∧ ∀ id, run_step id (of_db o) (of_db o').
Proof.
  intros [E D wf ws run_id r Hwf Hws Hrace Heq] Hok.
  assert (Hsame : of_db o' = of_db o → ledger_ok (of_db o') ∧ ∀ id, run_step id (of_db o) (of_db o')).
  { intros ->. split; [done|]. intros id x Hx. by exists x. }
  destruct r as [[]|e]; [|exact (Hsame (raised_keeps_tables wf ws Hrace run_id o e o' Heq))].
  destruct (find_run run_id (of_db o)) as [run|] eqn:Hf.
  2: { pose proof (unknown_run_raises wf ws run_id o Hf) as Hu. by rewrite Heq in Hu. }
  destruct (decide (ru_status run = u "queued")) as [Hq|Hq].
  2: { exact (Hsame (proj1 (not_queued_kept wf ws run_id run o _ _ Hf Hq Heq))). }
  pose proof (find_run_id _ _ _ Hf) as Hid. subst run_id.
  destruct (execution_settled wf ws _ run o o' Hrace Hf Hq Heq) as [(r & steps & Hr & _ & _) Ho He Hb].
  split; [by apply Hb|]. intros id x Hx. destruct (decide (id = ru_id run)) as [->|Hne].
  - exists r. split; [done|]. congruence.
  - exists x. rewrite Ho by done. split; [done|]. intros _. split; [done|]. intros org. apply He.
    by intros [= _ Hk].
Qed.

Lemma office_step_rest o o' : office_step o o' → all_at_rest (of_db o) → all_at_rest (of_db o').
Proof.
  intros [E D wf ws run_id r Hwf Hws Hrace Heq] Hrest.
  destruct r as [[]|e]; [|by rewrite (raised_keeps_tables wf ws Hrace run_id o e o' Heq)].
  destruct (find_run run_id (of_db o)) as [run|] eqn:Hf.
  2: { pose proof (unknown_run_raises wf ws run_id o Hf) as Hu. by rewrite Heq in Hu. }
  destruct (decide (ru_status run = u "queued")) as [Hq|Hq].
  2: { by rewrite (proj1 (not_queued_kept wf ws run_id run o _ _ Hf Hq Heq)). }
  pose proof (find_run_id _ _ _ Hf) as Hid. subst run_id.
  destruct (execution_settled wf ws _ run o o' Hrace Hf Hq Heq) as [(r & steps & Hr & Ht & _) Ho _ _].
  intros id x Hx. destruct (decide (id = ru_id run)) as [->|Hne]; [right; congruence|].
  rewrite Ho in Hx by done. by eapply Hrest.
Qed.

(** executions are idempotent and never half done: however many executions
    there are, one after the other, of whichever runs, in whatever environments and
    with whatever failures, while nobody else posts under the keys of runs, the books
    stay balanced, and a run that is finished stays exactly as it finished, row and
    ledger entry, for good.  ([running] is written, but in the transaction that
    [execute_run] holds open to its end.) *)
Theorem executions_safe o o' :
  rtc office_step o o' → all_at_rest (of_db o) → ledger_ok (of_db o) →
  all_at_rest (of_db o') ∧ ledger_ok (of_db o') ∧
  ∀ id r, find_run id (of_db o) = Some r → ru_status r ≠ u "queued" →
    find_run id (of_db o') = Some r ∧
    ∀ org, find_entry org (run_key id) (of_db o') = find_entry org (run_key id) (of_db o).
Proof.
  intros Hsteps. induction Hsteps as [o|o1 o2 o3 Hs _ IH]; intros Hrest Hok; [by split_and!|].
  pose proof (office_step_rest o1 o2 Hs Hrest) as Hrest2. destruct (office_step_kept o1 o2 Hs Hok) as (Hok2 & Hrun).
  destruct (IH Hrest2 Hok2) as (H1 & H2 & H3). split_and!; [done|done|].
  intros id r Hf Hq. destruct (Hrun id r Hf) as (r' & Hf' & Hkeep). destruct (Hkeep Hq) as [-> Hent].
  destruct (H3 id r Hf' Hq) as [Hf3 Hent3]. split; [done|]. intros org. by rewrite Hent3, Hent.
Qed.
