(* ===== verification/Orphans.v ===== *)
(** * Reaping orphaned runs (src/core/runner.py, [mark_orphaned_runs])

    Times are whole microseconds.  The sweep reads the committed tables, so it
    sees a run as [running] only if some transaction committed that status. *)

From S2P Require Import Prelude PyStr PyFloat PyVal State Pricing Events World ToolBase Engine Workflow.
From S2P Require Import Database BillingSafety Runner RunnerSafety RunnerRuns.

#[export] Instance Run_eq_dec : EqDecision Run.
Proof. solve_decision. Defined.

Record Sweep := mkSweep { sw_session : Session; sw_bus : pystr → Bus }.

Definition on_sweep {A} (m : M Session exn A) : M Sweep exn A := λ s,
  let '(r, x) := m (sw_session s) in (r, mkSweep x (sw_bus s)).

(** [run.status = "timed_out"; ...] *)
Definition reap (t : Z) (r : Run) : Run :=
  mkRun (ru_id r) (ru_org_id r) (ru_workflow_id r) (ru_created_by r) (u "timed_out") (ru_input r) (ru_output r)
    (Some (u "worker did not report completion")) (ru_key_mode r) (ru_cost_microcents r) (ru_cost_cents r)
    (ru_billable_microcents r) (ru_tokens_in r) (ru_tokens_out r) (ru_steps_used r) (ru_max_steps r)
    (ru_max_cost_cents r) (ru_cancel_requested r) (ru_idempotency_key r) (ru_started_at r) (Some t).

Definition is_running (r : Run) : bool := bool_decide (ru_status r = u "running").

(** [if started and started > cutoff: continue] *)
Definition still_fresh (cutoff : Z) (r : Run) : bool :=
  match ru_started_at r with
  | Some started => negb (started =? 0) && (cutoff <? started)
  | None => false
  end.

Definition orphan (cutoff : Z) (r : Run) : bool := is_running r && negb (still_fresh cutoff r).

Section orphans.
Context `{DbEnv} (redis_fault : pystr → option exn).

(** [await EventEmitter(run.id).emit(ev.RUN_END, ...)] *)
Definition announce (run : Run) : M Sweep exn unit := λ s,
  match redis_fault (ru_id run) with
  | Some e => (Err e, s)
  | None =>
      let '(r, b) := emit RUN_END [str_key "status" (VStr (u "timed_out"));
                                   str_key "error" (VStr (u "worker did not report completion"))]
                       (sw_bus s (ru_id run)) in
      (match r with Ok _ => Ok tt | Err e => Err e end,
       mkSweep (sw_session s) (set_bus (ru_id run) b (sw_bus s)))
  end.

Definition reap_one (cutoff : Z) (run : Run) (fixed : Z) : M Sweep exn (flow Z unit) :=
  if still_fresh cutoff run then m_ret (Next fixed)
  else
    t ← on_sweep now_utc;
    _ ← on_sweep (change (update_run (ru_id run) (reap t)));
    _ ← announce run;
    m_ret (Next (fixed + 1)).

Definition sweep_runs (older_than_seconds : Z) : M Sweep exn Z :=
  now ← on_sweep now_utc;
  let cutoff := now - older_than_seconds * 1000000 in
  rows ← on_sweep (query (λ d, List.filter is_running (db_runs d)));
  out ← for_loop rows (reap_one cutoff) 0;
  match out with
  | Next fixed | Break fixed => m_ret fixed
  | Return _ => m_ret 0
  end.

Definition mark_orphaned_runs (older_than_seconds : Z) (d : Db) (bus : pystr → Bus)
    : res exn Z * Sweep :=
  session_scope (λ m, on_sweep m) (sweep_runs older_than_seconds) (mkSweep (open_session d) bus).

(** ** What a sweep does *)

(** The tables after the rows [done_] have been looked at, at time [t]. *)
Definition reaped (t cutoff : Z) (seen : list Run) (d d' : Db) : Prop :=
  (∀ id, find_run id d' = (λ r, if bool_decide (r ∈ seen) && negb (still_fresh cutoff r)
                                then reap t r else r) <$> find_run id d) ∧
  d' = set_runs (db_runs d') d.

Lemma set_runs_twice rs rs' d : set_runs rs (set_runs rs' d) = set_runs rs d.
Proof. done. Qed.

Definition last_event (status : pystr) (b : Bus) : Prop :=
  ∃ e, last (bus_published b) = Some e ∧ ev_type e = RUN_END ∧ dict_get (ev_payload e) (u "status") = VStr status.

Lemma seen_snoc (x r : Run) seen : x ≠ r → bool_decide (x ∈ seen) = bool_decide (x ∈ seen ++ [r]).
Proof. intros Hne. apply bool_decide_ext. rewrite elem_of_app, list_elem_of_singleton. tauto. Qed.

Lemma for_reap t cutoff rows d : ∀ seen fixed s,
  (∀ r, r ∈ seen ++ rows → find_run (ru_id r) d = Some r) →
  reaped t cutoff seen d (ss_working (sw_session s)) → db_now (ss_clock (sw_session s)) = t →
  wp (for_loop rows (reap_one cutoff) fixed)
     (λ out s', ∃ n, out = Next n ∧
        n = fixed + py_len (List.filter (λ r, negb (still_fresh cutoff r)) rows) ∧
        reaped t cutoff (seen ++ rows) d (ss_working (sw_session s')) ∧
        ss_committed (sw_session s') = ss_committed (sw_session s) ∧
        ss_clock (sw_session s') = ss_clock (sw_session s) ∧ ss_broken (sw_session s') = ss_broken (sw_session s))
     (λ _ s', ss_committed (sw_session s') = ss_committed (sw_session s)) s.
Proof.
  induction rows as [|r rows IH]; intros seen fixed s Hfind Hr Ht.
  { rewrite app_nil_r. cbn. exists fixed. split_and!; try done. unfold py_len. simpl. lia. }
  cbn [for_loop]. apply wp_bind. rewrite (cons_middle r seen rows), app_assoc in Hfind.
  rewrite (cons_middle r seen rows), app_assoc. unfold reap_one. cbn [List.filter].
  destruct (still_fresh cutoff r) eqn:Hfresh.
  { apply wp_ret. apply (IH (seen ++ [r])); try done. destruct Hr as [Hr1 Hr2]. split; [|exact Hr2].
    intros id. rewrite Hr1. destruct (find_run id d) as [x|] eqn:Hx; [|done]. simpl. f_equal.
    destruct (decide (x = r)) as [->|Hne]; [by rewrite Hfresh, !andb_false_r|].
    by rewrite (seen_snoc x r seen Hne). }
  apply wp_bind. unfold wp at 1, on_sweep, now_utc. cbn. rewrite Ht.
  apply wp_bind. unfold wp at 1, change. cbn. apply wp_bind. unfold wp at 1, announce.
  destruct (redis_fault (ru_id r)) as [e|]; [done|].
  rewrite emit_eq. cbn zeta. match goal with |- context [encodable_val ?v] => change (encodable_val v) with true end. cbn.
  eapply wp_mono; [apply (IH (seen ++ [r])); try done| |done].
  - destruct Hr as [Hr1 Hr2]. cbn. split; [|by rewrite Hr2].
    intros id. rewrite find_run_update by done. rewrite Hr1. case_bool_decide as Hid.
    + subst id. rewrite Hfind by set_solver. simpl. f_equal.
      rewrite (bool_decide_eq_true_2 (r ∈ seen ++ [r])) by set_solver. rewrite Hfresh. simpl.
      destruct (bool_decide (r ∈ seen)); done.
    + destruct (find_run id d) as [x|] eqn:Hx; [|done]. simpl. f_equal.
      rewrite (seen_snoc x r seen); [done|]. intros ->. apply find_run_id in Hx. congruence.
  - intros out s' (n & -> & -> & Hreap & Hc & Hk & Hb). exists (fixed + 1 + py_len (List.filter (λ r, negb (still_fresh cutoff r)) rows)).
    split_and!; try done. unfold py_len. simpl. lia.
Qed.

Lemma find_run_unique d r : NoDup (map ru_id (db_runs d)) → r ∈ db_runs d → find_run (ru_id r) d = Some r.
Proof.
  unfold find_run. intros Hnd Hin. induction (db_runs d) as [|x l IH]; [by apply elem_of_nil in Hin|].
  cbn [map] in Hnd. apply NoDup_cons in Hnd as [Hx Hl]. cbn [List.find]. case_bool_decide as Hid.
  - apply elem_of_cons in Hin as [->|Hin]; [done|]. destruct Hx. rewrite Hid.
    apply list_elem_of_In, in_map, list_elem_of_In. done.
  - apply elem_of_cons in Hin as [->|Hin]; [done|]. by apply IH.
Qed.

Lemma running_rows d r id :
  find_run id d = Some r → bool_decide (r ∈ List.filter is_running (db_runs d)) = is_running r.
Proof.
  intros [Hin _]%List.find_some. destruct (is_running r) eqn:Hr.
  - apply bool_decide_eq_true, list_elem_of_In, List.filter_In. done.
  - apply bool_decide_eq_false. intros Hf%list_elem_of_In%List.filter_In. destruct Hf. congruence.
Qed.

Lemma sweep_spec older d bus r s' :
  NoDup (map ru_id (db_runs d)) → mark_orphaned_runs older d bus = (r, s') →
  let cutoff := db_now 0 - older * 1000000 in let d' := ss_committed (sw_session s') in
  match r with
  | Ok n => n = py_len (List.filter (orphan cutoff) (db_runs d)) ∧ d' = set_runs (db_runs d') d ∧
            ∃ t, ∀ id, find_run id d' = (λ x, if orphan cutoff x then reap t x else x) <$> find_run id d
  | Err _ => d' = d
  end.
Proof.
  intros Hnd. unfold mark_orphaned_runs, session_scope, sweep_runs.
  set (cutoff := db_now 0 - older * 1000000). unfold mbind, M_bind, m_bind. unfold on_sweep at 1 2, now_utc, query.
  cbn [sw_session open_session ss_clock ss_working]. change (db_now 0 - older * 1000000) with cutoff.
  assert (Hst : wp statement (λ _ s, ss_clock s = 1%nat ∧ same_tables (open_session d) s ∧ ss_broken s = false)
            (λ _ s, same_tables (open_session d) s) (open_session d)).
  { unfold wp, statement. cbn. destruct (db_fault 0) as [e|]; [destruct (statement_failure e)|]; done. }
  unfold wp in Hst. destruct (statement (open_session d)) as [[[]|e] s1].
  2: { intros [= <- <-]. destruct Hst as [Hc Hw]. simpl in Hc. exact Hc. }
  destruct Hst as (Hclock & [Hc Hw] & _). rewrite Hw. cbn [open_session ss_working].
  set (rows := List.filter is_running (db_runs d)). set (s0 := mkSweep s1 bus).
  assert (Hin : ∀ r, r ∈ [] ++ rows → find_run (ru_id r) d = Some r).
  { intros x [Hx _]%list_elem_of_In%List.filter_In. apply find_run_unique; [done|]. by apply list_elem_of_In. }
  assert (Hstart : reaped (db_now 1) cutoff [] d (ss_working (sw_session s0))).
  { subst s0. cbn. rewrite Hw. split; [|by destruct d]. intros id. cbn. by destruct (find_run id d). }
  assert (Hnow : db_now (ss_clock (sw_session s0)) = db_now 1) by (subst s0; cbn; by rewrite Hclock).
  pose proof (for_reap (db_now 1) cutoff rows d [] 0 s0 Hin Hstart Hnow) as Hwp. unfold wp in Hwp.
  match goal with |- context [for_loop _ _ 0 ?s] => change s with s0 end.
  destruct (for_loop rows (reap_one cutoff) 0 s0) as [[out|e] s2].
  2: { intros [= <- <-]. cbn in *. by rewrite Hwp, Hc. }
  destruct Hwp as (n & -> & Hn & [Hf Hd] & Hcom & _ & _). cbn [m_ret].
  unfold on_sweep, commit. pose proof (statement_same (sw_session s2)) as Hst.
  destruct (statement (sw_session s2)) as [[[]|e] s3]; destruct Hst as [Hc3 Hw3]; cbn in Hc3, Hw3;
    intros [= <- <-].
  - cbn. rewrite Hw3. split_and!; [|exact Hd|].
    + rewrite Hn. unfold rows. clear. rewrite Z.add_0_l. f_equal.
      induction (db_runs d) as [|x l IH]; [done|]. cbn [List.filter]. unfold orphan at 1.
      destruct (is_running x); cbn [List.filter andb]; [|exact IH]. by rewrite IH.
    + exists (db_now 1). intros id. rewrite Hf. destruct (find_run id d) as [x|] eqn:Hx; [|done]. simpl.
      f_equal. unfold orphan. change (x ∈ [] ++ rows) with (x ∈ rows). subst rows.
      by rewrite (running_rows d x id Hx).
  - cbn. rewrite Hc3, Hcom. subst s0. cbn. exact Hc.
Qed.

(** the sweep fails exactly the orphans: when it returns, every committed run
    that was [running] and whose start is missing or older than the limit is
    [timed_out] with the reason, every other run and table is as it was, and the
    count is the number of orphans; when it raises nothing is committed. *)
Theorem mark_orphaned_runs_spec older d bus r s' :
  NoDup (map ru_id (db_runs d)) → mark_orphaned_runs older d bus = (r, s') →
  let cutoff := db_now 0 - older * 1000000 in let d' := ss_committed (sw_session s') in
  match r with
  | Ok n => n = py_len (List.filter (orphan cutoff) (db_runs d)) ∧ d' = set_runs (db_runs d') d ∧
            ∃ t, ∀ id, find_run id d' = (λ x, if orphan cutoff x then reap t x else x) <$> find_run id d
  | Err _ => d' = d
  end.
Proof. apply sweep_spec. Qed.

(** as the tables never hold a [running] run between executions (see
    [RunnerRuns]), the sweep never has anything to do. *)
Theorem sweep_finds_nothing older d bus n s' :
  NoDup (map ru_id (db_runs d)) → all_at_rest d → mark_orphaned_runs older d bus = (Ok n, s') →
  n = 0 ∧ ∀ id, find_run id (ss_committed (sw_session s')) = find_run id d.
Proof.
  intros Hnd Hrest Heq. pose proof (sweep_spec older d bus _ _ Hnd Heq) as (Hn & _ & t & Hf).
  assert (Hno : ∀ cutoff r, r ∈ db_runs d → orphan cutoff r = false).
  { intros cutoff r Hin. pose proof (find_run_unique d r Hnd Hin) as Hr. unfold orphan, is_running.
    rewrite bool_decide_eq_false_2; [done|]. intros Hrun. destruct (Hrest _ _ Hr) as [Hq|Ht].
    - rewrite Hrun in Hq. discriminate Hq.
    - rewrite Hrun in Ht. discriminate Ht. }
  split.
  - rewrite Hn. revert Hno. clear. intros Hno. unfold py_len.
    assert (Hnil : List.filter (orphan (db_now 0 - older * 1000000)) (db_runs d) = []); [|by rewrite Hnil].
    induction (db_runs d) as [|x l IH]; [done|]. simpl. rewrite Hno by left. apply IH.
    intros cutoff r Hr. apply Hno. by right.
  - intros id. rewrite Hf. destruct (find_run id d) as [x|] eqn:Hx; [|done]. simpl.
    apply List.find_some in Hx as [Hin%list_elem_of_In _]. by rewrite Hno.
Qed.
End orphans.
