(* ===== verification/RunnerDemo.v ===== *)
(** * Concrete executions

    One run of a pipeline with a single agent, executed on the tables of an
    organisation that pays with its own key: the theorems about executions are
    applied to it, and the executions that end badly are looked at. *)

From S2P Require Import Prelude PyStr PyFloat PyVal PyRegex PyJson Artifacts Config State Budget.
From S2P Require Import Registry Providers Pricing Keys Events World Router ToolBase ToolArtifacts.
From S2P Require Import ToolRegistry Engine EngineSafety EngineTurn EngineSinks Workflow Presets.
From S2P Require Import PresetFlow PresetDemo Database Auditing Billing BillingSafety Runner.
From S2P Require Import RunnerSafety RunnerRuns Orphans.

(** ** The office *)

Definition demo_workflow (graph : Graph) : WorkflowRow :=
  mkWorkflowRow (u "w") (u "o") (u "Write") [] (u "pipeline") graph true None.
Definition one_node : Graph := [(u "nodes", VList [node_of [("agent_id", "a1")]%string])].
Definition demo_run (status : pystr) : Run :=
  mkRun (u "r") (u "o") (u "w") None status (u "go") None None (u "byok") 0 0 0 0 0 0 40 500 false None None None.
Definition demo_tables (status : pystr) (graph : Graph) : Db :=
  mkDb [demo_org] [] [] [] [] [mkAgentRow (u "o") true None demo_agent] [demo_workflow graph] [demo_run status]
    [] [] [] [] [] [].
Definition demo_office (d : Db) : Office := mkOffice d (λ _, empty_bus) default_price_book.

(** The artifact tools stand for the web tools. *)
#[local] Instance ListArtifacts_outside `{Env} : OutsideTool (X:=RunExt) ListArtifacts.
Proof.
  split; [|apply ListArtifacts_quiet]. intros RX HRX. exact (proj1 (artifact_tools_ext RX)).
Qed.
#[local] Instance ReadArtifact_outside `{Env} : OutsideTool (X:=RunExt) ReadArtifact.
Proof.
  split; [|apply ReadArtifact_quiet]. intros RX HRX. exact (proj1 (proj2 (artifact_tools_ext RX))).
Qed.

#[local] Abbreviation demo_execute E D := (@execute_run E D (@ListArtifacts RunExt (@env_tables E)) (@ReadArtifact RunExt (@env_tables E))).

(** The [n]-th statement of the session fails. *)
Definition failing_db (n : nat) (e : exn) : DbEnv := {|
  db_fault := λ k, if Nat.eqb k n then Some e else None; db_race := λ _, false; db_rival := λ _, no_rival;
  db_uuid := λ k, u "id" ++ str_of_Z (Z.of_nat k); db_now := λ k, Z.of_nat k |}.

Definition connection_lost : exn := ExternalError (u "OperationalError") (u "connection lost").

Definition queued_office : Office := demo_office (demo_tables (u "queued") one_node).

Definition run_summary (o : Office) : list (pystr * Z * Z * Z) :=
  map (λ r, (ru_status r, ru_steps_used r, ru_cost_cents r, py_len (db_steps (of_db o)))) (db_runs (of_db o)).

(** An environment whose [n]-th await is interrupted. *)
Definition interrupted_env (n : nat) (i : interrupt) : Env := {|
  env_tables := ascii_tables;
  env_settings := default_settings;
  env_clock := λ _, 0;
  env_interrupt := λ k, if Nat.eqb k n then Some i else None;
  env_cancel := λ _, false;
  env_reply := steady_reply;
  env_stored := demo_stored;
  env_decrypt := demo_decrypt;
  env_schedule := λ _, [] |}.

Definition event_types (o : Office) : list pystr := map ev_type (bus_published (of_bus o (u "r"))).

(** ** The run succeeds *)

Lemma demo_executed :
  (let '(r, o) := demo_execute steady_env quiet_db (u "r") queued_office in
   (is_ok r, run_summary o, event_types o))
  = (true, [(u "succeeded", 1, 0, 1)], [RUN_START; STEP_START; STEP_END; RUN_END]).
Proof. vm_compute. reflexivity. Qed.

Definition executed_office : Office := (demo_execute steady_env quiet_db (u "r") queued_office).2.

Lemma demo_returns : demo_execute steady_env quiet_db (u "r") queued_office = (Ok tt, executed_office).
Proof.
  pose proof demo_executed as Hok. unfold executed_office. revert Hok.
  destruct (demo_execute steady_env quiet_db (u "r") queued_office) as [[[]|e] o']; [done|]. intros [=].
Qed.

Lemma queued_found : find_run (u "r") (of_db queued_office) = Some (demo_run (u "queued")).
Proof. reflexivity. Qed.
Lemma quiet_db_alone : ∀ k, @db_race quiet_db k = false.
Proof. done. Qed.


Lemma finished_run_announced_witness :
  ∃ r e, find_run (u "r") (of_db executed_office) = Some r ∧
    last (bus_published (of_bus executed_office (u "r"))) = Some e ∧ is_terminal_event e = true ∧
    (ev_type e = RUN_CANCELLED ↔ ru_status r = u "cancelled") ∧
    dict_get (ev_payload e) (u "status") = VStr (ru_status r) ∧
    dict_get (ev_payload e) (u "output") = VOpt (ru_output r) ∧
    dict_get (ev_payload e) (u "error") = VOpt (ru_error r).
Proof.
  exact (@finished_run_announced steady_env quiet_db ListArtifacts ReadArtifact _ _ (u "r") (demo_run (u "queued"))
           queued_office executed_office quiet_db_alone queued_found eq_refl demo_returns).
Defined.

(** ** The run is delivered again *)

Definition finished_office : Office := demo_office (demo_tables (u "succeeded") one_node).

Lemma not_queued_untouched_witness :
  let '(r, o') := demo_execute steady_env quiet_db (u "r") finished_office in
  of_db o' = of_db finished_office ∧ (∀ id, of_bus o' id = of_bus finished_office id) ∧
  of_prices o' = of_prices finished_office.
Proof.
  destruct (demo_execute steady_env quiet_db (u "r") finished_office) as [r o'] eqn:Heq.
  assert (Hq : ru_status (demo_run (u "succeeded")) ≠ u "queued") by discriminate.
  exact (@not_queued_untouched steady_env quiet_db ListArtifacts ReadArtifact (u "r") (demo_run (u "succeeded"))
           finished_office r o' eq_refl Hq Heq).
Defined.

(** ** The run fails *)

(** A worker that shuts down cancels the run: what the [finally] block wrote is
    lost with the transaction, and watchers are left without a terminal event. *)
Lemma cancelled_worker_leaves_queued :
  (let '(r, o) := demo_execute (interrupted_env 5 ICancel) quiet_db (u "r") queued_office in
   (r, run_summary o, event_types o))
  = (Err CancelledError, [(u "queued", 0, 0, 0)], [RUN_START; STEP_START]).
Proof. vm_compute. reflexivity. Qed.

(** When the insert of a step fails, the session refuses the statements of the
    [finally] block too. *)
Lemma failed_step_leaves_queued :
  (let '(r, o) := demo_execute steady_env (failing_db 4 connection_lost) (u "r") queued_office in
   (r, run_summary o, event_types o))
  = (Err PendingRollback, [(u "queued", 0, 0, 0)], [RUN_START; STEP_START; RUN_END]).
Proof. vm_compute. reflexivity. Qed.

(** The terminal event is published before the commit that makes it true. *)
Lemma announced_before_commit :
  (let '(r, o) := demo_execute steady_env (failing_db 5 connection_lost) (u "r") queued_office in
   (r, run_summary o, event_types o))
  = (Err connection_lost, [(u "queued", 0, 0, 0)], [RUN_START; STEP_START; STEP_END; RUN_END]).
Proof. vm_compute. reflexivity. Qed.

(** A graph whose step ceiling is [null] passes the check of its preset, and its
    runs raise before the [try] block. *)
Definition null_ceiling : Graph := str_key "max_steps" VNone :: one_node.
Lemma null_ceiling_leaves_queued :
  @validate_graph ascii_tables (u "pipeline") null_ceiling = Ok [VStr (u "a1")] ∧
  (let '(r, o) := demo_execute steady_env quiet_db (u "r") (demo_office (demo_tables (u "queued") null_ceiling)) in
   (match r with Err (TypeError _) => true | _ => false end, run_summary o, event_types o))
  = (true, [(u "queued", 0, 0, 0)], []).
Proof. split; vm_compute; reflexivity. Qed.

(** ** Many executions *)

Lemma queued_at_rest : all_at_rest (of_db queued_office).
Proof.
  intros id r Hf. apply List.find_some in Hf as [Hin _]. simpl in Hin. destruct Hin as [<-|[]]. by left.
Qed.

Lemma demo_tables_ok status graph : ledger_ok (demo_tables status graph).
Proof. split; simpl; [apply NoDup_singleton|constructor|]. intros o ->%list_elem_of_singleton. done. Qed.

(** A failed execution, then one that succeeds. *)
Definition retried_office : Office := (demo_execute (interrupted_env 5 ICancel) quiet_db (u "r") queued_office).2.

Lemma demo_history : rtc office_step queued_office retried_office.
Proof.
  apply rtc_once.
  exact (@office_execution queued_office retried_office (interrupted_env 5 ICancel) quiet_db ListArtifacts ReadArtifact
           (u "r") _ _ _ quiet_db_alone (surjective_pairing _)).
Qed.

Lemma executions_safe_witness :
  all_at_rest (of_db retried_office) ∧ ledger_ok (of_db retried_office) ∧
  ∀ id r, find_run id (of_db queued_office) = Some r → ru_status r ≠ u "queued" →
    find_run id (of_db retried_office) = Some r ∧
    ∀ org, find_entry org (run_key id) (of_db retried_office) = find_entry org (run_key id) (of_db queued_office).
Proof. exact (executions_safe _ _ demo_history queued_at_rest (demo_tables_ok _ _)). Defined.

(** ** The sweep *)

Definition stuck_tables : Db := demo_tables (u "running") one_node.

Lemma mark_orphaned_runs_witness :
  let '(r, s') := @mark_orphaned_runs quiet_db (λ _, None) 3600 stuck_tables (λ _, empty_bus) in
  r = Ok 1 ∧ ss_committed (sw_session s') = set_runs (db_runs (ss_committed (sw_session s'))) stuck_tables.
Proof.
  destruct (@mark_orphaned_runs quiet_db (λ _, None) 3600 stuck_tables (λ _, empty_bus)) as [r s'] eqn:Heq.
  assert (Hok : r = Ok 1) by (apply (f_equal (λ x, x.1)) in Heq; vm_compute in Heq; congruence).
  split; [exact Hok|]. subst r.
  exact (proj1 (proj2 (@mark_orphaned_runs_spec quiet_db (λ _, None) 3600 stuck_tables (λ _, empty_bus) _ _
                         (NoDup_singleton _) Heq))).
Defined.

Lemma sweep_finds_nothing_witness :
  let '(r, s') := @mark_orphaned_runs quiet_db (λ _, None) 3600 (of_db queued_office) (λ _, empty_bus) in
  ∃ n, r = Ok n ∧ n = 0 ∧
    ∀ id, find_run id (ss_committed (sw_session s')) = find_run id (of_db queued_office).
Proof.
  assert (Hok : is_ok (@mark_orphaned_runs quiet_db (λ _, None) 3600 (of_db queued_office) (λ _, empty_bus)).1 = true)
    by (vm_compute; reflexivity).
  destruct (@mark_orphaned_runs quiet_db (λ _, None) 3600 (of_db queued_office) (λ _, empty_bus)) as [r s'] eqn:Heq.
  destruct r as [n|e]; [|discriminate Hok]. exists n. split; [reflexivity|].
  exact (@sweep_finds_nothing quiet_db (λ _, None) 3600 (of_db queued_office) (λ _, empty_bus) n s'
           (NoDup_singleton _) queued_at_rest Heq).
Defined.
