(* ===== verification/Security.v ===== *)
(** * Passwords and tokens (src/core/security.py)

    The password policy, the claims of access tokens and the expiry of refresh
    tokens.  Argon2, JWT, SHA-256 and the random generator are libraries: they
    are the arguments collected in [Vault].  Times are whole microseconds. *)

From S2P Require Import Prelude PyStr PyFloat PyVal Config.

(** Why [jwt.decode] refuses a token *)
Inductive jwt_error := ExpiredSignature | InvalidToken.

Class Vault := {
  argon_hash : pystr → pystr → pystr;                     (* salt, password *)
  argon_verifies : pystr → pystr → bool;                  (* hash, password: no error raised *)
  argon_outdated : pystr → option bool;                   (* [None]: [InvalidHashError] *)
  sha256_hex : pystr → pystr;
  jwt_encode : list (pystr * pyval) → pystr → pystr → pystr;
  jwt_decode : Z → pystr → pystr → pystr → jwt_error + list (pystr * pyval) }.

Definition ACCESS_TOKEN_TYPE : pystr := u "access".

Record AccessTokenClaims := mkClaims {
  ac_user_id : pyval; ac_email : pyval; ac_token_epoch : Z; ac_is_superuser : bool;
  ac_orgs : list (pystr * pyval); ac_expires_at : Z }.

Section security.
Context `{PyTables} `{Vault} (settings : Settings).

(** ** Passwords *)

Definition validate_password (password : pystr) : res exn unit :=
  let minimum := cfg_password_min_length settings in
  if py_len password <? minimum then
    Err (PasswordPolicyError (u "password must be at least " ++ str_of_Z minimum ++ u " characters"))
  else if negb (bool_decide (strip password = password)) then
    Err (PasswordPolicyError (u "password must not start or end with whitespace"))
  else if py_len (remove_dups password) <? 5 then
    Err (PasswordPolicyError (u "password is too repetitive"))
  else Ok tt.

Definition hash_password (salt password : pystr) : res exn pystr :=
  _ ← validate_password password;
  Ok (argon_hash salt password).

Definition verify_password (password password_hash : pystr) : bool := argon_verifies password_hash password.

Definition needs_password_rehash (password_hash : pystr) : bool := default true (argon_outdated password_hash).

(** ** Access tokens *)

Definition jwt_secret : res exn pystr :=
  match cfg_jwt_secret settings with
  | [] => Err (AuthError (u "JWT_SECRET is not configured"))
  | secret => Ok secret
  end.

(** [int(t.timestamp())]: the division of the microseconds is binary64's. *)
Definition int_timestamp (t : Z) : Z := default 0 (fl_trunc <$> fl_div_ZZ t 1000000).

Definition access_ttl : Z := cfg_access_token_ttl_minutes settings * 60 * 1000000.

Definition access_payload (user_id email : pystr) (token_epoch : Z) (is_superuser : bool)
    (orgs : list (pystr * pystr)) (now : Z) (jti : pystr) : list (pystr * pyval) :=
  [(u "sub", VStr user_id); (u "email", VStr email); (u "epoch", VInt token_epoch);
   (u "su", VBool is_superuser); (u "orgs", VDict (map (λ o, (o.1, VStr o.2)) orgs));
   (u "typ", VStr ACCESS_TOKEN_TYPE); (u "iat", VInt (int_timestamp now));
   (u "exp", VInt (int_timestamp (now + access_ttl))); (u "jti", VStr jti)].

(** Returns the token and its life in seconds. *)
Definition create_access_token (user_id email : pystr) (token_epoch : Z) (is_superuser : bool)
    (orgs : list (pystr * pystr)) (now : Z) (jti : pystr) : res exn (pystr * Z) :=
  secret ← jwt_secret;
  Ok (jwt_encode (access_payload user_id email token_epoch is_superuser orgs now jti) secret
        (cfg_jwt_algorithm settings),
      cfg_access_token_ttl_minutes settings * 60).

(** [dict(v)]: a mapping, or the pairs of a sequence; keys that are not strings,
    which no token of this service has, are an error here *)
Definition as_pair (v : pyval) : res exn (pystr * pyval) :=
  match v with
  | VList [VStr k; x] => Ok (k, x)
  | VStr [k; x] => Ok ([k], VStr [x])
  | VList [_; _] => Err (TypeError (u "unhashable type"))
  | VList _ | VStr _ => Err (ValueError (u "dictionary update sequence element has the wrong length; 2 is required"))
  | _ => Err (TypeError (u "cannot convert dictionary update sequence element to a sequence"))
  end.
Definition as_dict (v : pyval) : res exn (list (pystr * pyval)) :=
  match v with
  | VDict d => Ok d
  | VList l => pairs ← res_mapM as_pair l; Ok (assoc_of_list pairs)
  | VStr s => pairs ← res_mapM (λ c, as_pair (VStr [c])) s; Ok (assoc_of_list pairs)
  | _ => Err (TypeError (u "object is not iterable"))
  end.

(** [datetime.fromtimestamp(v, tz=UTC)], between the years 1 and 9999 *)
Definition in_calendar (seconds : Z) : bool := (-62135596800 <=? seconds) && (seconds <=? 253402300799).
Definition fromtimestamp (v : pyval) : res exn Z :=
  match v with
  | VInt n => if in_calendar n then Ok (n * 1000000) else Err (ValueError (u "year is out of range"))
  | VBool b => Ok (if b then 1000000 else 0)
  | VFloat FNegZero => Ok 0
  | VFloat (FFin z) =>
      let whole := fl_trunc z in
      if in_calendar whole
      then Ok (whole * 1000000 + fl_round (default 0 (fl_mul (z - whole * fl_one) (1000000 * fl_one))))
      else Err (ValueError (u "year is out of range"))
  | VFloat (FInf _) => Err (OverflowError (u "cannot convert float infinity to integer"))
  | VFloat FNan => Err (ValueError (u "cannot convert float NaN to integer"))
  | _ => Err (TypeError (u "an integer is required"))
  end.

Definition get_default (d : list (pystr * pyval)) (k : pystr) (v : pyval) : pyval := default v (assoc k d).

Definition is_access (typ : pyval) : bool :=
  match typ with VStr s => bool_decide (s = ACCESS_TOKEN_TYPE) | _ => false end.

Definition decode_access_token (now : Z) (token : pystr) : res exn AccessTokenClaims :=
  secret ← jwt_secret;
  match jwt_decode now token secret (cfg_jwt_algorithm settings) with
  | inl ExpiredSignature => Err (AuthError (u "token has expired"))
  | inl InvalidToken => Err (AuthError (u "invalid token"))
  | inr payload =>
      if is_access (dict_get payload (u "typ")) then
        epoch ← py_int (get_default payload (u "epoch") (VInt 0));
        orgs ← as_dict (py_or (dict_get payload (u "orgs")) (VDict []));
        expires_at ← fromtimestamp (dict_get payload (u "exp"));
        Ok (mkClaims (dict_get payload (u "sub")) (get_default payload (u "email") (VStr [])) epoch
              (truthy (get_default payload (u "su") (VBool false))) orgs expires_at)
      else Err (AuthError (u "invalid token"))
  end.

(** ** Refresh tokens *)

Definition hash_refresh_token (token : pystr) : pystr := sha256_hex token.
Definition refresh_token_expiry (now : Z) : Z := now + cfg_refresh_token_ttl_days settings * 86400 * 1000000.

(** ** The policy *)

Lemma strip_by_fixed p s :
  strip_by p s = s ↔
  (∀ c, head s = Some c → p c = false) ∧ (∀ c, last s = Some c → p c = false).
Proof.
  assert (Hdrop : ∀ l : pystr, drop_while p l = l ↔ ∀ c, head l = Some c → p c = false).
  { intros [|c l]; [done|]. simpl. destruct (p c) eqn:Hc.
    - split; [|intros Hh; specialize (Hh c eq_refl); congruence]. intros Heq.
      pose proof (length_drop_while p l) as Hlen. rewrite Heq in Hlen. simpl in Hlen. lia.
    - split; [|done]. by intros _ c' [= <-]. }
  unfold strip_by, lstrip_by, rstrip_by. split.
  - intros Heq.
    assert (Hl : drop_while p s = s).
    { destruct s as [|c s]; [done|]. simpl in *. destruct (p c); [|done].
      pose proof (length_drop_while p (reverse (drop_while p s))) as H1.
      pose proof (length_drop_while p s) as H2. rewrite length_reverse in H1.
      apply (f_equal length) in Heq. rewrite length_reverse in Heq. simpl in Heq. lia. }
    rewrite Hl in Heq. split; [by apply Hdrop|].
    assert (Hr : drop_while p (reverse s) = reverse s) by (rewrite <- Heq at 2; by rewrite reverse_involutive).
    intros c Hc. apply (proj1 (Hdrop _) Hr). by rewrite head_reverse.
  - intros [Hh Hl]. rewrite (proj2 (Hdrop s) Hh), (proj2 (Hdrop (reverse s))); [apply reverse_involutive|].
    intros c. rewrite head_reverse. apply Hl.
Qed.

(** The policy in full: long enough, no white space at either end, at least five
    different characters. *)
Theorem validate_password_spec password :
  validate_password password = Ok tt ↔
  cfg_password_min_length settings ≤ py_len password ∧
  (∀ c, head password = Some c → is_space c = false) ∧
  (∀ c, last password = Some c → is_space c = false) ∧
  5 ≤ Z.of_nat (size (list_to_set password : gset N)).
Proof.
  assert (Hset : (list_to_set password : gset N) = list_to_set (remove_dups password)).
  { apply set_eq. intros c. by rewrite !elem_of_list_to_set, elem_of_remove_dups. }
  rewrite Hset, size_list_to_set by apply NoDup_remove_dups.
  unfold validate_password. destruct (Z.ltb_spec (py_len password) (cfg_password_min_length settings)).
  { split; [done|]. lia. }
  destruct (strip_by_fixed is_space password) as [Hs1 Hs2]. fold (strip password) in Hs1, Hs2.
  case_bool_decide as Hs; simpl.
  2: { split; [done|]. intros (_ & Hh & Hl & _). by destruct Hs; apply Hs2. }
  unfold py_len at 2. destruct (Z.ltb_spec (py_len (remove_dups password)) 5) as [H5|H5]; unfold py_len in H5.
  - split; [done|]. lia.
  - split; [|done]. intros _. destruct (Hs1 Hs). split_and!; try done; lia.
Qed.

(** ** Access tokens carry what they were made from *)

(** [int(t.timestamp())] is the second, for every time before the year 2112. *)
Lemma int_timestamp_seconds t : 0 ≤ t < 2 ^ 52 → int_timestamp t = t / 1000000.
Proof.
  intros Ht. unfold int_timestamp, fl_div_ZZ, fl_trunc. set (x := rnd (t * fl_one) 1000000).
  assert (Ho : 2 ^ 100 ≤ fl_one) by (unfold fl_one; apply Z.pow_le_mono_r; lia).
  assert (Hmax : 2 ^ 60 * fl_one ≤ fl_max).
  { unfold fl_one, fl_max. rewrite <- Z.pow_add_r by lia. apply Z.pow_le_mono_r; lia. }
  pose proof (rnd_rel_error (t * fl_one) 1000000 ltac:(lia) ltac:(nia)) as He. fold x in He.
  pose proof (Z.div_mod t 1000000 ltac:(lia)) as Hdm. pose proof (Z.mod_pos_bound t 1000000 ltac:(lia)) as Hm.
  assert (Hlow : t / 1000000 * fl_one ≤ x).
  { rewrite <- (rnd_b64 (t / 1000000 * fl_one) 1) by (try lia; exists (t / 1000000), 1074; unfold fl_one;
      split_and!; try lia; apply Z.div_lt_upper_bound; lia).
    apply rnd_mono; lia. }
  set (o := fl_one) in *. clearbody o. set (q := t / 1000000) in *. clearbody q x.
  assert (Hx : 0 ≤ x) by nia.
  assert (Hup : x < (q + 1) * o).
  { destruct (Z.eq_dec t 0) as [->|Ht0]; [lia|].
    assert (Hto : 1 * o ≤ t * o) by (apply Z.mul_le_mono_nonneg_r; lia).
    assert (Htb : t * o ≤ 2 ^ 52 * o) by (apply Z.mul_le_mono_nonneg_r; lia).
    assert (H2 : 2 * (1000000 * x) ≤ (2 * t + 1) * o) by lia.
    assert (Hq : (2 * t + 1) * o ≤ (2000000 * (q + 1) - 1) * o) by (apply Z.mul_le_mono_nonneg_r; lia).
    lia. }
  unfold checked. rewrite Z.abs_eq by done. rewrite (proj2 (Z.ltb_lt _ _)) by nia. simpl.
  rewrite Z.quot_div_nonneg by lia. symmetry. apply (Z.div_unique x o q (x - q * o)); [left; lia|ring].
Qed.

(** When the library accepts the token, what comes out is what went in. *)
Theorem access_token_roundtrip user_id email epoch su orgs now jti token ttl later :
  create_access_token user_id email epoch su orgs now jti = Ok (token, ttl) →
  jwt_decode later token (cfg_jwt_secret settings) (cfg_jwt_algorithm settings)
  = inr (access_payload user_id email epoch su orgs now jti) →
  0 ≤ now → 0 ≤ access_ttl → now + access_ttl < 2 ^ 52 →
  decode_access_token later token
  = Ok (mkClaims (VStr user_id) (VStr email) epoch su (map (λ o, (o.1, VStr o.2)) orgs)
          ((now + access_ttl) / 1000000 * 1000000)) ∧
  ttl * 1000000 = access_ttl.
Proof.
  unfold create_access_token, decode_access_token, jwt_secret.
  destruct (cfg_jwt_secret settings) as [|c secret]; [done|].
  intros [= _ <-] Hjwt Hnow Httl Hend. unfold mbind, res_bind. rewrite Hjwt.
  split; [|unfold access_ttl; ring].
  assert (Hexp : int_timestamp (now + access_ttl) = (now + access_ttl) / 1000000) by (apply int_timestamp_seconds; lia).
  assert (Hcal : in_calendar ((now + access_ttl) / 1000000) = true).
  { unfold in_calendar. apply andb_true_intro. split; apply Z.leb_le.
    - etrans; [|apply Z.div_pos; lia]. lia.
    - apply Z.lt_le_incl, Z.div_lt_upper_bound; lia. }
  unfold access_payload. rewrite Hexp. unfold dict_get, get_default. cbn [assoc].
  repeat first [rewrite decide_False by discriminate|rewrite decide_True by reflexivity].
  destruct orgs as [|o orgs]; cbn -[Z.mul Z.div]; by rewrite Hcal.
Qed.
End security.
