(* ===== verification/Api.v ===== *)
(** * Requests and their dependencies (src/api/deps.py, the error handlers of src/api/main.py)

    One HTTP request: a session on the tables, calls to Redis, the refresh cookie
    of the response.  What every route asks first, who calls and with which role,
    is here; the routers build on it.  FastAPI resolves the dependencies of the
    router before those of the route, so the rate limit comes before the role. *)

From S2P Require Import Prelude PyStr PyFloat PyVal Config State Events World Workflow Database.
From S2P Require Import Security RateLimit.

(** ** What a request works on *)

(** A job in the queue: its argument, its id and the delay. *)
Record Job := mkJob { jb_run_id : pystr; jb_job_id : pystr; jb_defer_by : Z }.

(** What Redis holds; it is no part of a transaction. *)
Record Redis := mkRedis {
  rd_windows : pystr → Window; rd_slots : pystr → option Z; rd_bus : pystr → Bus; rd_jobs : list Job }.

Inductive Cookie := CookieKept | CookieSet (token : pystr) | CookieDeleted.

Record ApiWorld := mkApi { ap_session : Session; ap_redis : Redis; ap_cookie : Cookie; ap_tick : nat }.

Record Server := mkServer { sv_db : Db; sv_redis : Redis }.

(** The parts of a request the handlers look at *)
Record Request := mkRequest {
  rq_bearer : option pystr; rq_forwarded_for : option pystr; rq_client_host : option pystr;
  rq_user_agent : option pystr; rq_cookie : option pystr; rq_json : option pyval }.

Class ApiEnv := {
  api_tables :: PyTables;
  api_vault :: Vault;
  api_db :: DbEnv;
  api_settings : Settings;
  api_redis_fault : nat → option exn;      (* does the n-th call to Redis fail? *)
  api_time : nat → Z;                      (* [time.time()], float units *)
  api_expired : nat → bool;                (* has Redis dropped the key by now? *)
  api_secret : nat → pystr }.              (* the random strings *)

Definition put_session s w := mkApi s (ap_redis w) (ap_cookie w) (ap_tick w).
Definition put_redis r w := mkApi (ap_session w) r (ap_cookie w) (ap_tick w).
Definition put_cookie c w := mkApi (ap_session w) (ap_redis w) c (ap_tick w).
Definition next_tick w := mkApi (ap_session w) (ap_redis w) (ap_cookie w) (S (ap_tick w)).

Definition set_key {A} (k : pystr) (x : A) (f : pystr → A) : pystr → A :=
  λ k', if bool_decide (k' = k) then x else f k'.

Definition set_windows f r := mkRedis f (rd_slots r) (rd_bus r) (rd_jobs r).
Definition set_slots f r := mkRedis (rd_windows r) f (rd_bus r) (rd_jobs r).
Definition set_buses f r := mkRedis (rd_windows r) (rd_slots r) f (rd_jobs r).
Definition set_jobs l r := mkRedis (rd_windows r) (rd_slots r) (rd_bus r) l.

(** ** Rows the dependencies read *)

Definition find_user (id : pystr) (d : Db) : option User :=
  List.find (λ x, bool_decide (us_id x = id)) (db_users d).
Definition find_membership (org_id user_id : pystr) (d : Db) : option Membership :=
  List.find (λ m, bool_decide (ms_org_id m = org_id) && bool_decide (ms_user_id m = user_id)) (db_memberships d).

Definition ROLE_ORDER : list (pystr * Z) :=
  [(u "viewer", 0); (u "member", 1); (u "admin", 2); (u "owner", 3)].

Record OrgContext := mkContext { oc_org : Org; oc_user : User; oc_role : pystr }.
Definition oc_org_id (c : OrgContext) : pystr := og_id (oc_org c).

(** [OrgContext.can], for the four names it is asked about *)
Definition can (minimum : pystr) (c : OrgContext) : bool :=
  default 0 (assoc minimum ROLE_ORDER) <=? default (-1) (assoc (oc_role c) ROLE_ORDER).

Definition nonempty (o : option pystr) : option pystr :=
  match o with Some (_ :: _) => o | _ => None end.

Section api.
Context `{ApiEnv}.
Abbreviation Api A := (M ApiWorld exn A).

Definition on_sql {A} (m : M Session exn A) : Api A := λ w,
  let '(r, s) := m (ap_session w) in (r, put_session s w).

(** One call to Redis: its index, or the failure. *)
Definition redis_call : Api nat := λ w,
  match api_redis_fault (ap_tick w) with
  | Some e => (if statement_failure e then Err e else Ok (ap_tick w), next_tick w)
  | None => (Ok (ap_tick w), next_tick w)
  end.

Definition on_redis {A} (f : nat → Redis → A * Redis) : Api A :=
  n ← redis_call;
  r ← (λ w, (Ok (ap_redis w), w));
  let '(a, r') := f n r in
  _ ← modify (put_redis r');
  m_ret a.

(** [secrets.token_urlsafe], [uuid.uuid4] *)
Definition secret : Api pystr := λ w, (Ok (api_secret (ap_tick w)), next_tick w).

Definition http_error {A} (status : Z) (detail : pystr) : Api A := raise (HTTPException status detail).

(** [limiter.check(bucket, limit=..., window_seconds=...)] *)
Definition limiter_check (bucket : pystr) (limit window : Z) : Api RateLimitResult :=
  on_redis (λ n r,
    let key := u "rl:" ++ bucket in
    let now := api_time n in
    let '(result, zs) := check (api_expired n) limit window now (api_secret n) (rd_windows r key) in
    (result, set_windows (set_key key zs (rd_windows r)) r)).

Definition limiter_slots_in_use (bucket : pystr) : Api Z :=
  on_redis (λ n r, (slots_in_use (if api_expired n then None else rd_slots r (u "slots:" ++ bucket)), r)).

Definition client_ip (rq : Request) : option pystr :=
  match nonempty (rq_forwarded_for rq) with
  | Some forwarded => Some (slice_to 64 (strip (default [] (head (split (u ",") forwarded)))))
  | None => slice_to 64 <$> rq_client_host rq
  end.

(** ** Who is calling *)

Definition unauthorised {A} (detail : pystr) : Api A := http_error 401 detail.

Definition current_claims (rq : Request) : Api AccessTokenClaims :=
  match nonempty (rq_bearer rq) with
  | None => unauthorised (u "not authenticated")
  | Some token =>
      now ← on_sql now_utc;
      match decode_access_token api_settings now token with
      | Ok claims => m_ret claims
      | Err (AuthError detail) => unauthorised detail
      | Err e => raise e
      end
  end.

Definition current_user (claims : AccessTokenClaims) : Api User :=
  o ← on_sql (query (λ d, match ac_user_id claims with VStr id => find_user id d | _ => None end));
  match o with
  | None => unauthorised (u "account is inactive")
  | Some user =>
      if negb (us_is_active user) then unauthorised (u "account is inactive")
      else if negb (us_token_epoch user =? ac_token_epoch claims) then
        unauthorised (u "session is no longer valid, sign in again")
      else m_ret user
  end.

(** [UserDep] *)
Definition user_dep (rq : Request) : Api User := claims ← current_claims rq; current_user claims.

Definition current_org (org_id : pystr) (user : User) : Api OrgContext :=
  if (py_len org_id <? 1) || (36 <? py_len org_id) then http_error 422 (u "invalid organisation id")
  else
    membership ← on_sql (query (find_membership org_id (us_id user)));
    o ← on_sql (query (find_org org_id));
    match o with
    | None => http_error 404 (u "organisation not found")
    | Some org =>
        if negb (og_is_active org) then http_error 404 (u "organisation not found")
        else
          match membership with
          | None =>
              if us_is_superuser user then m_ret (mkContext org user (u "owner"))
              else http_error 404 (u "organisation not found")
          | Some m => m_ret (mkContext org user (ms_role m))
          end
    end.

Definition require_role (minimum : pystr) (c : OrgContext) : Api OrgContext :=
  if can minimum c then m_ret c
  else http_error 403 (u "this action requires the " ++ minimum ++ u " role or higher").

Definition require_superuser (user : User) : Api User :=
  if us_is_superuser user then m_ret user else http_error 403 (u "forbidden").

Definition enforce_api_rate_limit (user : User) : Api unit :=
  result ← limiter_check (u "api:" ++ us_id user) (cfg_rate_limit_api_per_minute api_settings) 60;
  if rl_allowed result then m_ret tt else http_error 429 (u "rate limit exceeded").

(** The routers of an organisation: the caller, the limit, the organisation and
    the role the route asks for, then the handler. *)
Definition org_route {A} (minimum : option pystr) (rq : Request) (org_id : pystr) (handler : OrgContext → Api A) : Api A :=
  user ← user_dep rq;
  _ ← enforce_api_rate_limit user;
  c ← current_org org_id user;
  c ← match minimum with Some role => require_role role c | None => m_ret c end;
  handler c.

(** ** The response *)

(** The status and the [detail] of the handlers in main.py; a cancelled request has none. *)
Definition error_response (e : exn) : option (Z * pystr) :=
  match e with
  | HTTPException status detail => Some (status, detail)
  | WorkflowConfigError _ | UnknownModelError _ => Some (422, exn_str e)
  | CryptoError _ => Some (500, u "could not process the stored credential")
  | _ => if is_exception e then Some (500, u "internal server error") else None
  end.

(** A request in its own session; what it did to Redis stays. *)
Definition serve {A} (handler : Api A) (sv : Server) : res exn A * Server * Cookie :=
  let '(r, w) := session_scope (λ m, on_sql m) handler
                   (mkApi (open_session (sv_db sv)) (sv_redis sv) CookieKept 0) in
  (r, mkServer (ss_committed (ap_session w)) (ap_redis w), ap_cookie w).
End api.
