(* ===== verification/ApiSafety.v ===== *)
(** * Framing for requests

    Relations between the sessions around a handler, and what a handler reads and
    writes.  [tracked RD] holds when whatever related the tables of the start to
    the committed and the working tables still does: if every write of a handler
    moves along the preorder [RD], so does the whole request, however it ends. *)

From S2P Require Import Prelude PyStr PyFloat PyVal Config State Events World Workflow Database.
From S2P Require Import Billing Security RateLimit Api.

(** ** Relations on sessions *)

(** [RS] holds between the sessions around every step but a commit, if every
    write satisfies [P]. *)
Class SessionFrame (RS : relation Session) (P : (Db → Db) → Prop) := {
  sf_preorder :: PreOrder RS;
  sf_status s b n : RS s (mkSession (ss_committed s) (ss_working s) b n);
  sf_rollback s : RS s (mkSession (ss_committed s) (ss_committed s) false (ss_clock s));
  sf_change f s : P f → RS s (set_working (f (ss_working s)) s) }.

Definition framed (RS : relation Session) : relation ApiWorld := λ w w', RS (ap_session w) (ap_session w').

#[export] Instance framed_preorder RS : PreOrder RS → PreOrder (framed RS).
Proof.
  intros HR. unfold framed. split; [by intros w|]. intros w1 w2 w3 H1 H2. etrans; [exact H1|exact H2].
Qed.

Section sessions.
Context `{DbEnv} {RS : relation Session} {P : (Db → Db) → Prop} `{!SessionFrame RS P}.

Lemma statement_framed : steps RS statement.
Proof.
  intros s. unfold statement. destruct (ss_broken s); [done|].
  destruct (db_fault _) as [e|]; [destruct (statement_failure e)|]; apply sf_status.
Qed.

Lemma query_framed {A} (f : Db → A) : steps RS (query f).
Proof.
  intros s. pose proof (statement_framed s) as Hs. unfold query. by destruct (statement s) as [[[]|e] s'].
Qed.

Lemma change_framed f : P f → steps RS (change f).
Proof. intros Hf s. by apply sf_change. Qed.

Lemma insert_against_framed theirs allowed add :
  P add →
  (∀ n s d, db_race n = true → theirs n (ss_committed s) = Some d → RS s (mkSession d (ss_working s) true (S (ss_clock s)))) →
  steps RS (insert_against theirs allowed add).
Proof.
  intros Hf Ht s. pose proof (statement_framed s) as Hs. unfold insert_against.
  destruct (statement s) as [[[]|e] s']; simpl in Hs; [|exact Hs].
  destruct (if db_race _ then _ else _) as [d|] eqn:Hr.
  { simpl. etrans; [exact Hs|]. by destruct (db_race (ss_clock s)) eqn:Hrace; [apply (Ht (ss_clock s))|]. }
  destruct (allowed _); simpl; (etrans; [exact Hs|]); [by apply sf_change|apply sf_status].
Qed.
Lemma insert_framed allowed add : P add → steps RS (insert allowed add).
Proof. intros Hf. apply insert_against_framed; [done|]. intros n s d _ [= <-]. apply sf_status. Qed.

Lemma rollback_framed : steps RS rollback.
Proof. intros s. apply sf_rollback. Qed.

Lemma now_framed : steps RS now_utc.
Proof. intros s. done. Qed.
Lemma uuid_framed : steps RS uuid.
Proof. intros s. done. Qed.
End sessions.

Section requests.
Context `{ApiEnv} {RS : relation Session} `{!PreOrder RS}.

Lemma on_sql_framed {A} (m : M Session exn A) : steps RS m → steps (framed RS) (on_sql m).
Proof.
  intros Hm w. specialize (Hm (ap_session w)). unfold on_sql, framed. by destruct (m (ap_session w)).
Qed.
Lemma redis_call_framed : steps (framed RS) redis_call.
Proof. intros w. unfold redis_call, framed. by destruct (api_redis_fault _). Qed.
Lemma on_redis_framed {A} (f : nat → Redis → A * Redis) : steps (framed RS) (on_redis f).
Proof.
  apply steps_bind; [tc_solve|apply redis_call_framed|]. intros n.
  apply steps_bind; [tc_solve|intros w; unfold framed; done|]. intros r. destruct (f n r) as [a r'].
  apply steps_bind; [tc_solve|intros w; unfold framed; done|]. intros []. apply steps_ret. tc_solve.
Qed.
Lemma secret_framed : steps (framed RS) secret.
Proof. intros w. unfold framed. done. Qed.
Lemma cookie_framed c : steps (E:=exn) (framed RS) (modify (put_cookie c)).
Proof. intros w. unfold framed. done. Qed.
End requests.

(** One step of a proof about the session around a handler. *)
Ltac framed_step :=
  lazymatch goal with
  | |- ∀ _, _ => intros
  | |- steps _ (mbind _ _) => apply steps_bind; [tc_solve| |]
  | |- steps _ (m_bind _ _) => apply steps_bind; [tc_solve| |]
  | |- steps _ (m_ret _) => apply steps_ret; tc_solve
  | |- steps _ (raise _) => apply steps_raise; tc_solve
  | |- steps _ (http_error _ _) => apply steps_raise; tc_solve
  | |- steps _ (unauthorised _) => apply steps_raise; tc_solve
  | |- steps _ (lift_res _) => apply steps_lift_res; tc_solve
  | |- steps _ (attempt _ _) => apply steps_attempt
  | |- steps _ (on_sql _) => apply on_sql_framed
  | |- steps _ (on_redis _) => apply on_redis_framed
  | |- steps _ (limiter_check _ _ _) => apply on_redis_framed
  | |- steps _ (limiter_slots_in_use _) => apply on_redis_framed
  | |- steps _ secret => apply secret_framed
  | |- steps _ (modify (put_cookie _)) => apply cookie_framed
  | |- steps _ statement => apply statement_framed
  | |- steps _ (query _) => apply query_framed
  | |- steps _ now_utc => apply now_framed
  | |- steps _ uuid => apply uuid_framed
  | |- steps _ rollback => apply rollback_framed
  | |- steps _ (change _) => apply change_framed
  | |- steps _ (insert _ _) => apply insert_framed
  | |- steps _ (match ?x with _ => _ end) => destruct x
  | |- steps _ (let _ := _ in _) => cbv zeta
  end.

(** The ledger may be written to by any request. *)
Section ledger.
Context `{DbEnv} {RS : relation Session} {P : (Db → Db) → Prop} `{!SessionFrame RS P}.
Context (Horg : ∀ id z, P (update_org id (set_credits z))) (Hledger : ∀ row, P (λ d, set_ledger (db_ledger d ++ [row]) d)).
(** What another transaction posts is committed. *)
Context (Hothers : ∀ n f s, db_race n = true → P f → RS s (mkSession (f (ss_committed s)) (ss_working s) (ss_broken s) (ss_clock s))).

Lemma rival_framed p v n s d :
  db_race n = true → rival_commits p v (ss_committed s) = Some d → RS s (mkSession d (ss_working s) true (S (ss_clock s))).
Proof.
  intros Hrace. unfold rival_commits. destruct (find_org _ _) as [org|]; [|done]. destruct (find_entry _ _ _); intros [= <-].
  - apply sf_status.
  - etrans; [apply (sf_status s true (S (ss_clock s)))|].
    set (q := rival_posting p v). set (after := og_credits_cents org + rv_amount_cents v).
    pose proof (Hothers n _ (mkSession (ss_committed s) (ss_working s) true (S (ss_clock s))) Hrace (Horg (po_org_id q) after)) as H1.
    pose proof (Hothers n _ (mkSession (update_org (po_org_id q) (set_credits after) (ss_committed s)) (ss_working s) true
 (S (ss_clock s))) Hrace (Hledger (row_of q (rv_id v) after))) as H2.
    etrans; [exact H1|exact H2].
Qed.

Lemma post_entry_framed n p : steps RS (post_entry n p).
Proof.
  induction n as [|n IH]; cbn [post_entry]; unfold locked_org, org_not_found;
    repeat first [exact IH|apply insert_against_framed; [|intros ? ? ? ?; by eapply rival_framed]|framed_step]; auto.
Qed.
Lemma grant_framed org_id amount kind description key created_by :
  steps RS (grant org_id amount kind description key created_by).
Proof. unfold grant. repeat first [apply post_entry_framed|framed_step]. Qed.
End ledger.

(** ** Requests that move along a relation on tables *)

Definition tracked (RD : relation Db) : relation Session := λ s s',
  ∀ d0, RD d0 (ss_committed s) → RD d0 (ss_working s) → RD d0 (ss_committed s') ∧ RD d0 (ss_working s').

#[export] Instance tracked_frame RD : PreOrder RD → SessionFrame (tracked RD) (λ f, ∀ d, RD d (f d)).
Proof.
  intros HR. split; try done.
  - split; [by intros s d0|]. intros s1 s2 s3 H1 H2 d0 Hc Hw. destruct (H1 d0 Hc Hw). by apply H2.
  - intros f s Hf d0 Hc Hw. split; [done|]. etrans; [exact Hw|apply Hf].
Qed.

Lemma commit_tracked `{DbEnv} RD `{!PreOrder RD} : steps (tracked RD) commit.
Proof.
  intros s. pose proof (statement_framed (RS:=tracked RD) s) as Hs. unfold commit.
  destruct (statement s) as [[[]|e] s']; simpl in Hs; [|exact Hs].
  intros d0 Hc Hw. destruct (Hs d0 Hc Hw). done.
Qed.

Ltac tracked_step :=
  lazymatch goal with
  | |- steps _ commit => apply commit_tracked; tc_solve
  | |- steps _ (on_sql commit) => apply on_sql_framed, commit_tracked; tc_solve
  | _ => framed_step
  end.

Section dependencies.
Context `{ApiEnv} {RS : relation Session} {P : (Db → Db) → Prop} `{!SessionFrame RS P}.

Lemma user_dep_framed rq : steps (framed RS) (user_dep rq).
Proof. unfold user_dep, current_claims, current_user. repeat framed_step. Qed.
Lemma current_org_framed org_id user : steps (framed RS) (current_org org_id user).
Proof. unfold current_org. repeat framed_step. Qed.
Lemma rate_limit_framed user : steps (framed RS) (enforce_api_rate_limit user).
Proof. unfold enforce_api_rate_limit. repeat framed_step. Qed.

Lemma org_route_framed {A} minimum rq org_id (handler : OrgContext → M ApiWorld exn A) :
  (∀ c, steps (framed RS) (handler c)) → steps (framed RS) (org_route minimum rq org_id handler).
Proof.
  intros Hh. unfold org_route, require_role.
  repeat lazymatch goal with
  | |- steps _ (user_dep _) => apply user_dep_framed
  | |- steps _ (current_org _ _) => apply current_org_framed
  | |- steps _ (enforce_api_rate_limit _) => apply rate_limit_framed
  | |- steps _ (handler _) => apply Hh
  | _ => framed_step
  end.
Qed.
End dependencies.

(** A request moves the tables along [RD], however it ends. *)
Lemma serve_tracked `{ApiEnv} (RD : relation Db) `{!PreOrder RD} {A} (handler : M ApiWorld exn A) sv r sv' ck :
  steps (framed (tracked RD)) handler → serve handler sv = (r, sv', ck) → RD (sv_db sv) (sv_db sv').
Proof.
  intros Hh. unfold serve, session_scope. set (w0 := mkApi _ _ _ _).
  assert (Hbody : steps (framed (tracked RD)) (a ← handler; _ ← on_sql commit; m_ret a))
    by repeat first [exact Hh|tracked_step].
  specialize (Hbody w0). unfold framed, tracked in Hbody.
  destruct (Hbody (sv_db sv)) as [Hc Hw]; [done|done|]. unfold mbind, M_bind in *.
  destruct (m_bind _ handler w0) as [[a|e] w1]; intros [= <- <- <-]; exact Hc.
Qed.

(** ** What a request reads and what it leaves *)

Definition tables (w : ApiWorld) : Db := ss_working (ap_session w).
Definition committed (w : ApiWorld) : Db := ss_committed (ap_session w).

Definition jobs (w : ApiWorld) : list Job := rd_jobs (ap_redis w).

(** Steps that leave the tables, the cookie and the queue alone. *)
Definition reads (w w' : ApiWorld) : Prop :=
  tables w' = tables w ∧ committed w' = committed w ∧ ap_cookie w' = ap_cookie w ∧ jobs w' = jobs w.
#[export] Instance reads_preorder : PreOrder reads.
Proof.
  unfold reads. split; [done|]. intros w1 w2 w3 (A & B & C & D) (A' & B' & C' & D'). split_and!; congruence.
Qed.

(** What a statement raises: never an answer of the program's own. *)
Definition db_error (e : exn) : Prop := statement_failure e = true ∨ e = PendingRollback ∨ e = IntegrityError.

Lemma db_error_http e status detail : db_error e → e ≠ HTTPException status detail.
Proof. intros He ->. destruct He as [He|[He|He]]; discriminate He. Qed.

Section reading.
Context `{ApiEnv}.

Lemma statement_error s e s' : statement s = (Err e, s') → db_error e.
Proof.
  unfold statement. destruct (ss_broken s); [intros [= <- _]; by right; left|].
  destruct (db_fault _) as [x|]; [destruct (statement_failure x) eqn:Hx|]; intros [=]; subst; by left.
Qed.

Lemma statement_reads : steps reads (on_sql statement).
Proof.
  intros w. unfold on_sql, statement. destruct (ss_broken _); [done|].
  destruct (db_fault _) as [e|]; [destruct (statement_failure e)|]; done.
Qed.
Lemma query_reads {A} (f : Db → A) : steps reads (on_sql (query f)).
Proof.
  intros w. pose proof (statement_reads w) as Hs. unfold on_sql, query in *.
  by destruct (statement (ap_session w)) as [[[]|e] s'].
Qed.
Lemma now_reads : steps reads (on_sql now_utc).
Proof. by intros w. Qed.
Lemma secret_reads : steps reads secret.
Proof. by intros w. Qed.
Lemma on_redis_reads {A} (f : nat → Redis → A * Redis) :
  (∀ n r, rd_jobs (f n r).2 = rd_jobs r) → steps reads (on_redis f).
Proof.
  intros Hf w. unfold on_redis, redis_call, mbind, M_bind, m_bind.
  destruct (api_redis_fault _) as [e|]; [destruct (statement_failure e)|]; cbn; [done|..];
    specialize (Hf (ap_tick w) (ap_redis w)); destruct (f _ _) as [a r']; by split_and!.
Qed.
Lemma limiter_check_reads bucket limit window : steps reads (limiter_check bucket limit window).
Proof. apply on_redis_reads. intros n r. cbv zeta. by destruct (check _ _ _ _ _ _). Qed.
Lemma slots_in_use_reads bucket : steps reads (limiter_slots_in_use bucket).
Proof. by apply on_redis_reads. Qed.
End reading.

Ltac reads_step :=
  match goal with
  | |- ∀ _, _ => intros
  | |- steps _ (mbind _ _) => apply steps_bind; [tc_solve| |]
  | |- steps _ (m_bind _ _) => apply steps_bind; [tc_solve| |]
  | |- steps _ (m_ret _) => apply steps_ret; tc_solve
  | |- steps _ (raise _) => apply steps_raise; tc_solve
  | |- steps _ (http_error _ _) => apply steps_raise; tc_solve
  | |- steps _ (unauthorised _) => apply steps_raise; tc_solve
  | |- steps _ (lift_res _) => apply steps_lift_res; tc_solve
  | |- steps _ (on_sql statement) => apply statement_reads
  | |- steps _ (on_sql (query _)) => apply query_reads
  | |- steps _ (on_sql now_utc) => apply now_reads
  | |- steps _ secret => apply secret_reads
  | |- steps _ (limiter_check _ _ _) => apply limiter_check_reads
  | |- steps _ (limiter_slots_in_use _) => apply slots_in_use_reads
  | |- steps _ (match ?x with _ => _ end) => destruct x
  end.

Section reads.
Context `{ApiEnv}.

Lemma user_dep_reads rq : steps reads (user_dep rq).
Proof. unfold user_dep, current_claims, current_user. repeat reads_step. Qed.
Lemma current_org_reads org_id user : steps reads (current_org org_id user).
Proof. unfold current_org. repeat reads_step. Qed.
Lemma rate_limit_reads user : steps reads (enforce_api_rate_limit user).
Proof. unfold enforce_api_rate_limit. repeat reads_step. Qed.

(** Go on after a step that only reads, in the world it left. *)
Lemma reads_bind {A B} (m : M ApiWorld exn A) (k : A → M ApiWorld exn B) Q (X : exn → ApiWorld → Prop) w :
  steps reads m → (∀ e w', reads w w' → X e w') →
  (∀ a w', reads w w' → wp (k a) Q X w') → wp (mbind k m) Q X w.
Proof.
  intros Hm HX Hk. apply wp_bind. specialize (Hm w). unfold wp at 1. destruct (m w) as [[a|e] w']; auto.
Qed.

Lemma any_bind {A B} (m : M ApiWorld exn A) (k : A → M ApiWorld exn B) Q (X : exn → ApiWorld → Prop) w :
  (∀ e w', X e w') → (∀ a w', wp (k a) Q X w') → wp (mbind k m) Q X w.
Proof. intros HX Hk. apply wp_bind. unfold wp at 1. by destruct (m w) as [[a|e] w']. Qed.

(** A query answers from the tables as they are. *)
Lemma query_bind {A B} (f : Db → A) (k : A → M ApiWorld exn B) Q (X : exn → ApiWorld → Prop) w :
  (∀ e w', db_error e → reads w w' → X e w') → (∀ w', reads w w' → wp (k (f (tables w))) Q X w') →
  wp (mbind k (on_sql (query f))) Q X w.
Proof.
  intros HX Hk. apply wp_bind. pose proof (statement_reads w) as Hs. unfold wp at 1. unfold on_sql, query in *.
  destruct (statement (ap_session w)) as [[[]|e] s'] eqn:Hst; [|by apply HX; [eapply statement_error|]].
  destruct Hs as (Ht & Hc & Hk'). simpl in *. unfold tables in Ht. simpl in Ht. rewrite Ht. by apply Hk.
Qed.

Lemma change_api_bind {B} (f : Db → Db) (k : unit → M ApiWorld exn B) Q (X : exn → ApiWorld → Prop) w :
  wp (k tt) Q X (put_session (set_working (f (tables w)) (ap_session w)) w) →
  wp (mbind k (on_sql (change f))) Q X w.
Proof. intros Hk. apply wp_bind. exact Hk. Qed.

(** An insert adds its row, which the unique constraint has let through. *)
Lemma insert_bind {B} (allowed : Db → bool) (add : Db → Db) (k : unit → M ApiWorld exn B) Q
    (X : exn → ApiWorld → Prop) w :
  (∀ e w', db_error e → reads w w' → X e w') →
  (∀ w', allowed (tables w) = true → tables w' = add (tables w) → committed w' = committed w →
     ap_cookie w' = ap_cookie w → wp (k tt) Q X w') →
  wp (mbind k (on_sql (insert allowed add))) Q X w.
Proof.
  intros HX Hk. apply wp_bind. pose proof (statement_reads w) as Hs. unfold wp at 1. unfold on_sql, insert, insert_against in *.
  destruct (statement (ap_session w)) as [[[]|e] s'] eqn:Hst; [|by apply HX; [eapply statement_error|]].
  destruct Hs as (Ht & Hc & Hk'). unfold tables, committed in Ht, Hc. simpl in Ht, Hc. rewrite Ht.
  destruct (db_race _); simpl; [by apply HX; [right; right|]|].
  destruct (allowed (ss_working (ap_session w))) eqn:Ha; simpl; [|by apply HX; [right; right|]].
  apply Hk; try done; unfold tables, committed; simpl; by rewrite ?Ht.
Qed.

Lemma statement_bind {B} (k : unit → M ApiWorld exn B) Q (X : exn → ApiWorld → Prop) w :
  (∀ e w', db_error e → reads w w' → X e w') → (∀ w', reads w w' → wp (k tt) Q X w') →
  wp (mbind k (on_sql statement)) Q X w.
Proof.
  intros HX Hk. apply wp_bind. pose proof (statement_reads w) as Hs. unfold wp at 1. unfold on_sql in *.
  destruct (statement (ap_session w)) as [[[]|e] s'] eqn:Hst; [by apply Hk|by apply HX; [eapply statement_error|]].
Qed.

Lemma commit_bind {B} (k : unit → M ApiWorld exn B) Q (X : exn → ApiWorld → Prop) w :
  (∀ e w', db_error e → reads w w' → X e w') →
  (∀ w', tables w' = tables w → committed w' = tables w → ap_cookie w' = ap_cookie w → wp (k tt) Q X w') →
  wp (mbind k (on_sql commit)) Q X w.
Proof.
  intros HX Hk. apply wp_bind. pose proof (statement_reads w) as Hs. unfold wp at 1. unfold on_sql, commit in *.
  destruct (statement (ap_session w)) as [[[]|e] s'] eqn:Hst; [|by apply HX; [eapply statement_error|]].
  destruct Hs as (Ht & Hc & Hk'). by apply Hk.
Qed.

Lemma now_bind {B} (k : Z → M ApiWorld exn B) Q (X : exn → ApiWorld → Prop) w :
  wp (k (db_now (ss_clock (ap_session w)))) Q X w → wp (mbind k (on_sql now_utc)) Q X w.
Proof. intros Hk. apply wp_bind. unfold wp at 1. cbn. by destruct w. Qed.

(** A request that answers has committed the tables its handler left. *)
Lemma serve_ok {A} (handler : M ApiWorld exn A) sv a sv' ck (Q : A → ApiWorld → Prop) :
  serve handler sv = (Ok a, sv', ck) →
  wp handler Q (λ _ _, True) (mkApi (open_session (sv_db sv)) (sv_redis sv) CookieKept 0) →
  ∃ w, Q a w ∧ sv_db sv' = tables w ∧ sv_redis sv' = ap_redis w ∧ ck = ap_cookie w.
Proof.
  unfold serve, session_scope. set (w0 := mkApi _ _ _ _). unfold mbind, M_bind, m_bind, wp.
  destruct (handler w0) as [[a'|e] w1]; [|done]. intros Heq HQ. exists w1.
  unfold on_sql, commit in Heq. destruct (statement (ap_session w1)) as [[[]|e] s'] eqn:Hs; [|discriminate Heq].
  injection Heq as -> <- <-. split_and!; try done. simpl.
  pose proof (statement_reads w1) as Hr. unfold on_sql in Hr. rewrite Hs in Hr. apply Hr.
Qed.

(** A request that raises keeps what its handler had committed itself. *)
Lemma serve_err {A} (handler : M ApiWorld exn A) sv e sv' ck (X : exn → ApiWorld → Prop) :
  serve handler sv = (Err e, sv', ck) →
  wp handler (λ _ w, ∀ e' w', committed w' = committed w → X e' w') X
     (mkApi (open_session (sv_db sv)) (sv_redis sv) CookieKept 0) →
  ∃ w, X e w ∧ sv_db sv' = committed w.
Proof.
  unfold serve, session_scope. set (w0 := mkApi _ _ _ _). unfold mbind, M_bind, m_bind, wp.
  destruct (handler w0) as [[a'|e'] w1]; intros Heq HX.
  - unfold on_sql, commit in Heq. pose proof (statement_reads w1) as Hr. unfold on_sql in Hr.
    destruct (statement (ap_session w1)) as [[[]|e'] s'] eqn:Hs; [discriminate Heq|].
    injection Heq as -> <- <-. exists (put_session s' w1). split; [apply HX, Hr|done].
  - injection Heq as -> <- <-. by exists w1.
Qed.

Lemma current_user_reads claims : steps reads (current_user claims).
Proof. unfold current_user. repeat reads_step. Qed.

Lemma current_user_wp claims w :
  wp (current_user claims)
     (λ user w', reads w w' ∧ ∃ id, ac_user_id claims = VStr id ∧ find_user id (tables w) = Some user ∧
        us_is_active user = true ∧ us_token_epoch user = ac_token_epoch claims)
     (λ _ _, True) w.
Proof.
  unfold current_user. apply query_bind; [done|]. intros w' R.
  destruct (ac_user_id claims) as [| | | |id| |]; try done.
  destruct (find_user id (tables w)) as [user|] eqn:Hf; [|done].
  destruct (us_is_active user) eqn:Ha; [|done]. cbn [negb].
  destruct (Z.eqb_spec (us_token_epoch user) (ac_token_epoch claims)) as [He|]; [|done]. cbn [negb].
  apply wp_ret. split; [done|]. by exists id.
Qed.

(** The caller of a request, as the tables have it *)
Definition signed_in (rq : Request) (user : User) (d : Db) : Prop :=
  find_user (us_id user) d = Some user ∧ us_is_active user = true ∧
  ∃ now token claims, rq_bearer rq = Some token ∧ decode_access_token api_settings now token = Ok claims ∧
    ac_user_id claims = VStr (us_id user) ∧ ac_token_epoch claims = us_token_epoch user.

Lemma user_dep_bind {B} rq (k : User → M ApiWorld exn B) Q (X : exn → ApiWorld → Prop) w :
  (∀ e w', reads w w' → X e w') →
  (∀ user w', reads w w' → signed_in rq user (tables w) → wp (k user) Q X w') →
  wp (mbind k (user_dep rq)) Q X w.
Proof.
  intros HX Hk. apply wp_bind.
  assert (Hwp : wp (user_dep rq) (λ user w', reads w w' ∧ signed_in rq user (tables w)) (λ _ w', reads w w') w).
  { unfold user_dep, current_claims. destruct (rq_bearer rq) as [[|c token]|] eqn:Hb; try (by apply wp_bind, wp_raise).
    apply wp_bind, now_bind. set (now := db_now _).
    destruct (decode_access_token api_settings now (c :: token)) as [claims|e] eqn:Hd; [|by destruct e].
    unfold wp at 1. pose proof (current_user_wp claims w) as Hc. pose proof (current_user_reads claims w) as Hr.
    unfold wp in *. cbn. destruct (current_user claims w) as [[user|e] w2]; [|exact Hr].
    destruct Hc as (R & id & Hid & Hf & Ha & He). split; [done|].
    assert (us_id user = id) as Hid'.
    { unfold find_user in Hf. apply List.find_some in Hf as [_ Hx]. by apply bool_decide_eq_true in Hx. }
    rewrite <- Hid' in *. split_and!; try done. by exists now, (c :: token), claims. }
  eapply wp_mono; [exact Hwp| |]; [intros user w' [R S]; by apply Hk|done].
Qed.


(** The context a route of an organisation runs its handler in *)
Record authorised (minimum : option pystr) (rq : Request) (org_id : pystr) (c : OrgContext) (d : Db) : Prop := {
  au_user : signed_in rq (oc_user c) d;
  au_org : find_org org_id d = Some (oc_org c);
  au_active : og_is_active (oc_org c) = true;
  au_role : (∃ m, find_membership org_id (us_id (oc_user c)) d = Some m ∧ oc_role c = ms_role m) ∨
            (find_membership org_id (us_id (oc_user c)) d = None ∧ us_is_superuser (oc_user c) = true ∧
             oc_role c = u "owner");
  au_can role : minimum = Some role → can role c = true }.

Lemma org_route_bind {A} minimum rq org_id (handler : OrgContext → M ApiWorld exn A) Q (X : exn → ApiWorld → Prop) w :
  (∀ e w', reads w w' → X e w') →
  (∀ c w', reads w w' → authorised minimum rq org_id c (tables w) → wp (handler c) Q X w') →
  wp (org_route minimum rq org_id handler) Q X w.
Proof.
  intros HX Hk. unfold org_route. apply user_dep_bind; [done|]. intros user w1 R1 Hu.
  apply reads_bind; [apply rate_limit_reads|intros; apply HX; by etrans|]. intros [] w2 R2.
  assert (R : reads w w2) by by etrans. destruct R as (T & C & K).
  assert (HX2 : ∀ e w', reads w2 w' → X e w') by (intros e w' R; apply HX; by etrans; [|exact R]).
  apply wp_bind. unfold current_org. destruct (_ || _); [by apply HX2|].
  apply query_bind; [intros; by apply HX2|]. intros w3 R3.
  apply query_bind; [intros; apply HX2; by etrans|]. intros w4 R4. assert (R : reads w2 w4) by by etrans.
  destruct R3 as (T3 & _). rewrite T3, T in *. clear R4.
  destruct (find_org org_id (tables w)) as [org|] eqn:Ho; [|by apply HX2].
  destruct (og_is_active org) eqn:Ha; [|by apply HX2]. cbn [negb].
  assert (Hend : ∀ c, oc_user c = user → oc_org c = org →
            ((∃ m, find_membership org_id (us_id user) (tables w) = Some m ∧ oc_role c = ms_role m) ∨
             (find_membership org_id (us_id user) (tables w) = None ∧ us_is_superuser user = true ∧ oc_role c = u "owner")) →
            wp (c ← match minimum with Some role => require_role role c | None => m_ret c end; handler c) Q X w4).
  { intros c Hcu Hco Hrole. apply wp_bind. subst user org.
    destruct minimum as [role|]; unfold require_role.
    - destruct (can role c) eqn:Hcan; [|by apply HX2]. apply wp_ret. apply Hk; [by etrans; [|exact R]|].
      split; try done. by intros role' [= <-].
    - apply wp_ret. apply Hk; [by etrans; [|exact R]|]. by split. }
  destruct (find_membership org_id (us_id user) (tables w)) as [m|] eqn:Hm.
  - apply wp_ret. apply Hend; try done. left. by exists m.
  - destruct (us_is_superuser user) eqn:Hs; [|by apply HX2]. apply wp_ret. apply Hend; try done. by right.
Qed.
End reads.

(** ** Answered requests to an organisation *)

Section routes.
Context `{ApiEnv}.

Lemma route_org {A} minimum rq org (handler : OrgContext → M ApiWorld exn A) sv a sv' ck
    (P : A → Server → Prop) :
  serve (org_route minimum rq org handler) sv = (Ok a, sv', ck) →
  (∀ c w, authorised minimum rq org c (sv_db sv) → oc_org_id c = org → tables w = sv_db sv →
     wp (handler c) (λ a w', P a (mkServer (tables w') (ap_redis w'))) (λ _ _, True) w) →
  (∃ c, authorised minimum rq org c (sv_db sv)) ∧ P a sv'.
Proof.
  intros Heq Hh.
  destruct (serve_ok _ sv a sv' ck
              (λ a w, (∃ c, authorised minimum rq org c (sv_db sv)) ∧ P a (mkServer (tables w) (ap_redis w))) Heq)
    as (w & Hw & E1 & E2 & _); [|destruct sv'; simpl in *; by subst].
  apply org_route_bind; [done|]. intros c w (T & _) Ha. change (tables w = sv_db sv) in T.
  change (authorised minimum rq org c (sv_db sv)) in Ha.
  eapply wp_mono; [apply (Hh c w Ha)| |done]; [|done|].
  - pose proof (au_org _ _ _ _ _ Ha) as [_ Hid]%List.find_some. by apply bool_decide_eq_true in Hid.
  - intros a' w' HP. split; [by exists c|done].
Qed.

(** A handler that commits nothing itself changes nothing when it is refused. *)
Definition uncommitted (s s' : Session) : Prop := ss_committed s' = ss_committed s.
#[export] Instance uncommitted_frame : SessionFrame uncommitted (λ _, True).
Proof. split; [split|..]; unfold uncommitted; try done. intros s1 s2 s3. congruence. Qed.

Lemma serve_refused {A} (handler : M ApiWorld exn A) sv e sv' ck :
  steps (framed uncommitted) handler → serve handler sv = (Err e, sv', ck) → sv_db sv' = sv_db sv.
Proof.
  intros Hh Heq. destruct (serve_err _ _ _ _ _ (λ _ w, committed w = sv_db sv) Heq) as (w & Hw & Hd); [|congruence].
  pose proof (Hh (mkApi (open_session (sv_db sv)) (sv_redis sv) CookieKept 0)) as Hs. unfold wp.
  destruct (handler _) as [[a|e'] w']; [|exact Hs]. intros e2 w2 Hw. rewrite Hw. exact Hs.
Qed.
End routes.
