(* ===== verification/Auth.v ===== *)
(** * Accounts and sign-in (src/api/routers/auth.py)

    Registration, sign-in, the rotation of refresh tokens and the ways out of a
    session.  A refresh token is stored as its digest; the handlers find the row
    by it, so rows are told apart by their digests. *)

From S2P Require Import Prelude PyStr PyFloat PyVal Config State Registry Pricing Events World Workflow.
From S2P Require Import Database Auditing Billing Security RateLimit Api.

Record RegisterRequest := mkRegister {
  rr_email : pystr; rr_password : pystr; rr_name : option pystr; rr_org_name : pystr }.
Record LoginRequest := mkLogin { lr_email : pystr; lr_password : pystr }.
Record ChangePasswordRequest := mkChange { cp_current_password : pystr; cp_new_password : pystr }.
Record TokenPair := mkTokens { tp_access_token : pystr; tp_refresh_token : pystr; tp_expires_in : Z }.
Record OrgSummary := mkSummary {
  sm_id : pystr; sm_name : pystr; sm_slug : pystr; sm_role : pystr; sm_key_mode : pystr; sm_credits_cents : Z }.
Record MeResponse := mkMe {
  me_id : pystr; me_email : pystr; me_name : option pystr; me_is_superuser : bool; me_orgs : list OrgSummary }.

(** ** Rows *)

Definition user_allowed (row : User) (d : Db) : bool :=
  forallb (λ x, negb (bool_decide (us_email x = us_email row))) (db_users d).
Definition org_allowed (row : Org) (d : Db) : bool :=
  forallb (λ x, negb (bool_decide (og_slug x = og_slug row))) (db_orgs d).
Definition membership_allowed (row : Membership) (d : Db) : bool :=
  forallb (λ m, negb (bool_decide (ms_user_id m = ms_user_id row) && bool_decide (ms_org_id m = ms_org_id row)))
    (db_memberships d).
Definition token_allowed (row : RefreshToken) (d : Db) : bool :=
  forallb (λ t, negb (bool_decide (rt_token_hash t = rt_token_hash row))) (db_tokens d).

Definition find_email (email : pystr) (d : Db) : option User :=
  List.find (λ x, bool_decide (us_email x = email)) (db_users d).
Definition find_token (hash : pystr) (d : Db) : option RefreshToken :=
  List.find (λ t, bool_decide (rt_token_hash t = hash)) (db_tokens d).

Definition update_user (id : pystr) (f : User → User) (d : Db) : Db :=
  set_users (map (λ x, if bool_decide (us_id x = id) then f x else x) (db_users d)) d.
Definition update_tokens (P : RefreshToken → bool) (f : RefreshToken → RefreshToken) (d : Db) : Db :=
  set_tokens (map (λ t, if P t then f t else t) (db_tokens d)) d.

Definition bump_epoch (x : User) : User :=
  mkUser (us_id x) (us_email x) (us_password_hash x) (us_name x) (us_is_active x) (us_is_superuser x)
    (us_last_login_at x) (us_token_epoch x + 1).
Definition set_password (hash : pystr) (x : User) : User :=
  mkUser (us_id x) (us_email x) hash (us_name x) (us_is_active x) (us_is_superuser x)
    (us_last_login_at x) (us_token_epoch x).
Definition set_last_login (t : Z) (x : User) : User :=
  mkUser (us_id x) (us_email x) (us_password_hash x) (us_name x) (us_is_active x) (us_is_superuser x)
    (Some t) (us_token_epoch x).
Definition use_token (t : Z) (r : RefreshToken) : RefreshToken :=
  mkRefresh (rt_user_id r) (rt_token_hash r) (rt_family_id r) (rt_expires_at r) (Some t) (rt_revoked_at r)
    (rt_user_agent r) (rt_ip_address r).
(** [token.revoked_at = token.revoked_at or now] *)
Definition revoke_token (t : Z) (r : RefreshToken) : RefreshToken :=
  mkRefresh (rt_user_id r) (rt_token_hash r) (rt_family_id r) (rt_expires_at r) (rt_used_at r)
    (Some (default t (rt_revoked_at r))) (rt_user_agent r) (rt_ip_address r).

(** ** Names *)

Definition slug_char (c : N) : bool := (((97 <=? c) && (c <=? 122)) || ascii_digit c)%N.
(** [re.sub(r"[^a-z0-9]+", "-", s)] *)
Fixpoint dash_runs (in_run : bool) (s : pystr) : pystr :=
  match s with
  | [] => []
  | c :: s' =>
      if slug_char c then c :: dash_runs false s'
      else if in_run then dash_runs true s' else 45%N :: dash_runs true s'
  end.
Definition slugify `{PyTables} (name : pystr) : pystr :=
  slice_to 60 (match strip_chars (u "-") (dash_runs false (lower name)) with
               | [] => u "workspace"
               | slug => slug
               end).

Section auth.
Context `{ApiEnv}.
Abbreviation Api A := (M ApiWorld exn A).

Definition invalid_credentials {A} : Api A := http_error 401 (u "invalid email or password").

Definition audit_request (action : pystr) (rq : Request) (org_id actor target_type target_id ip : option pystr)
    (detail : list (pystr * pyval)) : Api unit :=
  on_sql (audit_record (audit_row action org_id actor target_type target_id ip (rq_user_agent rq) detail)).

Definition revoke_family (family_id : pystr) : Api unit :=
  now ← on_sql now_utc;
  _ ← on_sql statement;
  on_sql (change (update_tokens
    (λ t, bool_decide (rt_family_id t = family_id) && bool_decide (rt_revoked_at t = None)) (revoke_token now))).

(** [_issue_tokens] *)
Definition issue_tokens (user : User) (family_id : option pystr) (user_agent ip : option pystr) : Api TokenPair :=
  orgs ← on_sql (query (λ d, map (λ m, (ms_org_id m, ms_role m))
                               (List.filter (λ m, bool_decide (ms_user_id m = us_id user)) (db_memberships d))));
  now ← on_sql now_utc;
  jti ← secret;
  t ← lift_res (create_access_token api_settings (us_id user) (us_email user) (us_token_epoch user)
                  (us_is_superuser user) (assoc_of_list orgs) now jti);
  refresh ← secret;
  family ← match nonempty family_id with Some f => m_ret f | None => secret end;
  now ← on_sql now_utc;
  let row := mkRefresh (us_id user) (hash_refresh_token refresh) family (refresh_token_expiry api_settings now)
               None None (bounded_agent user_agent) ip in
  _ ← on_sql (insert (token_allowed row) (λ d, set_tokens (db_tokens d ++ [row]) d));
  m_ret (mkTokens t.1 refresh t.2).

Definition set_refresh_cookie (token : pystr) : Api unit := modify (put_cookie (CookieSet token)).
Definition delete_refresh_cookie : Api unit := modify (put_cookie CookieDeleted).

(** [client_ip(request) or "unknown"] *)
Definition ip_or_unknown (rq : Request) : pystr := default (u "unknown") (nonempty (client_ip rq)).

Definition check_bucket (bucket : pystr) (limit window : Z) (detail : pystr) : Api unit :=
  r ← limiter_check bucket limit window;
  if rl_allowed r then m_ret tt else http_error 429 detail.

(** [hash_password], and the answer to a password the policy refuses *)
Definition hash_or_422 (password : pystr) : Api pystr :=
  salt ← secret;
  match hash_password api_settings salt password with
  | Ok hash => m_ret hash
  | Err (PasswordPolicyError detail) => http_error 422 detail
  | Err e => raise e
  end.

Definition new_org (id name slug : pystr) : Org := mkOrg id name slug (u "managed") 0 true.
Definition new_user (id email hash : pystr) (name : option pystr) : User :=
  mkUser id email hash name true false None 0.

Definition register (payload : RegisterRequest) (rq : Request) : Api TokenPair :=
  let ip := ip_or_unknown rq in
  _ ← check_bucket (u "register:" ++ ip) 5 3600 (u "too many registration attempts");
  let email := lower (rr_email payload) in
  hash ← hash_or_422 (rr_password payload);
  suffix ← secret;
  user_id ← secret;
  org_id ← secret;
  let user := new_user user_id email hash (rr_name payload) in
  let org := new_org org_id (rr_org_name payload)
               (slugify (rr_org_name payload) ++ u "-" ++ slice_to 6 suffix) in
  r ← attempt is_integrity
        (on_sql (insert (λ d, user_allowed user d && org_allowed org d)
                   (λ d, set_orgs (db_orgs d ++ [org]) (set_users (db_users d ++ [user]) d))));
  match r with
  | inl _ => _ ← on_sql rollback; http_error 409 (u "that email is already registered")
  | inr _ =>
      let row := mkMembership user_id org_id (u "owner") in
      _ ← on_sql (insert (membership_allowed row) (λ d, set_memberships (db_memberships d ++ [row]) d));
      _ ← (if 0 <? cfg_signup_bonus_cents api_settings then
             _ ← on_sql (grant org_id (cfg_signup_bonus_cents api_settings) (u "bonus") (u "signup bonus")
                           (Some (u "signup:" ++ org_id)) None);
             m_ret tt
           else m_ret tt);
      _ ← audit_request (u "user.registered") rq (Some org_id) (Some user_id) (Some (u "user")) (Some user_id)
            (Some ip) [];
      tokens ← issue_tokens user None (rq_user_agent rq) (Some ip);
      _ ← set_refresh_cookie (tp_refresh_token tokens);
      m_ret tokens
  end.

Definition login (payload : LoginRequest) (rq : Request) : Api TokenPair :=
  let ip := ip_or_unknown rq in
  let email := lower (lr_email payload) in
  let refusal := u "too many sign-in attempts, try again later" in
  _ ← check_bucket (u "login:" ++ email) 10 900 refusal;
  _ ← check_bucket (u "login-ip:" ++ ip) 30 900 refusal;
  o ← on_sql (query (find_email email));
  let failed (actor : option pystr) : Api TokenPair :=
    _ ← audit_request (u "user.login_failed") rq None actor None None (Some ip) [(u "email", VStr email)];
    invalid_credentials in
  match o with
  | None => failed None
  | Some user =>
      if negb (verify_password (lr_password payload) (us_password_hash user)) then failed (Some (us_id user))
      else if negb (us_is_active user) then http_error 403 (u "account disabled")
      else
        _ ← (if needs_password_rehash (us_password_hash user) then
               salt ← secret;
               hash ← lift_res (hash_password api_settings salt (lr_password payload));
               on_sql (change (update_user (us_id user) (set_password hash)))
             else m_ret tt);
        now ← on_sql now_utc;
        _ ← on_sql (change (update_user (us_id user) (set_last_login now)));
        _ ← audit_request (u "user.login") rq None (Some (us_id user)) None None (Some ip) [];
        tokens ← issue_tokens user None (rq_user_agent rq) (Some ip);
        _ ← set_refresh_cookie (tp_refresh_token tokens);
        m_ret tokens
  end.

(** [(body or {}).get("refresh_token") or cookie], where the body may be any JSON *)
Definition presented_token (rq : Request) : res exn pyval :=
  let cookie := match rq_cookie rq with Some c => VStr c | None => VNone end in
  match py_or (default VNone (rq_json rq)) (VDict []) with
  | VDict body => Ok (py_or (dict_get body (u "refresh_token")) cookie)
  | _ => Err (AttributeError (u "object has no attribute 'get'"))
  end.

(** [hash_refresh_token(raw)]: only a string can be encoded *)
Definition hash_presented (raw : pyval) : res exn pystr :=
  match raw with
  | VStr s => if encodable s then Ok (hash_refresh_token s) else Err UnicodeEncodeError
  | _ => Err (AttributeError (u "object has no attribute 'encode'"))
  end.

Definition refresh (rq : Request) : Api TokenPair :=
  raw ← lift_res (presented_token rq);
  if negb (truthy raw) then http_error 401 (u "refresh token missing")
  else
    hash ← lift_res (hash_presented raw);
    o ← on_sql (query (find_token hash));
    match o with
    | None => http_error 401 (u "invalid refresh token")
    | Some stored =>
        now ← on_sql now_utc;
        if bool_decide (rt_used_at stored ≠ None) || bool_decide (rt_revoked_at stored ≠ None) then
          _ ← revoke_family (rt_family_id stored);
          _ ← audit_request (u "token.refresh_reuse_detected") rq None (Some (rt_user_id stored)) None None
                (client_ip rq) [(u "family_id", VStr (rt_family_id stored))];
          _ ← on_sql commit;
          http_error 401 (u "refresh token reuse detected, sign in again")
        else if rt_expires_at stored <? now then http_error 401 (u "refresh token expired")
        else
          user ← on_sql (query (find_user (rt_user_id stored)));
          match user with
          | None => http_error 401 (u "account is inactive")
          | Some user =>
              if negb (us_is_active user) then http_error 401 (u "account is inactive")
              else
                _ ← on_sql (change (update_tokens (λ t, bool_decide (rt_token_hash t = hash)) (use_token now)));
                tokens ← issue_tokens user (Some (rt_family_id stored)) (rq_user_agent rq) (client_ip rq);
                _ ← set_refresh_cookie (tp_refresh_token tokens);
                m_ret tokens
          end
    end.

Definition logout (rq : Request) : Api unit :=
  _ ← match nonempty (rq_cookie rq) with
      | Some raw =>
          hash ← lift_res (hash_presented (VStr raw));
          o ← on_sql (query (find_token hash));
          match o with
          | Some stored => revoke_family (rt_family_id stored)
          | None => m_ret tt
          end
      | None => m_ret tt
      end;
  delete_refresh_cookie.

(** Every refresh token of the user *)
Definition revoke_user (user_id : pystr) : Api unit :=
  now ← on_sql now_utc;
  _ ← on_sql statement;
  on_sql (change (update_tokens (λ t, bool_decide (rt_user_id t = user_id)) (revoke_token now))).

Definition logout_everywhere (rq : Request) : Api unit :=
  user ← user_dep rq;
  _ ← on_sql (change (update_user (us_id user) bump_epoch));
  _ ← revoke_user (us_id user);
  _ ← on_sql (audit_record (audit_row (u "user.logout") None (Some (us_id user)) None None None None
                              [(u "scope", VStr (u "all"))]));
  delete_refresh_cookie.

Definition change_password (payload : ChangePasswordRequest) (rq : Request) : Api unit :=
  user ← user_dep rq;
  if negb (verify_password (cp_current_password payload) (us_password_hash user)) then
    http_error 403 (u "current password is incorrect")
  else
    hash ← hash_or_422 (cp_new_password payload);
    _ ← on_sql (change (update_user (us_id user) (set_password hash)));
    _ ← on_sql (change (update_user (us_id user) bump_epoch));
    _ ← revoke_user (us_id user);
    audit_request (u "user.password_changed") rq None (Some (us_id user)) None None (client_ip rq) [].

Definition me (rq : Request) : Api MeResponse :=
  user ← user_dep rq;
  orgs ← on_sql (query (λ d,
    omap (λ m, if bool_decide (ms_user_id m = us_id user) then
                 (λ o, mkSummary (og_id o) (og_name o) (og_slug o) (ms_role m) (og_key_mode o) (og_credits_cents o))
                   <$> find_org (ms_org_id m) d
               else None) (db_memberships d)));
  m_ret (mkMe (us_id user) (us_email user) (us_name user) (us_is_superuser user) orgs).
End auth.
