(* ===== verification/AuthSafety.v ===== *)
(** * Sessions of users over time

    Accounts only grow: token epochs go up, refresh tokens age and never come
    back.  On top of that, what a rotation does, what reuse does, and what holds
    over any history of requests. *)

From S2P Require Import Prelude PyStr PyFloat PyVal Config State Registry Pricing Events World Workflow.
From S2P Require Import Database Auditing Billing Security RateLimit Api ApiSafety Auth.

(** ** Accounts only grow *)

Definition ages (t t' : RefreshToken) : Prop :=
  rt_token_hash t' = rt_token_hash t ∧ rt_user_id t' = rt_user_id t ∧ rt_family_id t' = rt_family_id t ∧
  rt_expires_at t' = rt_expires_at t ∧ (is_Some (rt_used_at t) → is_Some (rt_used_at t')) ∧
  (is_Some (rt_revoked_at t) → is_Some (rt_revoked_at t')).

Record accounts_grow (d d' : Db) : Prop := {
  grow_users id x : find_user id d = Some x →
    ∃ x', find_user id d' = Some x' ∧ us_token_epoch x ≤ us_token_epoch x';
  grow_tokens h t : find_token h d = Some t → ∃ t', find_token h d' = Some t' ∧ ages t t' }.

#[export] Instance ages_preorder : PreOrder ages.
Proof.
  split; [done|]. intros t1 t2 t3 (A1 & A2 & A3 & A4 & A5 & A6) (B1 & B2 & B3 & B4 & B5 & B6).
  unfold ages. split_and!; [congruence..| |]; auto.
Qed.

#[export] Instance accounts_grow_preorder : PreOrder accounts_grow.
Proof.
  split.
  - intros d. split; [intros id x Hx; by exists x|]. intros h t Ht. by exists t.
  - intros d1 d2 d3 [U1 T1] [U2 T2]. split.
    + intros id x Hx. destruct (U1 _ _ Hx) as (x2 & H2 & L2). destruct (U2 _ _ H2) as (x3 & H3 & L3).
      exists x3. split; [done|lia].
    + intros h t Ht. destruct (T1 _ _ Ht) as (t2 & H2 & A2). destruct (T2 _ _ H2) as (t3 & H3 & A3).
      exists t3. split; [done|]. by etrans.
Qed.

Lemma grows_same d d' : db_users d' = db_users d → db_tokens d' = db_tokens d → accounts_grow d d'.
Proof.
  intros Hu Ht. split; unfold find_user, find_token; rewrite ?Hu, ?Ht; [intros id x E; by exists x|].
  intros h t E. by exists t.
Qed.

(** Rows found by their key, in a list that is updated or extended *)
Lemma find_map {A} (key : A → pystr) (P : A → bool) (f : A → A) k l :
  (∀ x, key (f x) = key x) →
  List.find (λ x, bool_decide (key x = k)) (map (λ x, if P x then f x else x) l)
  = (λ x, if P x then f x else x) <$> List.find (λ x, bool_decide (key x = k)) l.
Proof.
  intros Hf. induction l as [|x l IH]; [done|]. cbn [map List.find].
  assert (Hk : key (if P x then f x else x) = key x) by (destruct (P x); [apply Hf|done]).
  rewrite Hk. by case_bool_decide.
Qed.
Lemma find_app_l {A} (P : A → bool) l k x : List.find P l = Some x → List.find P (l ++ k) = Some x.
Proof. induction l as [|y l IH]; [done|]. simpl. by destruct (P y). Qed.

Lemma update_user_grows id f d :
  (∀ x, us_id (f x) = us_id x ∧ us_token_epoch x ≤ us_token_epoch (f x)) → accounts_grow d (update_user id f d).
Proof.
  intros Hf. split.
  - intros id' x Hx. unfold find_user, update_user. cbn [set_users db_users].
    rewrite (find_map us_id) by apply Hf. unfold find_user in Hx. rewrite Hx. simpl. eexists. split; [done|].
    destruct (bool_decide _); [apply Hf|done].
  - intros h t Ht. by exists t.
Qed.

Lemma update_tokens_grows P f d : (∀ t, ages t (f t)) → accounts_grow d (update_tokens P f d).
Proof.
  intros Hf. split; [intros id x Hx; by exists x|]. intros h t Ht. unfold find_token, update_tokens. cbn [set_tokens db_tokens].
  rewrite (find_map rt_token_hash) by (intros x; apply Hf). unfold find_token in Ht. rewrite Ht. simpl.
  eexists. split; [done|]. destruct (P t); [apply Hf|done].
Qed.

Lemma add_token_grows row d : accounts_grow d (set_tokens (db_tokens d ++ [row]) d).
Proof.
  split; [intros id x Hx; by exists x|]. intros h t Ht. exists t. split; [by apply find_app_l|done].
Qed.

Lemma add_user_grows row d d' :
  db_users d' = db_users d ++ [row] → db_tokens d' = db_tokens d → accounts_grow d d'.
Proof.
  intros Hu Ht. split.
  - intros id x Hx. exists x. split; [|done]. unfold find_user. rewrite Hu. by apply find_app_l.
  - intros h t E. exists t. split; [|done]. unfold find_token. by rewrite Ht.
Qed.

Lemma use_ages t r : ages r (use_token t r).
Proof. unfold ages. simpl. by split_and!. Qed.
Lemma revoke_ages t r : ages r (revoke_token t r).
Proof. unfold ages. simpl. by split_and!. Qed.

Section handlers.
Context `{ApiEnv}.
Abbreviation grows := (framed (tracked accounts_grow)).

Lemma issue_tokens_grows user family_id user_agent ip : steps grows (issue_tokens user family_id user_agent ip).
Proof. unfold issue_tokens. repeat tracked_step. apply add_token_grows. Qed.

Lemma audit_request_grows action rq o a tt ti ip detail :
  steps grows (audit_request action rq o a tt ti ip detail).
Proof. unfold audit_request, audit_record. repeat tracked_step. by apply grows_same. Qed.

Lemma revoke_family_grows f : steps grows (revoke_family f).
Proof. unfold revoke_family. repeat tracked_step. apply update_tokens_grows. intros t. apply revoke_ages. Qed.
Lemma revoke_user_grows f : steps grows (revoke_user f).
Proof. unfold revoke_user. repeat tracked_step. apply update_tokens_grows. intros t. apply revoke_ages. Qed.

Ltac grows_step :=
  lazymatch goal with
  | |- steps _ (issue_tokens _ _ _ _) => apply issue_tokens_grows
  | |- steps _ (audit_request _ _ _ _ _ _ _ _) => apply audit_request_grows
  | |- steps _ (revoke_family _) => apply revoke_family_grows
  | |- steps _ (revoke_user _) => apply revoke_user_grows
  | |- steps _ (user_dep _) => apply user_dep_framed
  | |- steps _ (grant _ _ _ _ _ _) => apply grant_framed; [intros; by apply grows_same..|]; intros n f s _ Hf d0 Hc Hw; split; [etrans; [exact Hc|apply Hf]|exact Hw]
  | _ => tracked_step
  end.

Lemma register_grows payload rq : steps grows (register payload rq).
Proof.
  unfold register, check_bucket, hash_or_422, set_refresh_cookie. repeat grows_step; intros.
  - by eapply add_user_grows.
  - by apply grows_same.
Qed.
Lemma login_grows payload rq : steps grows (login payload rq).
Proof.
  unfold login, check_bucket, invalid_credentials, set_refresh_cookie. repeat grows_step;
    by apply update_user_grows.
Qed.
Lemma refresh_grows rq : steps grows (refresh rq).
Proof.
  unfold refresh, set_refresh_cookie. repeat grows_step. apply update_tokens_grows. intros t. apply use_ages.
Qed.
Lemma logout_grows rq : steps grows (logout rq).
Proof. unfold logout, delete_refresh_cookie. repeat grows_step. Qed.
Lemma logout_everywhere_grows rq : steps grows (logout_everywhere rq).
Proof.
  unfold logout_everywhere, delete_refresh_cookie, audit_record. repeat grows_step; intros.
  - apply update_user_grows. intros x. simpl. split; [done|lia].
  - by apply grows_same.
Qed.
Lemma change_password_grows payload rq : steps grows (change_password payload rq).
Proof.
  unfold change_password, hash_or_422. repeat grows_step; intros; apply update_user_grows; intros x; simpl;
    (split; [done|lia]).
Qed.
End handlers.

(** ** Rotation *)

Definition live (t : RefreshToken) : Prop := rt_used_at t = None ∧ rt_revoked_at t = None.

(** The row of a refresh token just issued. *)
Definition issued `{ApiEnv} (user : User) (tokens : TokenPair) (row : RefreshToken) : Prop :=
  rt_token_hash row = hash_refresh_token (tp_refresh_token tokens) ∧ rt_user_id row = us_id user ∧ live row ∧
  ∃ now, rt_expires_at row = refresh_token_expiry api_settings now.

Definition add_token (row : RefreshToken) (d : Db) : Db := set_tokens (db_tokens d ++ [row]) d.

(** Digests are unique, and a family has at most one live token. *)
Record tokens_ok (d : Db) : Prop := {
  to_hashes : NoDup (map rt_token_hash (db_tokens d));
  to_families t t' : t ∈ db_tokens d → t' ∈ db_tokens d → live t → live t' →
    rt_family_id t = rt_family_id t' → t = t' }.

Lemma token_allowed_fresh row d :
  token_allowed row d = true ↔ rt_token_hash row ∉ map rt_token_hash (db_tokens d).
Proof.
  unfold token_allowed. rewrite forallb_forall. split.
  - intros Hall Hin. apply list_elem_of_fmap in Hin as (t & Heq & Ht%list_elem_of_In).
    specialize (Hall t Ht). rewrite bool_decide_eq_true_2 in Hall; done.
  - intros Hn t Ht%list_elem_of_In. rewrite bool_decide_eq_false_2; [done|]. intros Heq. apply Hn.
    rewrite <- Heq. by apply list_elem_of_fmap_2.
Qed.

Lemma find_token_elem h d t : find_token h d = Some t → t ∈ db_tokens d ∧ rt_token_hash t = h.
Proof.
  intros [Hin Hh]%List.find_some. apply bool_decide_eq_true in Hh. by apply list_elem_of_In in Hin.
Qed.

Lemma tokens_ok_map f d :
  tokens_ok d → (∀ t, ages t (f t)) → tokens_ok (set_tokens (map f (db_tokens d)) d).
Proof.
  intros [Hn Hf] Ha. split; cbn [set_tokens db_tokens].
  - rewrite map_map. erewrite map_ext; [exact Hn|]. intros t. apply Ha.
  - assert (Hlive : ∀ t, live (f t) → live t ∧ rt_family_id (f t) = rt_family_id t).
    { intros t [Hu Hr]. destruct (Ha t) as (_ & _ & Hfam & _ & Hu' & Hr'). split; [|done]. split.
      - apply eq_None_not_Some. intros Hs. rewrite Hu in Hu'. by destruct (Hu' Hs).
      - apply eq_None_not_Some. intros Hs. rewrite Hr in Hr'. by destruct (Hr' Hs). }
    intros t t' (x & -> & Hx)%list_elem_of_fmap (x' & -> & Hx')%list_elem_of_fmap L L' E.
    destruct (Hlive x L) as [Lx Fx], (Hlive x' L') as [Lx' Fx']. f_equal. apply Hf; try done. congruence.
Qed.

Lemma tokens_ok_add row d :
  tokens_ok d → token_allowed row d = true →
  (∀ t, t ∈ db_tokens d → live t → rt_family_id t ≠ rt_family_id row) → tokens_ok (add_token row d).
Proof.
  intros [Hn Hf] Ha Hfam. apply token_allowed_fresh in Ha. split; cbn [add_token set_tokens db_tokens].
  - rewrite map_app. apply NoDup_app. split_and!; [done| |apply NoDup_singleton].
    intros h Hh ->%list_elem_of_singleton. done.
  - intros t t' [Ht| ->%list_elem_of_singleton]%elem_of_app [Ht'| ->%list_elem_of_singleton]%elem_of_app L L' E;
      [by apply Hf|by destruct (Hfam t Ht L)|by destruct (Hfam t' Ht' L')|done].
Qed.

Section rotation.
Context `{ApiEnv}.

(** What issuing tokens does, before going on. *)
Lemma issue_tokens_bind {B} user family ua ip (k : TokenPair → M ApiWorld exn B) Q (X : exn → ApiWorld → Prop) w :
  (∀ e w', reads w w' → X e w') →
  (∀ tokens row w', issued user tokens row → token_allowed row (tables w) = true →
     (∀ f, nonempty family = Some f → rt_family_id row = f) →
     (nonempty family = None → ∃ n, rt_family_id row = api_secret n) →
     tables w' = add_token row (tables w) → committed w' = committed w → ap_cookie w' = ap_cookie w →
     wp (k tokens) Q X w') →
  wp (mbind k (issue_tokens user family ua ip)) Q X w.
Proof.
  intros HX Hk. unfold issue_tokens. apply wp_bind.
  apply reads_bind; [apply query_reads|done|]. intros orgs w1 R1.
  apply reads_bind; [apply now_reads|intros; apply HX; by etrans|]. intros t w2 R2.
  apply reads_bind; [apply secret_reads|intros; apply HX; by do 2 (etrans; [done|])|]. intros jti w3 R3.
  apply reads_bind; [apply steps_lift_res; tc_solve|intros; apply HX; by do 3 (etrans; [done|])|].
  intros access w4 R4.
  apply reads_bind; [apply secret_reads|intros; apply HX; by do 4 (etrans; [done|])|]. intros token w5 R5.
  assert (Hfam : steps reads (match nonempty family with Some f => m_ret f | None => secret end))
    by (destruct (nonempty family); [apply steps_ret; tc_solve|apply secret_reads]).
  assert (Hr : reads w w5) by (by do 4 (etrans; [done|])). clear R1 R2 R3 R4 R5.
  apply wp_bind. pose proof (Hfam w5) as R6. unfold wp at 1.
  assert (Hval : ∀ f w6, match nonempty family with Some f => m_ret f | None => secret end w5 = (Ok f, w6) →
            (∀ g, nonempty family = Some g → f = g) ∧ (nonempty family = None → ∃ n, f = api_secret n)).
  { intros f w6. destruct (nonempty family) as [g|]; intros [= <- <-]; split; try done.
    - by intros ? [= <-].
    - intros _. by eexists. }
  destruct (match nonempty family with Some f => m_ret f | None => secret end w5) as [[f|e] w6].
  2: { apply HX. by etrans. }
  destruct (Hval f w6 eq_refl) as [V1 V2]. assert (Hr6 : reads w w6) by (by etrans).
  apply reads_bind; [apply now_reads|intros; apply HX; by etrans|]. intros now w7 R7.
  assert (Hr7 : reads w w7) by (by etrans). pose proof Hr7 as (T7 & C7 & K7 & _).
  apply insert_bind.
  - intros e w' _ R8. apply HX. etrans; [|exact R8]. done.
  - intros w8 Ha T8 C8 K8. apply wp_ret.
    eapply (Hk _ (mkRefresh (us_id user) (hash_refresh_token token) f (refresh_token_expiry api_settings now)
                    None None (bounded_agent ua) ip)); try done.
    + split_and!; try done. by exists now.
    + by rewrite T7 in Ha.
    + by rewrite T8, T7.
    + congruence.
    + congruence.
Qed.

(** The committed tables around a rotation *)
Definition rotated (user : User) (stored : RefreshToken) (tokens : TokenPair) (d d' : Db) : Prop :=
  ∃ now row, now ≤ rt_expires_at stored ∧ issued user tokens row ∧
    (rt_family_id row = rt_family_id stored ∨ rt_family_id stored = [] ∧ ∃ n, rt_family_id row = api_secret n) ∧
    let d1 := update_tokens (λ t, bool_decide (rt_token_hash t = rt_token_hash stored)) (use_token now) d in
    token_allowed row d1 = true ∧ d' = add_token row d1.

(** ** Reuse *)

Lemma revoke_family_bind {B} fam (k : unit → M ApiWorld exn B) Q (X : exn → ApiWorld → Prop) w :
  (∀ e w', db_error e → reads w w' → X e w') →
  (∀ now w', tables w' = update_tokens (λ t, bool_decide (rt_family_id t = fam) && bool_decide (rt_revoked_at t = None))
                           (revoke_token now) (tables w) →
     committed w' = committed w → ap_cookie w' = ap_cookie w → wp (k tt) Q X w') →
  wp (mbind k (revoke_family fam)) Q X w.
Proof.
  intros HX Hk. unfold revoke_family. apply wp_bind. apply now_bind.
  apply statement_bind; [done|]. intros w1 (T & C & K & _). unfold wp at 1. cbn.
  eapply Hk; [|done|done]. unfold tables in *. cbn. by rewrite T.
Qed.

(** When a row is found used or revoked, no refresh with it succeeds, and the
    answer that says so comes after the revocation is committed. *)
Definition reuse_detected : exn := HTTPException 401 (u "refresh token reuse detected, sign in again").

Definition family_revoked (fam : pystr) (d : Db) : Prop :=
  ∀ t, t ∈ db_tokens d → rt_family_id t = fam → is_Some (rt_revoked_at t).

Lemma family_revoked_after fam now d :
  family_revoked fam (update_tokens (λ t, bool_decide (rt_family_id t = fam) && bool_decide (rt_revoked_at t = None))
                        (revoke_token now) d).
Proof.
  intros t (x & -> & Hx)%list_elem_of_fmap. destruct (bool_decide (rt_family_id x = fam)) eqn:Hf; simpl.
  - destruct (bool_decide (rt_revoked_at x = None)) eqn:Hr; simpl; [by eexists|]. intros _.
    apply bool_decide_eq_false in Hr. by apply not_eq_None_Some.
  - intros E. by apply bool_decide_eq_false in Hf.
Qed.

Lemma reuse_wp rq raw stored w :
  presented_token rq = Ok (VStr raw) → raw ≠ [] → encodable raw = true →
  find_token (hash_refresh_token raw) (tables w) = Some stored → ¬ live stored → committed w = tables w →
  wp (refresh rq) (λ _ _, False)
     (λ e w', e = reuse_detected ∧ family_revoked (rt_family_id stored) (committed w') ∧
                (∃ row, db_audit (committed w') = db_audit (tables w) ++ [row] ∧
                        al_action row = u "token.refresh_reuse_detected") ∨
              e ≠ reuse_detected ∧ committed w' = tables w) w.
Proof.
  intros Hraw Hne Henc Hf Hlive Hc. unfold refresh. rewrite Hraw.
  apply wp_bind. unfold wp at 1. cbn [lift_res]. destruct raw as [|c raw]; [done|]. cbn [truthy negb].
  unfold hash_presented. rewrite Henc. apply wp_bind. unfold wp at 1. cbn [lift_res].
  assert (HX : ∀ e w', db_error e → committed w' = committed w → e ≠ reuse_detected ∧ committed w' = tables w).
  { intros e w' He E. split; [by apply db_error_http|congruence]. }
  apply query_bind; [intros e w' He R; right; apply HX; [done|apply R]|]. intros w1 (T1 & C1 & K1). rewrite Hf.
  apply now_bind.
  assert (Hs : bool_decide (rt_used_at stored ≠ None) || bool_decide (rt_revoked_at stored ≠ None) = true).
  { apply orb_true_iff. rewrite !bool_decide_eq_true. destruct (decide (rt_used_at stored = None)); [|by left].
    right. intros E. by destruct Hlive. }
  rewrite Hs. apply revoke_family_bind.
  { intros e w' He (_ & C & _). right. apply HX; [done|congruence]. }
  intros now w2 T2 C2 K2. unfold audit_request, audit_record. apply change_api_bind. apply commit_bind.
  { intros e w' He (_ & C & _). right. apply HX; [done|]. etrans; [exact C|]. etrans; [exact C2|exact C1]. }
  intros w3 T3 C3 K3. left. split; [done|].
  unfold tables at 1 in C3. cbn [put_session ap_session set_working ss_working] in C3.
  change (ss_working (ap_session w2)) with (tables w2) in C3. rewrite T2, T1 in C3. rewrite C3. split.
  - exact (family_revoked_after (rt_family_id stored) now (tables w)).
  - eexists. split; [done|]. done.
Qed.
End rotation.

(** ** Histories *)

(** Tokens only get older. *)
Definition aged (d d' : Db) : Prop := ∃ f, (∀ t, ages t (f t)) ∧ db_tokens d' = map f (db_tokens d).

#[export] Instance aged_preorder : PreOrder aged.
Proof.
  split.
  - intros d. exists id. split; [done|]. by rewrite map_id.
  - intros d1 d2 d3 (f & Hf & E1) (g & Hg & E2). exists (g ∘ f). split.
    + intros t. etrans; [apply Hf|apply Hg].
    + by rewrite E2, E1, map_map.
Qed.

Lemma aged_same d d' : db_tokens d' = db_tokens d → aged d d'.
Proof. intros E. exists id. split; [done|]. by rewrite map_id. Qed.
Lemma aged_trans_same d d1 d2 : aged d d1 → db_tokens d2 = db_tokens d1 → aged d d2.
Proof. intros (f & Hf & E) E2. exists f. by rewrite E2. Qed.
Lemma aged_update P f d : (∀ t, ages t (f t)) → aged d (update_tokens P f d).
Proof. intros Hf. exists (λ t, if P t then f t else t). split; [|done]. intros t. by destruct (P t). Qed.

(** What one request may do to the refresh tokens. *)
Inductive token_step (d d' : Db) : Prop :=
| tokens_aged : aged d d' → token_step d d'
| tokens_opened row :
    db_tokens d' = db_tokens d ++ [row] → token_allowed row d = true →
    (∀ t, t ∈ db_tokens d → rt_family_id t ≠ rt_family_id row) → token_step d d'
| tokens_rotated stored now row :
    stored ∈ db_tokens d → live stored →
    (rt_family_id row = rt_family_id stored ∨ ∀ t, t ∈ db_tokens d → rt_family_id t ≠ rt_family_id row) →
    let d1 := update_tokens (λ t, bool_decide (rt_token_hash t = rt_token_hash stored)) (use_token now) d in
    token_allowed row d1 = true → db_tokens d' = db_tokens d1 ++ [row] → token_step d d'.

(** The session of a request that has touched no token *)
Definition pending (s s' : Session) : Prop :=
  db_tokens (ss_working s) = db_tokens (ss_committed s) →
    db_tokens (ss_committed s') = db_tokens (ss_committed s) ∧
    db_tokens (ss_working s') = db_tokens (ss_committed s).
#[export] Instance pending_frame : SessionFrame pending (λ f, ∀ d, db_tokens (f d) = db_tokens d).
Proof.
  split; try done.
  - split; [by intros s|]. intros s1 s2 s3 H1 H2 Hw. destruct (H1 Hw) as [C1 W1].
    destruct H2 as [C2 W2]; [congruence|]. split; congruence.
  - intros f s Hf Hw. simpl. by rewrite Hf.
Qed.

Section histories.
Context `{ApiEnv}.

(** What a refresh leaves: on success the rotation, and otherwise at most older tokens. *)
Lemma refresh_wp rq w :
  committed w = tables w →
  wp (refresh rq)
     (λ tokens w', (∃ raw stored user, presented_token rq = Ok (VStr raw) ∧
        find_token (hash_refresh_token raw) (tables w) = Some stored ∧ live stored ∧
        find_user (rt_user_id stored) (tables w) = Some user ∧ us_is_active user = true ∧
        rotated user stored tokens (tables w) (tables w') ∧
        ap_cookie w' = CookieSet (tp_refresh_token tokens)) ∧ committed w' = committed w)
     (λ _ w', aged (committed w) (committed w')) w.
Proof.
  intros Hcw. assert (HX : ∀ w', committed w' = committed w → aged (committed w) (committed w')) by by intros w' ->.
  unfold refresh. destruct (presented_token rq) as [raw|e] eqn:Hraw; [|by apply HX].
  apply wp_bind. unfold wp at 1. cbn [lift_res]. destruct (truthy raw); [|by apply HX]. cbn [negb].
  destruct raw as [| | | |raw| |]; try by apply HX. unfold hash_presented. destruct (encodable raw); [|by apply HX].
  apply wp_bind. unfold wp at 1. cbn [lift_res].
  apply query_bind; [intros e w' _ (_ & C & _); by apply HX|]. intros w1 (T1 & C1 & K1).
  destruct (find_token (hash_refresh_token raw) (tables w)) as [stored|] eqn:Hf; [|by apply HX].
  apply now_bind. set (now := db_now _).
  destruct (bool_decide (rt_used_at stored ≠ None) || bool_decide (rt_revoked_at stored ≠ None)) eqn:Hspent.
  { apply revoke_family_bind; [intros e w' _ (_ & C & _); apply HX; congruence|].
    intros now2 w2 T2 C2 K2. unfold audit_request, audit_record. apply change_api_bind. apply commit_bind.
    { intros e w' _ (_ & C & _). apply HX. etrans; [exact C|]. by etrans. }
    intros w3 T3 C3 K3. change (aged (committed w) (committed w3)). rewrite C3.
    eapply aged_trans_same; [|unfold tables at 1; simpl; change (ss_working (ap_session w2)) with (tables w2); rewrite T2, T1; reflexivity].
    rewrite Hcw. apply aged_update. intros t. apply revoke_ages. }
  apply orb_false_iff in Hspent as [Hu%bool_decide_eq_false Hr%bool_decide_eq_false].
  apply dec_stable in Hu, Hr.
  destruct (Z.ltb_spec (rt_expires_at stored) now) as [|Hexp]; [by apply HX|].
  apply query_bind; [intros e w' _ (_ & C & _); apply HX; congruence|]. intros w3 (T3 & C3 & K3). rewrite T1.
  destruct (find_user (rt_user_id stored) (tables w)) as [user|] eqn:Huser; [|apply HX; congruence].
  destruct (us_is_active user) eqn:Hact; [|apply HX; congruence]. cbn [negb].
  apply change_api_bind. apply issue_tokens_bind.
  { intros e w' (_ & C & _). apply HX. etrans; [exact C|]. by etrans. }
  intros tokens row w4 Hi Ha Hfam Hnew T4 C4 K4. apply wp_bind. unfold wp at 1, set_refresh_cookie, modify.
  apply wp_ret. split; [|by etrans; [exact C4|etrans; [exact C3|]]].
  exists raw, stored, user. split_and!; try done.
  unfold tables in T4, Ha. simpl in T4, Ha. change (ss_working (ap_session w3)) with (tables w3) in T4, Ha.
  rewrite T3, T1 in T4, Ha. destruct (find_token_elem _ _ _ Hf) as [_ Hh].
  exists now, row. split_and!; try done.
  - destruct (rt_family_id stored) as [|c f]; [right; split; [done|by apply Hnew]|left; by apply Hfam].
  - rewrite Hh. by split.
Qed.

(** A handler that issues a token of a new family as its last write. *)
Definition opens {A} (m : M ApiWorld exn A) : Prop := ∀ w,
  db_tokens (tables w) = db_tokens (committed w) →
  wp m (λ _ w', ∃ row n, db_tokens (tables w') = db_tokens (committed w) ++ [row] ∧
                  token_allowed row (committed w) = true ∧ rt_family_id row = api_secret n ∧
                  db_tokens (committed w') = db_tokens (committed w))
    (λ _ w', db_tokens (committed w') = db_tokens (committed w)) w.

Lemma token_allowed_ext row d d' : db_tokens d' = db_tokens d → token_allowed row d' = token_allowed row d.
Proof. unfold token_allowed. by intros ->. Qed.

Lemma opens_bind {A B} (m : M ApiWorld exn A) (k : A → M ApiWorld exn B) :
  steps (framed pending) m → (∀ a, opens (k a)) → opens (mbind k m).
Proof.
  intros Hm Hk w Hw. apply wp_bind. destruct (Hm w Hw) as [Hc Ht].
  unfold wp at 1. destruct (m w) as [[a|e] w1]; cbn [fst snd] in *; [|exact Hc].
  change (db_tokens (committed w1) = db_tokens (committed w)) in Hc.
  change (db_tokens (tables w1) = db_tokens (committed w)) in Ht.
  eapply wp_mono; [apply (Hk a); congruence| |intros e w2; congruence].
  intros b w2 (row & n & E & Ha & Hf & Hc2). exists row, n. rewrite (token_allowed_ext _ _ _ Hc) in Ha.
  split_and!; congruence.
Qed.

Lemma opens_raise {A} (e : exn) : opens (A:=A) (raise e).
Proof. by intros w Hw. Qed.

Lemma opens_issue user user_agent ip :
  opens (tokens ← issue_tokens user None user_agent ip; _ ← set_refresh_cookie (tp_refresh_token tokens); m_ret tokens).
Proof.
  intros w Hw. apply issue_tokens_bind; [intros e w' (_ & Hc & _); congruence|].
  intros tokens row w' Hi Ha _ Hnew T C K. destruct (Hnew eq_refl) as [n Hn].
  apply wp_bind. unfold wp at 1, set_refresh_cookie, modify. apply wp_ret. exists row, n. split_and!; [|..|done|change (db_tokens (committed w') = db_tokens (committed w)); congruence].
  - change (tables (put_cookie _ w')) with (tables w'). rewrite T. simpl. by rewrite Hw.
  - by rewrite <- (token_allowed_ext row _ _ Hw).
Qed.

Lemma user_audit_pending action rq o a tt ti ip detail :
  steps (framed pending) (audit_request action rq o a tt ti ip detail).
Proof. unfold audit_request, audit_record. by repeat framed_step. Qed.

Ltac opens_step :=
  lazymatch goal with
  | |- opens (mbind _ (issue_tokens _ _ _ _)) => apply opens_issue
  | |- opens (mbind _ _) => apply opens_bind; intros
  | |- opens (raise _) => apply opens_raise
  | |- opens (http_error _ _) => apply opens_raise
  | |- opens invalid_credentials => apply opens_raise
  | |- opens (match ?x with _ => _ end) => destruct x
  | |- steps _ (audit_request _ _ _ _ _ _ _ _) => apply user_audit_pending
  | |- steps _ (grant _ _ _ _ _ _) => apply grant_framed; [by intros..|]; intros n f s _ Hf Hw; cbn; by rewrite Hf
  | _ => framed_step
  end.

Lemma login_opens payload rq : opens (login payload rq).
Proof. unfold login, check_bucket. cbv zeta. by repeat opens_step. Qed.
Lemma register_opens payload rq : opens (register payload rq).
Proof. unfold register, check_bucket, hash_or_422. cbv zeta. by repeat opens_step. Qed.

Abbreviation ages_tables := (framed (tracked aged)).

Lemma user_audit_aged action rq o a tt ti ip detail :
  steps ages_tables (audit_request action rq o a tt ti ip detail).
Proof. unfold audit_request, audit_record. repeat tracked_step. by apply aged_same. Qed.
Lemma revoke_family_aged f : steps ages_tables (revoke_family f).
Proof. unfold revoke_family. repeat tracked_step. apply aged_update. intros t. apply revoke_ages. Qed.
Lemma revoke_user_aged f : steps ages_tables (revoke_user f).
Proof. unfold revoke_user. repeat tracked_step. apply aged_update. intros t. apply revoke_ages. Qed.

Ltac aged_step :=
  lazymatch goal with
  | |- steps _ (audit_request _ _ _ _ _ _ _ _) => apply user_audit_aged
  | |- steps _ (revoke_family _) => apply revoke_family_aged
  | |- steps _ (revoke_user _) => apply revoke_user_aged
  | |- steps _ (user_dep _) => apply user_dep_framed
  | _ => tracked_step
  end.

Lemma logout_aged rq : steps ages_tables (logout rq).
Proof. unfold logout, delete_refresh_cookie. repeat aged_step. Qed.
Lemma logout_everywhere_aged rq : steps ages_tables (logout_everywhere rq).
Proof.
  unfold logout_everywhere, delete_refresh_cookie, audit_record. repeat aged_step; intros; by apply aged_same.
Qed.
Lemma change_password_aged payload rq : steps ages_tables (change_password payload rq).
Proof. unfold change_password, hash_or_422. repeat aged_step; intros; by apply aged_same. Qed.

(** A request that opens a session, in an environment whose random strings name
    no existing family *)
Definition fresh_families (d : Db) : Prop := ∀ n t, t ∈ db_tokens d → rt_family_id t ≠ api_secret n.

Lemma opens_step {A} (m : M ApiWorld exn A) sv r sv' ck :
  opens m → fresh_families (sv_db sv) → serve m sv = (r, sv', ck) → token_step (sv_db sv) (sv_db sv').
Proof.
  intros Hm Hfresh Heq. set (w0 := mkApi (open_session (sv_db sv)) (sv_redis sv) CookieKept 0).
  pose proof (Hm w0 eq_refl) as Hwp. destruct r as [a|e].
  - destruct (serve_ok _ _ _ _ _ _ Heq (wp_mono _ _ _ _ (λ _ _, True) _ Hwp (λ _ _ Hx, Hx) (λ _ _ _, I)))
      as (w & (row & n & T & Ha & Hf & _) & Hd & _). rewrite Hd.
    apply (tokens_opened _ _ row); [done|done|]. intros t Ht. rewrite Hf. by apply Hfresh.
  - destruct (serve_err _ _ _ _ _ (λ _ w, db_tokens (committed w) = db_tokens (sv_db sv)) Heq) as (w & Hw & Hd).
    + eapply wp_mono; [exact Hwp| |done]. intros a w' (row & n & _ & _ & _ & Hc) e' w2 Hc2. by rewrite Hc2, Hc.
    + apply tokens_aged, aged_same. by rewrite Hd, Hw.
Qed.

Lemma aging_step {A} (m : M ApiWorld exn A) sv r sv' ck :
  steps ages_tables m → serve m sv = (r, sv', ck) → token_step (sv_db sv) (sv_db sv').
Proof. intros Hm Heq. apply tokens_aged. exact (serve_tracked aged m sv r sv' ck Hm Heq). Qed.

Lemma refresh_step rq sv r sv' ck :
  fresh_families (sv_db sv) → serve (refresh rq) sv = (r, sv', ck) → token_step (sv_db sv) (sv_db sv').
Proof.
  intros Hfresh Heq. set (w0 := mkApi (open_session (sv_db sv)) (sv_redis sv) CookieKept 0).
  pose proof (refresh_wp rq w0 eq_refl) as Hwp. destruct r as [tokens|e].
  - destruct (serve_ok _ _ _ _ _ _ Heq (wp_mono _ _ _ _ (λ _ _, True) _ Hwp (λ _ _ Hx, Hx) (λ _ _ _, I)))
      as (w & [(raw & stored & user & _ & Hf & Hl & _ & _ & (now & row & _ & _ & Hfam & Ha & Hd') & _) _] & Hd & _).
    rewrite Hd, Hd'. destruct (find_token_elem _ _ _ Hf) as [Hin _].
    apply (tokens_rotated _ _ stored now row); try done. destruct Hfam as [Hfam|(_ & n & Hn)]; [by left|right].
    intros t Ht. rewrite Hn. by apply Hfresh.
  - destruct (serve_err _ _ _ _ _ (λ _ w, aged (sv_db sv) (committed w)) Heq) as (w & Hw & Hd).
    + eapply wp_mono; [exact Hwp| |done]. intros a w' [_ Hc] e' w2 Hc2. by rewrite Hc2, Hc.
    + apply tokens_aged. by rewrite Hd.
Qed.
End histories.

(** ** What a step keeps *)

Lemma rotate_ages (P : RefreshToken → bool) now t : ages t (if P t then use_token now t else t).
Proof. destruct (P t); [apply use_ages|done]. Qed.

Lemma token_step_ok d d' : tokens_ok d → token_step d d' → tokens_ok d'.
Proof.
  assert (Hext : ∀ d1 d2, db_tokens d2 = db_tokens d1 → tokens_ok d1 → tokens_ok d2).
  { intros d1 d2 E [A B]. split; by rewrite ?E. }
  intros Hok [(f & Hf & E)|row E Ha Hfam|stored now row Hin Hl Hfam d1 Ha E].
  - exact (Hext (set_tokens (map f (db_tokens d)) d) d' E (tokens_ok_map f d Hok Hf)).
  - exact (Hext (add_token row d) d' E (tokens_ok_add row d Hok Ha (λ t Ht _, Hfam t Ht))).
  - assert (Hok1 : tokens_ok d1) by (apply (tokens_ok_map _ d Hok); intros t; exact (rotate_ages (λ t, bool_decide (rt_token_hash t = rt_token_hash stored)) now t)).
    eapply Hext; [|apply (tokens_ok_add row d1 Hok1 Ha)]; [done|].
    intros t (x & -> & Hx)%list_elem_of_fmap Hlt Hft.
    assert (Hlx : live x ∧ rt_token_hash x ≠ rt_token_hash stored).
    { destruct (bool_decide (rt_token_hash x = rt_token_hash stored)) eqn:Hh; [by destruct Hlt|].
      by apply bool_decide_eq_false in Hh. }
    destruct Hlx as [Hlx Hne]. assert (Hfx : rt_family_id x = rt_family_id row).
    { rewrite <- Hft. by destruct (bool_decide _). }
    destruct Hfam as [Hfam|Hfam]; [|by apply (Hfam x)].
    apply Hne. f_equal. apply (to_families d Hok x stored Hx Hin Hlx Hl). congruence.
Qed.

(** A dead token stays dead. *)
Definition spent (h : pystr) (d : Db) : Prop := ∃ t, find_token h d = Some t ∧ ¬ live t.

Lemma ages_dead t t' : ages t t' → ¬ live t → ¬ live t'.
Proof.
  intros (_ & _ & _ & _ & Hu & Hr) Hl [U R]. apply Hl. split; apply eq_None_not_Some.
  - intros Hs. destruct (Hu Hs) as [x E]. congruence.
  - intros Hs. destruct (Hr Hs) as [x E]. congruence.
Qed.

Lemma spent_aged h d d' : aged d d' → spent h d → spent h d'.
Proof.
  intros (f & Hf & E) (t & Ht & Hd). exists (f t). split; [|exact (ages_dead t (f t) (Hf t) Hd)].
  unfold find_token in *. rewrite E. clear E. induction (db_tokens d) as [|x l IH]; [done|]. cbn [map List.find] in *.
  assert (Hx : rt_token_hash (f x) = rt_token_hash x) by apply Hf. rewrite Hx.
  case_bool_decide; [|by apply IH]. by injection Ht as ->.
Qed.
Lemma spent_app h row d d' : db_tokens d' = db_tokens d ++ [row] → spent h d → spent h d'.
Proof. intros E (t & Ht & Hd). exists t. split; [|done]. unfold find_token. rewrite E. by apply find_app_l. Qed.

Lemma token_step_spent h d d' : token_step d d' → spent h d → spent h d'.
Proof.
  intros [Ha|row E _ _|stored now row _ _ _ d1 _ E] Hs; [by eapply spent_aged|by eapply spent_app|].
  eapply spent_app; [exact E|]. eapply spent_aged; [|exact Hs]. apply aged_update. apply use_ages.
Qed.

Lemma aged_member fam d d' :
  aged d d' → (∃ t, t ∈ db_tokens d ∧ rt_family_id t = fam) → ∃ t, t ∈ db_tokens d' ∧ rt_family_id t = fam.
Proof.
  intros (f & Hf & E) (t & Hin & Hft). exists (f t). rewrite E. split; [by apply list_elem_of_fmap_2|].
  destruct (Hf t) as (_ & _ & F & _). congruence.
Qed.
Lemma token_step_member fam d d' :
  token_step d d' → (∃ t, t ∈ db_tokens d ∧ rt_family_id t = fam) → ∃ t, t ∈ db_tokens d' ∧ rt_family_id t = fam.
Proof.
  intros [Ha|row E _ _|st now row _ _ _ d1 _ E] Hex; [by eapply aged_member|..].
  - destruct Hex as (t & Hin & Hft). exists t. rewrite E, elem_of_app. auto.
  - apply (aged_member _ _ d1) in Hex; [|apply aged_update, use_ages]. destruct Hex as (t & Hin & Hft).
    exists t. rewrite E, elem_of_app. auto.
Qed.

(** A family whose tokens are all revoked stays so. *)
Lemma token_step_revoked fam d d' :
  (∃ t, t ∈ db_tokens d ∧ rt_family_id t = fam) → token_step d d' → family_revoked fam d → family_revoked fam d'.
Proof.
  assert (Haged : ∀ f (l : list RefreshToken), (∀ t, ages t (f t)) →
            (∀ t, t ∈ l → rt_family_id t = fam → is_Some (rt_revoked_at t)) →
            ∀ t, t ∈ map f l → rt_family_id t = fam → is_Some (rt_revoked_at t)).
  { intros f l Hf Hl t (x & -> & Hx)%list_elem_of_fmap Hfam. destruct (Hf x) as (_ & _ & F & _ & _ & R).
    apply R, Hl; [done|congruence]. }
  intros (t0 & Hin0 & Hf0) [(f & Hf & E)|row E _ Hfam|stored now row Hin Hl Hfam d1 _ E] Hr.
  - intros t. rewrite E. exact (Haged f (db_tokens d) Hf Hr t).
  - intros t. rewrite E, elem_of_app, list_elem_of_singleton. intros [Ht| ->]; [by apply Hr|].
    intros Hrow. destruct (Hfam t0 Hin0). congruence.
  - intros t. rewrite E, elem_of_app, list_elem_of_singleton. intros [Ht| ->].
    + revert t Ht. apply Haged; [intros t; exact (rotate_ages (λ t, bool_decide (rt_token_hash t = rt_token_hash stored)) now t)|done].
    + intros Hrow. destruct Hfam as [Hfam|Hfam]; [|destruct (Hfam t0 Hin0); congruence].
      assert (Hs : is_Some (rt_revoked_at stored)) by (apply Hr; [done|congruence]).
      destruct Hl as [_ Hn]. rewrite Hn in Hs. by destruct Hs.
Qed.


(** One request, answered in any environment and in any way.  The random strings
    of one that may open a session name no family there is; requests to other
    parts of the program leave users and tokens alone. *)
Inductive auth_step (sv sv' : Server) : Prop :=
| auth_register (E : ApiEnv) payload rq r ck :
    fresh_families (sv_db sv) → serve (register payload rq) sv = (r, sv', ck) → auth_step sv sv'
| auth_login (E : ApiEnv) payload rq r ck :
    fresh_families (sv_db sv) → serve (login payload rq) sv = (r, sv', ck) → auth_step sv sv'
| auth_refresh (E : ApiEnv) rq r ck :
    fresh_families (sv_db sv) → serve (refresh rq) sv = (r, sv', ck) → auth_step sv sv'
| auth_logout (E : ApiEnv) rq r ck : serve (logout rq) sv = (r, sv', ck) → auth_step sv sv'
| auth_logout_everywhere (E : ApiEnv) rq r ck :
    serve (logout_everywhere rq) sv = (r, sv', ck) → auth_step sv sv'
| auth_change_password (E : ApiEnv) payload rq r ck :
    serve (change_password payload rq) sv = (r, sv', ck) → auth_step sv sv'
| auth_elsewhere : db_users (sv_db sv') = db_users (sv_db sv) → db_tokens (sv_db sv') = db_tokens (sv_db sv) →
    auth_step sv sv'.

Lemma auth_step_tokens sv sv' : auth_step sv sv' → token_step (sv_db sv) (sv_db sv').
Proof.
  intros [E p rq r ck Hf Heq|E p rq r ck Hf Heq|E rq r ck Hf Heq|E rq r ck Heq|E rq r ck Heq|E p rq r ck Heq|_ Ht].
  - exact (opens_step _ _ _ _ _ (register_opens p rq) Hf Heq).
  - exact (opens_step _ _ _ _ _ (login_opens p rq) Hf Heq).
  - exact (refresh_step _ _ _ _ _ Hf Heq).
  - exact (aging_step _ _ _ _ _ (logout_aged rq) Heq).
  - exact (aging_step _ _ _ _ _ (logout_everywhere_aged rq) Heq).
  - exact (aging_step _ _ _ _ _ (change_password_aged p rq) Heq).
  - by apply tokens_aged, aged_same.
Qed.

Lemma auth_step_grows sv sv' : auth_step sv sv' → accounts_grow (sv_db sv) (sv_db sv').
Proof.
  intros [E p rq r ck _ Heq|E p rq r ck _ Heq|E rq r ck _ Heq|E rq r ck Heq|E rq r ck Heq|E p rq r ck Heq|Hu Ht].
  - exact (serve_tracked accounts_grow _ _ _ _ _ (register_grows p rq) Heq).
  - exact (serve_tracked accounts_grow _ _ _ _ _ (login_grows p rq) Heq).
  - exact (serve_tracked accounts_grow _ _ _ _ _ (refresh_grows rq) Heq).
  - exact (serve_tracked accounts_grow _ _ _ _ _ (logout_grows rq) Heq).
  - exact (serve_tracked accounts_grow _ _ _ _ _ (logout_everywhere_grows rq) Heq).
  - exact (serve_tracked accounts_grow _ _ _ _ _ (change_password_grows p rq) Heq).
  - by apply grows_same.
Qed.

Lemma history_keeps (I : Db → Prop) sv sv' :
  (∀ d d', token_step d d' → I d → I d') → rtc auth_step sv sv' → I (sv_db sv) → I (sv_db sv').
Proof.
  intros HI Hs. induction Hs as [sv|sv1 sv2 sv3 H1 _ IH]; [done|]. intros H. apply IH.
  eapply HI; [by apply auth_step_tokens|done].
Qed.

(** Whoever comes with a dead token is refused. *)
Definition presents `{ApiEnv} (rq : Request) (h : pystr) : Prop :=
  ∃ raw, presented_token rq = Ok (VStr raw) ∧ hash_refresh_token raw = h.

Lemma dead_token_refused `{ApiEnv} rq h sv r sv' ck :
  presents rq h → spent h (sv_db sv) → serve (refresh rq) sv = (r, sv', ck) → ∃ e, r = Err e.
Proof.
  intros (raw & Hraw & <-) (t & Ht & Hd) Heq. destruct r as [tokens|e]; [|by exists e]. exfalso.
  pose proof (refresh_wp rq (mkApi (open_session (sv_db sv)) (sv_redis sv) CookieKept 0) eq_refl) as Hwp.
  destruct (serve_ok _ _ _ _ _ _ Heq (wp_mono _ _ _ _ (λ _ _, True) _ Hwp (λ _ _ Hx, Hx) (λ _ _ _, I)))
    as (w & [(raw' & stored & user & Hraw' & Hf & Hl & _) _] & _).
  rewrite Hraw in Hraw'. injection Hraw' as <-. unfold tables in Hf. simpl in Hf. congruence.
Qed.

(** the tables of refresh tokens stay well formed: over any requests, answered or
    failed, no two tokens share a digest and no family has two live tokens, so a
    session has one successor at a time. *)
Theorem sessions_well_formed sv sv' :
  rtc auth_step sv sv' → tokens_ok (sv_db sv) → tokens_ok (sv_db sv').
Proof. apply history_keeps. intros d d' Hs Hok. by eapply token_step_ok. Qed.

(** a refresh rotates: when it answers, the presented token was known, unused, not
    revoked and not expired and its user active; it is now used, one live token of
    the same family and user has been added and set as the cookie, and nothing
    else in the tables has changed. *)
Theorem refresh_rotates `{ApiEnv} rq sv tokens sv' ck :
  serve (refresh rq) sv = (Ok tokens, sv', ck) →
  ∃ raw stored user, presented_token rq = Ok (VStr raw) ∧
    find_token (hash_refresh_token raw) (sv_db sv) = Some stored ∧ live stored ∧
    find_user (rt_user_id stored) (sv_db sv) = Some user ∧ us_is_active user = true ∧
    rotated user stored tokens (sv_db sv) (sv_db sv') ∧ ck = CookieSet (tp_refresh_token tokens).
Proof.
  intros Heq.
  pose proof (refresh_wp rq (mkApi (open_session (sv_db sv)) (sv_redis sv) CookieKept 0) eq_refl) as Hwp.
  destruct (serve_ok _ _ _ _ _ _ Heq (wp_mono _ _ _ _ (λ _ _, True) _ Hwp (λ _ _ Hx, Hx) (λ _ _ _, I)))
    as (w & [(raw & stored & user & A1 & A2 & A3 & A4 & A5 & A6 & A7) _] & Hd & _ & ->).
  exists raw, stored, user. rewrite Hd. by split_and!.
Qed.

Lemma rotated_spent `{ApiEnv} user stored tokens d d' :
  stored ∈ db_tokens d → find_token (rt_token_hash stored) d = Some stored →
  rotated user stored tokens d d' → spent (rt_token_hash stored) d'.
Proof.
  intros _ Hf (now & row & _ & _ & _ & _ & ->). eapply spent_app; [reflexivity|].
  exists (use_token now stored). split; [|by intros [Hu _]].
  unfold find_token, update_tokens. cbn [set_tokens db_tokens].
  rewrite (find_map rt_token_hash) by done. unfold find_token in Hf. rewrite Hf. simpl.
  by rewrite bool_decide_eq_true_2.
Qed.

(** C10: a refresh token works once: after it was exchanged, whatever requests follow, no
    request that presents it again is answered. *)
Theorem refresh_single_use `{E : ApiEnv} rq raw sv tokens sv1 ck sv2 (E' : ApiEnv) rq' r sv3 ck' :
  presented_token rq = Ok (VStr raw) → serve (refresh rq) sv = (Ok tokens, sv1, ck) → rtc auth_step sv1 sv2 →
  @presents E' rq' (hash_refresh_token raw) → @serve E' _ (@refresh E' rq') sv2 = (r, sv3, ck') →
  ∃ e, r = Err e.
Proof.
  intros Hraw Heq Hs Hp Heq'.
  pose proof (refresh_wp rq (mkApi (open_session (sv_db sv)) (sv_redis sv) CookieKept 0) eq_refl) as Hwp.
  destruct (serve_ok _ _ _ _ _ _ Heq (wp_mono _ _ _ _ (λ _ _, True) _ Hwp (λ _ _ Hx, Hx) (λ _ _ _, I)))
    as (w & [(raw' & stored & user & A1 & A2 & A3 & A4 & A5 & A6 & A7) _] & Hd & _ & _).
  rewrite Hraw in A1. injection A1 as <-. unfold tables in A2, A6. simpl in A2, A6.
  destruct (find_token_elem _ _ _ A2) as [Hin Hh].
  assert (Hsp : spent (hash_refresh_token raw) (sv_db sv1)).
  { rewrite Hd, <- Hh. eapply rotated_spent; [exact Hin|by rewrite Hh|exact A6]. }
  apply (history_keeps (spent (hash_refresh_token raw)) sv1 sv2) in Hsp; [|by intros; eapply token_step_spent|done].
  exact (dead_token_refused _ _ _ _ _ _ Hp Hsp Heq').
Qed.

(** C11: reuse kills the family: presenting a used or revoked token is refused, and when
    the answer is that reuse was detected, then every token of the family is
    revoked and an audit entry is written, although the request failed; and no
    token of the family, old or new, is ever accepted again. *)
Theorem reuse_revokes_family `{E : ApiEnv} rq raw stored sv r sv1 ck :
  presented_token rq = Ok (VStr raw) → raw ≠ [] → encodable raw = true →
  find_token (hash_refresh_token raw) (sv_db sv) = Some stored → ¬ live stored →
  serve (refresh rq) sv = (r, sv1, ck) →
  ∃ e, r = Err e ∧
    (e = reuse_detected →
       family_revoked (rt_family_id stored) (sv_db sv1) ∧
       (∃ row, db_audit (sv_db sv1) = db_audit (sv_db sv) ++ [row] ∧ al_action row = u "token.refresh_reuse_detected") ∧
       ∀ sv2 (E' : ApiEnv) rq' h t r' sv3 ck', rtc auth_step sv1 sv2 →
         find_token h (sv_db sv2) = Some t → rt_family_id t = rt_family_id stored → @presents E' rq' h →
         @serve E' _ (@refresh E' rq') sv2 = (r', sv3, ck') → ∃ e', r' = Err e').
Proof.
  intros Hraw Hne Henc Hf Hdead Heq. set (w0 := mkApi (open_session (sv_db sv)) (sv_redis sv) CookieKept 0).
  pose proof (reuse_wp rq raw stored w0 Hraw Hne Henc Hf Hdead eq_refl) as Hwp. destruct r as [tokens|e].
  { destruct (serve_ok _ _ _ _ _ _ Heq (wp_mono _ _ _ _ (λ _ _, True) _ Hwp (λ _ _ Hx, Hx) (λ _ _ _, I)))
      as (w & [] & _). }
  exists e. split; [done|]. intros ->.
  destruct (serve_err _ _ _ _ _ _ Heq (wp_mono _ _ _ _ _ _ Hwp (λ _ _ (Hx : False), match Hx with end) (λ _ _ Hx, Hx)))
    as (w & [(_ & Hrev & Haud)|[Hno _]] & Hd); [|done]. rewrite <- Hd in Hrev, Haud.
  split_and!; [done|exact Haud|]. intros sv2 E' rq' h t r' sv3 ck' Hs Ht Hfam Hp Heq'.
  set (fam := rt_family_id stored) in *.
  assert (Hinv : (∃ t, t ∈ db_tokens (sv_db sv1) ∧ rt_family_id t = fam) ∧ family_revoked fam (sv_db sv1)).
  { split; [|exact Hrev].
    assert (Hg : accounts_grow (sv_db sv) (sv_db sv1))
      by exact (serve_tracked accounts_grow _ _ _ _ _ (refresh_grows rq) Heq).
    destruct (grow_tokens _ _ Hg _ _ Hf) as (t1 & Ht1 & (_ & _ & Hft1 & _)).
    exists t1. split; [by apply find_token_elem in Ht1 as [? _]|done]. }
  apply (history_keeps (λ d, (∃ t, t ∈ db_tokens d ∧ rt_family_id t = fam) ∧ family_revoked fam d) sv1 sv2) in Hinv; [| |done].
  - destruct Hinv as [_ Hrev2]. eapply dead_token_refused; [exact Hp| |exact Heq'].
    exists t. split; [done|]. intros [_ Hn]. destruct (find_token_elem _ _ _ Ht) as [Hin _].
    destruct (Hrev2 t Hin Hfam). congruence.
  - clear. intros d d' Hst [Hex Hrev]. split; [by eapply token_step_member|by eapply token_step_revoked].
Qed.

(** ** Signing out everywhere *)

Section signing_out.
Context `{ApiEnv}.

(** All of a user's sessions are over: the epoch is past [epoch], the refresh
    tokens are revoked. *)
Definition signed_out (id : pystr) (epoch : Z) (d : Db) : Prop :=
  (∃ user, find_user id d = Some user ∧ epoch < us_token_epoch user) ∧
  ∀ t, t ∈ db_tokens d → rt_user_id t = id → is_Some (rt_revoked_at t).

Lemma revoke_user_bind {B} id (k : unit → M ApiWorld exn B) Q w :
  (∀ now w', tables w' = update_tokens (λ t, bool_decide (rt_user_id t = id)) (revoke_token now) (tables w) →
     wp (k tt) Q (λ _ _, True) w') →
  wp (mbind k (revoke_user id)) Q (λ _ _, True) w.
Proof.
  intros Hk. unfold revoke_user. apply wp_bind. apply now_bind. apply statement_bind; [done|].
  intros w1 (T & C & K & _). unfold wp at 1. cbn. eapply Hk. unfold tables in *. cbn. by rewrite T.
Qed.

Lemma signed_out_after id epoch now d user d' :
  find_user id d = Some user → us_token_epoch user = epoch → us_id user = id →
  db_users d' = db_users (update_user id bump_epoch d) →
  db_tokens d' = db_tokens (update_tokens (λ t, bool_decide (rt_user_id t = id)) (revoke_token now) d) →
  signed_out id epoch d'.
Proof.
  intros Hf He Hid Hu Ht. split.
  - exists (bump_epoch user). split; [|simpl; lia]. unfold find_user. rewrite Hu. unfold update_user. cbn [set_users db_users].
    rewrite (find_map us_id) by done. unfold find_user in Hf. rewrite Hf. simpl. by rewrite bool_decide_eq_true_2.
  - intros t. rewrite Ht. intros (x & -> & Hx)%list_elem_of_fmap. destruct (bool_decide _) eqn:Hb; [by eexists|].
    intros E. by apply bool_decide_eq_false in Hb.
Qed.

Lemma logout_everywhere_wp rq w :
  wp (logout_everywhere rq)
     (λ _ w', ∃ user, signed_in rq user (tables w) ∧
        signed_out (us_id user) (us_token_epoch user) (tables w')) (λ _ _, True) w.
Proof.
  unfold logout_everywhere. apply user_dep_bind; [done|]. intros user w1 (T1 & _) Hin. pose proof (proj1 Hin) as Hf. apply change_api_bind.
  apply revoke_user_bind. intros now w2 T2. unfold audit_record. apply change_api_bind.
  unfold wp, delete_refresh_cookie, modify. exists user. split; [done|].
  unfold tables in *. cbn in *. rewrite T1 in T2. rewrite T2. by eapply (signed_out_after _ _ now).
Qed.

Lemma change_password_wp payload rq w :
  wp (change_password payload rq)
     (λ _ w', ∃ user, signed_in rq user (tables w) ∧
        signed_out (us_id user) (us_token_epoch user) (tables w')) (λ _ _, True) w.
Proof.
  unfold change_password. apply user_dep_bind; [done|]. intros user w1 (T1 & _) Hin. pose proof (proj1 Hin) as Hf.
  destruct (verify_password _ _); [|done]. cbn [negb].
  apply reads_bind; [unfold hash_or_422; repeat reads_step|done|]. intros hash w2 (T2 & _).
  apply change_api_bind, change_api_bind, revoke_user_bind. intros now w3 T3.
  unfold wp, audit_request, audit_record, on_sql, change. exists user. split; [done|].
  unfold tables in *. cbn in *. rewrite T2, T1 in T3. rewrite T3.
  eapply (signed_out_after (us_id user) (us_token_epoch user) now _ (set_password hash user)); try done.
  unfold find_user, update_user. cbn [set_users db_users]. rewrite (find_map us_id) by done.
  unfold find_user in Hf. rewrite Hf. simpl. by rewrite bool_decide_eq_true_2.
Qed.
End signing_out.

(** C12: signing out everywhere, or changing the password, ends every session of the
    user who asked, the account that the request's access token names, at once: the
    committed rows of the user's refresh tokens are all revoked, and whatever requests
    follow, no access token made before is accepted. *)
Theorem sign_out_ends_sessions `{E : ApiEnv} m rq sv sv1 ck :
  m = logout_everywhere rq ∨ (∃ payload, m = change_password payload rq) →
  serve m sv = (Ok tt, sv1, ck) →
  ∃ user, signed_in rq user (sv_db sv) ∧
    (∀ t, t ∈ db_tokens (sv_db sv1) → rt_user_id t = us_id user → is_Some (rt_revoked_at t)) ∧
    ∀ sv2 (E' : ApiEnv) claims w, rtc auth_step sv1 sv2 → tables w = sv_db sv2 →
      ac_user_id claims = VStr (us_id user) → ac_token_epoch claims ≤ us_token_epoch user →
      ∃ e, (@current_user E' claims w).1 = Err e.
Proof.
  intros Hm Heq. set (w0 := mkApi (open_session (sv_db sv)) (sv_redis sv) CookieKept 0).
  assert (Hwp : wp m (λ _ w', ∃ user, signed_in rq user (tables w0) ∧
                  signed_out (us_id user) (us_token_epoch user) (tables w')) (λ _ _, True) w0).
  { destruct Hm as [->|[p ->]]; [apply logout_everywhere_wp|apply change_password_wp]. }
  destruct (serve_ok _ _ _ _ _ _ Heq Hwp) as (w1 & (user & Hf & [Hep Hrev]) & Hd & _).
  exists user. rewrite Hd. split_and!; [done|exact Hrev|]. clear Hwp.
  intros sv2 E' claims w Hs Hw Hid Hle.
  assert (Hg : accounts_grow (sv_db sv1) (sv_db sv2)).
  { clear -Hs. induction Hs as [sv|a b c H1 _ IH]; [done|]. etrans; [by apply auth_step_grows|done]. }
  destruct Hep as (u1 & Hu1 & Hlt). rewrite <- Hd in Hu1. destruct (grow_users _ _ Hg _ _ Hu1) as (u2 & Hu2 & Hge).
  pose proof (@current_user_wp E' claims w) as Hc. unfold wp in Hc.
  destruct (@current_user E' claims w) as [[x|e] w2]; [|by exists e]. exfalso.
  destruct Hc as (_ & id & Hid' & Hx & _ & Hex). rewrite Hid in Hid'. injection Hid' as <-. rewrite Hw, Hu2 in Hx.
  injection Hx as ->. lia.
Qed.
