(* ===== verification/AuthDemo.v ===== *)
(** * Concrete sign-ins

    One user on a toy vault, where the theorems about sessions are applied, and
    requests that show the limits of the handlers. *)

From S2P Require Import Prelude PyStr PyFloat PyVal Config State Registry Pricing Events World Workflow.
From S2P Require Import Database Auditing Billing BillingSafety Security RateLimit Api ApiSafety Auth AuthSafety.

(** Hashes that show what they hash, and tokens that all stand for one user *)
Definition toy_payload : list (pystr * pyval) :=
  [(u "sub", VStr (u "u1")); (u "epoch", VInt 0); (u "typ", VStr (u "access")); (u "exp", VInt 900)].
Definition toy_vault : Vault := {|
  argon_hash := λ salt p, u "h:" ++ p;
  argon_verifies := λ h p, bool_decide (h = u "h:" ++ p);
  argon_outdated := λ h, Some (bool_decide (h = u "h:short"));
  sha256_hex := λ s, u "#" ++ s;
  jwt_encode := λ payload key alg, u "jwt";
  jwt_decode := λ now token key alg, inr toy_payload |}.

Definition demo_settings : Settings :=
  mkSettings (u "dev") [] (u "1") (u "secret") (u "HS256") 15 30 12 None None None None None true true 8 6 [] []
    (u "none") None None 40 500 600 3600 400000 true 40 100 20 300 5 [] [] 2097152.

Definition api_env (db : DbEnv) (tag : pystr) : ApiEnv := {|
  api_tables := ascii_tables; api_vault := toy_vault; api_db := db; api_settings := demo_settings;
  api_redis_fault := λ _, None; api_time := λ _, 0; api_expired := λ _, false;
  api_secret := λ n, tag ++ str_of_Z (Z.of_nat n) |}.
#[local] Instance demo_api : ApiEnv := api_env quiet_db (u "s").

Definition demo_user : User := mkUser (u "u1") (u "a@b.c") (u "h:correct horse") None true false None 0.
Definition demo_token : RefreshToken := mkRefresh (u "u1") (u "#old") (u "f") 1000 None None None None.
Definition auth_db : Db := set_tokens [demo_token] (set_users [demo_user] (set_orgs [demo_org] empty_db)).
Definition empty_redis : Redis := mkRedis (λ _, []) (λ _, None) (λ _, empty_bus) [].
Definition auth_server (d : Db) : Server := mkServer d empty_redis.

Definition plain_request : Request := mkRequest (Some (u "jwt")) None None None None None.
Definition with_token (raw : string) : Request :=
  mkRequest None None None None (Some (u raw)) None.

Lemma auth_db_ok : tokens_ok auth_db.
Proof. split; [apply NoDup_singleton|]. by intros t t' ->%list_elem_of_singleton ->%list_elem_of_singleton. Qed.
Lemma auth_db_fresh : @fresh_families demo_api auth_db.
Proof. intros n t ->%list_elem_of_singleton. discriminate. Qed.

#[local] Abbreviation refreshed := (serve (refresh (with_token "old")) (auth_server auth_db)).
Definition refreshed_server : Server := refreshed.1.2.

Lemma refreshed_ok :
  refreshed.1.1 = Ok (mkTokens (u "jwt") (u "s1") 900) ∧
  map rt_token_hash (db_tokens (sv_db refreshed_server)) = [u "#old"; u "#s1"] ∧ refreshed.2 = CookieSet (u "s1").
Proof. split_and!; vm_compute; reflexivity. Qed.

Lemma answered {A} (x : res exn A * Server * Cookie) a ck :
  x.1.1 = Ok a → x.2 = ck → x = (Ok a, x.1.2, ck).
Proof. destruct x as [[r sv] c]. simpl. by intros -> ->. Qed.

Lemma refreshed_eq : refreshed = (Ok (mkTokens (u "jwt") (u "s1") 900), refreshed_server, CookieSet (u "s1")).
Proof. exact (answered refreshed _ _ (proj1 refreshed_ok) (proj2 (proj2 refreshed_ok))). Qed.

Lemma refreshed_history : rtc auth_step (auth_server auth_db) refreshed_server.
Proof. apply rtc_once. exact (auth_refresh (auth_server auth_db) refreshed_server demo_api _ _ _ auth_db_fresh refreshed_eq). Qed.

Lemma sessions_well_formed_witness : tokens_ok (sv_db refreshed_server).
Proof. exact (sessions_well_formed _ _ refreshed_history auth_db_ok). Defined.

Lemma refresh_rotates_witness :
  ∃ raw stored user, presented_token (with_token "old") = Ok (VStr raw) ∧
    find_token (hash_refresh_token raw) auth_db = Some stored ∧ live stored ∧
    find_user (rt_user_id stored) auth_db = Some user ∧ us_is_active user = true ∧
    rotated user stored (mkTokens (u "jwt") (u "s1") 900) auth_db (sv_db refreshed_server) ∧
    CookieSet (u "s1") = CookieSet (u "s1").
Proof. exact (refresh_rotates _ (auth_server auth_db) _ _ _ refreshed_eq). Defined.

Lemma old_presents : presents (with_token "old") (hash_refresh_token (u "old")).
Proof. exists (u "old"). by split. Qed.

Lemma refresh_single_use_witness :
  ∃ e, (serve (refresh (with_token "old")) refreshed_server).1.1 = Err e.
Proof.
  destruct (serve (refresh (with_token "old")) refreshed_server) as [[r sv3] ck'] eqn:Heq.
  exact (refresh_single_use (with_token "old") (u "old") (auth_server auth_db) _ _ _ refreshed_server demo_api
           (with_token "old") r sv3 ck' eq_refl refreshed_eq (rtc_refl _ _) old_presents Heq).
Defined.

(** The old token comes again: the family dies, the new token with it. *)
#[local] Abbreviation reused := (serve (refresh (with_token "old")) refreshed_server).

Lemma reuse_revokes_family_witness :
  ∃ e stored, reused.1.1 = Err e ∧ e = reuse_detected ∧
    family_revoked (rt_family_id stored) (sv_db reused.1.2) ∧ rt_family_id stored = u "f".
Proof.
  assert (Hr : reused.1.1 = Err reuse_detected) by (vm_compute; reflexivity).
  assert (Hf : find_token (hash_refresh_token (u "old")) (sv_db refreshed_server)
               = Some (use_token 1 demo_token)) by (vm_compute; reflexivity).
  assert (Hd : ¬ live (use_token 1 demo_token)) by (intros [Hu _]; discriminate Hu).
  assert (Hne : u "old" ≠ []) by discriminate.
  destruct reused as [[r sv1] ck] eqn:Heq.
  simpl in Hr. subst r.
  destruct (reuse_revokes_family (with_token "old") (u "old") (use_token 1 demo_token) refreshed_server _ sv1 ck
              eq_refl Hne eq_refl Hf Hd Heq) as (e & He & Hrest). injection He as <-.
  exists reuse_detected, (use_token 1 demo_token). split_and!; [reflexivity|reflexivity| |reflexivity].
  exact (proj1 (Hrest eq_refl)).
Defined.

(** Signing out everywhere, while an access token of epoch 0 is about. *)
#[local] Abbreviation signed_out_run := (serve (logout_everywhere plain_request) (auth_server auth_db)).

Lemma sign_out_ends_sessions_witness :
  signed_out_run.1.1 = Ok tt ∧
  ∃ user, signed_in plain_request user auth_db ∧
    ∀ t, t ∈ db_tokens (sv_db signed_out_run.1.2) → rt_user_id t = us_id user → is_Some (rt_revoked_at t).
Proof.
  assert (Hr : signed_out_run.1.1 = Ok tt) by (vm_compute; reflexivity). split; [exact Hr|].
  destruct signed_out_run as [[r sv1] ck] eqn:Heq.
  simpl in Hr. subst r.
  destruct (sign_out_ends_sessions (logout_everywhere plain_request) plain_request (auth_server auth_db) sv1 ck
              (or_introl eq_refl) Heq) as (user & Hf & Hrev & _).
  exists user. split; [exact Hf|exact Hrev].
Defined.

Lemma access_token_roundtrip_witness :
  let payload := access_payload demo_settings (u "u1") (u "a@b.c") 3 false [(u "o", u "owner")] 0 (u "j") in
  let vault := {| argon_hash := λ _ p, p; argon_verifies := λ _ _, true; argon_outdated := λ _, None;
                  sha256_hex := λ s, s; jwt_encode := λ _ _ _, u "t"; jwt_decode := λ _ _ _ _, inr payload |} in
  @decode_access_token ascii_tables vault demo_settings 5 (u "t")
  = Ok (mkClaims (VStr (u "u1")) (VStr (u "a@b.c")) 3 false [(u "o", VStr (u "owner"))] 900000000).
Proof.
  intros payload vault. assert (H0 : 0 ≤ 0) by lia. assert (H1 : 0 ≤ access_ttl demo_settings) by (vm_compute; discriminate).
  assert (H2 : 0 + access_ttl demo_settings < 2 ^ 52) by (vm_compute; reflexivity).
  exact (proj1 (@access_token_roundtrip ascii_tables vault demo_settings (u "u1") (u "a@b.c") 3 false
                  [(u "o", u "owner")] 0 (u "j") (u "t") 900 5 eq_refl eq_refl H0 H1 H2)).
Defined.

(** ** The limits *)

(** The check of [used_at] takes no lock: two requests that read before either commits
    both exchange the token. *)
Lemma concurrent_refreshes_both_answer :
  is_ok (@serve (api_env quiet_db (u "s")) _ (refresh (with_token "old")) (auth_server auth_db)).1.1 = true ∧
  is_ok (@serve (api_env quiet_db (u "t")) _ (refresh (with_token "old")) (auth_server auth_db)).1.1 = true.
Proof. split; vm_compute; reflexivity. Qed.

(** The audit entry of a failed sign-in is rolled back with the request. *)
Lemma failed_login_leaves_no_trace :
  (let '(r, sv, _) := serve (login (mkLogin (u "a@b.c") (u "wrong")) plain_request) (auth_server auth_db) in
   (r, db_audit (sv_db sv))) = (Err (HTTPException 401 (u "invalid email or password")), []).
Proof. vm_compute. reflexivity. Qed.

(** A user whose password is older than the policy, and whose hash is outdated, is
    locked out by the transparent upgrade. *)
Definition old_user : User := mkUser (u "u1") (u "a@b.c") (u "h:short") None true false None 0.
Lemma outdated_hash_locks_out :
  (serve (login (mkLogin (u "a@b.c") (u "short")) plain_request)
     (auth_server (set_users [old_user] auth_db))).1.1
  = Err (PasswordPolicyError (u "password must be at least 12 characters")).
Proof. vm_compute. reflexivity. Qed.

(** A slug that is taken is reported as a taken address. *)
Lemma slug_collision_blames_email :
  (serve (register (mkRegister (u "new@b.c") (u "correct horse") None (u "Acme")) plain_request)
     (auth_server (set_orgs [mkOrg (u "o") (u "Acme") (u "acme-s2") (u "managed") 0 true] auth_db))).1.1
  = Err (HTTPException 409 (u "that email is already registered")).
Proof. vm_compute. reflexivity. Qed.
