(* ===== verification/Orgs.v ===== *)
(** * Organisations and their members (src/api/routers/orgs.py)

    Members and their roles, the balance and the ledger of an organisation.  The
    session keeps one object per row, so the organisation of the context is read
    where the row is. *)

From S2P Require Import Prelude PyStr PyFloat PyVal Config State Registry Pricing Events World Workflow.
From S2P Require Import Database Auditing Billing Security RateLimit Api Auth.

(** A field of a PATCH body: absent, [null] or a value *)
Inductive patch (A : Type) := Unset | Null | Value (a : A).
Arguments Unset {A}.
Arguments Null {A}.
Arguments Value {A} a.
Definition patched {A} (p : patch A) (old : A) : A := match p with Value a => a | _ => old end.
Definition is_null {A} (p : patch A) : bool := match p with Null => true | _ => false end.

Record OrgUpdate := mkOrgUpdate { ou_name : patch pystr; ou_key_mode : patch pystr }.
Record MemberInvite := mkInvite { mi_email : pystr; mi_role : pystr }.
Record MemberOut := mkMember { mo_user_id : pystr; mo_email : pystr; mo_name : option pystr; mo_role : pystr }.
Record TopupRequest := mkTopup {
  tu_amount_cents : Z; tu_description : pystr; tu_idempotency_key : option pystr }.
Record BalanceOut := mkBalance { bo_credits_cents : Z; bo_billing_enabled : bool; bo_markup_percent : Z }.
Record LedgerEntryOut := mkEntryOut {
  eo_id : pystr; eo_kind : pystr; eo_amount_cents : Z; eo_balance_after_cents : Z; eo_run_id : option pystr;
  eo_description : pystr }.

(** ** Rows *)

Definition is_member (org_id user_id : pystr) (m : Membership) : bool :=
  bool_decide (ms_org_id m = org_id) && bool_decide (ms_user_id m = user_id).
Definition set_role (role : pystr) (m : Membership) : Membership := mkMembership (ms_user_id m) (ms_org_id m) role.
Definition update_membership (org_id user_id : pystr) (f : Membership → Membership) (d : Db) : Db :=
  set_memberships (map (λ m, if is_member org_id user_id m then f m else m) (db_memberships d)) d.
Definition delete_membership (org_id user_id : pystr) (d : Db) : Db :=
  set_memberships (List.filter (λ m, negb (is_member org_id user_id m)) (db_memberships d)) d.
Definition patch_org (p : OrgUpdate) (o : Org) : Org :=
  mkOrg (og_id o) (patched (ou_name p) (og_name o)) (og_slug o) (patched (ou_key_mode p) (og_key_mode o))
    (og_credits_cents o) (og_is_active o).

Definition entry_out (row : CreditLedger) : LedgerEntryOut :=
  mkEntryOut (cl_id row) (cl_kind row) (cl_amount_cents row) (cl_balance_after_cents row) (cl_run_id row)
    (cl_description row).

(** Rows come back in the order they were created: the order of the list. *)
Definition page {A} (limit offset : Z) (l : list A) : list A := slice_to limit (slice_from offset l).

Definition is_owner_of (org_id : pystr) (m : Membership) : bool :=
  bool_decide (ms_org_id m = org_id) && bool_decide (ms_role m = u "owner").

Section orgs.
Context `{ApiEnv}.
Abbreviation Api A := (M ApiWorld exn A).

(** Attributes are set and flushed; a [NOT NULL] column refuses [null]. *)
Definition flush_changes (nulls : bool) (f : Db → Db) : M Session exn unit :=
  insert (λ _, negb nulls) f.

Definition update_org_handler (payload : OrgUpdate) (c : OrgContext) : Api unit :=
  on_sql (flush_changes (is_null (ou_name payload) || is_null (ou_key_mode payload))
            (update_org (oc_org_id c) (patch_org payload))).

Definition member_out (m : Membership) (x : User) : MemberOut :=
  mkMember (us_id x) (us_email x) (us_name x) (ms_role m).

Definition list_members (c : OrgContext) : Api (list MemberOut) :=
  on_sql (query (λ d,
    omap (λ m, if bool_decide (ms_org_id m = oc_org_id c) then member_out m <$> find_user (ms_user_id m) d else None)
      (db_memberships d))).

Definition audit_member (action : pystr) (rq : Request) (c : OrgContext) (target : pystr)
    (detail : list (pystr * pyval)) : Api unit :=
  on_sql (audit_record (audit_row action (Some (oc_org_id c)) (Some (us_id (oc_user c))) (Some (u "user"))
                          (Some target) (client_ip rq) None detail)).

Definition add_member (payload : MemberInvite) (rq : Request) (c : OrgContext) : Api MemberOut :=
  let email := lower (mi_email payload) in
  o ← on_sql (query (find_email email));
  match o with
  | None => http_error 404 (u "no account with that email; ask them to register first")
  | Some user =>
      if bool_decide (mi_role payload = u "owner") && negb (can (u "owner") c) then
        http_error 403 (u "only an owner can grant the owner role")
      else
        existing ← on_sql (query (find_membership (oc_org_id c) (us_id user)));
        match existing with
        | Some _ => http_error 409 (u "already a member")
        | None =>
            let row := mkMembership (us_id user) (oc_org_id c) (mi_role payload) in
            _ ← on_sql (insert (membership_allowed row) (λ d, set_memberships (db_memberships d ++ [row]) d));
            _ ← audit_member (u "member.invited") rq c (us_id user) [(u "role", VStr (mi_role payload))];
            m_ret (member_out row user)
        end
  end.

(** [_member] *)
Definition member_of (org_id user_id : pystr) : Api Membership :=
  o ← on_sql (query (find_membership org_id user_id));
  match o with Some m => m_ret m | None => http_error 404 (u "member not found") end.

Definition guard_last_owner (org_id user_id : pystr) : Api unit :=
  remaining ← on_sql (query (λ d,
    List.find (λ m, is_owner_of org_id m && negb (bool_decide (ms_user_id m = user_id))) (db_memberships d)));
  match remaining with
  | Some _ => m_ret tt
  | None => http_error 409 (u "an organisation must keep at least one owner")
  end.

Definition change_role (user_id role : pystr) (rq : Request) (c : OrgContext) : Api unit :=
  m ← member_of (oc_org_id c) user_id;
  _ ← (if bool_decide (ms_role m = u "owner") && negb (bool_decide (role = u "owner"))
       then guard_last_owner (oc_org_id c) user_id else m_ret tt);
  _ ← on_sql (change (update_membership (oc_org_id c) user_id (set_role role)));
  audit_member (u "member.role_changed") rq c user_id [(u "role", VStr role)].

Definition remove_member (user_id : pystr) (rq : Request) (c : OrgContext) : Api unit :=
  m ← member_of (oc_org_id c) user_id;
  _ ← (if bool_decide (ms_role m = u "owner") then
         _ ← guard_last_owner (oc_org_id c) user_id;
         if can (u "owner") c then m_ret tt else http_error 403 (u "only an owner can remove an owner")
       else m_ret tt);
  _ ← on_sql (change (delete_membership (oc_org_id c) user_id));
  audit_member (u "member.removed") rq c user_id [].

(** ** Billing *)

Definition balance_out (credits : Z) : BalanceOut :=
  mkBalance credits (cfg_billing_enabled api_settings) (cfg_credit_markup_percent api_settings).

Definition get_balance (c : OrgContext) : Api BalanceOut := m_ret (balance_out (og_credits_cents (oc_org c))).

Definition get_ledger (limit offset : Z) (c : OrgContext) : Api (list LedgerEntryOut) :=
  on_sql (query (λ d, map entry_out (page limit offset (reverse (entries_of (oc_org_id c) d))))).

(** [session.get(CreditLedger, id)], and the [assert] *)
Definition entry_row (id : pystr) : Api LedgerEntryOut :=
  o ← on_sql (query (λ d, List.find (λ r, bool_decide (cl_id r = id)) (db_ledger d)));
  match o with Some row => m_ret (entry_out row) | None => raise AssertionError end.

Definition topup (payload : TopupRequest) (rq : Request) (c : OrgContext) : Api LedgerEntryOut :=
  entry ← on_sql (grant (oc_org_id c) (tu_amount_cents payload) (u "topup") (tu_description payload)
                    (tu_idempotency_key payload) (Some (us_id (oc_user c))));
  _ ← on_sql (audit_record (audit_row (u "credits.topup") (Some (oc_org_id c)) (Some (us_id (oc_user c)))
                              (Some (u "org")) (Some (oc_org_id c)) (client_ip rq) None
                              [(u "amount_cents", VInt (tu_amount_cents payload))]));
  entry_row (le_id entry).

Definition reconcile_balance (c : OrgContext) : Api BalanceOut :=
  corrected ← on_sql (reconcile (oc_org_id c));
  o ← on_sql (query (find_org (oc_org_id c)));
  match o with Some _ => m_ret (balance_out corrected) | None => raise AssertionError end.

(** The routes, with what each asks of the caller *)
Definition patch_org_route rq org_id payload : Api unit := org_route (Some (u "admin")) rq org_id (update_org_handler payload).
Definition list_members_route rq org_id : Api (list MemberOut) := org_route None rq org_id list_members.
Definition add_member_route rq org_id payload : Api MemberOut := org_route (Some (u "admin")) rq org_id (add_member payload rq).
Definition change_role_route rq org_id user_id role : Api unit := org_route (Some (u "owner")) rq org_id (change_role user_id role rq).
Definition remove_member_route rq org_id user_id : Api unit := org_route (Some (u "admin")) rq org_id (remove_member user_id rq).
Definition balance_route rq org_id : Api BalanceOut := org_route None rq org_id get_balance.
Definition ledger_route rq org_id limit offset : Api (list LedgerEntryOut) := org_route None rq org_id (get_ledger limit offset).
Definition topup_route rq org_id payload : Api LedgerEntryOut := org_route (Some (u "owner")) rq org_id (topup payload rq).
Definition reconcile_route rq org_id : Api BalanceOut := org_route (Some (u "owner")) rq org_id reconcile_balance.
End orgs.
