(* ===== verification/OrgSafety.v ===== *)
(** * Every organisation keeps an owner

    What the routes on members let through, and what stays true of roles over any
    sequence of requests. *)

From S2P Require Import Prelude PyStr PyFloat PyVal Config State Registry Pricing Events World Workflow.
From S2P Require Import Database Auditing Billing BillingSafety Security RateLimit Api ApiSafety Auth AuthSafety AuthDemo Orgs.

(** ** The invariant *)

(** The members of all organisations, and the organisations *)
Definition roster (d : Db) : list Membership * list pystr := (db_memberships d, map og_id (db_orgs d)).

(** One membership per user and organisation, and an owner for every organisation. *)
Definition owned (r : list Membership * list pystr) : Prop :=
  NoDup (map (λ m, (ms_org_id m, ms_user_id m)) r.1) ∧
  ∀ o, o ∈ r.2 → ∃ m, m ∈ r.1 ∧ is_owner_of o m = true.

Lemma is_owner_of_true o m : is_owner_of o m = true ↔ ms_org_id m = o ∧ ms_role m = u "owner".
Proof. unfold is_owner_of. by rewrite andb_true_iff, !bool_decide_eq_true. Qed.
Lemma is_member_true o x m : is_member o x m = true ↔ ms_org_id m = o ∧ ms_user_id m = x.
Proof. unfold is_member. by rewrite andb_true_iff, !bool_decide_eq_true. Qed.

Lemma owned_add row ms os :
  owned (ms, os) → (ms_org_id row, ms_user_id row) ∉ map (λ m, (ms_org_id m, ms_user_id m)) ms → owned (ms ++ [row], os).
Proof.
  intros [Hn Ho] Hf. split; cbn [fst snd] in *.
  - rewrite map_app. apply NoDup_app. split_and!; [done| |apply NoDup_singleton].
    by intros k Hk ->%list_elem_of_singleton.
  - intros o Hin. destruct (Ho o Hin) as (m & Hm & Hr). exists m. rewrite elem_of_app. auto.
Qed.

(** Rows change, but for each organisation an owner stays. *)
Lemma owned_sub (f : Membership → option Membership) ms os :
  owned (ms, os) →
  (∀ m m', f m = Some m' → ms_org_id m' = ms_org_id m ∧ ms_user_id m' = ms_user_id m) →
  (∀ o m, m ∈ ms → is_owner_of o m = true → ∃ m', m' ∈ omap f ms ∧ is_owner_of o m' = true) →
  owned (omap f ms, os).
Proof.
  intros [Hn Ho] Hkey Hkeep. split; cbn [fst snd] in *.
  - clear Ho Hkeep. induction ms as [|m ms IH]; [done|]. simpl in *. apply NoDup_cons in Hn as [Hm Hn].
    destruct (f m) as [m'|] eqn:Hf; [|by apply IH]. simpl. apply NoDup_cons. split; [|by apply IH].
    destruct (Hkey m m' Hf) as [-> ->]. intros (y & Hy & Hyin)%list_elem_of_fmap. apply Hm.
    apply list_elem_of_omap in Hyin as (x & Hx & Hfx). destruct (Hkey x y Hfx) as [E1 E2].
    apply list_elem_of_fmap. exists x. split; [congruence|done].
  - intros o Hin. destruct (Ho o Hin) as (m & Hm & Hr). by eapply Hkeep.
Qed.

Lemma map_omap {A} (P : A → bool) (f : A → A) l :
  map (λ x, if P x then f x else x) l = omap (λ x, Some (if P x then f x else x)) l.
Proof. induction l as [|x l IH]; [done|]. simpl. by rewrite IH. Qed.
Lemma filter_omap {A} (P : A → bool) (l : list A) :
  List.filter P l = omap (λ x, if P x then Some x else None) l.
Proof. induction l as [|x l IH]; [done|]. simpl. destruct (P x); simpl; by rewrite IH. Qed.

Lemma same_member ms m m' :
  NoDup (map (λ m, (ms_org_id m, ms_user_id m)) ms) → m ∈ ms → m' ∈ ms →
  ms_org_id m = ms_org_id m' → ms_user_id m = ms_user_id m' → m = m'.
Proof.
  intros Hn Hm Hm' Ho Hu. apply list_elem_of_lookup in Hm as [i Hi], Hm' as [j Hj].
  assert (i = j) as ->.
  { eapply (NoDup_lookup _ _ _ (ms_org_id m, ms_user_id m) Hn); rewrite list_lookup_fmap; rewrite ?Hi, ?Hj; simpl; congruence. }
  congruence.
Qed.

(** The owner that survives when one member's row is changed or deleted: someone
    else if the member was an owner, and whoever it was otherwise. *)
Definition may_lose (org_id user_id : pystr) (ms : list Membership) : Prop :=
  (∃ m, m ∈ ms ∧ is_owner_of org_id m = true ∧ ms_user_id m ≠ user_id) ∨
  (∀ m, m ∈ ms → is_member org_id user_id m = true → ms_role m ≠ u "owner").

Lemma owner_survives org_id user_id ms (f : Membership → option Membership) :
  may_lose org_id user_id ms → (∀ m, is_member org_id user_id m = false → f m = Some m) →
  ∀ o m, m ∈ ms → is_owner_of o m = true → ∃ m', m' ∈ omap f ms ∧ is_owner_of o m' = true.
Proof.
  intros Hlose Hf o m Hm Ho. destruct (is_member org_id user_id m) eqn:Hmem.
  2: { exists m. split; [|done]. apply list_elem_of_omap. exists m. auto. }
  apply is_member_true in Hmem as Hk. destruct Hk as [<- Hu]. apply is_owner_of_true in Ho as [Ho Hr].
  destruct Hlose as [(m2 & Hm2 & Ho2 & Hne)|Hno]; [|by destruct (Hno m Hm Hmem)].
  exists m2. rewrite <- Ho. split; [|done]. apply list_elem_of_omap. exists m2. split; [done|]. apply Hf.
  apply not_true_iff_false. intros [_ E]%is_member_true. done.
Qed.

(** ** Sessions that leave the roster, or lose what they did to it *)

Definition roster_kept (s s' : Session) : Prop :=
  roster (ss_committed s') = roster (ss_committed s) ∧
  (roster (ss_working s') = roster (ss_working s) ∨ roster (ss_working s') = roster (ss_committed s)).
#[export] Instance roster_frame : SessionFrame roster_kept (λ f, ∀ d, roster (f d) = roster d).
Proof.
  split.
  - split; [by intros s; split; [|left]|]. intros s1 s2 s3 [C1 R1] [C2 R2]. split; [congruence|].
    destruct R2 as [R2|R2]; rewrite R2, ?C1; [|by right]. destruct R1 as [R1|R1]; rewrite R1; auto.
  - intros s b n. split; [done|by left].
  - intros s. split; [done|by right].
  - intros f s Hf. split; [done|]. left. apply Hf.
Qed.

Section keeping.
Context `{ApiEnv}.

(** [m] commits nothing of the roster and, when it returns, leaves the invariant. *)
Definition keeps {A} (m : M ApiWorld exn A) : Prop := ∀ w,
  owned (roster (committed w)) → owned (roster (tables w)) →
  wp m (λ _ w', owned (roster (tables w')) ∧ roster (committed w') = roster (committed w))
    (λ _ w', roster (committed w') = roster (committed w)) w.

Lemma keeps_framed {A} (m : M ApiWorld exn A) : steps (framed roster_kept) m → keeps m.
Proof.
  intros Hm w Hc Ht. destruct (Hm w) as [C R]. unfold wp. destruct (m w) as [[a|e] w']; [|exact C].
  split; [|exact C]. destruct R as [R|R]; unfold tables in *; simpl in R; by rewrite R.
Qed.

Lemma keeps_bind {A B} (m : M ApiWorld exn A) (k : A → M ApiWorld exn B) :
  keeps m → (∀ a, keeps (k a)) → keeps (mbind k m).
Proof.
  intros Hm Hk w Hc Ht. apply wp_bind. eapply wp_mono; [by apply Hm| |done]. intros a w1 [Ht1 Hc1]. simpl.
  eapply wp_mono; [apply (Hk a); [by rewrite Hc1|done]| |].
  - intros b w2 [Ht2 Hc2]. split; [done|congruence].
  - simpl. congruence.
Qed.

Lemma keeps_serve {A} (m : M ApiWorld exn A) sv r sv' ck :
  keeps m → owned (roster (sv_db sv)) → serve m sv = (r, sv', ck) →
  owned (roster (sv_db sv')) ∧ ∀ e, r = Err e → roster (sv_db sv') = roster (sv_db sv).
Proof.
  intros Hm Ho Heq. set (w0 := mkApi (open_session (sv_db sv)) (sv_redis sv) CookieKept 0).
  pose proof (Hm w0 Ho Ho) as Hwp. destruct r as [a|e].
  - destruct (serve_ok _ _ _ _ _ _ Heq (wp_mono _ _ _ _ (λ _ _, True) _ Hwp (λ _ _ Hx, Hx) (λ _ _ _, I)))
      as (w & [Ht _] & -> & _). by split.
  - destruct (serve_err _ _ _ _ _ (λ _ w, roster (committed w) = roster (sv_db sv)) Heq) as (w & Hw & Hd).
    { eapply wp_mono; [exact Hwp| |done]. intros a w' [_ Hc] e' w2 Hc2. by rewrite Hc2, Hc. }
    rewrite Hd, Hw. by split.
Qed.

(** A change of one member's row, when the check before it allows it *)
Lemma member_keeps org_id user_id f (w : ApiWorld) :
  owned (roster (tables w)) → may_lose org_id user_id (db_memberships (tables w)) →
  (∀ m, is_member org_id user_id m = false → f m = Some m) →
  (∀ m m', f m = Some m' → ms_org_id m' = ms_org_id m ∧ ms_user_id m' = ms_user_id m) →
  owned (omap f (db_memberships (tables w)), map og_id (db_orgs (tables w))).
Proof. intros Ho Hl Hf Hkey. apply owned_sub; [done|done|]. by eapply owner_survives. Qed.

Lemma guard_bind {B} org_id user_id (k : unit → M ApiWorld exn B) Q (X : exn → ApiWorld → Prop) w :
  (∀ e w', reads w w' → X e w') →
  (∀ w', reads w w' → may_lose org_id user_id (db_memberships (tables w)) → wp (k tt) Q X w') →
  wp (mbind k (guard_last_owner org_id user_id)) Q X w.
Proof.
  intros HX Hk. unfold guard_last_owner. apply wp_bind. apply query_bind; [intros; by apply HX|]. intros w1 R1.
  destruct (List.find _ _) as [m|] eqn:Hf; [|by apply HX]. unfold wp at 1. apply Hk; [done|]. left.
  apply List.find_some in Hf as [Hin Hp]. apply andb_true_iff in Hp as [Ho Hne].
  exists m. split_and!; [by apply list_elem_of_In|done|]. by apply negb_true_iff, bool_decide_eq_false in Hne.
Qed.

Lemma member_of_bind {B} org_id user_id (k : Membership → M ApiWorld exn B) Q (X : exn → ApiWorld → Prop) w :
  (∀ e w', reads w w' → X e w') →
  (∀ m w', reads w w' → find_membership org_id user_id (tables w) = Some m → wp (k m) Q X w') →
  wp (mbind k (member_of org_id user_id)) Q X w.
Proof.
  intros HX Hk. unfold member_of. apply wp_bind. apply query_bind; [intros; by apply HX|]. intros w1 R1.
  destruct (find_membership _ _ _) as [m|] eqn:Hf; [|by apply HX]. unfold wp at 1. by apply (Hk m).
Qed.

(** The member that is found is the only one, so a row that is no owner's may go. *)
Lemma not_owner_may_lose org_id user_id d m :
  owned (roster d) → find_membership org_id user_id d = Some m → ms_role m ≠ u "owner" →
  may_lose org_id user_id (db_memberships d).
Proof.
  intros [Hn _] Hf Hr. apply List.find_some in Hf as [Hin Hm]. right. intros m' Hin' Hm'.
  apply list_elem_of_In in Hin. change (is_member org_id user_id m = true) in Hm.
  apply is_member_true in Hm as [Hm1 Hm2], Hm' as [E1 E2].
  assert (m' = m) as ->; [|done]. apply (same_member (db_memberships d)); try done; congruence.
Qed.

(** What both routes do once they may: audit after the change *)
Lemma after_change_keeps {A} (f : Membership → option Membership) (change_ : Db → Db)
    (k : unit → M ApiWorld exn A) w org_id user_id :
  (∀ d, roster (change_ d) = (omap f (db_memberships d), map og_id (db_orgs d))) →
  owned (roster (committed w)) → owned (roster (tables w)) → may_lose org_id user_id (db_memberships (tables w)) →
  (∀ m, is_member org_id user_id m = false → f m = Some m) →
  (∀ m m', f m = Some m' → ms_org_id m' = ms_org_id m ∧ ms_user_id m' = ms_user_id m) →
  keeps (k tt) →
  wp (mbind k (on_sql (change change_))) (λ _ w', owned (roster (tables w')) ∧ roster (committed w') = roster (committed w))
     (λ _ w', roster (committed w') = roster (committed w)) w.
Proof.
  intros Hch Hc Ht Hl Hf Hkey Hk. apply change_api_bind. refine (Hk (put_session (set_working (change_ (tables w)) (ap_session w)) w) Hc _).
  change (tables (put_session _ w)) with (change_ (tables w)). rewrite Hch. by eapply member_keeps.
Qed.

Lemma audit_member_keeps action rq c target detail : keeps (audit_member action rq c target detail).
Proof. apply keeps_framed. unfold audit_member, audit_record. by repeat framed_step. Qed.

Lemma change_role_keeps user_id role rq c : keeps (change_role user_id role rq c).
Proof.
  intros w Hc Ht. unfold change_role. set (org := oc_org_id c).
  apply member_of_bind; [intros e w' (_ & C & _); congruence|]. intros m w1 (T1 & C1 & _) Hm.
  assert (Hgo : ∀ w2, tables w2 = tables w → committed w2 = committed w →
            (may_lose org user_id (db_memberships (tables w)) ∨ role = u "owner") →
            wp (_ ← on_sql (change (update_membership org user_id (set_role role)));
                audit_member (u "member.role_changed") rq c user_id [(u "role", VStr role)])
               (λ _ w', owned (roster (tables w')) ∧ roster (committed w') = roster (committed w))
               (λ _ w', roster (committed w') = roster (committed w)) w2).
  { intros w2 T2 C2 Hl. rewrite <- C2 in *. rewrite <- T2 in *.
    set (f := λ m, Some (if is_member org user_id m then set_role role m else m)).
    assert (Hkey : ∀ m m', f m = Some m' → ms_org_id m' = ms_org_id m ∧ ms_user_id m' = ms_user_id m).
    { intros x x'. unfold f. destruct (is_member org user_id x); by intros [= <-]. }
    assert (Hro : ∀ d, roster (update_membership org user_id (set_role role) d)
                       = (omap f (db_memberships d), map og_id (db_orgs d))).
    { intros d. unfold roster, update_membership. cbn [set_memberships db_memberships db_orgs]. by rewrite map_omap. }
    destruct Hl as [Hl|Hrole].
    - assert (Hf : ∀ x, is_member org user_id x = false → f x = Some x) by (intros x Hx; unfold f; by rewrite Hx).
      exact (after_change_keeps f _ _ w2 org user_id Hro Hc Ht Hl Hf Hkey (audit_member_keeps _ _ _ _ _)).
    - apply change_api_bind. refine (audit_member_keeps _ _ _ _ _ (put_session (set_working
        (update_membership org user_id (set_role role) (tables w2)) (ap_session w2)) w2) Hc _).
      change (tables (put_session _ w2)) with (update_membership org user_id (set_role role) (tables w2)).
      rewrite Hro. apply owned_sub; [exact Ht|exact Hkey|]. intros o x Hx Ho.
      exists (if is_member org user_id x then set_role role x else x). split.
      { apply list_elem_of_omap. by exists x. }
      destruct (is_member org user_id x); [|done]. apply is_owner_of_true in Ho as [Ho _].
      apply is_owner_of_true. by rewrite <- Hrole. }
  destruct (bool_decide (ms_role m = u "owner")) eqn:Hown; simpl.
  - destruct (bool_decide (role = u "owner")) eqn:Hrole; simpl.
    + apply wp_bind, wp_ret. apply Hgo; [done|done|right]. by apply bool_decide_eq_true in Hrole.
    + apply guard_bind; [intros e w' (_ & C & _); congruence|]. intros w2 (T2 & C2 & _) Hl.
      apply Hgo; [congruence|congruence|left]. by rewrite T1 in Hl.
  - apply wp_bind, wp_ret. apply Hgo; [done|done|left]. eapply not_owner_may_lose; [exact Ht|exact Hm|].
    by apply bool_decide_eq_false in Hown.
Qed.

Lemma remove_member_keeps user_id rq c : keeps (remove_member user_id rq c).
Proof.
  intros w Hc Ht. unfold remove_member. set (org := oc_org_id c).
  apply member_of_bind; [intros e w' (_ & C & _); congruence|]. intros m w1 (T1 & C1 & _) Hm.
  assert (Hgo : ∀ w2, tables w2 = tables w → committed w2 = committed w →
            may_lose org user_id (db_memberships (tables w)) →
            wp (_ ← on_sql (change (delete_membership org user_id));
                audit_member (u "member.removed") rq c user_id [])
               (λ _ w', owned (roster (tables w')) ∧ roster (committed w') = roster (committed w))
               (λ _ w', roster (committed w') = roster (committed w)) w2).
  { intros w2 T2 C2 Hl. rewrite <- C2 in *. rewrite <- T2 in *.
    apply (after_change_keeps (λ m, if negb (is_member org user_id m) then Some m else None) _
             (λ _, audit_member (u "member.removed") rq c user_id []) w2 org user_id); [|exact Hc|exact Ht|exact Hl|..].
    - intros d. unfold roster, delete_membership. cbn [set_memberships db_memberships db_orgs]. by rewrite filter_omap.
    - intros x Hx. by rewrite Hx.
    - intros x x'. destruct (is_member org user_id x); [done|]. by intros [= <-].
    - apply audit_member_keeps. }
  destruct (bool_decide (ms_role m = u "owner")) eqn:Hown.
  - apply wp_bind. apply guard_bind; [intros e w' (_ & C & _); congruence|]. intros w2 (T2 & C2 & _) Hl.
    destruct (can (u "owner") c); unfold wp at 1; [|simpl; congruence].
    apply Hgo; [congruence|congruence|]. by rewrite T1 in Hl.
  - apply wp_bind, wp_ret. apply Hgo; [done|done|]. eapply not_owner_may_lose; [exact Ht|exact Hm|].
    by apply bool_decide_eq_false in Hown.
Qed.

Lemma membership_allowed_fresh row d :
  membership_allowed row d = true →
  (ms_org_id row, ms_user_id row) ∉ map (λ m, (ms_org_id m, ms_user_id m)) (db_memberships d).
Proof.
  unfold membership_allowed. rewrite forallb_forall.
  intros Hall (m & Heq & Hm%list_elem_of_In)%list_elem_of_fmap. specialize (Hall m Hm).
  injection Heq as E1 E2. rewrite !bool_decide_eq_true_2 in Hall by done. discriminate.
Qed.

Lemma add_member_keeps payload rq c : keeps (add_member payload rq c).
Proof.
  intros w Hc Ht. unfold add_member. cbv zeta.
  apply query_bind; [intros e w' _ (_ & C & _); congruence|]. intros w1 (T1 & C1 & _).
  destruct (find_email _ _) as [user|]; [|unfold wp; cbn; congruence]. destruct (_ && _); [unfold wp; cbn; congruence|].
  apply query_bind; [intros e w' _ (_ & C & _); congruence|]. intros w2 (T2 & C2 & _).
  destruct (find_membership _ _ _); [simpl; unfold wp; simpl; congruence|].
  apply insert_bind; [intros e w' _ (_ & C & _); congruence|]. intros w3 Ha T3 C3 _.
  assert (Hc3 : committed w3 = committed w) by congruence. rewrite <- Hc3 in *.
  set (row := mkMembership _ _ _) in *.
  assert (Ht3 : owned (roster (tables w3))).
  { rewrite T3. apply owned_add; [|by apply membership_allowed_fresh]. rewrite T2, T1. exact Ht. }
  refine (keeps_bind _ _ (audit_member_keeps _ _ _ _ _) _ w3 Hc Ht3). intros []. apply keeps_framed, steps_ret. tc_solve.
Qed.

Lemma update_org_keeps payload c : keeps (update_org_handler payload c).
Proof.
  apply keeps_framed. unfold update_org_handler, flush_changes. repeat framed_step. unfold roster.
  by rewrite update_org_ids.
Qed.
Lemma topup_keeps payload rq c : keeps (topup payload rq c).
Proof.
  apply keeps_framed. unfold topup, entry_row, audit_record.
  repeat lazymatch goal with
  | |- steps _ (grant _ _ _ _ _ _) => apply grant_framed; [intros; unfold roster; by rewrite ?update_org_ids..|]; intros n f s _ Hf; split; [apply Hf|by left]
  | _ => framed_step
  end. done.
Qed.
Lemma reconcile_keeps c : keeps (reconcile_balance c).
Proof.
  apply keeps_framed. unfold reconcile_balance, reconcile, locked_org, org_not_found. repeat framed_step.
  unfold roster. by rewrite update_org_ids.
Qed.

Lemma org_route_keeps {A} minimum rq org_id (handler : OrgContext → M ApiWorld exn A) :
  (∀ c, keeps (handler c)) → keeps (org_route minimum rq org_id handler).
Proof.
  intros Hh w Hc Ht. apply org_route_bind; [intros e w' (_ & C & _); congruence|]. intros c w1 (T & C & _) _.
  rewrite <- C in *. rewrite <- T in Ht. exact (Hh c w1 Hc Ht).
Qed.

(** A new organisation comes with its owner. *)
Lemma owned_register ms os org user :
  owned (ms, os) → (org, user) ∉ map (λ m, (ms_org_id m, ms_user_id m)) ms →
  owned (ms ++ [mkMembership user org (u "owner")], os ++ [org]).
Proof.
  intros Ho Hf. destruct (owned_add (mkMembership user org (u "owner")) ms os Ho Hf) as [Hn Hall].
  split; [exact Hn|]. cbn [fst snd] in *. intros o [Hin| ->%list_elem_of_singleton]%elem_of_app; [by apply Hall|].
  exists (mkMembership user org (u "owner")). rewrite elem_of_app, list_elem_of_singleton. split; [by right|].
  by apply is_owner_of_true.
Qed.

Lemma issue_tokens_roster user f ua ip : steps (framed roster_kept) (issue_tokens user f ua ip).
Proof. unfold issue_tokens. by repeat framed_step. Qed.
Lemma audit_request_roster action rq o a tt_ ti ip detail :
  steps (framed roster_kept) (audit_request action rq o a tt_ ti ip detail).
Proof. unfold audit_request, audit_record. by repeat framed_step. Qed.

Ltac roster_step :=
  lazymatch goal with
  | |- steps _ (issue_tokens _ _ _ _) => apply issue_tokens_roster
  | |- steps _ (audit_request _ _ _ _ _ _ _ _) => apply audit_request_roster
  | |- steps _ (grant _ _ _ _ _ _) => apply grant_framed; [intros; unfold roster; by rewrite ?update_org_ids..|]; intros n f s _ Hf; split; [apply Hf|by left]
  | _ => framed_step
  end.

Lemma register_keeps payload rq : keeps (register payload rq).
Proof.
  intros w Hc Ht. unfold register. cbv zeta.
  apply reads_bind; [unfold check_bucket; repeat reads_step|intros e w' (_ & C & _); congruence|]. intros [] w1 R1.
  apply reads_bind; [unfold hash_or_422; repeat reads_step|intros e w' R; destruct (transitivity R1 R) as (_ & C & _); congruence|].
  intros hash w2 R2. assert (R : reads w w2) by by etrans. clear R1 R2.
  do 3 (apply reads_bind; [apply secret_reads
                          |let e := fresh in let v := fresh in let R' := fresh in
                           intros e v R'; destruct (transitivity R R') as (_ & ? & _); congruence|];
        let v := fresh "w" in let R' := fresh in
        intros ? v R'; apply (transitivity R) in R'; clear R; rename R' into R).
  destruct R as (T & C & _). apply wp_bind, wp_attempt.
  set (user := new_user _ _ _ _). set (org := new_org _ _ _).
  match goal with |- wp (on_sql (insert ?al ?ad)) ?Q ?X ?w1 =>
    assert (Hins : wp (mbind (λ _, m_ret tt) (on_sql (insert al ad))) Q X w1) end.
  { apply insert_bind.
    - intros e w' _ (_ & C' & _). destruct (is_integrity e); [|simpl; congruence].
      apply wp_bind. unfold wp at 1. unfold committed in *. cbn. congruence.
    - intros wa _ T4 C4 _. apply wp_ret. apply insert_bind; [intros e w' _ (_ & C5 & _); congruence|].
      intros wb Ha5 T5 C5 _. assert (E5 : committed wb = committed w) by congruence.
      rewrite <- E5 in Hc |- *.
      refine (keeps_framed _ _ wb Hc _); [unfold set_refresh_cookie; repeat roster_step|].
      apply membership_allowed_fresh in Ha5. cbn [ms_org_id ms_user_id] in Ha5.
      rewrite T5. unfold roster. cbn [set_memberships db_memberships db_orgs]. rewrite T4 in *.
      cbn [set_orgs set_users db_memberships db_orgs] in *. rewrite map_app. rewrite T in *.
      by apply owned_register. }
  unfold wp, mbind, M_bind, m_bind in Hins. unfold wp.
  by destruct (on_sql _ _) as [[[]|e] wa].
Qed.
End keeping.

(** ** Histories *)

(** One request, answered in any environment and in any way; requests to other
    parts of the program leave members and organisations alone. *)
Inductive org_request (sv sv' : Server) : Prop :=
| org_register (E : ApiEnv) payload rq r ck : serve (register payload rq) sv = (r, sv', ck) → org_request sv sv'
| org_patch (E : ApiEnv) rq org payload r ck : serve (patch_org_route rq org payload) sv = (r, sv', ck) → org_request sv sv'
| org_add (E : ApiEnv) rq org payload r ck : serve (add_member_route rq org payload) sv = (r, sv', ck) → org_request sv sv'
| org_role (E : ApiEnv) rq org user role r ck :
    serve (change_role_route rq org user role) sv = (r, sv', ck) → org_request sv sv'
| org_remove (E : ApiEnv) rq org user r ck : serve (remove_member_route rq org user) sv = (r, sv', ck) → org_request sv sv'
| org_topup (E : ApiEnv) rq org payload r ck : serve (topup_route rq org payload) sv = (r, sv', ck) → org_request sv sv'
| org_reconcile (E : ApiEnv) rq org r ck : serve (reconcile_route rq org) sv = (r, sv', ck) → org_request sv sv'
| org_elsewhere : roster (sv_db sv') = roster (sv_db sv) → org_request sv sv'.

(** C13: an organisation never loses its last owner: over any requests one after the
    other, answered or failed, every organisation has an owner, and nobody is a
    member twice. *)
Theorem owners_remain sv sv' :
  rtc org_request sv sv' → owned (roster (sv_db sv)) → owned (roster (sv_db sv')).
Proof.
  induction 1 as [sv|sv1 sv2 sv3 H1 _ IH]; [done|]. intros Ho. apply IH.
  destruct H1 as [E p rq r ck Heq|E rq o p r ck Heq|E rq o p r ck Heq|E rq o x ro r ck Heq|E rq o x r ck Heq
                  |E rq o p r ck Heq|E rq o r ck Heq|Heq];
    unfold patch_org_route, add_member_route, change_role_route, remove_member_route, topup_route, reconcile_route in *.
  - exact (proj1 (keeps_serve _ _ _ _ _ (register_keeps p rq) Ho Heq)).
  - exact (proj1 (keeps_serve _ _ _ _ _ (org_route_keeps _ rq o _ (update_org_keeps p)) Ho Heq)).
  - exact (proj1 (keeps_serve _ _ _ _ _ (org_route_keeps _ rq o _ (add_member_keeps p rq)) Ho Heq)).
  - exact (proj1 (keeps_serve _ _ _ _ _ (org_route_keeps _ rq o _ (change_role_keeps x ro rq)) Ho Heq)).
  - exact (proj1 (keeps_serve _ _ _ _ _ (org_route_keeps _ rq o _ (remove_member_keeps x rq)) Ho Heq)).
  - exact (proj1 (keeps_serve _ _ _ _ _ (org_route_keeps _ rq o _ (topup_keeps p rq)) Ho Heq)).
  - exact (proj1 (keeps_serve _ _ _ _ _ (org_route_keeps _ rq o _ reconcile_keeps) Ho Heq)).
  - by rewrite Heq.
Qed.

(** ** Who may do it *)

Definition members (org : pystr) (d : Db) : list Membership :=
  List.filter (λ m, bool_decide (ms_org_id m = org)) (db_memberships d).
Definition owners (org : pystr) (d : Db) : list Membership :=
  List.filter (is_owner_of org) (db_memberships d).

Lemma can_owner c : can (u "owner") c = true ↔ oc_role c = u "owner".
Proof.
  unfold can. change (default 0 (assoc (u "owner") ROLE_ORDER)) with 3. unfold ROLE_ORDER. cbn [assoc].
  destruct (decide (oc_role c = u "viewer")) as [->|]; [done|].
  destruct (decide (oc_role c = u "member")) as [->|]; [done|].
  destruct (decide (oc_role c = u "admin")) as [->|]; [done|].
  by destruct (decide (oc_role c = u "owner")).
Qed.

Lemma authorised_owner `{ApiEnv} rq org c d :
  authorised (Some (u "owner")) rq org c d → authorised (Some (u "admin")) rq org c d ∧ oc_role c = u "owner".
Proof.
  intros [A B C D E]. specialize (E _ eq_refl). apply can_owner in E. split; [|done]. split; try done.
  intros role [= <-]. unfold can. by rewrite E.
Qed.

(** A row of one organisation changes: the others keep theirs. *)
Lemma omap_filter_same (P : Membership → bool) (f : Membership → option Membership) l :
  (∀ m, P m = true → f m = Some m) → (∀ m m', P m = false → f m = Some m' → P m' = false) →
  List.filter P (omap f l) = List.filter P l.
Proof.
  intros H1 H2. induction l as [|m l IH]; [done|].
  change (omap f (m :: l)) with (match f m with Some m' => m' :: omap f l | None => omap f l end).
  cbn [List.filter]. destruct (P m) eqn:Hp.
  - rewrite (H1 m Hp). cbn [List.filter]. by rewrite Hp, IH.
  - destruct (f m) as [m'|] eqn:Hf; [|exact IH]. cbn [List.filter]. by rewrite (H2 m m' Hp Hf).
Qed.

(** What a change of one member's row, or its loss, means for the rest. *)
Definition role_change (org : pystr) (c : OrgContext) (d d' : Db) : Prop :=
  (∀ o, o ≠ org → members o d' = members o d) ∧ (owners org d' = owners org d ∨ oc_role c = u "owner").

Section authority.
Context `{ApiEnv}.

Lemma oc_org_found org d x : find_org org d = Some x → og_id x = org.
Proof. intros [_ Hid]%List.find_some. by apply bool_decide_eq_true in Hid. Qed.

Lemma audit_role_change action rq c target detail org d w :
  role_change org c d (tables w) →
  wp (audit_member action rq c target detail) (λ _ w', role_change org c d (tables w')) (λ _ _, True) w.
Proof. done. Qed.

Lemma add_member_change payload rq c w :
  wp (add_member payload rq c) (λ _ w', role_change (oc_org_id c) c (tables w) (tables w')) (λ _ _, True) w.
Proof.
  unfold add_member. cbv zeta. apply query_bind; [done|]. intros w1 (T1 & _).
  destruct (find_email _ _) as [user|]; [|done].
  destruct (bool_decide (mi_role payload = u "owner") && negb (can (u "owner") c)) eqn:Hc; [done|].
  apply query_bind; [done|]. intros w2 (T2 & _). destruct (find_membership _ _ _); [done|].
  apply insert_bind; [done|]. intros w3 _ T3 _ _. apply wp_bind.
  eapply wp_mono; [apply (audit_role_change _ _ _ _ _ (oc_org_id c) (tables w))| |done].
  2: { intros [] w4 Hr. by apply wp_ret. }
  rewrite T3, T2, T1. split.
  - intros o Ho. unfold members. cbn [set_memberships db_memberships]. rewrite List.filter_app. cbn.
    rewrite bool_decide_eq_false_2 by done. by rewrite app_nil_r.
  - apply andb_false_iff in Hc as [Hr|Hc]; [left|right].
    + unfold owners. cbn [set_memberships db_memberships]. rewrite List.filter_app. cbn. unfold is_owner_of at 2. cbn.
      rewrite Hr, andb_false_r. by rewrite app_nil_r.
    + apply negb_false_iff in Hc. by apply can_owner.
Qed.

Lemma others_kept org user (f : Membership → option Membership) l o :
  o ≠ org → (∀ m, is_member org user m = false → f m = Some m) →
  (∀ m m', f m = Some m' → ms_org_id m' = ms_org_id m) →
  List.filter (λ m, bool_decide (ms_org_id m = o)) (omap f l) = List.filter (λ m, bool_decide (ms_org_id m = o)) l.
Proof.
  intros Ho Hf Hk. apply omap_filter_same.
  - intros m Hm%bool_decide_eq_true. apply Hf. apply not_true_iff_false. intros [E _]%is_member_true. congruence.
  - intros m m' Hm E. by rewrite (Hk m m' E).
Qed.

Lemma change_role_change user_id role rq c w :
  oc_role c = u "owner" →
  wp (change_role user_id role rq c) (λ _ w', role_change (oc_org_id c) c (tables w) (tables w')) (λ _ _, True) w.
Proof.
  intros Hc. unfold change_role. apply member_of_bind; [done|]. intros m w1 (T1 & _) _.
  apply reads_bind; [destruct (_ && _); [unfold guard_last_owner; repeat reads_step|apply steps_ret; tc_solve]|done|].
  intros [] w2 (T2 & _). apply change_api_bind, audit_role_change. split; [|by right]. intros o Ho.
  change (tables (put_session _ w2)) with (update_membership (oc_org_id c) user_id (set_role role) (tables w2)).
  rewrite T2, T1. unfold members, update_membership. cbn [set_memberships db_memberships]. rewrite map_omap.
  apply (others_kept (oc_org_id c) user_id); [done| |].
  - intros x Hx. by rewrite Hx.
  - intros x x'. destruct (is_member _ _ x); by intros [= <-].
Qed.

Lemma remove_member_change user_id rq c w :
  owned (roster (tables w)) →
  wp (remove_member user_id rq c) (λ _ w', role_change (oc_org_id c) c (tables w) (tables w')) (λ _ _, True) w.
Proof.
  intros Ho. unfold remove_member. apply member_of_bind; [done|]. intros m w1 (T1 & _) Hm.
  assert (Hgo : ∀ w2, tables w2 = tables w → (ms_role m = u "owner" → oc_role c = u "owner") →
            wp (_ ← on_sql (change (delete_membership (oc_org_id c) user_id));
                audit_member (u "member.removed") rq c user_id [])
               (λ _ w', role_change (oc_org_id c) c (tables w) (tables w')) (λ _ _, True) w2).
  { intros w2 T2 Hr. apply change_api_bind, audit_role_change.
    change (tables (put_session _ w2)) with (delete_membership (oc_org_id c) user_id (tables w2)). rewrite T2.
    set (f := λ m, if negb (is_member (oc_org_id c) user_id m) then Some m else None). split.
    - intros o Hne. unfold members, delete_membership. cbn [set_memberships db_memberships].
      rewrite (filter_omap (λ x, negb (is_member (oc_org_id c) user_id x))).
      apply (others_kept (oc_org_id c) user_id f); [done| |].
      + intros x Hx. unfold f. by rewrite Hx.
      + intros x x'. unfold f. destruct (is_member _ _ x); [done|]. by intros [= <-].
    - destruct (decide (ms_role m = u "owner")) as [Hown|Hown]; [right; by apply Hr|left].
      pose proof (not_owner_may_lose _ _ _ _ Ho Hm Hown) as Hl.
      unfold owners, delete_membership. cbn [set_memberships db_memberships]. clear Hl.
      assert (Hall : ∀ x, x ∈ db_memberships (tables w) → is_member (oc_org_id c) user_id x = true →
                is_owner_of (oc_org_id c) x = false).
      { intros x Hx Hmem. apply not_true_iff_false. intros [_ Hx2]%is_owner_of_true. apply List.find_some in Hm as [Hin Hmm].
        change (is_member (oc_org_id c) user_id m = true) in Hmm. apply is_member_true in Hmem as [E1 E2], Hmm as [E3 E4].
        assert (x = m) as ->; [|done]. destruct Ho as [Hn _]. apply (same_member (db_memberships (tables w))); try done;
          [by apply list_elem_of_In|congruence..]. }
      clear -Hall. induction (db_memberships (tables w)) as [|x l IH]; [done|]. cbn [List.filter].
      assert (IH' := IH (λ y Hy, Hall y (list_elem_of_further _ _ _ Hy))). clear IH.
      destruct (is_member (oc_org_id c) user_id x) eqn:Hx; cbn [negb List.filter]; [|by rewrite IH'].
      by rewrite (Hall x (list_elem_of_here _ _) Hx). }
  destruct (bool_decide (ms_role m = u "owner")) eqn:Hown.
  - apply wp_bind. apply guard_bind; [done|]. intros w2 (T2 & _) _. destruct (can (u "owner") c) eqn:Hcan; [|done].
    apply wp_ret. apply Hgo; [congruence|]. intros _. by apply can_owner.
  - apply wp_bind, wp_ret. apply Hgo; [done|]. intros E. by apply bool_decide_eq_false in Hown.
Qed.
End authority.

(** A request that changes the members, and was answered *)
Inductive member_request `{ApiEnv} (rq : Request) (org : pystr) (sv sv' : Server) : Prop :=
| member_add payload a ck : serve (add_member_route rq org payload) sv = (Ok a, sv', ck) → member_request rq org sv sv'
| member_role user role ck : serve (change_role_route rq org user role) sv = (Ok tt, sv', ck) → member_request rq org sv sv'
| member_remove user ck : serve (remove_member_route rq org user) sv = (Ok tt, sv', ck) → member_request rq org sv sv'.

Lemma route_change `{ApiEnv} {A} minimum rq org (handler : OrgContext → M ApiWorld exn A) sv a sv' ck :
  serve (org_route (Some minimum) rq org handler) sv = (Ok a, sv', ck) →
  (∀ c w, tables w = sv_db sv → authorised (Some minimum) rq org c (sv_db sv) →
     wp (handler c) (λ _ w', role_change (oc_org_id c) c (tables w) (tables w')) (λ _ _, True) w) →
  ∃ c, authorised (Some minimum) rq org c (sv_db sv) ∧ role_change org c (sv_db sv) (sv_db sv').
Proof.
  intros Heq Hh.
  destruct (serve_ok _ sv a sv' ck
              (λ _ w, ∃ c, authorised (Some minimum) rq org c (sv_db sv) ∧ role_change org c (sv_db sv) (tables w)) Heq)
    as (w & (c & Ha & Hr) & -> & _); [|by exists c].
  apply org_route_bind; [done|]. intros c w (T & _) Ha. change (tables w = sv_db sv) in T.
  change (authorised (Some minimum) rq org c (sv_db sv)) in Ha.
  eapply wp_mono; [exact (Hh c w T Ha)| |done]. intros b w' Hr. exists c. split; [exact Ha|].
  rewrite T in Hr. replace org with (oc_org_id c); [exact Hr|]. exact (oc_org_found _ _ _ (au_org _ _ _ _ _ Ha)).
Qed.

(** only those entitled to it change who belongs to an organisation: an answered
    request to the members of an organisation was made by a signed-in administrator of it
    (a superuser counts as its owner), leaves the members of every other organisation as
    they were, and changes who its owners are only when the caller is one. *)
Theorem member_changes_authorised `{ApiEnv} rq org sv sv' :
  member_request rq org sv sv' → owned (roster (sv_db sv)) →
  ∃ c, authorised (Some (u "admin")) rq org c (sv_db sv) ∧ role_change org c (sv_db sv) (sv_db sv').
Proof.
  intros [payload a ck Heq|user role ck Heq|user ck Heq] Ho.
  - refine (route_change _ _ _ _ _ _ _ _ Heq _). intros c w _ _. apply add_member_change.
  - destruct (route_change _ _ _ _ _ _ _ _ Heq) as (c & Ha & Hr).
    + intros c w _ [_ Hc]%authorised_owner. by apply change_role_change.
    + exists c. split; [by apply authorised_owner|exact Hr].
  - refine (route_change _ _ _ _ _ _ _ _ Heq _). intros c w T _. apply remove_member_change. by rewrite T.
Qed.

(** ** A concrete organisation

    Two owners of one organisation, where the theorems about members are applied. *)

#[local] Existing Instance demo_api.

Definition second_user : User := mkUser (u "u2") (u "b@b.c") (u "h:correct horse") None true false None 0.
Definition team_db : Db :=
  set_memberships [mkMembership (u "u1") (og_id demo_org) (u "owner"); mkMembership (u "u2") (og_id demo_org) (u "owner")]
    (set_users [demo_user; second_user] (set_orgs [demo_org] empty_db)).
Definition team_server : Server := auth_server team_db.

Lemma team_owned : owned (roster team_db).
Proof.
  split; [by apply (bool_decide_unpack _); vm_compute|]. intros o ->%list_elem_of_singleton.
  exists (mkMembership (u "u1") (og_id demo_org) (u "owner")). split; [by left|by vm_compute].
Qed.

#[local] Abbreviation demoted :=
  (serve (change_role_route plain_request (og_id demo_org) (u "u1") (u "member")) team_server).

Lemma demoted_ok : demoted.1.1 = Ok tt.
Proof. vm_compute. reflexivity. Qed.

Definition roles (d : Db) : list pystr := map ms_role (db_memberships d).

Lemma demoted_eq : demoted = (Ok tt, demoted.1.2, demoted.2).
Proof. exact (answered demoted _ _ demoted_ok eq_refl). Qed.

Lemma owners_remain_witness :
  owned (roster (sv_db demoted.1.2)) ∧ roles (sv_db demoted.1.2) = [u "member"; u "owner"].
Proof.
  split; [|vm_compute; reflexivity].
  exact (owners_remain team_server demoted.1.2
           (rtc_once _ _ (org_role team_server demoted.1.2 demo_api plain_request (og_id demo_org) (u "u1") (u "member")
                            (Ok tt) demoted.2 demoted_eq)) team_owned).
Defined.

Lemma member_changes_authorised_witness :
  ∃ c, authorised (Some (u "admin")) plain_request (og_id demo_org) c team_db ∧
       role_change (og_id demo_org) c team_db (sv_db demoted.1.2).
Proof.
  exact (member_changes_authorised plain_request (og_id demo_org) team_server demoted.1.2
           (member_role plain_request (og_id demo_org) team_server demoted.1.2 (u "u1") (u "member") demoted.2 demoted_eq)
           team_owned).
Defined.

(** The guard reads the other owners without a lock: two requests that read before
    either commits each take one owner away. *)
Lemma concurrent_demotions_both_answer :
  let first := serve (change_role_route plain_request (og_id demo_org) (u "u1") (u "member")) team_server in
  let second := serve (change_role_route plain_request (og_id demo_org) (u "u2") (u "member")) team_server in
  first.1.1 = Ok tt ∧ roles (sv_db first.1.2) = [u "member"; u "owner"] ∧
  second.1.1 = Ok tt ∧ roles (sv_db second.1.2) = [u "owner"; u "member"].
Proof. split_and!; vm_compute; reflexivity. Qed.

(** The last owner stays. *)
Lemma last_owner_stays :
  (serve (remove_member_route plain_request (og_id demo_org) (u "u1"))
     (auth_server (set_memberships [mkMembership (u "u1") (og_id demo_org) (u "owner")] team_db))).1.1
  = Err (HTTPException 409 (u "an organisation must keep at least one owner")).
Proof. vm_compute. reflexivity. Qed.
