(* ===== verification/Bytes.v ===== *)
(** * Bytes: UTF-8 and Base64

    [bytes] as lists of numbers below 256, [str.encode], [bytes.decode], and the
    two functions of [base64] the program calls.  [b64decode] is the lenient
    decoder of the standard library: it skips characters outside the alphabet and
    stops at the padding that completes a group. *)

From S2P Require Import Prelude PyStr PyVal.

Abbreviation bytes := (list N).
Definition is_byte (b : N) : Prop := (b < 256)%N.

(** Arithmetic with division by constants *)
Ltac nlia := zify; Z.to_euclidean_division_equations; lia.

(** ** UTF-8 *)

Definition utf8_char (c : N) : bytes :=
  if (c <? 128)%N then [c]
  else if (c <? 2048)%N then [192 + c / 64; 128 + c mod 64]%N
  else if (c <? 65536)%N then [224 + c / 4096; 128 + (c / 64) mod 64; 128 + c mod 64]%N
  else [240 + c / 262144; 128 + (c / 4096) mod 64; 128 + (c / 64) mod 64; 128 + c mod 64]%N.

(** [s.encode()] *)
Definition encode (s : pystr) : res exn bytes :=
  if encodable s then Ok (concat (map utf8_char s)) else Err UnicodeEncodeError.

Definition UnicodeDecodeError : exn :=
  ExternalError (u "UnicodeDecodeError") (u "'utf-8' codec can't decode bytes").

Definition continuation (b : N) : bool := ((128 <=? b) && (b <? 192))%N.

(** One character from the front: no overlong form, no surrogate, nothing past
    the last code point. *)
Definition take_char (l : bytes) : option (N * bytes) :=
  match l with
  | [] => None
  | a :: l1 =>
      if (a <? 128)%N then Some (a, l1)
      else if (a <? 224)%N then
        match l1 with
        | b :: l2 =>
            let c := ((a - 192) * 64 + (b - 128))%N in
            if ((192 <=? a) && continuation b && (128 <=? c))%N then Some (c, l2) else None
        | _ => None
        end
      else if (a <? 240)%N then
        match l1 with
        | b :: b' :: l3 =>
            let c := ((a - 224) * 4096 + (b - 128) * 64 + (b' - 128))%N in
            if (continuation b && continuation b' && (2048 <=? c) && negb (is_surrogate c))%N
            then Some (c, l3) else None
        | _ => None
        end
      else
        match l1 with
        | b :: b' :: b'' :: l4 =>
            let c := ((a - 240) * 262144 + (b - 128) * 4096 + (b' - 128) * 64 + (b'' - 128))%N in
            if (continuation b && continuation b' && continuation b'' && (65536 <=? c) && (c <? 1114112))%N
            then Some (c, l4) else None
        | _ => None
        end
  end.

(** [b.decode()]; every step takes a byte, so the length is fuel enough. *)
Fixpoint decode_fuel (fuel : nat) (l : bytes) : res exn pystr :=
  match l with
  | [] => Ok []
  | _ =>
      match fuel, take_char l with
      | S fuel', Some (c, l') => s ← decode_fuel fuel' l'; Ok (c :: s)
      | _, _ => Err UnicodeDecodeError
      end
  end.
Definition decode (l : bytes) : res exn pystr := decode_fuel (length l) l.

(** Code points *)
Definition text (s : pystr) : Prop := Forall (λ c, c < 1114112)%N s.

(** Decide the comparisons of a goal by the arithmetic of its context. *)
Ltac decide_compares :=
  repeat match goal with
    | |- context [(?a <? ?b)%N] =>
        first [ replace (a <? b)%N with true by (symmetry; apply N.ltb_lt; nlia)
              | replace (a <? b)%N with false by (symmetry; apply N.ltb_ge; nlia) ]
    | |- context [(?a <=? ?b)%N] =>
        first [ replace (a <=? b)%N with true by (symmetry; apply N.leb_le; nlia)
              | replace (a <=? b)%N with false by (symmetry; apply N.leb_gt; nlia) ]
    end.

Lemma take_char_encoded c l :
  (c < 1114112)%N → is_surrogate c = false → take_char (utf8_char c ++ l) = Some (c, l).
Proof.
  intros Hc Hs. unfold utf8_char.
  destruct (N.ltb_spec c 128) as [H1|H1]; [cbn [app take_char]; by decide_compares|].
  destruct (N.ltb_spec c 2048) as [H2|H2].
  { cbn [app take_char]. replace ((192 + c / 64 - 192) * 64 + (128 + c mod 64 - 128))%N with c by nlia.
    unfold continuation. by decide_compares. }
  destruct (N.ltb_spec c 65536) as [H3|H3]; cbn [app take_char].
  - replace ((224 + c / 4096 - 224) * 4096 + (128 + (c / 64) mod 64 - 128) * 64 + (128 + c mod 64 - 128))%N
      with c by nlia.
    rewrite Hs. unfold continuation. by decide_compares.
  - replace ((240 + c / 262144 - 240) * 262144 + (128 + (c / 4096) mod 64 - 128) * 4096
             + (128 + (c / 64) mod 64 - 128) * 64 + (128 + c mod 64 - 128))%N with c by nlia.
    unfold continuation. by decide_compares.
Qed.

Lemma length_utf8_char c : (1 ≤ length (utf8_char c))%nat.
Proof. unfold utf8_char. repeat case_match; simpl; lia. Qed.
Lemma utf8_char_bytes c : (c < 1114112)%N → Forall is_byte (utf8_char c).
Proof. intros Hc. unfold utf8_char, is_byte. repeat case_match; repeat constructor; rewrite ?N.ltb_lt, ?N.ltb_ge in *; nlia. Qed.

Lemma decode_encode s b : text s → encode s = Ok b → decode b = Ok s.
Proof.
  intros Ht. unfold encode, decode. destruct (encodable s) eqn:He; [|done]. intros [= <-].
  assert (Hgo : ∀ fuel, (length (concat (map utf8_char s)) ≤ fuel)%nat →
            decode_fuel fuel (concat (map utf8_char s)) = Ok s); [|by apply Hgo].
  induction s as [|c s IH]; intros fuel Hf; [by destruct fuel|].
  apply Forall_cons in Ht as [Hc Ht]. unfold encodable in He. simpl in He, Hf.
  apply andb_true_iff in He as [Hs He]. apply negb_true_iff in Hs. rewrite length_app in Hf.
  pose proof (length_utf8_char c) as Hl. destruct fuel as [|fuel]; [lia|].
  cbn [map concat]. pose proof (take_char_encoded c (concat (map utf8_char s)) Hc Hs) as Hk.
  destruct (utf8_char c ++ concat (map utf8_char s)) as [|x l] eqn:Hx.
  { apply (f_equal length) in Hx. rewrite length_app in Hx. simpl in Hx. lia. }
  cbn [decode_fuel]. rewrite Hk, IH; [done|done|done|lia].
Qed.

Lemma take_char_text l c l' : take_char l = Some (c, l') → (c < 1114112)%N.
Proof.
  unfold take_char, continuation. intros Hl.
  repeat (case_match; simplify_eq; rewrite ?andb_true_iff, ?N.ltb_lt, ?N.ltb_ge, ?N.leb_le in *); lia.
Qed.
Lemma decode_text l s : decode l = Ok s → text s.
Proof.
  unfold decode. generalize (length l). intros fuel. revert l s.
  induction fuel as [|fuel IH]; intros l s; (destruct l as [|a l]; [intros [= <-]; constructor|]); [done|]. cbn [decode_fuel].
  destruct (take_char (a :: l)) as [[c l']|] eqn:Hc; [|done].
  destruct (decode_fuel fuel l') as [s'|] eqn:Hs; [|done]. intros [= <-].
  constructor; [by eapply take_char_text|by eapply IH].
Qed.

Lemma encode_inj s s' b : text s → text s' → encode s = Ok b → encode s' = Ok b → s = s'.
Proof. intros H1 H2 E1%decode_encode E2%decode_encode; congruence. Qed.

(** ** Base64 *)

Definition b64_char (i : N) : N :=
  if (i <? 26)%N then (65 + i)%N else if (i <? 52)%N then (97 + (i - 26))%N
  else if (i <? 62)%N then (48 + (i - 52))%N else if (i =? 62)%N then 43%N else 47%N.
Definition b64_value (c : N) : option N :=
  if ((65 <=? c) && (c <=? 90))%N then Some (c - 65)%N
  else if ((97 <=? c) && (c <=? 122))%N then Some (c - 97 + 26)%N
  else if ((48 <=? c) && (c <=? 57))%N then Some (c - 48 + 52)%N
  else if (c =? 43)%N then Some 62%N else if (c =? 47)%N then Some 63%N else None.

Fixpoint b64_groups (l : bytes) : pystr :=
  match l with
  | a :: b :: c :: l' =>
      b64_char (a / 4) :: b64_char ((a mod 4) * 16 + b / 16) :: b64_char ((b mod 16) * 4 + c / 64)
        :: b64_char (c mod 64) :: b64_groups l'
  | [a; b] => [b64_char (a / 4); b64_char ((a mod 4) * 16 + b / 16); b64_char ((b mod 16) * 4); 61]
  | [a] => [b64_char (a / 4); b64_char ((a mod 4) * 16); 61; 61]
  | [] => []
  end%N.

(** [_b64e] *)
Definition b64e (raw : bytes) : pystr := b64_groups raw.

(** [binascii.a2b_base64]: the place in the group, the bits left over, the pads
    seen since the last character, the bytes so far. *)
Fixpoint b64_scan (place : nat) (left : N) (pads out : nat) (s : bytes) : res exn bytes :=
  match s with
  | [] =>
      match place with
      | O => Ok []
      | 1%nat => Err (ValueError (u "Invalid base64-encoded string: number of data characters ("
                   ++ str_of_Z (Z.of_nat (out / 3 * 4 + 1))
                   ++ u ") cannot be 1 more than a multiple of 4"))
      | _ => Err (ValueError (u "Incorrect padding"))
      end
  | c :: s' =>
      if (c =? 61)%N then
        if (2 <=? place)%nat then
          if (4 <=? place + S pads)%nat then Ok [] else b64_scan place left (S pads) out s'
        else b64_scan place left pads out s'
      else
        match b64_value c with
        | None => b64_scan place left pads out s'
        | Some v =>
            match place with
            | O => b64_scan 1 v 0 out s'
            | 1%nat => l ← b64_scan 2 (v mod 16) 0 (S out) s'; Ok ((left * 4 + v / 16)%N :: l)
            | 2%nat => l ← b64_scan 3 (v mod 4) 0 (S out) s'; Ok ((left * 16 + v / 4)%N :: l)
            | _ => l ← b64_scan 0 0 0 (S out) s'; Ok ((left * 64 + v)%N :: l)
            end
        end
  end.

(** [_b64d] *)
Definition b64d (text : pystr) : res exn bytes := b ← encode text; b64_scan 0 0 0 0 b.

Arguments encode : simpl never.
Arguments decode : simpl never.
Arguments b64e : simpl never.
Arguments b64d : simpl never.

Lemma b64_value_char i : (i < 64)%N → b64_value (b64_char i) = Some i.
Proof.
  intros Hi. unfold b64_char. repeat (case_match; rewrite ?N.ltb_lt, ?N.ltb_ge, ?N.eqb_eq, ?N.eqb_neq in *);
    unfold b64_value; decide_compares; cbn [andb]; simpl; try (f_equal; lia); f_equal; lia.
Qed.
Lemma b64_char_not_pad i : (i < 64)%N → (b64_char i =? 61)%N = false.
Proof.
  intros Hi. apply N.eqb_neq. unfold b64_char.
  repeat (case_match; rewrite ?N.ltb_lt, ?N.ltb_ge, ?N.eqb_eq, ?N.eqb_neq in *); lia.
Qed.

(** The characters of an encoding: ASCII, and no dot. *)
Definition b64_text (c : N) : Prop := (c < 128)%N ∧ c ≠ 46%N.
Lemma b64_char_text i : (i < 64)%N → b64_text (b64_char i).
Proof.
  intros Hi. unfold b64_char, b64_text.
  repeat (case_match; rewrite ?N.ltb_lt, ?N.ltb_ge, ?N.eqb_eq, ?N.eqb_neq in *); lia.
Qed.

(** Lists by threes *)
Lemma by_threes {A} (P : list A → Prop) :
  P [] → (∀ a, P [a]) → (∀ a b, P [a; b]) → (∀ a b c l, P l → P (a :: b :: c :: l)) → ∀ l, P l.
Proof.
  intros H0 H1 H2 H3. enough (∀ n l, (length l ≤ n)%nat → P l) by (intros l; by apply (H (length l))).
  induction n as [|n IH]; intros [|a [|b [|c l]]] Hl; simpl in Hl; try done; [lia..|]. apply H3, IH. lia.
Qed.

Lemma b64e_text l : Forall is_byte l → Forall b64_text (b64e l).
Proof.
  unfold b64e, is_byte. induction l as [|a|a b|a b c l IH] using by_threes; intros Hl; [done|..].
  - rewrite Forall_singleton in Hl. repeat constructor; try done; apply b64_char_text; nlia.
  - rewrite !Forall_cons in Hl. destruct Hl as (Ha & Hb & _).
    repeat constructor; try done; apply b64_char_text; nlia.
  - rewrite !Forall_cons in Hl. destruct Hl as (Ha & Hb & Hc & Hl). cbn [b64_groups].
    do 4 (constructor; [apply b64_char_text; nlia|]). by apply IH.
Qed.

Lemma b64_scan_char place left pads out i s :
  (i < 64)%N →
  b64_scan place left pads out (b64_char i :: s)
  = match place with
    | O => b64_scan 1 i 0 out s
    | 1%nat => l ← b64_scan 2 (i mod 16) 0 (S out) s; Ok ((left * 4 + i / 16)%N :: l)
    | 2%nat => l ← b64_scan 3 (i mod 4) 0 (S out) s; Ok ((left * 16 + i / 4)%N :: l)
    | _ => l ← b64_scan 0 0 0 (S out) s; Ok ((left * 64 + i)%N :: l)
    end.
Proof. intros Hi. cbn [b64_scan]. by rewrite b64_char_not_pad, b64_value_char. Qed.

Lemma b64_scan_groups l out : Forall is_byte l → b64_scan 0 0 0 out (b64_groups l) = Ok l.
Proof.
  revert out. unfold is_byte. induction l as [|a|a b|a b c l IH] using by_threes; intros out Hl; [done|..].
  - rewrite Forall_singleton in Hl. cbn [b64_groups]. rewrite !b64_scan_char by nlia. cbn. do 2 f_equal. nlia.
  - rewrite !Forall_cons in Hl. destruct Hl as (Ha & Hb & _). cbn [b64_groups]. rewrite !b64_scan_char by nlia.
    cbn. do 2 f_equal; [nlia|]. f_equal. nlia.
  - rewrite !Forall_cons in Hl. destruct Hl as (Ha & Hb & Hc & Hl). cbn [b64_groups].
    rewrite !b64_scan_char by nlia. rewrite IH by done. cbn. do 2 f_equal; [nlia|]. f_equal; [nlia|]. f_equal. nlia.
Qed.

Lemma encode_ascii s : Forall (λ c, c < 128)%N s → encode s = Ok s.
Proof.
  intros Hs. unfold encode. replace (encodable s) with true.
  - f_equal. induction Hs as [|c s Hc Hs IH]; [done|]. cbn [map concat]. rewrite IH.
    unfold utf8_char. by apply N.ltb_lt in Hc as ->.
  - symmetry. apply forallb_forall. intros c Hc%list_elem_of_In. rewrite Forall_forall in Hs.
    apply Hs in Hc. unfold is_surrogate. apply negb_true_iff, andb_false_iff. left. apply N.leb_gt. lia.
Qed.

Lemma b64d_b64e l : Forall is_byte l → b64d (b64e l) = Ok l.
Proof.
  intros Hl. unfold b64d. rewrite encode_ascii; [by apply b64_scan_groups|].
  eapply Forall_impl; [by apply b64e_text|]. by intros c [? _].
Qed.
