(* ===== verification/Crypto.v ===== *)
(** * Envelope encryption (src/core/crypto.py)

    The stored form of a provider key: a data key encrypts the secret, the master
    key the data key, and the version of the master key is written into the text.
    AES-GCM is a library: its two functions are the arguments collected in
    [Cipher], with what the program relies on as [CipherLaws].  The random bytes
    of one encryption are an argument. *)

From S2P Require Import Prelude PyStr PyFloat PyVal Config Bytes Security.

Class Cipher := {
  gcm_encrypt : bytes → bytes → bytes → bytes → res exn bytes;    (* key, nonce, data, associated data *)
  gcm_decrypt : bytes → bytes → bytes → bytes → res exn bytes;
  uc_digit : N → bool }.                                          (* str.isdigit, code points >= 128 *)

Definition InvalidTag : exn := ExternalError (u "InvalidTag") [].

(** What AES-GCM promises for 256-bit keys and 96-bit nonces: decryption inverts
    encryption, and refuses any other associated data. *)
Record CipherLaws `{Cipher} : Prop := {
  gcm_inverts k n d a c : length k = 32%nat → length n = 12%nat →
    gcm_encrypt k n d a = Ok c → gcm_decrypt k n c a = Ok d;
  gcm_binds k n d a a' c : length k = 32%nat → length n = 12%nat → a ≠ a' →
    gcm_encrypt k n d a = Ok c → gcm_decrypt k n c a' = Err InvalidTag;
  gcm_bytes k n d a c : gcm_encrypt k n d a = Ok c → Forall is_byte c }.

Definition VERSION : pystr := u "v2".
Definition LEGACY_VERSION : pystr := u "v1".

Record Envelope := mkEnvelope {
  en_version : pystr; en_kek_version : pystr; en_wrapped_dek : pystr; en_dek_nonce : pystr;
  en_ciphertext : pystr; en_kek_nonce : pystr }.

Definition malformed : exn := CryptoError (u "malformed ciphertext").

(** [Envelope.parse] *)
Definition parse (blob : pystr) : res exn Envelope :=
  match split (u ".") blob with
  | [v; wrapped_dek; dek_nonce; ciphertext; kek_nonce] =>
      if bool_decide (v = LEGACY_VERSION)
      then Ok (mkEnvelope LEGACY_VERSION (u "1") wrapped_dek dek_nonce ciphertext kek_nonce) else Err malformed
  | [v; kek_version; wrapped_dek; dek_nonce; ciphertext; kek_nonce] =>
      if bool_decide (v = VERSION)
      then Ok (mkEnvelope VERSION kek_version wrapped_dek dek_nonce ciphertext kek_nonce) else Err malformed
  | _ => Err malformed
  end.

(** [Envelope.render] *)
Definition render (e : Envelope) : pystr :=
  join (u ".") [en_version e; en_kek_version e; en_wrapped_dek e; en_dek_nonce e; en_ciphertext e; en_kek_nonce e].

(** The random bytes of one encryption *)
Record Randomness := mkRandomness { rn_dek : bytes; rn_dek_nonce : bytes; rn_kek_nonce : bytes }.

Section crypto.
Context `{PyTables} `{Vault} `{Cipher} (settings : Settings).

(** ** Master keys *)

Definition isdigit (s : pystr) : bool :=
  negb (bool_decide (s = [])) && forallb (λ c, if (c <? 128)%N then ascii_digit c else uc_digit c) s.
Definition version_order (v : pystr) : res exn Z := if isdigit v then py_int (VStr v) else Ok 0.

(** [max(versions, key=...)]: the first of the greatest *)
Fixpoint max_version (best : pystr) (order : Z) (l : list pystr) : res exn pystr :=
  match l with
  | [] => Ok best
  | v :: l' =>
      n ← version_order v;
      if order <? n then max_version v n l' else max_version best order l'
  end.

(** [Settings.active_master_key] *)
Definition active_master_key : res exn (pystr * pystr) :=
  match cfg_master_keys settings with
  | [] => Err (ValueError (u "no MASTER_KEYS configured"))
  | (first, _) :: rest =>
      match assoc (cfg_master_key_version settings) (cfg_master_keys settings) with
      | Some key => Ok (cfg_master_key_version settings, key)
      | None =>
          order ← version_order first;
          version ← max_version first order (map fst rest);
          match assoc version (cfg_master_keys settings) with
          | Some key => Ok (version, key)
          | None => Err (KeyError version)
          end
      end
  end.

Definition not_32_bytes (version : pystr) : exn :=
  CryptoError (u "MASTER_KEYS[" ++ version ++ u "] must decode to exactly 32 bytes").

(** [_kek] *)
Definition kek (version : pystr) : res exn bytes :=
  match cfg_master_keys settings with
  | [] => Err (CryptoError (u "MASTER_KEYS is not configured"))
  | _ =>
      match assoc version (cfg_master_keys settings) with
      | None =>
          Err (CryptoError (u "ciphertext was wrapped with KEK version " ++ repr_str version
                 ++ u ", which is not configured; restore it before decrypting"))
      | Some text =>
          key ← b64d text;
          if (length key =? 32)%nat then Ok key else Err (not_32_bytes version)
      end
  end.

(** ** Secrets *)

Definition encrypt_secret (rng : Randomness) (plaintext aad : pystr) : res exn pystr :=
  match plaintext with
  | [] => Err (CryptoError (u "refusing to encrypt an empty secret"))
  | _ =>
      active ← active_master_key;
      let '(version, key_b64) := active in
      key ← b64d key_b64;
      if negb (length key =? 32)%nat then Err (not_32_bytes version)
      else
        aad_bytes ← encode aad;
        data ← encode plaintext;
        ciphertext ← gcm_encrypt (rn_dek rng) (rn_dek_nonce rng) data aad_bytes;
        wrapped_dek ← gcm_encrypt key (rn_kek_nonce rng) (rn_dek rng) aad_bytes;
        Ok (render (mkEnvelope VERSION version (b64e wrapped_dek) (b64e (rn_dek_nonce rng)) (b64e ciphertext)
                      (b64e (rn_kek_nonce rng))))
  end.

Definition decrypt_secret (blob aad : pystr) : res exn pystr :=
  env ← parse blob;
  key ← kek (en_kek_version env);
  aad_bytes ← encode aad;
  kek_nonce ← b64d (en_kek_nonce env);
  wrapped ← b64d (en_wrapped_dek env);
  dek ← gcm_decrypt key kek_nonce wrapped aad_bytes;
  dek_nonce ← b64d (en_dek_nonce env);
  data ← b64d (en_ciphertext env);
  plain ← gcm_decrypt dek dek_nonce data aad_bytes;
  decode plain.

Definition needs_rewrap (blob : pystr) : res exn bool :=
  env ← parse blob;
  active ← active_master_key;
  Ok (negb (bool_decide (en_version env = VERSION)) || negb (bool_decide (en_kek_version env = active.1))).

Definition rewrap (rng : Randomness) (blob aad : pystr) : res exn pystr :=
  plaintext ← decrypt_secret blob aad;
  encrypt_secret rng plaintext aad.

Definition mask_secret (plaintext : pystr) : pystr :=
  if py_len plaintext <=? 12 then replicate (length plaintext) 42%N
  else slice_to 6 plaintext ++ u "..." ++ drop (length plaintext - 4) plaintext.

Definition fingerprint (plaintext : pystr) : res exn pystr :=
  if encodable plaintext then Ok (slice_to 16 (sha256_hex plaintext)) else Err UnicodeEncodeError.
End crypto.

(** ** The envelope *)

(** Fields an envelope can be read back from *)
Definition no_dot (s : pystr) : Prop := 46%N ∉ s.
Definition readable (e : Envelope) : Prop :=
  en_version e = VERSION ∧ no_dot (en_kek_version e) ∧ no_dot (en_wrapped_dek e) ∧ no_dot (en_dek_nonce e) ∧
  no_dot (en_ciphertext e) ∧ no_dot (en_kek_nonce e).

Lemma parse_render e : readable e → parse (render e) = Ok e.
Proof.
  intros (Hv & H1 & H2 & H3 & H4 & H5). unfold parse, render, split. change (u ".") with [46%N].
  rewrite split_join_char; [|done| |lia].
  - rewrite bool_decide_eq_true_2 by done. destruct e. simpl in *. by subst.
  - repeat constructor; try done. rewrite Hv. by apply (bool_decide_unpack _); vm_compute.
Qed.

Lemma b64e_no_dot l : Forall is_byte l → no_dot (b64e l).
Proof. intros Hl Hin. apply b64e_text in Hl. rewrite Forall_forall in Hl. by destruct (Hl _ Hin). Qed.

Definition random_ok (rng : Randomness) : Prop :=
  length (rn_dek rng) = 32%nat ∧ length (rn_dek_nonce rng) = 12%nat ∧ length (rn_kek_nonce rng) = 12%nat ∧
  Forall is_byte (rn_dek_nonce rng) ∧ Forall is_byte (rn_kek_nonce rng).

Section roundtrip.
Context `{PyTables} `{Vault} `{Cipher}.

Implicit Types (settings : Settings) (rng : Randomness).

(** What a successful encryption wrote, and with what *)
Record sealed settings rng (plaintext aad blob version key_b64 : pystr) (key aad_b data c w : bytes) : Prop := {
  se_active : active_master_key settings = Ok (version, key_b64);
  se_key : b64d key_b64 = Ok key;
  se_length : length key = 32%nat;
  se_aad : encode aad = Ok aad_b;
  se_data : encode plaintext = Ok data;
  se_cipher : gcm_encrypt (rn_dek rng) (rn_dek_nonce rng) data aad_b = Ok c;
  se_wrapped : gcm_encrypt key (rn_kek_nonce rng) (rn_dek rng) aad_b = Ok w;
  se_blob : blob = render (mkEnvelope VERSION version (b64e w) (b64e (rn_dek_nonce rng)) (b64e c)
                             (b64e (rn_kek_nonce rng))) }.

Lemma encrypt_inv settings rng plaintext aad blob :
  encrypt_secret settings rng plaintext aad = Ok blob →
  ∃ version key_b64 key aad_b data c w, sealed settings rng plaintext aad blob version key_b64 key aad_b data c w.
Proof.
  unfold encrypt_secret. destruct plaintext as [|x plaintext]; [done|].
  destruct (active_master_key settings) as [[version key_b64]|] eqn:Ha; [|done]. simpl.
  destruct (b64d key_b64) as [key|] eqn:Hk; [|done]. simpl.
  destruct (Nat.eqb_spec (length key) 32) as [Hl|]; [|done]. simpl.
  destruct (encode aad) as [aad_b|] eqn:Haad; [|done]. simpl.
  destruct (encode (x :: plaintext)) as [data|] eqn:Hd; [|done]. simpl.
  destruct (gcm_encrypt (rn_dek rng) _ _ _) as [c|] eqn:Hc; [|done]. simpl.
  destruct (gcm_encrypt key _ _ _) as [w|] eqn:Hw; [|done]. simpl. intros [= <-].
  by exists version, key_b64, key, aad_b, data, c, w.
Qed.

(** Reading an envelope back under any settings that still have its master key *)
Lemma sealed_parse settings rng plaintext aad blob version key_b64 key aad_b data c w :
  CipherLaws → random_ok rng → no_dot version →
  sealed settings rng plaintext aad blob version key_b64 key aad_b data c w →
  parse blob = Ok (mkEnvelope VERSION version (b64e w) (b64e (rn_dek_nonce rng)) (b64e c) (b64e (rn_kek_nonce rng))).
Proof.
  intros HL (_ & _ & _ & Hn1 & Hn2) Hdot S. rewrite (se_blob _ _ _ _ _ _ _ _ _ _ _ _ S). apply parse_render.
  split_and!; try done; apply b64e_no_dot; try done.
  - exact (gcm_bytes HL _ _ _ _ _ (se_wrapped _ _ _ _ _ _ _ _ _ _ _ _ S)).
  - exact (gcm_bytes HL _ _ _ _ _ (se_cipher _ _ _ _ _ _ _ _ _ _ _ _ S)).
Qed.

Lemma kek_present settings version key_b64 key :
  assoc version (cfg_master_keys settings) = Some key_b64 → b64d key_b64 = Ok key → length key = 32%nat →
  kek settings version = Ok key.
Proof.
  intros Ha Hk Hl. unfold kek. destruct (cfg_master_keys settings) as [|k ks]; [done|]. rewrite Ha, Hk. simpl.
  by rewrite Hl.
Qed.

Lemma sealed_decrypt settings rng plaintext aad blob version key_b64 key aad_b data c w settings' :
  CipherLaws → random_ok rng → no_dot version → text plaintext → text aad →
  sealed settings rng plaintext aad blob version key_b64 key aad_b data c w →
  assoc version (cfg_master_keys settings') = Some key_b64 →
  decrypt_secret settings' blob aad = Ok plaintext ∧
  ∀ aad', text aad' → encodable aad' = true → aad' ≠ aad → decrypt_secret settings' blob aad' = Err InvalidTag.
Proof.
  intros HL Hr Hdot Ht1 Ht2 S Hv. pose proof (sealed_parse _ _ _ _ _ _ _ _ _ _ _ _ HL Hr Hdot S) as Hp.
  destruct Hr as (L1 & L2 & L3 & B1 & B2), S as [_ Sk Sl Sa Sd Sc Sw _].
  pose proof (gcm_bytes HL _ _ _ _ _ Sw) as Bw. pose proof (gcm_bytes HL _ _ _ _ _ Sc) as Bc.
  unfold decrypt_secret. rewrite Hp. simpl. rewrite (kek_present _ _ _ _ Hv Sk Sl). simpl. split.
  - rewrite Sa. simpl. rewrite !b64d_b64e by done. simpl.
    rewrite (gcm_inverts HL _ _ _ _ _ Sl L3 Sw). simpl.
    rewrite (gcm_inverts HL _ _ _ _ _ L1 L2 Sc). simpl. by apply decode_encode.
  - intros aad' Ht He Hne. destruct (encode aad') as [aad_b'|] eqn:Ha'; [|unfold encode in Ha'; by rewrite He in Ha'].
    simpl. rewrite !b64d_b64e by done. simpl. rewrite (gcm_binds HL key (rn_kek_nonce rng) (rn_dek rng) aad_b aad_b' w Sl L3); [done| |exact Sw].
    intros <-. apply Hne. by eapply encode_inj.
Qed.

(** an encrypted secret comes back, and only to its owner: whatever the random bytes
    were, under any later settings that still hold the master key it was wrapped with the
    stored text decrypts to the secret for the organisation it was encrypted for, and is
    refused for every other organisation. *)
Theorem secret_roundtrip settings rng plaintext aad blob version key settings' :
  CipherLaws → random_ok rng → text plaintext → text aad →
  encrypt_secret settings rng plaintext aad = Ok blob →
  active_master_key settings = Ok (version, key) → no_dot version →
  assoc version (cfg_master_keys settings') = Some key →
  decrypt_secret settings' blob aad = Ok plaintext ∧
  ∀ aad', text aad' → encodable aad' = true → aad' ≠ aad → decrypt_secret settings' blob aad' = Err InvalidTag.
Proof.
  intros HL Hr Ht1 Ht2 (v & k & key' & aad_b & data & c & w & S)%encrypt_inv Ha Hdot Hv.
  pose proof (se_active _ _ _ _ _ _ _ _ _ _ _ _ S) as Ha'. rewrite Ha in Ha'. injection Ha' as <- <-.
  by eapply sealed_decrypt.
Qed.

Lemma rewrap_sealed settings rng blob aad plaintext blob' version key settings' :
  CipherLaws → random_ok rng → text aad →
  decrypt_secret settings blob aad = Ok plaintext → rewrap settings rng blob aad = Ok blob' →
  active_master_key settings = Ok (version, key) → no_dot version →
  assoc version (cfg_master_keys settings') = Some key →
  needs_rewrap settings blob' = Ok false ∧ decrypt_secret settings' blob' aad = Ok plaintext.
Proof.
  intros HL Hr Ht Hd. unfold rewrap. rewrite Hd. simpl.
  intros (v & k & key' & aad_b & data & c & w & S)%encrypt_inv Ha Hdot Hv.
  pose proof (se_active _ _ _ _ _ _ _ _ _ _ _ _ S) as Ha'. rewrite Ha in Ha'. injection Ha' as <- <-. split.
  - unfold needs_rewrap. rewrite (sealed_parse _ _ _ _ _ _ _ _ _ _ _ _ HL Hr Hdot S). simpl. rewrite Ha. simpl.
    by rewrite !bool_decide_eq_true_2.
  - assert (text plaintext) as Htp.
    { clear -Hd. unfold decrypt_secret in Hd.
      repeat match type of Hd with
        | mbind _ ?m = Ok _ => destruct m; [cbn [mbind res_bind] in Hd|discriminate Hd]
        end. by eapply decode_text. }
    by apply (sealed_decrypt _ _ _ _ _ _ _ _ _ _ _ _ settings' HL Hr Hdot Htp Ht S Hv).
Qed.
Lemma rewrap_kept settings rng blob aad plaintext blob' version key settings' :
  CipherLaws → random_ok rng → text aad →
  active_master_key settings = Ok (version, key) → no_dot version →
  assoc version (cfg_master_keys settings') = Some key →
  rewrap settings rng blob aad = Ok blob' → decrypt_secret settings blob aad = Ok plaintext →
  decrypt_secret settings' blob' aad = Ok plaintext.
Proof. intros. eapply rewrap_sealed; eauto. Qed.

(** key rotation loses nothing: a secret that still decrypts is re-encrypted under the
    active master key, needs no further rotation, and decrypts under any settings that
    keep the active key, with or without the old one. *)
Theorem rewrap_rotates settings rng blob aad plaintext blob' version key settings' :
  CipherLaws → random_ok rng → text aad →
  decrypt_secret settings blob aad = Ok plaintext → rewrap settings rng blob aad = Ok blob' →
  active_master_key settings = Ok (version, key) → no_dot version →
  assoc version (cfg_master_keys settings') = Some key →
  needs_rewrap settings blob' = Ok false ∧ decrypt_secret settings' blob' aad = Ok plaintext.
Proof. exact (rewrap_sealed settings rng blob aad plaintext blob' version key settings'). Qed.
End roundtrip.
