(* ===== verification/Keyring.v ===== *)
(** * Stored provider keys (src/api/routers/keys.py, src/scripts/rotate_keys.py)

    The keys an organisation stores: adding, listing and deleting them, and the
    script that moves them to the newest master key.  Together with Crypto and
    Keys: what is stored is what a run later calls its provider with. *)

From S2P Require Import Prelude PyStr PyFloat PyVal Config State Registry Pricing Keys Events World Workflow.
From S2P Require Import Database Auditing Billing Bytes Security Crypto RateLimit Api ApiSafety Auth.

Record ApiKeyCreate := mkKeyCreate { kc_provider : pystr; kc_api_key : pystr }.
Record ApiKeyOut := mkKeyOut {
  ko_id : pystr; ko_provider : pystr; ko_mask : pystr; ko_fingerprint : pystr; ko_is_active : bool;
  ko_last_used_at : option Z; ko_last_error : option pystr }.

Definition key_out (k : ApiKey) : ApiKeyOut :=
  mkKeyOut (ak_id k) (ak_provider k) (ak_mask k) (ak_fingerprint k) (ak_is_active k) (ak_last_used_at k)
    (ak_last_error k).

(** [ApiKeyCreate._no_whitespace] *)
Definition no_whitespace `{PyTables} (value : pystr) : res exn pystr :=
  let stripped := strip value in
  if bool_decide (stripped = []) || bool_decide (32%N ∈ stripped)
  then Err (ValueError (u "api key must not contain whitespace")) else Ok stripped.

(** The environment of a request that stores keys: the cipher and its random bytes *)
Class KeyEnv := { key_api :: ApiEnv; key_cipher :: Cipher; key_random : nat → Randomness }.

(** ** Rows *)

Definition same_slot (org_id provider : pystr) (k : ApiKey) : bool :=
  bool_decide (ak_org_id k = org_id) && bool_decide (ak_provider k = provider).
Definition find_slot (org_id provider : pystr) (d : Db) : option ApiKey :=
  List.find (same_slot org_id provider) (db_api_keys d).
Definition find_api_key (id : pystr) (d : Db) : option ApiKey :=
  List.find (λ k, bool_decide (ak_id k = id)) (db_api_keys d).
Definition key_allowed (row : ApiKey) (d : Db) : bool :=
  forallb (λ k, negb (same_slot (ak_org_id row) (ak_provider row) k)) (db_api_keys d).
Definition update_api_key (id : pystr) (f : ApiKey → ApiKey) (d : Db) : Db :=
  set_api_keys (map (λ k, if bool_decide (ak_id k = id) then f k else k) (db_api_keys d)) d.
Definition remove_api_key (id : pystr) (d : Db) : Db :=
  set_api_keys (List.filter (λ k, negb (bool_decide (ak_id k = id))) (db_api_keys d)) d.
Definition renew_key (ciphertext mask digest : pystr) (k : ApiKey) : ApiKey :=
  mkApiKey (ak_id k) (ak_org_id k) (ak_provider k) ciphertext mask digest true (ak_last_used_at k) None
    (ak_created_by k).
Definition set_ciphertext (ciphertext : pystr) (k : ApiKey) : ApiKey :=
  mkApiKey (ak_id k) (ak_org_id k) (ak_provider k) ciphertext (ak_mask k) (ak_fingerprint k) (ak_is_active k)
    (ak_last_used_at k) (ak_last_error k) (ak_created_by k).

(** What [KeyResolver._byok_key] selects *)
Definition stored_key (d : Db) (org_id : pystr) (p : Provider) : option pystr :=
  ak_ciphertext <$> List.find (λ k, same_slot org_id (provider_value p) k && ak_is_active k) (db_api_keys d).

Section keyring.
Context `{KeyEnv}.
Abbreviation Api A := (M ApiWorld exn A).

Definition audit_key (action : pystr) (rq : Request) (c : OrgContext) (target provider digest : pystr) : Api unit :=
  on_sql (audit_record (audit_row action (Some (oc_org_id c)) (Some (us_id (oc_user c))) (Some (u "api_key"))
                          (Some target) (client_ip rq) None
                          [(u "provider", VStr provider); (u "fingerprint", VStr digest)])).

(** [os.urandom] *)
Definition randomness : Api Randomness := λ w, (Ok (key_random (ap_tick w)), next_tick w).

Definition upsert_key (payload : ApiKeyCreate) (rq : Request) (c : OrgContext) : Api ApiKeyOut :=
  rng ← randomness;
  ciphertext ← lift_res (encrypt_secret api_settings rng (kc_api_key payload) (oc_org_id c));
  let mask := mask_secret (kc_api_key payload) in
  digest ← lift_res (fingerprint (kc_api_key payload));
  existing ← on_sql (query (find_slot (oc_org_id c) (kc_provider payload)));
  key ← match existing with
        | Some row =>
            _ ← on_sql (change (update_api_key (ak_id row) (renew_key ciphertext mask digest)));
            _ ← on_sql statement;
            m_ret (renew_key ciphertext mask digest row)
        | None =>
            id ← secret;
            let row := mkApiKey id (oc_org_id c) (kc_provider payload) ciphertext mask digest true None None
                         (Some (us_id (oc_user c))) in
            _ ← on_sql (insert (key_allowed row) (λ d, set_api_keys (db_api_keys d ++ [row]) d));
            m_ret row
        end;
  _ ← audit_key (u "api_key.added") rq c (ak_id key) (kc_provider payload) digest;
  m_ret (key_out key).

(** The order of the rows is the database's. *)
Definition list_keys (c : OrgContext) : Api (list ApiKeyOut) :=
  on_sql (query (λ d, map key_out (List.filter (λ k, bool_decide (ak_org_id k = oc_org_id c)) (db_api_keys d)))).

Definition delete_key (key_id : pystr) (rq : Request) (c : OrgContext) : Api unit :=
  o ← on_sql (query (find_api_key key_id));
  match o with
  | None => http_error 404 (u "key not found")
  | Some key =>
      if negb (bool_decide (ak_org_id key = oc_org_id c)) then http_error 404 (u "key not found")
      else
        _ ← on_sql (change (remove_api_key key_id));
        audit_key (u "api_key.deleted") rq c key_id (ak_provider key) (ak_fingerprint key)
  end.

Definition upsert_key_route rq org_id payload : Api ApiKeyOut := org_route (Some (u "admin")) rq org_id (upsert_key payload rq).
Definition list_keys_route rq org_id : Api (list ApiKeyOut) := org_route None rq org_id list_keys.
Definition delete_key_route rq org_id key_id : Api unit := org_route (Some (u "admin")) rq org_id (delete_key key_id rq).
End keyring.

(** ** Rotation *)

Section rotation.
Context `{PyTables} `{Vault} `{Cipher} (settings : Settings).

(** [apply]: a row that cannot be re-encrypted is counted and kept, one whose
    envelope cannot even be read ends the script. *)
Fixpoint rotate_rows (rng : nat → Randomness) (i : nat) (rows : list ApiKey) (rotated failed : Z) :
    res exn (list ApiKey * Z * Z) :=
  match rows with
  | [] => Ok ([], rotated, failed)
  | row :: rows' =>
      old ← needs_rewrap settings (ak_ciphertext row);
      if negb old then
        r ← rotate_rows rng (S i) rows' rotated failed;
        Ok (row :: r.1.1, r.1.2, r.2)
      else
        match rewrap settings (rng i) (ak_ciphertext row) (ak_org_id row) with
        | Ok ciphertext =>
            r ← rotate_rows rng (S i) rows' (rotated + 1) failed;
            Ok (set_ciphertext ciphertext row :: r.1.1, r.1.2, r.2)
        | Err _ =>
            r ← rotate_rows rng (S i) rows' rotated (failed + 1);
            Ok (row :: r.1.1, r.1.2, r.2)
        end
  end.

(** The whole script: the counts it prints, or the error it ends with. *)
Definition rotate_keys `{DbEnv} (rng : nat → Randomness) (d : Db) : res exn (Z * Z) * Db :=
  let '(r, s) := session_scope (λ m, m)
    (rows ← query db_api_keys;
     r ← lift_res (rotate_rows rng 0 rows 0 0);
     _ ← change (set_api_keys r.1.1);
     m_ret (r.1.2, r.2)) (open_session d) in
  (r, ss_committed s).
End rotation.
