(* ===== verification/KeyringSafety.v ===== *)
(** * What is stored can be used

    A key that was stored is the key a run of the organisation calls its provider
    with, other organisations' rows are left alone, and rotation keeps every
    credential readable. *)

From S2P Require Import Prelude PyStr PyFloat PyVal Config State Registry Pricing Keys Events World Workflow.
From S2P Require Import Database Auditing Billing Bytes Security Crypto RateLimit Api ApiSafety Auth Keyring.
From S2P Require Import BillingSafety AuthSafety AuthDemo Orgs OrgSafety.

(** ** Rows *)

Definition keys_of (org : pystr) (d : Db) : list ApiKey :=
  List.filter (λ k, bool_decide (ak_org_id k = org)) (db_api_keys d).

(** The primary key *)
Definition key_ids_unique (d : Db) : Prop := NoDup (map ak_id (db_api_keys d)).

Lemma same_slot_true o p k : same_slot o p k = true ↔ ak_org_id k = o ∧ ak_provider k = p.
Proof. unfold same_slot. by rewrite andb_true_iff, !bool_decide_eq_true. Qed.

(** The first row of a slot stays the first when rows are only rewritten in place. *)
Lemma find_slot_rewritten (P : ApiKey → bool) (g : ApiKey → ApiKey) l row :
  (∀ k, P (g k) = P k) → List.find P l = Some row → ak_is_active (g row) = true →
  List.find (λ k, P k && ak_is_active k) (map g l) = Some (g row).
Proof.
  intros HP. induction l as [|k l IH]; [done|]. cbn [List.find map]. rewrite HP. destruct (P k) eqn:Hk.
  - intros [= <-] ->. done.
  - intros Hf Ha. simpl. by apply IH.
Qed.

Lemma find_slot_added (P : ApiKey → bool) l row :
  List.find P l = None → P row = true → ak_is_active row = true →
  List.find (λ k, P k && ak_is_active k) (l ++ [row]) = Some row.
Proof.
  intros Hl HP Ha. induction l as [|k l IH]; cbn [List.find app] in *; [by rewrite HP, Ha|].
  destruct (P k); [done|]. simpl. by apply IH.
Qed.

Lemma key_by_id id d row k :
  key_ids_unique d → find_api_key id d = Some row → k ∈ db_api_keys d → ak_id k = id → k = row.
Proof.
  unfold key_ids_unique, find_api_key. intros Hn [Hin' Hid'%bool_decide_eq_true]%List.find_some Hin Hid.
  apply list_elem_of_In in Hin'.
  induction (db_api_keys d) as [|x l IH]; [by apply elem_of_nil in Hin|].
  cbn [map] in Hn. apply NoDup_cons in Hn as [Hx Hn]. apply elem_of_cons in Hin as [->|Hin], Hin' as [->|Hin'].
  - done.
  - destruct Hx. rewrite Hid, <- Hid'. by apply list_elem_of_fmap_2.
  - destruct Hx. rewrite Hid', <- Hid. by apply list_elem_of_fmap_2.
  - by apply IH.
Qed.

Lemma keys_of_rewritten org id f d row :
  key_ids_unique d → find_api_key id d = Some row → (∀ k, ak_org_id (f k) = ak_org_id k) →
  org ≠ ak_org_id row → keys_of org (update_api_key id f d) = keys_of org d.
Proof.
  intros Hn Hf Hk Hne. pose proof (λ k, key_by_id id d row k Hn Hf) as Hall.
  unfold keys_of, update_api_key. cbn [set_api_keys db_api_keys].
  induction (db_api_keys d) as [|k l IH]; [done|]. cbn [map List.filter].
  rewrite IH by (intros; apply Hall; [by right|done]).
  destruct (decide (ak_id k = id)) as [Hid|Hid]; [|by rewrite (bool_decide_eq_false_2 (ak_id k = id))].
  rewrite (bool_decide_eq_true_2 (ak_id k = id)), Hk by done. rewrite (Hall k); [|by left|done].
  by rewrite bool_decide_eq_false_2.
Qed.

Lemma keys_of_removed org id d row :
  key_ids_unique d → find_api_key id d = Some row → org ≠ ak_org_id row →
  keys_of org (remove_api_key id d) = keys_of org d.
Proof.
  intros Hn Hf Hne. pose proof (λ k, key_by_id id d row k Hn Hf) as Hall.
  unfold keys_of, remove_api_key. cbn [set_api_keys db_api_keys].
  induction (db_api_keys d) as [|k l IH]; [done|]. cbn [List.filter].
  assert (IH' := IH (λ x Hx, Hall x (list_elem_of_further _ _ _ Hx))). clear IH.
  destruct (decide (ak_id k = id)) as [Hid|Hid].
  - rewrite (bool_decide_eq_true_2 (ak_id k = id)) by done. cbn [negb]. rewrite IH'.
    rewrite (Hall k (list_elem_of_here _ _) Hid). by rewrite bool_decide_eq_false_2.
  - rewrite (bool_decide_eq_false_2 (ak_id k = id)) by done. cbn [negb List.filter]. by rewrite IH'.
Qed.

Lemma find_slot_id org p d row :
  key_ids_unique d → find_slot org p d = Some row →
  find_api_key (ak_id row) d = Some row ∧ ak_org_id row = org ∧ ak_provider row = p.
Proof.
  intros Hn Hf. apply List.find_some in Hf as [Hin [-> ->]%same_slot_true]. split; [|done].
  unfold find_api_key. destruct (List.find _ (db_api_keys d)) as [k|] eqn:Hk.
  - f_equal. symmetry. apply list_elem_of_In in Hin. by apply (key_by_id (ak_id row) d k row Hn Hk).
  - pose proof (List.find_none _ _ Hk row Hin) as Hx. cbn in Hx. by rewrite bool_decide_eq_true_2 in Hx.
Qed.

(** ** Storing a key *)

Section storing.
Context `{KeyEnv}.

(** The slot holds the new text, and no other organisation's rows changed. *)
Definition slot_set (org : pystr) (p ciphertext : pystr) (d d' : Db) : Prop :=
  (∀ q, provider_value q = p → stored_key d' org q = Some ciphertext) ∧
  ∀ o, o ≠ org → keys_of o d' = keys_of o d.

Lemma renewed_slot org p d row ct mask digest :
  key_ids_unique d → find_slot org p d = Some row →
  slot_set org p ct d (update_api_key (ak_id row) (renew_key ct mask digest) d).
Proof.
  intros Hn Hf. destruct (find_slot_id _ _ _ _ Hn Hf) as (Hid & Ho & Hp). split.
  - intros q <-. unfold stored_key, update_api_key. cbn [set_api_keys db_api_keys].
    rewrite (find_slot_rewritten _ _ _ row); [| |exact Hf|]; rewrite ?bool_decide_eq_true_2 by done; try done.
    intros k. by destruct (bool_decide (ak_id k = ak_id row)).
  - intros o Hne. apply (keys_of_rewritten _ _ _ _ row); try done. by rewrite Ho.
Qed.

Lemma added_slot org p d row :
  find_slot org p d = None → ak_org_id row = org → ak_provider row = p → ak_is_active row = true →
  slot_set org p (ak_ciphertext row) d (set_api_keys (db_api_keys d ++ [row]) d).
Proof.
  intros Hf Ho Hp Ha. split.
  - intros q <-. unfold stored_key. cbn [set_api_keys db_api_keys].
    rewrite (find_slot_added _ _ row); try done. by apply same_slot_true.
  - intros o Hne. unfold keys_of. cbn [set_api_keys db_api_keys]. rewrite List.filter_app. cbn.
    rewrite bool_decide_eq_false_2 by congruence. by rewrite app_nil_r.
Qed.

(** What a successful request to store a key did, up to the random bytes *)
Definition stored_as (payload : ApiKeyCreate) (org : pystr) (d d' : Db) : Prop :=
  ∃ n ct, encrypt_secret api_settings (key_random n) (kc_api_key payload) org = Ok ct ∧
          slot_set org (kc_provider payload) ct d d'.

Lemma audited_key {A} (out : A) action rq c target provider digest payload org d w :
  stored_as payload org d (tables w) →
  wp (_ ← audit_key action rq c target provider digest; m_ret out) (λ _ w', stored_as payload org d (tables w'))
     (λ _ _, True) w.
Proof. done. Qed.

Lemma upsert_key_wp payload rq c w :
  key_ids_unique (tables w) →
  wp (upsert_key payload rq c) (λ _ w', stored_as payload (oc_org_id c) (tables w) (tables w')) (λ _ _, True) w.
Proof.
  intros Hn. unfold upsert_key. cbv zeta. apply wp_bind. unfold wp at 1, randomness. cbn.
  set (w1 := next_tick w). change (tables w) with (tables w1) in *.
  destruct (encrypt_secret _ _ _ _) as [ct|] eqn:Hct; [|done]. apply wp_bind. unfold wp at 1. cbn.
  destruct (fingerprint _) as [digest|] eqn:Hd; [|done].
  apply query_bind; [done|]. intros w2 (T2 & _).
  apply wp_bind. destruct (find_slot _ _ (tables w1)) as [row|] eqn:Hf.
  - apply change_api_bind. apply statement_bind; [done|]. intros w3 (T3 & _). apply wp_ret.
    apply audited_key. exists (ap_tick w), ct. split; [exact Hct|]. rewrite T3.
    change (tables (put_session _ w2)) with
      (update_api_key (ak_id row) (renew_key ct (mask_secret (kc_api_key payload)) digest) (tables w2)).
    rewrite T2. by apply renewed_slot.
  - apply wp_bind. unfold wp at 1, secret. cbn. set (w3 := next_tick w2).
    apply insert_bind; [done|]. intros w4 _ T4 _ _. apply wp_ret. apply audited_key.
    exists (ap_tick w), ct. split; [exact Hct|]. rewrite T4. change (tables w3) with (tables w2). rewrite T2.
    exact (added_slot _ _ _ (mkApiKey _ _ _ ct _ _ true _ _ _) Hf eq_refl eq_refl eq_refl).
Qed.

(** C20: a stored key is the key that is used, when the version of the active master key
    has no dot in it: when an administrator's request to store a provider key was
    answered, a run of that organisation resolves its own key for that
    provider to exactly the submitted text, under any later settings that still hold the
    master key; and the rows of every other organisation are as they were.  (The cipher
    opens what it sealed, and row ids are unique.) *)
Theorem stored_key_usable payload rq org sv out sv' ck version key settings' p :
  CipherLaws → (∀ n, random_ok (key_random n)) → key_ids_unique (sv_db sv) →
  text (kc_api_key payload) → text org →
  active_master_key api_settings = Ok (version, key) → no_dot version →
  assoc version (cfg_master_keys settings') = Some key →
  serve (upsert_key_route rq org payload) sv = (Ok out, sv', ck) → provider_value p = kc_provider payload →
  own_key (stored_key (sv_db sv')) (decrypt_secret settings') org p = Ok (kc_api_key payload) ∧
  ∀ o, o ≠ org → keys_of o (sv_db sv') = keys_of o (sv_db sv).
Proof.
  intros HL Hr Hn Ht1 Ht2 Ha Hdot Hv Heq Hp.
  destruct (serve_ok _ sv out sv' ck (λ _ w, stored_as payload org (sv_db sv) (tables w)) Heq)
    as (w & (n & ct & Hct & Hs & Hothers) & -> & _).
  - apply org_route_bind; [done|]. intros c w (T & _) Hau. change (tables w = sv_db sv) in T.
    replace org with (oc_org_id c) by (pose proof (au_org _ _ _ _ _ Hau) as [_ Hid]%List.find_some;
                                       by apply bool_decide_eq_true in Hid).
    rewrite <- T in Hn |- *. by apply upsert_key_wp.
  - split; [|done]. unfold own_key. rewrite (Hs p Hp). apply encrypt_inv in Hct as (v & k & key' & ab & dt & c & w' & S).
    pose proof (se_active _ _ _ _ _ _ _ _ _ _ _ _ S) as Ha'. rewrite Ha in Ha'. injection Ha' as <- <-.
    by apply (sealed_decrypt _ _ _ _ _ _ _ _ _ _ _ _ settings' HL (Hr n) Hdot Ht1 Ht2 S Hv).
Qed.
End storing.

(** ** Rotation *)

Lemma active_present `{PyTables} `{Cipher} settings version key :
  active_master_key settings = Ok (version, key) → assoc version (cfg_master_keys settings) = Some key.
Proof.
  intros Hactive. unfold active_master_key in Hactive. destruct (cfg_master_keys settings) as [|[first k0] rest] eqn:Hk; [done|].
  rewrite <- Hk in *.
  destruct (assoc (cfg_master_key_version settings) (cfg_master_keys settings)) as [k|] eqn:Ha; [by injection Hactive as <- <-|].
  destruct (version_order first) as [order|]; [|done]. simpl in Hactive.
  destruct (max_version first order (map fst rest)) as [v|]; [|done]. simpl in Hactive.
  destruct (assoc v (cfg_master_keys settings)) as [k|] eqn:Hv; [|done]. by injection Hactive as <- <-.
Qed.

Section rotation.
Context `{PyTables} `{Vault} `{Cipher} (settings settings' : Settings) (version key : pystr).
Context (HL : CipherLaws) (Hactive : active_master_key settings = Ok (version, key)) (Hdot : no_dot version).
Context (Hkeeps : assoc version (cfg_master_keys settings') = Some key).

(** The row is the same credential, and what could be read with the old settings can
    be read with the new ones. *)
Definition still_readable (row row' : ApiKey) : Prop :=
  ak_id row' = ak_id row ∧ ak_org_id row' = ak_org_id row ∧ ak_provider row' = ak_provider row ∧
  ak_is_active row' = ak_is_active row ∧
  ∀ s, decrypt_secret settings (ak_ciphertext row) (ak_org_id row) = Ok s →
       decrypt_secret settings' (ak_ciphertext row') (ak_org_id row') = Ok s.

Lemma kek_same : kek settings' version = kek settings version.
Proof using Hactive Hkeeps.
  pose proof (active_present _ _ _ Hactive) as Ha. unfold kek.
  destruct (cfg_master_keys settings), (cfg_master_keys settings'); try done. by rewrite Ha, Hkeeps.
Qed.

Lemma current_readable blob aad s :
  needs_rewrap settings blob = Ok false → decrypt_secret settings blob aad = Ok s →
  decrypt_secret settings' blob aad = Ok s.
Proof using Hactive Hkeeps.
  unfold needs_rewrap, decrypt_secret. destruct (parse blob) as [env|]; [|done]. simpl. rewrite Hactive. simpl.
  intros [= Hn]. apply orb_false_iff in Hn as [_ Hn]. apply negb_false_iff, bool_decide_eq_true in Hn.
  by rewrite Hn, kek_same.
Qed.

Lemma rotate_rows_spec rng i rows n m rows' rotated failed :
  (∀ i, random_ok (rng i)) → Forall (λ r, text (ak_org_id r)) rows →
  rotate_rows settings rng i rows n m = Ok (rows', rotated, failed) →
  n ≤ rotated ∧ m ≤ failed ∧ rotated + failed ≤ n + m + Z.of_nat (length rows) ∧
  (failed = m → Forall2 still_readable rows rows').
Proof using HL Hactive Hdot Hkeeps.
  intros Hr. revert i n m rows' rotated failed. induction rows as [|row rows IH]; intros i n m rows' rotated failed Ht;
    cbn [rotate_rows]; [intros [= <- <- <-]; simpl; repeat split; [lia..|constructor]|].
  apply Forall_cons in Ht as [Ht Hts]. destruct (needs_rewrap _ _) as [old|] eqn:Hn; [|done].
  assert (Hcons : ∀ n' m' (r : list ApiKey * Z * Z) row',
            rotate_rows settings rng (S i) rows n' m' = Ok r →
            n ≤ n' → m ≤ m' → n' + m' ≤ n + m + 1 → (m' = m → still_readable row row') →
            n ≤ r.1.2 ∧ m ≤ r.2 ∧ r.1.2 + r.2 ≤ n + m + Z.of_nat (length (row :: rows)) ∧
            (r.2 = m → Forall2 still_readable (row :: rows) (row' :: r.1.1))).
  { intros n' m' [[l a] b] row' Hl Hn' Hm' Hs Hrow. cbn [fst snd length].
    destruct (IH _ _ _ _ _ _ Hts Hl) as (Ha & Hb & Hab & Hall).
    split_and!; [lia..|]. intros ->. constructor; [apply Hrow; lia|apply Hall; lia]. }
  destruct old; cbn [negb mbind res_bind].
  - destruct (rewrap _ _ _ _) as [ct|] eqn:Hw;
      (destruct (rotate_rows settings rng (S i) rows _ _) as [r|] eqn:Hrest; [|done]); intros [= <- <- <-].
    + apply (Hcons _ _ _ _ Hrest); [lia..|]. intros _. split_and!; try done. intros s Hs.
      change (ak_org_id (set_ciphertext ct row)) with (ak_org_id row).
      change (ak_ciphertext (set_ciphertext ct row)) with ct.
      apply (rewrap_kept settings (rng i) (ak_ciphertext row) (ak_org_id row) s ct version key settings'); try done.
    + apply (Hcons _ _ _ row Hrest); lia.
  - destruct (rotate_rows settings rng (S i) rows _ _) as [r|] eqn:Hrest; [|done]. intros [= <- <- <-].
    apply (Hcons _ _ _ _ Hrest); [lia..|]. intros _. split_and!; try done. intros s Hs. by apply current_readable.
Qed.

End rotation.

(** ** Concrete keys

    A toy cipher that satisfies the laws, where the theorems about secrets are
    applied, and the inputs that show their limits. *)

#[local] Existing Instance demo_api.

(** The associated data, its length first, then the data in the clear *)
Definition byteb (b : N) : bool := (b <? 256)%N.
Definition toy_encrypt (k n d a : bytes) : res exn bytes :=
  if forallb byteb a && forallb byteb d && (length a <? 256)%nat
  then Ok (N.of_nat (length a) :: a ++ d) else Err (OverflowError (u "Data or associated data too long.")).
Definition toy_decrypt (k n c a : bytes) : res exn bytes :=
  match c with
  | [] => Err InvalidTag
  | l :: c' => if bool_decide (take (N.to_nat l) c' = a) then Ok (drop (N.to_nat l) c') else Err InvalidTag
  end.
#[local] Instance toy_cipher : Cipher := {|
  gcm_encrypt := toy_encrypt; gcm_decrypt := toy_decrypt; uc_digit := λ _, false |}.

Lemma byteb_all l : forallb byteb l = true → Forall is_byte l.
Proof.
  intros Hl. apply Forall_forall. intros b Hb%list_elem_of_In. rewrite forallb_forall in Hl. by apply N.ltb_lt, Hl.
Qed.

Lemma toy_laws : CipherLaws.
Proof.
  split; cbn [gcm_encrypt gcm_decrypt toy_cipher]; unfold toy_encrypt, toy_decrypt;
    intros k n d a; [intros c _ _|intros a' c _ _ Hne|intros c];
    destruct (forallb byteb a && forallb byteb d && (length a <? 256)%nat) eqn:Hb; try done; intros [= <-].
  - by rewrite Nat2N.id, take_app_length, bool_decide_eq_true_2, drop_app_length.
  - by rewrite Nat2N.id, take_app_length, bool_decide_eq_false_2.
  - apply andb_true_iff in Hb as [[Ha Hd]%andb_true_iff Hl]. apply Nat.ltb_lt in Hl.
    constructor; [unfold is_byte; lia|]. apply Forall_app. split; by apply byteb_all.
Qed.

Definition key_of (b : N) : pystr := b64e (replicate 32 b).
Definition with_keys (keys : list (pystr * pystr)) (active : pystr) : Settings :=
  mkSettings (u "dev") keys active (u "secret") (u "HS256") 15 30 12 None None None None None true true 8 6 [] []
    (u "none") None None 40 500 600 3600 400000 true 40 100 20 300 5 [] [] 2097152.
Definition old_settings := with_keys [(u "1", key_of 1)] (u "1").
Definition both_settings := with_keys [(u "1", key_of 1); (u "2", key_of 2)] (u "2").
Definition new_settings := with_keys [(u "2", key_of 2)] (u "2").

Definition demo_rng (n : nat) : Randomness := mkRandomness (replicate 32 7%N) (replicate 12 8%N) (replicate 12 9%N).
Lemma demo_rng_ok n : random_ok (demo_rng n).
Proof. split_and!; try done; repeat constructor. Qed.

Lemma is_text s : forallb (λ c, c <? 1114112)%N s = true → text s.
Proof.
  intros Hs. apply Forall_forall. intros c Hc%list_elem_of_In. rewrite forallb_forall in Hs. by apply N.ltb_lt, Hs.
Qed.
Lemma is_no_dot s : forallb (λ c, negb (c =? 46))%N s = true → no_dot s.
Proof. intros Hs Hin%list_elem_of_In. rewrite forallb_forall in Hs. by specialize (Hs _ Hin). Qed.

Definition secret_text : pystr := u "sk-live-0123456789".
Definition old_blob : pystr := default [] (match encrypt_secret old_settings (demo_rng 0) secret_text (u "o") with
                                           | Ok b => Some b | Err _ => None end).
Lemma old_blob_eq : encrypt_secret old_settings (demo_rng 0) secret_text (u "o") = Ok old_blob.
Proof. vm_compute. reflexivity. Qed.

Lemma secret_roundtrip_witness :
  decrypt_secret both_settings old_blob (u "o") = Ok secret_text ∧
  decrypt_secret both_settings old_blob (u "p") = Err InvalidTag.
Proof.
  destruct (secret_roundtrip old_settings (demo_rng 0) secret_text (u "o") old_blob (u "1") (key_of 1) both_settings
              toy_laws (demo_rng_ok 0) (is_text secret_text eq_refl) (is_text (u "o") eq_refl) old_blob_eq eq_refl
              (is_no_dot (u "1") eq_refl) eq_refl) as [H1 H2].
  assert (Hne : u "p" ≠ u "o") by discriminate.
  exact (conj H1 (H2 (u "p") (is_text (u "p") eq_refl) eq_refl Hne)).
Defined.

Definition new_blob : pystr := default [] (match rewrap both_settings (demo_rng 1) old_blob (u "o") with
                                           | Ok b => Some b | Err _ => None end).

Lemma rewrap_rotates_witness :
  needs_rewrap both_settings old_blob = Ok true ∧
  needs_rewrap both_settings new_blob = Ok false ∧ decrypt_secret new_settings new_blob (u "o") = Ok secret_text.
Proof.
  assert (Hd : decrypt_secret both_settings old_blob (u "o") = Ok secret_text) by (vm_compute; reflexivity).
  assert (Hw : rewrap both_settings (demo_rng 1) old_blob (u "o") = Ok new_blob) by (vm_compute; reflexivity).
  split; [vm_compute; reflexivity|].
  exact (rewrap_rotates both_settings (demo_rng 1) old_blob (u "o") secret_text new_blob (u "2") (key_of 2) new_settings
           toy_laws (demo_rng_ok 1) (is_text (u "o") eq_refl) Hd Hw eq_refl (is_no_dot (u "2") eq_refl) eq_refl).
Defined.

(** ** Storing a key over the API *)

#[local] Instance demo_keys : KeyEnv := {|
  key_api := {| api_tables := ascii_tables; api_vault := toy_vault; api_db := quiet_db; api_settings := old_settings;
                api_redis_fault := λ _, None; api_time := λ _, 0; api_expired := λ _, false;
                api_secret := λ n, u "k" ++ str_of_Z (Z.of_nat n) |};
  key_cipher := toy_cipher; key_random := demo_rng |}.

Definition demo_payload : ApiKeyCreate := mkKeyCreate (u "openai") secret_text.
#[local] Abbreviation stored_run :=
  (serve (H := @key_api demo_keys) (upsert_key_route plain_request (og_id demo_org) demo_payload) team_server).

Lemma stored_key_usable_witness :
  is_ok stored_run.1.1 = true ∧
  own_key (stored_key (sv_db stored_run.1.2)) (decrypt_secret both_settings) (og_id demo_org) OPENAI = Ok secret_text.
Proof.
  assert (Hr : is_ok stored_run.1.1 = true) by (vm_compute; reflexivity). split; [exact Hr|].
  assert (Hn : key_ids_unique (sv_db team_server)) by apply NoDup_nil_2.
  destruct stored_run as [[r sv1] ck] eqn:Heq.
  destruct r as [out|e]; [|discriminate Hr].
  exact (proj1 (stored_key_usable demo_payload plain_request (og_id demo_org) team_server out sv1 ck (u "1") (key_of 1)
                  both_settings OPENAI toy_laws demo_rng_ok Hn (is_text secret_text eq_refl)
                  (is_text (og_id demo_org) eq_refl) eq_refl (is_no_dot (u "1") eq_refl) eq_refl Heq eq_refl)).
Defined.

(** ** Rotating it *)

Definition key_row (id ciphertext : pystr) : ApiKey :=
  mkApiKey id (u "o") (u "openai") ciphertext (u "***") (u "#") true None None None.
Definition keys_db : Db := set_api_keys [key_row (u "k1") old_blob] empty_db.
#[local] Abbreviation rotation := (@rotate_keys ascii_tables toy_cipher both_settings quiet_db demo_rng keys_db).


(** ** The limits *)

(** A version with a dot in it makes an envelope nobody can read. *)
Definition dotted_settings := with_keys [(u "2025.1", key_of 3)] (u "2025.1").
Lemma dotted_version_unreadable :
  (blob ← encrypt_secret dotted_settings (demo_rng 0) secret_text (u "o"); decrypt_secret dotted_settings blob (u "o"))
  = Err (CryptoError (u "malformed ciphertext")).
Proof. vm_compute. reflexivity. Qed.

(** One row whose envelope cannot be read stops the rotation of all the others. *)
Lemma malformed_row_stops_rotation :
  let d := set_api_keys [key_row (u "k0") (u "garbage"); key_row (u "k1") old_blob] empty_db in
  @rotate_keys ascii_tables toy_cipher both_settings quiet_db demo_rng d
  = (Err (CryptoError (u "malformed ciphertext")), d).
Proof. vm_compute. reflexivity. Qed.
