(* ===== verification/RunsApi.v ===== *)
(** * The routes of runs (src/api/routers/runs.py)

    Submitting, listing, reading and cancelling the runs of an organisation.  The
    queue is arq's: what [enqueue_job] does to the jobs in Redis is an argument.
    Another transaction may commit while a request is under way: what it left in
    the tables is what a session reads after it has rolled back. *)

From S2P Require Import Prelude PyStr PyFloat PyVal Config State Registry Pricing Events World Workflow Presets.
From S2P Require Import Database Auditing Billing Runner Security RateLimit Api ApiSafety Auth Orgs.

Class RunsEnv := {
  runs_api :: ApiEnv;
  enqueue_job : Job → list Job → list Job;
  committed_meanwhile : Db → Db }.

Record RunCreate := mkRunCreate {
  rc_workflow_id : pystr; rc_input : pystr; rc_key_mode : option pystr; rc_idempotency_key : option pystr }.

Record RunDetail := mkDetail {
  rd_run : Run; rd_steps : list RunStep; rd_artifacts : list ArtifactRow; rd_tool_calls : list ToolCallLog }.

(** ** Rows *)

(** [uq_runs_idempotency]: rows without a key do not clash. *)
Definition has_key (org_id : pystr) (key : option pystr) (r : Run) : bool :=
  bool_decide (ru_org_id r = org_id) && bool_decide (key ≠ None) && bool_decide (ru_idempotency_key r = key).
Definition run_allowed (row : Run) (d : Db) : bool :=
  forallb (λ r, negb (has_key (ru_org_id row) (ru_idempotency_key row) r)) (db_runs d).
Definition find_keyed_run (org_id : pystr) (key : option pystr) (d : Db) : option Run :=
  List.find (has_key org_id key) (db_runs d).

Definition queued_run (id org_id workflow_id created_by input key_mode : pystr) (max_cost_cents : Z)
    (key : option pystr) : Run :=
  mkRun id org_id workflow_id (Some created_by) (u "queued") input None None key_mode 0 0 0 0 0 0 0 max_cost_cents
    false key None None.

Definition flag_cancelled (r : Run) : Run :=
  mkRun (ru_id r) (ru_org_id r) (ru_workflow_id r) (ru_created_by r) (ru_status r) (ru_input r) (ru_output r)
    (ru_error r) (ru_key_mode r) (ru_cost_microcents r) (ru_cost_cents r) (ru_billable_microcents r)
    (ru_tokens_in r) (ru_tokens_out r) (ru_steps_used r) (ru_max_steps r) (ru_max_cost_cents r)
    true (ru_idempotency_key r) (ru_started_at r) (ru_finished_at r).
Definition stop_before_start (t : Z) (r : Run) : Run :=
  mkRun (ru_id r) (ru_org_id r) (ru_workflow_id r) (ru_created_by r) (u "cancelled") (ru_input r) (ru_output r)
    (Some (u "cancelled before it started")) (ru_key_mode r) (ru_cost_microcents r) (ru_cost_cents r)
    (ru_billable_microcents r) (ru_tokens_in r) (ru_tokens_out r) (ru_steps_used r) (ru_max_steps r)
    (ru_max_cost_cents r) (ru_cancel_requested r) (ru_idempotency_key r) (ru_started_at r) (Some t).

(** [order_by(ToolCallLog.step_index, ToolCallLog.call_index)] *)
Definition call_le (a b : ToolCallLog) : Prop :=
  tg_step_index a < tg_step_index b ∨ (tg_step_index a = tg_step_index b ∧ tg_call_index a ≤ tg_call_index b).
#[global] Instance call_le_dec a b : Decision (call_le a b).
Proof. unfold call_le. apply _. Defined.

Definition steps_of (run_id : pystr) (d : Db) : list RunStep :=
  List.filter (λ s, bool_decide (rs_run_id s = run_id)) (db_steps d).
Definition artifacts_of (run_id : pystr) (d : Db) : list ArtifactRow :=
  List.filter (λ a, bool_decide (aw_run_id a = run_id)) (db_artifacts d).
Definition tool_calls_of (run_id : pystr) (d : Db) : list ToolCallLog :=
  merge_sort call_le (List.filter (λ t, bool_decide (tg_run_id t = run_id)) (db_tool_calls d)).

Definition run_error (r : Run) : pyval := match ru_error r with Some e => VStr e | None => VNone end.

Section validation.
Context `{ApiEnv}.
Abbreviation Api A := (M ApiWorld exn A).

(** [validate_graph], a [WorkflowConfigError] answered as 422 *)
Definition validate_or_422 (preset : pystr) (graph : Graph) : Api (list pyval) :=
  match validate_graph preset graph with
  | Ok ids => m_ret ids
  | Err (WorkflowConfigError detail) => http_error 422 detail
  | Err e => raise e
  end.

End validation.

Section runs.
Context `{RunsEnv}.
Abbreviation Api A := (M ApiWorld exn A).

(** [_get_owned] *)
Definition get_owned (org_id run_id : pystr) : Api Run :=
  o ← on_sql (query (find_run run_id));
  match o with
  | Some run => if bool_decide (ru_org_id run = org_id) then m_ret run else http_error 404 (u "run not found")
  | None => http_error 404 (u "run not found")
  end.

(** After a rollback the next statement sees what others have committed. *)
Definition rollback_and_refresh : Api unit :=
  _ ← on_sql rollback;
  on_sql (modify (λ s, let d := committed_meanwhile (ss_committed s) in
                       mkSession d d (ss_broken s) (ss_clock s))).

(** One call of the emitter, and the cancellation flag, on a run's bus *)
Definition on_run_bus {A} (run_id : pystr) (m : M Bus exn A) : Api A :=
  r ← on_redis (λ _ r, let '(a, b) := m (rd_bus r run_id) in (a, set_buses (set_key run_id b (rd_bus r)) r));
  lift_res r.
(** The two round trips of [emit] *)
Definition emit_on (run_id type_ : pystr) (payload : list (pystr * pyval)) : Api unit :=
  seq ← on_run_bus run_id next_seq; on_run_bus run_id (publish seq type_ payload).

Definition enqueue (job : Job) : Api unit :=
  on_redis (λ _ r, (tt, set_jobs (enqueue_job job (rd_jobs r)) r)).

Definition workflow_of (org_id workflow_id : pystr) : Api WorkflowRow :=
  o ← on_sql (query (find_workflow workflow_id));
  match o with
  | Some w => if bool_decide (wf_org_id w = org_id) && wf_is_active w then m_ret w
              else http_error 404 (u "workflow not found")
  | None => http_error 404 (u "workflow not found")
  end.

(** [payload.idempotency_key or idempotency_header], where only a non-empty one counts *)
Definition effective_key (payload : RunCreate) (header : option pystr) : option pystr :=
  match nonempty (rc_idempotency_key payload) with Some k => Some k | None => header end.

Definition too_many_in_flight (in_flight : Z) : pystr :=
  u "this organisation already has " ++ str_of_Z in_flight ++ u " runs in flight (limit "
    ++ str_of_Z (cfg_max_concurrent_runs_per_org api_settings) ++ u ")".

Definition throttle (org_id : pystr) : Api unit :=
  _ ← check_bucket (u "runs:" ++ org_id) (cfg_rate_limit_runs_per_minute api_settings) 60
        (u "run rate limit exceeded for this organisation");
  in_flight ← limiter_slots_in_use (u "runs:" ++ org_id);
  if cfg_max_concurrent_runs_per_org api_settings <=? in_flight
  then http_error 429 (too_many_in_flight in_flight) else m_ret tt.

(** [billing.ensure_can_start], [InsufficientCredits] answered as 402 *)
Definition check_credits (org_id : pystr) (ceiling_cents : Z) : Api unit := λ w,
  match on_sql (ensure_can_start api_settings org_id ceiling_cents) w with
  | (Err (InsufficientCredits balance required), w') =>
      (Err (HTTPException 402 (u "insufficient credits: balance " ++ str_of_Z balance
              ++ u " cents, this run may cost up to " ++ str_of_Z required)), w')
  | x => x
  end.

Definition ceiling_of (graph : Graph) : res exn Z :=
  cents ← py_int (get_or graph "max_cost_cents" (VInt (cfg_max_cost_cents_per_run api_settings)));
  Ok (cents `min` cfg_max_cost_cents_per_run api_settings).

Definition audit_run (action : pystr) (rq : Request) (c : OrgContext) (run_id : pystr)
    (detail : list (pystr * pyval)) : Api unit :=
  on_sql (audit_record (audit_row action (Some (oc_org_id c)) (Some (us_id (oc_user c))) (Some (u "run"))
                          (Some run_id) (client_ip rq) None detail)).

(** From [run = Run(...)] to the end *)
Definition submit (run : Run) (rq : Request) (c : OrgContext) : Api Run :=
  r ← attempt is_integrity (on_sql (insert (run_allowed run) (λ d, set_runs (db_runs d ++ [run]) d)));
  match r with
  | inl e =>
      _ ← rollback_and_refresh;
      duplicate ← on_sql (query (find_keyed_run (oc_org_id c) (ru_idempotency_key run)));
      match duplicate with Some existing => m_ret existing | None => raise e end
  | inr _ =>
      _ ← audit_run (u "run.created") rq c (ru_id run)
            [(u "workflow_id", VStr (ru_workflow_id run)); (u "key_mode", VStr (ru_key_mode run))];
      _ ← on_sql commit;
      _ ← enqueue (mkJob (ru_id run) (u "run:" ++ ru_id run) 0);
      m_ret run
  end.

Definition create_run (payload : RunCreate) (header : option pystr) (rq : Request) (c : OrgContext) : Api Run :=
  workflow ← workflow_of (oc_org_id c) (rc_workflow_id payload);
  _ ← validate_or_422 (wf_preset workflow) (wf_graph workflow);
  let key := effective_key payload header in
  existing ← match nonempty key with
             | Some _ => on_sql (query (find_keyed_run (oc_org_id c) key))
             | None => m_ret None
             end;
  match existing with
  | Some run => m_ret run
  | None =>
      _ ← throttle (oc_org_id c);
      let key_mode := default (og_key_mode (oc_org c)) (nonempty (rc_key_mode payload)) in
      ceiling_cents ← lift_res (ceiling_of (wf_graph workflow));
      _ ← (if bool_decide (key_mode = u "byok") then m_ret tt else check_credits (oc_org_id c) ceiling_cents);
      id ← secret;
      submit (queued_run id (oc_org_id c) (wf_id workflow) (us_id (oc_user c)) (rc_input payload) key_mode
                ceiling_cents key) rq c
  end.

Definition list_runs (limit offset : Z) (status_filter : option pystr) (c : OrgContext) : Api (list Run) :=
  on_sql (query (λ d, page limit offset (reverse (List.filter
    (λ r, bool_decide (ru_org_id r = oc_org_id c)
          && match nonempty status_filter with Some s => bool_decide (ru_status r = s) | None => true end) (db_runs d))))).

Definition get_run (run_id : pystr) (c : OrgContext) : Api RunDetail :=
  d ← on_sql (query (λ d, d));
  match find_run run_id d with
  | Some run =>
      if bool_decide (ru_org_id run = oc_org_id c)
      then m_ret (mkDetail run (steps_of run_id d) (artifacts_of run_id d) (tool_calls_of run_id d))
      else http_error 404 (u "run not found")
  | None => http_error 404 (u "run not found")
  end.

(** Rows in the order of the table; by path and version is the database's sort. *)
Definition list_artifacts (run_id : pystr) (c : OrgContext) : Api (list ArtifactRow) :=
  _ ← get_owned (oc_org_id c) run_id;
  on_sql (query (artifacts_of run_id)).

Definition find_artifact (id : pystr) (d : Db) : option ArtifactRow :=
  List.find (λ a, bool_decide (aw_id a = id)) (db_artifacts d).
Definition get_artifact (run_id artifact_id : pystr) (c : OrgContext) : Api ArtifactRow :=
  _ ← get_owned (oc_org_id c) run_id;
  o ← on_sql (query (find_artifact artifact_id));
  match o with
  | Some a => if bool_decide (aw_run_id a = run_id) then m_ret a else http_error 404 (u "artifact not found")
  | None => http_error 404 (u "artifact not found")
  end.

Definition list_tool_calls (run_id : pystr) (c : OrgContext) : Api (list ToolCallLog) :=
  _ ← get_owned (oc_org_id c) run_id;
  on_sql (query (tool_calls_of run_id)).

Definition cancel_run (run_id : pystr) (rq : Request) (c : OrgContext) : Api Run :=
  run ← get_owned (oc_org_id c) run_id;
  if is_terminal (ru_status run) then m_ret run
  else
    _ ← on_sql (change (update_run run_id flag_cancelled));
    _ ← on_run_bus run_id (λ b, (Ok tt, request_cancel b));
    run ← (if bool_decide (ru_status run = u "queued") then
             now ← on_sql now_utc;
             let stopped := stop_before_start now (flag_cancelled run) in
             _ ← on_sql (change (update_run run_id (stop_before_start now)));
             _ ← emit_on run_id RUN_CANCELLED [(u "status", VStr (u "cancelled")); (u "error", run_error stopped)];
             m_ret stopped
           else m_ret (flag_cancelled run));
    _ ← audit_run (u "run.cancelled") rq c run_id [(u "previous_status", VStr (ru_status run))];
    m_ret run.

Definition create_run_route rq org_id payload header : Api Run := org_route (Some (u "member")) rq org_id (create_run payload header rq).
Definition list_runs_route rq org_id limit offset status : Api (list Run) := org_route None rq org_id (list_runs limit offset status).
Definition get_run_route rq org_id run_id : Api RunDetail := org_route None rq org_id (get_run run_id).
Definition list_artifacts_route rq org_id run_id : Api (list ArtifactRow) := org_route None rq org_id (list_artifacts run_id).
Definition get_artifact_route rq org_id run_id id : Api ArtifactRow := org_route None rq org_id (get_artifact run_id id).
Definition list_tool_calls_route rq org_id run_id : Api (list ToolCallLog) := org_route None rq org_id (list_tool_calls run_id).
Definition cancel_run_route rq org_id run_id : Api Run := org_route (Some (u "member")) rq org_id (cancel_run run_id rq).
End runs.
