(* ===== verification/RunsSafety.v ===== *)
(** * What the routes of runs promise

    A submitted run is paid for and queued once it is committed, a cancelled run
    never starts, and nobody reads another organisation's runs. *)

From S2P Require Import Prelude PyStr PyFloat PyVal PyRegex PyJson Config State Budget Registry.
From S2P Require Import Providers Pricing Keys Events World Router ToolBase ToolArtifacts ToolRegistry.
From S2P Require Import Engine EngineSafety EngineSinks Workflow Presets Database Auditing Billing.
From S2P Require Import BillingSafety Runner RunnerSafety RunnerRuns Security RateLimit Api ApiSafety Auth Orgs RunsApi.

Section steps.
Context `{RunsEnv}.

(** An insert that may lose a race *)
Lemma try_insert_wp (allowed : Db → bool) (add : Db → Db) Q (X : exn → ApiWorld → Prop) w :
  (∀ e w', reads w w' → if is_integrity e then Q (inl e) w' else X e w') →
  (∀ w', tables w' = add (tables w) → committed w' = committed w → jobs w' = jobs w → Q (inr tt) w') →
  wp (attempt is_integrity (on_sql (insert allowed add))) Q X w.
Proof.
  intros HX HQ. apply wp_attempt. pose proof (statement_reads w) as Hs. unfold wp, on_sql, insert, insert_against in *.
  destruct (statement (ap_session w)) as [[[]|e] s'] eqn:Hst; [|by apply HX].
  destruct Hs as (Ht & Hc & Hk & Hj). unfold tables, committed in Ht, Hc. simpl in Ht, Hc.
  destruct (db_race _); simpl; [by apply (HX IntegrityError)|].
  destruct (allowed _); simpl; [|by apply (HX IntegrityError)].
  apply HQ; [|done|done]. unfold tables. simpl. by rewrite Ht.
Qed.

Lemma commit_jobs_bind {B} (k : unit → M ApiWorld exn B) Q (X : exn → ApiWorld → Prop) w :
  (∀ e w', X e w') →
  (∀ w', tables w' = tables w → committed w' = tables w → jobs w' = jobs w → wp (k tt) Q X w') →
  wp (mbind k (on_sql commit)) Q X w.
Proof.
  intros HX Hk. apply wp_bind. pose proof (statement_reads w) as Hs. unfold wp at 1. unfold on_sql, commit in *.
  destruct (statement (ap_session w)) as [[[]|e] s'] eqn:Hst; [|by apply HX].
  destruct Hs as (Ht & Hc & Hk' & Hj). by apply Hk.
Qed.

Lemma get_owned_bind {B} org_id run_id (k : Run → M ApiWorld exn B) Q (X : exn → ApiWorld → Prop) w :
  (∀ e w', X e w') →
  (∀ run w', reads w w' → find_run run_id (tables w) = Some run → ru_org_id run = org_id → wp (k run) Q X w') →
  wp (mbind k (get_owned org_id run_id)) Q X w.
Proof.
  intros HX Hk. apply wp_bind. unfold get_owned. apply query_bind; [done|]. intros w1 R.
  destruct (find_run run_id (tables w)) as [run|] eqn:Hf; [|by apply HX].
  case_bool_decide as Ho; [|by apply HX]. apply wp_ret. by apply Hk.
Qed.

Lemma enqueue_wp job w :
  wp (enqueue job) (λ _ w', tables w' = tables w ∧ committed w' = committed w ∧ jobs w' = enqueue_job job (jobs w))
     (λ _ _, True) w.
Proof.
  unfold enqueue, on_redis, redis_call, wp, mbind, M_bind, m_bind.
  destruct (api_redis_fault _) as [e|]; [destruct (statement_failure e)|]; by cbn.
Qed.
End steps.

(** ** Submitting *)

Section submitting.
Context `{RunsEnv}.

(** The row a request asks for *)
Definition asked_for (payload : RunCreate) (header : option pystr) (c : OrgContext) (workflow : WorkflowRow)
    (ceiling : Z) (run : Run) : Prop :=
  ∃ id, run = queued_run id (oc_org_id c) (wf_id workflow) (us_id (oc_user c)) (rc_input payload)
                (default (og_key_mode (oc_org c)) (nonempty (rc_key_mode payload))) ceiling
                (effective_key payload header).

(** The organisation can pay for the run, if it is to be charged at all. *)
Definition covered (org ceiling_mode : pystr) (ceiling : Z) (d : Db) : Prop :=
  ceiling_mode ≠ u "byok" → cfg_billing_enabled api_settings = true →
  ∃ o, find_org org d = Some o ∧ ceiling ≤ og_credits_cents o.

(** The audit entry of a submission: who asked for which run, from where. *)
Definition audits_creation (rq : Request) (c : OrgContext) (run : Run) (row : AuditLog) : Prop :=
  al_action row = u "run.created" ∧ al_org_id row = Some (oc_org_id c) ∧
  al_actor_user_id row = Some (us_id (oc_user c)) ∧ al_target_type row = Some (u "run") ∧
  al_target_id row = Some (ru_id run) ∧ al_ip_address row = client_ip rq ∧
  al_detail row = scrub [(u "workflow_id", VStr (ru_workflow_id run)); (u "key_mode", VStr (ru_key_mode run))].

(** A run that was submitted: committed with its audit entry, every other row of every
    table as it was, then queued. *)
Record submitted (rq : Request) (c : OrgContext) (run : Run) (d d' : Db) (q q' : list Job) : Prop := {
  sb_audit : ∃ row, audits_creation rq c run row ∧
               d' = set_audit (db_audit d ++ [row]) (set_runs (db_runs d ++ [run]) d);
  sb_job : q' = enqueue_job (mkJob (ru_id run) (u "run:" ++ ru_id run) 0) q }.

(** The answer to a repeated request: the run that is there already. *)
Definition repeated (org : pystr) (key : option pystr) (run : Run) (d d' : Db) (q q' : list Job) : Prop :=
  find_keyed_run org key d' = Some run ∧ q' = q ∧ (d' = d ∨ d' = committed_meanwhile d).

Lemma submit_wp run rq c w :
  ru_org_id run = oc_org_id c → committed w = tables w →
  wp (submit run rq c)
     (λ r w', (r = run ∧ submitted rq c run (tables w) (tables w') (jobs w) (jobs w')) ∨
              repeated (oc_org_id c) (ru_idempotency_key run) r (tables w) (tables w') (jobs w) (jobs w'))
     (λ _ _, True) w.
Proof.
  intros Ho Hc. unfold submit. apply wp_bind. apply try_insert_wp.
  - intros e w1 (T & C & _ & J). destruct (is_integrity e); [|done].
    apply wp_bind. unfold rollback_and_refresh. apply wp_bind. unfold wp at 1, rollback. cbn.
    unfold wp at 1. cbn. apply query_bind; [done|]. intros w2 (T2 & _ & _ & J2).
    destruct (find_keyed_run _ _ _) as [existing|] eqn:Hf; [|done]. apply wp_ret. right.
    unfold tables, committed, jobs in *. cbn in T2, J2, Hf. split_and!.
    + by rewrite T2.
    + by rewrite J2.
    + right. rewrite T2. congruence.
  - intros w1 T C J. apply wp_bind. unfold audit_run. unfold wp at 1. cbn.
    apply commit_jobs_bind; [done|]. intros w2 T2 _ J2. apply wp_bind.
    eapply wp_mono; [apply enqueue_wp| |done]. intros [] w3 (T3 & _ & J3). apply wp_ret. left. split; [done|].
    unfold tables, jobs in *. cbn in T2, J2. split.
    + rewrite T3, T2, T. eexists. split; [|reflexivity]. by split_and!.
    + by rewrite J3, J2, J.
Qed.

Lemma check_credits_bind {B} org_id ceiling (k : unit → M ApiWorld exn B) Q (X : exn → ApiWorld → Prop) w :
  (∀ e w', X e w') →
  (∀ w', reads w w' → (cfg_billing_enabled api_settings = true →
     ∃ o, find_org org_id (tables w) = Some o ∧ ceiling ≤ og_credits_cents o) → wp (k tt) Q X w') →
  wp (mbind k (check_credits org_id ceiling)) Q X w.
Proof.
  intros HX Hk. apply wp_bind. unfold check_credits, ensure_can_start.
  destruct (cfg_billing_enabled api_settings) eqn:Hb; cbn [negb]; [|by apply Hk].
  pose proof (statement_reads w) as Hs. unfold wp at 1. unfold on_sql, query, mbind, M_bind, m_bind in *.
  destruct (statement (ap_session w)) as [[[]|e] s']; [|destruct e; by apply HX].
  pose proof (proj1 Hs) as Ht. unfold tables in Ht. cbn in Ht |- *. rewrite Ht.
  destruct (find_org org_id (ss_working (ap_session w))) as [o|] eqn:Ho; [|by apply HX].
  destruct (Z.ltb_spec (og_credits_cents o) ceiling); cbn; [by apply HX|].
  apply Hk; [exact Hs|]. intros _. by exists o.
Qed.

Lemma throttle_reads org_id : steps reads (throttle org_id).
Proof. unfold throttle, check_bucket. repeat reads_step. Qed.

(** What an answer to a submission stands for: a workflow of the organisation that is
    active and valid, and a run that is there already or is new and covered. *)
Definition create_result (payload : RunCreate) (header : option pystr) (rq : Request) (c : OrgContext) (d d' : Db) (q q' : list Job)
    (run : Run) : Prop :=
  ∃ workflow,
    find_workflow (rc_workflow_id payload) d = Some workflow ∧ wf_org_id workflow = oc_org_id c ∧
    wf_is_active workflow = true ∧ is_ok (validate_graph (wf_preset workflow) (wf_graph workflow)) = true ∧
    (repeated (oc_org_id c) (effective_key payload header) run d d' q q' ∨
     ∃ ceiling, ceiling ≤ cfg_max_cost_cents_per_run api_settings ∧
       asked_for payload header c workflow ceiling run ∧ covered (oc_org_id c) (ru_key_mode run) ceiling d ∧
       submitted rq c run d d' q q').

Lemma create_run_wp payload header rq c w :
  committed w = tables w →
  wp (create_run payload header rq c)
     (λ run w', create_result payload header rq c (tables w) (tables w') (jobs w) (jobs w') run) (λ _ _, True) w.
Proof.
  intros Hc. unfold create_run. cbv zeta. apply wp_bind. unfold workflow_of. apply query_bind; [done|].
  intros w1 R1. destruct (find_workflow _ (tables w)) as [workflow|] eqn:Hw; [|done].
  destruct (bool_decide (wf_org_id workflow = oc_org_id c) && wf_is_active workflow) eqn:Hown; [|done].
  apply andb_true_iff in Hown as [Ho%bool_decide_eq_true Ha]. apply wp_ret. apply wp_bind. unfold validate_or_422.
  destruct (validate_graph _ _) as [ids|e] eqn:Hv; [apply wp_ret|by destruct e].
  apply wp_bind. set (key := effective_key payload header).
  assert (Hex : wp (match nonempty key with
                    | Some _ => on_sql (query (find_keyed_run (oc_org_id c) key)) | None => m_ret None end)
                   (λ existing w', reads w w' ∧ ∀ run, existing = Some run → find_keyed_run (oc_org_id c) key (tables w) = Some run)
                   (λ _ _, True) w1).
  { destruct (nonempty key); [|by apply wp_ret]. pose proof (statement_reads w1) as Hs.
    unfold wp, on_sql, query in *. destruct (statement (ap_session w1)) as [[[]|e] s']; [|done].
    split; [by etrans|]. intros run. rewrite <- (proj1 R1), <- (proj1 Hs). done. }
  eapply wp_mono; [exact Hex| |done]. intros existing w2 [R2 Hf].
  destruct existing as [run|].
  { apply wp_ret. exists workflow. split_and!; try done; [by rewrite Hv|]. left. destruct R2 as (T & _ & _ & J).
    split_and!; [rewrite T; by apply Hf|done|by left]. }
  apply reads_bind; [apply throttle_reads|done|]. intros [] w3 R3. assert (R : reads w w3) by by etrans.
  clear R1 R2 R3 Hex. apply wp_bind. unfold wp at 1, lift_res.
  destruct (ceiling_of (wf_graph workflow)) as [ceiling|] eqn:Hceil; [|done].
  assert (Hmax : ceiling ≤ cfg_max_cost_cents_per_run api_settings).
  { unfold ceiling_of in Hceil. destruct (py_int _) as [z|]; [|done]. injection Hceil as <-. lia. }
  set (mode := default (og_key_mode (oc_org c)) (nonempty (rc_key_mode payload))).
  assert (Hgo : ∀ w4, reads w w4 → covered (oc_org_id c) mode ceiling (tables w) →
            wp (id ← secret; submit (queued_run id (oc_org_id c) (wf_id workflow) (us_id (oc_user c)) (rc_input payload)
                                       mode ceiling key) rq c)
               (λ run w', create_result payload header rq c (tables w) (tables w') (jobs w) (jobs w') run)
               (λ _ _, True) w4).
  { intros w4 (T & C & _ & J) Hcov. apply wp_bind. unfold wp at 1, secret. set (w5 := next_tick w4).
    eapply wp_mono; [apply (submit_wp _ rq c w5); [done|]| |done].
    - change (committed w4 = tables w4). congruence.
    - change (tables w5) with (tables w4). change (jobs w5) with (jobs w4). rewrite T, J.
      intros run w6 Hs. exists workflow. split_and!; try done; [by rewrite Hv|].
      destruct Hs as [[-> Hs]|Hr]; [right|by left]. exists ceiling. split_and!; try done. by eexists. }
  destruct (bool_decide (mode = u "byok")) eqn:Hmode.
  - apply wp_bind, wp_ret. apply Hgo; [done|]. intros Hne. by apply bool_decide_eq_true in Hmode.
  - apply check_credits_bind; [done|]. intros w4 R4 Hcov. apply Hgo; [by etrans|]. intros _ Hb.
    rewrite <- (proj1 R). by apply Hcov.
Qed.

(** C22: a run that is answered is a run that is there: a request to submit a run that was
    answered came from a signed-in member of the organisation and names an active, valid
    workflow of it; the run is either the one already stored under the idempotency key, with
    nothing queued, or a new queued row whose ceiling is within the platform's and, when the
    organisation is to be charged, within its balance, committed together with an audit
    entry that names the caller, the run and its workflow, and with nothing else, and its
    job was put into the queue. *)
Theorem create_run_sound payload header rq org sv run sv' ck :
  serve (create_run_route rq org payload header) sv = (Ok run, sv', ck) →
  ∃ c, authorised (Some (u "member")) rq org c (sv_db sv) ∧ oc_org_id c = org ∧
       create_result payload header rq c (sv_db sv) (sv_db sv') (rd_jobs (sv_redis sv)) (rd_jobs (sv_redis sv')) run.
Proof.
  intros Heq.
  destruct (serve_ok _ sv run sv' ck
              (λ run w, ∃ c, authorised (Some (u "member")) rq org c (sv_db sv) ∧ oc_org_id c = org ∧
                 create_result payload header rq c (sv_db sv) (tables w) (rd_jobs (sv_redis sv)) (jobs w) run) Heq)
    as (w & Hw & -> & -> & _); [|exact Hw].
  apply org_route_bind; [done|]. intros c w (T & C & _ & J) Ha.
  change (tables w = sv_db sv) in T. change (committed w = sv_db sv) in C. change (jobs w = rd_jobs (sv_redis sv)) in J.
  change (authorised (Some (u "member")) rq org c (sv_db sv)) in Ha.
  eapply wp_mono; [apply (create_run_wp payload header rq c w); congruence| |done].
  intros a w' Hr. exists c. rewrite T, J in Hr. split_and!; try done.
  pose proof (au_org _ _ _ _ _ Ha) as [_ Hid]%List.find_some. by apply bool_decide_eq_true in Hid.
Qed.
End submitting.

(** ** Cancelling *)

Section cancelling.
Context `{RunsEnv}.

Lemma on_run_bus_wp {A} run_id (m : M Bus exn A) w :
  wp (on_run_bus run_id m)
     (λ a w', (m (rd_bus (ap_redis w) run_id)).1 = Ok a ∧ tables w' = tables w ∧ committed w' = committed w ∧
        rd_bus (ap_redis w') run_id = (m (rd_bus (ap_redis w) run_id)).2) (λ _ _, True) w.
Proof.
  unfold on_run_bus, on_redis, redis_call, wp, mbind, M_bind, m_bind.
  destruct (api_redis_fault _) as [e|]; [destruct (statement_failure e); [done|]|]; cbn;
    destruct (m (rd_bus (ap_redis w) run_id)) as [[a|e'] b] eqn:Hm; cbn; try done;
    split_and!; try done; unfold set_key; by rewrite bool_decide_eq_true_2.
Qed.

Lemma emit_on_wp run_id type_ payload w :
  wp (emit_on run_id type_ payload)
     (λ _ w', tables w' = tables w ∧ committed w' = committed w ∧
        is_ok (emit type_ payload (rd_bus (ap_redis w) run_id)).1 = true ∧
        rd_bus (ap_redis w') run_id = (emit type_ payload (rd_bus (ap_redis w) run_id)).2) (λ _ _, True) w.
Proof.
  unfold emit_on. apply wp_bind. eapply wp_mono; [apply on_run_bus_wp| |done]. intros seq w1 (E1 & T1 & C1 & B1).
  eapply wp_mono; [apply on_run_bus_wp| |done]. intros [] w2 (E2 & T2 & C2 & B2).
  split; [congruence|]. split; [congruence|]. unfold emit, mbind, M_bind, m_bind. rewrite B2. revert E2. rewrite B1.
  unfold next_seq in *. cbn [fst snd] in *. injection E1 as ->. unfold publish. by destruct (encodable_val _).
Qed.

(** What an answered cancellation means for the run it found *)
Definition cancelled_as (run_id : pystr) (old run : Run) (d d' : Db) (b : Bus) : Prop :=
  if is_terminal (ru_status old) then run = old ∧ d' = d
  else
    find_run run_id d' = Some run ∧ ru_cancel_requested run = true ∧ bus_cancel b = true ∧
    (if bool_decide (ru_status old = u "queued")
     then ru_status run = u "cancelled" ∧ (∃ e, last (bus_published b) = Some e ∧ is_terminal_event e = true)
     else ru_status run = ru_status old).

Lemma emit_last type_ payload b :
  is_ok (emit type_ payload b).1 = true →
  ∃ seq, last (bus_published (emit type_ payload b).2) = Some (mkEvent seq type_ payload) ∧
         bus_cancel (emit type_ payload b).2 = bus_cancel b.
Proof. rewrite emit_eq. cbn zeta. destruct (encodable_val _); [|done]. intros _. eexists. cbn. by rewrite last_snoc. Qed.

Lemma find_run_same id f d run :
  (∀ r, ru_id (f r) = ru_id r) → find_run id d = Some run → find_run id (update_run id f d) = Some (f run).
Proof. intros Hf Hr. rewrite find_run_update by done. by rewrite bool_decide_eq_true_2, Hr. Qed.

Lemma cancel_run_wp run_id rq c w :
  wp (cancel_run run_id rq c)
     (λ run w', ∃ old, find_run run_id (tables w) = Some old ∧ ru_org_id old = oc_org_id c ∧
        cancelled_as run_id old run (tables w) (tables w') (rd_bus (ap_redis w') run_id)) (λ _ _, True) w.
Proof.
  unfold cancel_run. apply get_owned_bind; [done|]. intros old w1 (T1 & _) Hf Ho. unfold cancelled_as.
  destruct (is_terminal (ru_status old)) eqn:Ht.
  { apply wp_ret. exists old. rewrite Ht. by split_and!. }
  apply change_api_bind. apply wp_bind.
  eapply wp_mono; [apply on_run_bus_wp| |done]. intros [] w2 (_ & T2 & _ & B2). cbn in B2.
  change (tables (put_session _ w1)) with (update_run run_id flag_cancelled (tables w1)) in T2. rewrite T1 in T2.
  assert (Hf2 : find_run run_id (tables w2) = Some (flag_cancelled old)) by (rewrite T2; by apply find_run_same).
  apply wp_bind. destruct (bool_decide (ru_status old = u "queued")) eqn:Hq.
  - apply now_bind. set (t := db_now _). cbv zeta. apply change_api_bind. apply wp_bind.
    eapply wp_mono; [apply emit_on_wp| |done]. intros [] w3 (T3 & _ & E3 & B3).
    change (tables (put_session _ w2)) with (update_run run_id (stop_before_start t) (tables w2)) in T3.
    cbn [put_session ap_redis] in E3, B3.
    apply emit_last in E3 as (seq & Hl & Hcan). rewrite <- B3 in Hl, Hcan.
    apply wp_ret. apply wp_bind. unfold wp at 1, audit_run. cbn. exists old. rewrite Ht, Hq. split_and!; try done.
    + change (find_run run_id (tables w3) = Some (stop_before_start t (flag_cancelled old))).
      rewrite T3. by apply find_run_same.
    + change (bus_cancel (rd_bus (ap_redis w3) run_id) = true). by rewrite Hcan, B2.
    + eexists. split; [exact Hl|]. done.
  - apply wp_ret. apply wp_bind. unfold wp at 1, audit_run. cbn. exists old. rewrite Ht, Hq. split_and!; try done.
    change (bus_cancel (rd_bus (ap_redis w2) run_id) = true). by rewrite B2.
Qed.

(** What an answered cancellation of a run comes to *)
Definition cancel_answer (org run_id : pystr) (sv : Server) (run : Run) (sv' : Server) : Prop :=
  ∃ old, find_run run_id (sv_db sv) = Some old ∧ ru_org_id old = org ∧
    cancelled_as run_id old run (sv_db sv) (sv_db sv') (rd_bus (sv_redis sv') run_id) ∧
    (is_terminal (ru_status old) = true ∨ ru_status old = u "queued" →
     ∀ (E : Env) (D : DbEnv) web_fetch web_search o r o', OutsideTool web_fetch → OutsideTool web_search →
       of_db o = sv_db sv' → execute_run web_fetch web_search run_id o = (r, o') →
       of_db o' = of_db o ∧ ∀ id, of_bus o' id = of_bus o id).

(** C23: cancelling stops a run for good: a member's answered cancellation leaves a finished
    run alone, flags any other one in the tables and for the engine, and settles a queued
    one as cancelled with a terminal event; and executing a run that was finished or queued
    when it was cancelled, in any environment, changes no table and sends no event. *)
Theorem cancelled_run_never_starts rq org run_id sv run sv' ck :
  serve (cancel_run_route rq org run_id) sv = (Ok run, sv', ck) →
  (∃ c, authorised (Some (u "member")) rq org c (sv_db sv)) ∧ cancel_answer org run_id sv run sv'.
Proof.
  unfold cancel_run_route. intros Heq.
  apply (route_org _ _ _ _ _ _ _ _ (cancel_answer org run_id sv) Heq).
  intros c w _ Ho T. eapply wp_mono; [apply cancel_run_wp| |done]. intros a w' (old & Hf & Horg & Hc).
  rewrite T in Hf, Hc. exists old. split_and!; [done|congruence|done|].
  intros Hst E D web_fetch web_search o r o' H1 H2 Hdb Hex. cbn in Hdb.
  assert (Hrun : ∃ r, find_run run_id (of_db o) = Some r ∧ ru_status r ≠ u "queued").
  { rewrite Hdb. unfold cancelled_as in Hc. destruct (is_terminal (ru_status old)) eqn:Ht.
    - destruct Hc as [-> ->]. exists old. split; [done|]. intros Hq. by rewrite Hq in Ht.
    - destruct Hst as [?|Hq]; [done|]. destruct Hc as (Hr & _ & _ & Hs).
      rewrite bool_decide_eq_true_2 in Hs by done. exists a. split; [done|]. by rewrite (proj1 Hs). }
  destruct Hrun as (r0 & Hr0 & Hs0).
  destruct (not_queued_kept _ _ _ _ _ _ _ Hr0 Hs0 Hex) as (A & B & _). done.
Qed.
End cancelling.

(** ** Reading *)

Section reading.
Context `{RunsEnv}.

(** The runs whose rows an answered request shows *)
Inductive shows (rq : Request) (org : pystr) (sv : Server) : pystr → Prop :=
| shows_listed limit offset status runs r sv' ck :
    serve (list_runs_route rq org limit offset status) sv = (Ok runs, sv', ck) → r ∈ runs → shows rq org sv (ru_id r)
| shows_run run_id detail sv' ck :
    serve (get_run_route rq org run_id) sv = (Ok detail, sv', ck) → shows rq org sv (ru_id (rd_run detail))
| shows_step run_id detail s sv' ck :
    serve (get_run_route rq org run_id) sv = (Ok detail, sv', ck) → s ∈ rd_steps detail → shows rq org sv (rs_run_id s)
| shows_detail_artifact run_id detail a sv' ck :
    serve (get_run_route rq org run_id) sv = (Ok detail, sv', ck) → a ∈ rd_artifacts detail → shows rq org sv (aw_run_id a)
| shows_detail_call run_id detail t sv' ck :
    serve (get_run_route rq org run_id) sv = (Ok detail, sv', ck) → t ∈ rd_tool_calls detail → shows rq org sv (tg_run_id t)
| shows_content run_id id a sv' ck :
    serve (get_artifact_route rq org run_id id) sv = (Ok a, sv', ck) → shows rq org sv (aw_run_id a)
| shows_artifact run_id artifacts a sv' ck :
    serve (list_artifacts_route rq org run_id) sv = (Ok artifacts, sv', ck) → a ∈ artifacts → shows rq org sv (aw_run_id a)
| shows_tool_call run_id calls t sv' ck :
    serve (list_tool_calls_route rq org run_id) sv = (Ok calls, sv', ck) → t ∈ calls → shows rq org sv (tg_run_id t).

Definition own_run (org run_id : pystr) (d : Db) : Prop := ∃ r, r ∈ db_runs d ∧ ru_id r = run_id ∧ ru_org_id r = org.

Lemma found_own run_id d run : find_run run_id d = Some run → own_run (ru_org_id run) run_id d.
Proof. intros [Hin Hid]%List.find_some. apply bool_decide_eq_true in Hid. exists run. by rewrite list_elem_of_In. Qed.

Lemma query_wp' {A} (f : Db → A) (Q : A → ApiWorld → Prop) w :
  (∀ w', tables w' = tables w → Q (f (tables w)) w') → wp (on_sql (query f)) Q (λ _ _, True) w.
Proof.
  intros HQ. pose proof (statement_reads w) as Hs. unfold wp, on_sql, query in *.
  destruct (statement (ap_session w)) as [[[]|e] s']; [|done].
  pose proof (proj1 Hs) as Ht. unfold tables in Ht. cbn in Ht. rewrite Ht. by apply HQ, Hs.
Qed.

Lemma page_in {A} limit offset (l : list A) x : x ∈ page limit offset l → x ∈ l.
Proof.
  unfold page, slice_to, slice_from. rewrite !list_elem_of_In. intros Hx.
  rewrite <- (take_drop (slice_bound l offset) l). apply in_or_app. right.
  rewrite <- (take_drop (slice_bound (drop (slice_bound l offset) l) limit) (drop (slice_bound l offset) l)).
  apply in_or_app. by left.
Qed.

Lemma get_owned_wp {A} org_id run_id (m : M ApiWorld exn A) (Q : A → ApiWorld → Prop) w :
  (own_run org_id run_id (tables w) → ∀ w', tables w' = tables w → wp m Q (λ _ _, True) w') →
  wp (_ ← get_owned org_id run_id; m) Q (λ _ _, True) w.
Proof.
  intros Hm. apply get_owned_bind; [done|]. intros run w' (T & _) Hf <-. apply Hm; [by eapply found_own|done].
Qed.

(** An answer all of whose rows an organisation owns *)
Lemma rows_own {A} (handler : OrgContext → M ApiWorld exn A) (rows : A → list pystr) rq org sv a sv' ck :
  serve (org_route None rq org handler) sv = (Ok a, sv', ck) →
  (∀ c w, tables w = sv_db sv →
     wp (handler c) (λ a _, ∀ id, id ∈ rows a → own_run (oc_org_id c) id (sv_db sv)) (λ _ _, True) w) →
  (∃ c, authorised None rq org c (sv_db sv)) ∧ ∀ id, id ∈ rows a → own_run org id (sv_db sv).
Proof.
  intros Heq Hh. apply (route_org _ _ _ _ _ _ _ _ (λ a _, ∀ id, id ∈ rows a → own_run org id (sv_db sv)) Heq).
  intros c w _ <- T. eapply wp_mono; [apply (Hh c w T)| |done]. done.
Qed.

Lemma tool_call_of run_id d t : t ∈ tool_calls_of run_id d → tg_run_id t = run_id.
Proof.
  unfold tool_calls_of. rewrite merge_sort_Permutation. intros Ht%list_elem_of_In.
  by apply filter_In in Ht as [_ ->%bool_decide_eq_true].
Qed.

(** The runs the rows of a detail belong to *)
Definition detail_runs (d : RunDetail) : list pystr :=
  ru_id (rd_run d) :: map rs_run_id (rd_steps d) ++ map aw_run_id (rd_artifacts d) ++ map tg_run_id (rd_tool_calls d).

Lemma detail_own run_id c w :
  wp (get_run run_id c) (λ d _, ∀ id, id ∈ detail_runs d → own_run (oc_org_id c) id (tables w)) (λ _ _, True) w.
Proof.
  unfold get_run. apply query_bind; [done|]. intros w' _.
  destruct (find_run run_id (tables w)) as [run|] eqn:Hf; [|done]. case_bool_decide as Ho; [|done]. apply wp_ret.
  pose proof (find_run_id _ _ _ Hf) as Hid. rewrite <- Ho.
  enough (∀ id, id ∈ detail_runs (mkDetail run (steps_of run_id (tables w)) (artifacts_of run_id (tables w))
                                    (tool_calls_of run_id (tables w))) → id = run_id) as Hall.
  { intros id ->%Hall. by apply found_own. }
  intros id. unfold detail_runs. cbn [rd_run rd_steps rd_artifacts rd_tool_calls].
  rewrite elem_of_cons, !elem_of_app, !list_elem_of_fmap.
  intros [->|[(s & -> & Hs)|[(a & -> & Ha)|(t & -> & Ht)]]]; [done| | |by eapply tool_call_of].
  - by apply list_elem_of_In, filter_In in Hs as [_ Hs%bool_decide_eq_true].
  - by apply list_elem_of_In, filter_In in Ha as [_ Ha%bool_decide_eq_true].
Qed.

Lemma detail_shown rq org sv run_id d sv' ck :
  serve (get_run_route rq org run_id) sv = (Ok d, sv', ck) →
  (∃ c, authorised None rq org c (sv_db sv)) ∧ ∀ id, id ∈ detail_runs d → own_run org id (sv_db sv).
Proof. intros Heq. apply (rows_own _ detail_runs _ _ _ _ _ _ Heq). intros c w <-. apply detail_own. Qed.

(** C24: nobody reads another organisation's runs: whatever run the rows belong to that an
    answered request to the runs of an organisation shows, be it in a list, with its steps,
    its artifacts or its tool calls, that run is the organisation's, and the request came
    from someone who may see it. *)
Theorem runs_shown_are_own rq org sv run_id :
  shows rq org sv run_id → (∃ c, authorised None rq org c (sv_db sv)) ∧ own_run org run_id (sv_db sv).
Proof.
  intros [limit offset status runs r sv' ck Heq Hin|id d sv' ck Heq|id d s sv' ck Heq Hin|id d a sv' ck Heq Hin
         |id d t sv' ck Heq Hin|id aid a sv' ck Heq|id artifacts a sv' ck Heq Hin|id calls t sv' ck Heq Hin].
  2-5: destruct (detail_shown _ _ _ _ _ _ _ Heq) as [Hc Hown]; split; [done|]; apply Hown; unfold detail_runs;
    rewrite elem_of_cons, !elem_of_app, !list_elem_of_fmap; eauto 8.
  - destruct (rows_own (list_runs limit offset status) (map ru_id) _ _ _ _ _ _ Heq) as [Hc Hr];
      [|split; [done|]; apply Hr, list_elem_of_fmap; eauto].
    intros c w <-. unfold list_runs. apply query_wp'. intros w' _ x (r' & -> & Hx%page_in)%list_elem_of_fmap.
    rewrite elem_of_reverse in Hx. apply list_elem_of_In, filter_In in Hx as [Hx [Ho%bool_decide_eq_true _]%andb_true_iff].
    exists r'. by rewrite list_elem_of_In.
  - destruct (rows_own (get_artifact id aid) (λ a, [aw_run_id a]) _ _ _ _ _ _ Heq) as [Hc Hr];
      [|split; [done|]; apply Hr, list_elem_of_singleton; done].
    intros c w <-. unfold get_artifact. apply get_owned_wp. intros Hown w1 T1. apply query_bind; [done|]. intros w2 _.
    destruct (find_artifact aid (tables w1)) as [row|]; [|done]. case_bool_decide as Hrow; [|done].
    apply wp_ret. intros x ->%list_elem_of_singleton. by rewrite Hrow.
  - destruct (rows_own (list_artifacts id) (map aw_run_id) _ _ _ _ _ _ Heq) as [Hc Hr];
      [|split; [done|]; apply Hr, list_elem_of_fmap; eauto].
    intros c w <-. unfold list_artifacts. apply get_owned_wp. intros Hown w1 T1. apply query_wp'.
    intros w2 _ x (row & -> & Hx)%list_elem_of_fmap.
    by apply list_elem_of_In, filter_In in Hx as [_ ->%bool_decide_eq_true].
  - destruct (rows_own (list_tool_calls id) (map tg_run_id) _ _ _ _ _ _ Heq) as [Hc Hr];
      [|split; [done|]; apply Hr, list_elem_of_fmap; eauto].
    intros c w <-. unfold list_tool_calls. apply get_owned_wp. intros Hown w1 T1. apply query_wp'.
    intros w2 _ x (row & -> & ->%tool_call_of)%list_elem_of_fmap. done.
Qed.
End reading.
