(* ===== verification/RunsDemo.v ===== *)
(** * Concrete submissions and cancellations

    A workflow of one agent, where the theorems about the routes of runs are
    applied, and the requests that show their limits. *)

From S2P Require Import Prelude PyStr PyFloat PyVal PyRegex PyJson Config State Budget Registry.
From S2P Require Import Providers Pricing Keys Events World Router ToolBase ToolArtifacts ToolRegistry.
From S2P Require Import Engine EngineSafety EngineSinks Workflow Presets Database Auditing Billing.
From S2P Require Import BillingSafety Runner RunnerSafety RunnerRuns Security RateLimit Api ApiSafety Auth AuthSafety.
From S2P Require Import AuthDemo Orgs OrgSafety RunsApi RunsSafety.

(** One call of a request to Redis fails, or none does. *)
Definition flaky_api (broken : option nat) : ApiEnv := {|
  api_tables := ascii_tables; api_vault := toy_vault; api_db := quiet_db; api_settings := demo_settings;
  api_redis_fault := λ n, if bool_decide (Some n = broken) then Some (ExternalError (u "ConnectionError") []) else None;
  api_time := λ _, 0; api_expired := λ _, false; api_secret := λ n, u "r" ++ str_of_Z (Z.of_nat n) |}.
Definition runs_env (broken : option nat) : RunsEnv := {|
  runs_api := flaky_api broken;
  enqueue_job := λ job q, if bool_decide (jb_job_id job ∈ map jb_job_id q) then q else q ++ [job];
  committed_meanwhile := λ d, d |}.
#[local] Instance demo_runs : RunsEnv := runs_env None.

Definition one_agent : Graph := [(u "nodes", VList [VDict [(u "agent_id", VStr (u "a1"))]])].
Definition demo_workflow : WorkflowRow :=
  mkWorkflowRow (u "w1") (og_id demo_org) (u "Solo") [] (u "pipeline") one_agent true None.
Definition funded : Org := set_credits 1000 demo_org.
Definition runs_db : Db := set_workflows [demo_workflow] (set_orgs [funded] team_db).
Definition runs_server : Server := auth_server runs_db.

Definition submission : RunCreate := mkRunCreate (u "w1") (u "Write a haiku") None (Some (u "key-1")).

#[local] Abbreviation created := (serve (create_run_route plain_request (og_id demo_org) submission None) runs_server).

Lemma created_ok :
  is_ok created.1.1 = true ∧ map ru_status (db_runs (sv_db created.1.2)) = [u "queued"] ∧
  map jb_run_id (rd_jobs (sv_redis created.1.2)) = map ru_id (db_runs (sv_db created.1.2)).
Proof. split_and!; vm_compute; reflexivity. Qed.

Definition no_run : Run := queued_run [] [] [] [] [] [] 0 None.
Definition the_run : Run := default no_run (head (db_runs (sv_db created.1.2))).
Lemma created_eq : created = (Ok the_run, created.1.2, created.2).
Proof. apply answered; [vm_compute; reflexivity|reflexivity]. Qed.

Lemma create_run_sound_witness :
  ∃ c, authorised (Some (u "member")) plain_request (og_id demo_org) c runs_db ∧ oc_org_id c = og_id demo_org ∧
       create_result submission None plain_request c runs_db (sv_db created.1.2) [] (rd_jobs (sv_redis created.1.2)) the_run.
Proof.
  exact (create_run_sound submission None plain_request (og_id demo_org) runs_server the_run created.1.2 created.2 created_eq).
Defined.

(** The run waits in the queue; it is cancelled there. *)
Definition waiting_server : Server := created.1.2.
#[local] Abbreviation cancelled := (serve (cancel_run_route plain_request (og_id demo_org) (ru_id the_run)) waiting_server).

Lemma cancelled_run_never_starts_witness :
  map ru_status (db_runs (sv_db cancelled.1.2)) = [u "cancelled"] ∧
  ∃ run, cancel_answer (og_id demo_org) (ru_id the_run) waiting_server run cancelled.1.2.
Proof.
  split; [vm_compute; reflexivity|].
  assert (Hr : is_ok cancelled.1.1 = true) by (vm_compute; reflexivity).
  destruct cancelled as [[r sv1] ck] eqn:Heq.
  destruct r as [run|e]; [|discriminate Hr]. exists run.
  exact (proj2 (cancelled_run_never_starts plain_request (og_id demo_org) (ru_id the_run) waiting_server run sv1 ck Heq)).
Defined.

#[local] Abbreviation listed := (serve (list_runs_route plain_request (og_id demo_org) 50 0 None) waiting_server).

Lemma runs_shown_are_own_witness :
  own_run (og_id demo_org) (ru_id the_run) (sv_db waiting_server).
Proof.
  assert (Hr : match listed.1.1 with Ok runs => bool_decide (ru_id the_run ∈ map ru_id runs) | Err _ => false end = true)
    by (vm_compute; reflexivity).
  destruct listed as [[r sv1] ck] eqn:Heq.
  destruct r as [runs|e]; [|discriminate Hr]. cbn [fst] in Hr.
  apply bool_decide_eq_true, list_elem_of_fmap in Hr as (run & Hid & Hin).
  pose proof (shows_listed plain_request (og_id demo_org) waiting_server 50 0 None runs run sv1 ck Heq Hin) as Hs.
  rewrite <- Hid in Hs.
  exact (proj2 (runs_shown_are_own plain_request (og_id demo_org) waiting_server (ru_id the_run) Hs)).
Defined.

(** ** The limits *)

(** The queue is unreachable after the commit: the request fails, the run stays queued
    with no job, and a retry under the same key answers with it without queuing it. *)
Definition broken_env : RunsEnv := runs_env (Some 4%nat).
Definition queue_state (sv : Server) : list pystr * nat := (map ru_status (db_runs (sv_db sv)), length (rd_jobs (sv_redis sv))).

Lemma lost_enqueue_strands_run :
  let first := serve (H := @runs_api broken_env)
                 (@create_run_route broken_env plain_request (og_id demo_org) submission None) runs_server in
  let retry := serve (create_run_route plain_request (og_id demo_org) submission None) first.1.2 in
  is_ok first.1.1 = false ∧ queue_state first.1.2 = ([u "queued"], 0%nat) ∧
  is_ok retry.1.1 = true ∧ queue_state retry.1.2 = ([u "queued"], 0%nat).
Proof. split_and!; vm_compute; reflexivity. Qed.

(** The audit entry of a cancellation names the new status as the previous one. *)
Lemma cancel_audits_new_status :
  map (λ a, assoc (u "previous_status") (al_detail a))
    (List.filter (λ a, bool_decide (al_action a = u "run.cancelled")) (db_audit (sv_db cancelled.1.2)))
  = [Some (VStr (u "cancelled"))].
Proof. vm_compute. reflexivity. Qed.
