(* ===== verification/Ipaddress.v ===== *)
(** * Addresses (Python's ipaddress, as src/core/tools/web.py uses it)

    The addresses [ipaddress.ip_address] accepts and the classes of addresses the
    web tools ask for: the tables of networks are those of CPython 3.12.  The
    guard [is_public] itself is here too, with its meaning on dotted addresses. *)

From S2P Require Import Prelude PyStr PyFloat PyVal PyJson.

Inductive ip_address := IPv4 (ip : Z) | IPv6 (ip : Z).
#[global] Instance ip_address_eq_dec : EqDecision ip_address.
Proof. solve_decision. Defined.

(** ** Parsing *)

(** [IPv4Address._parse_octet] *)
Definition decimal_value (s : pystr) : Z := fold_left (λ n c, n * 10 + (Z.of_N c - 48)) s 0.
Definition parse_octet (s : pystr) : option Z :=
  if bool_decide (s = []) || negb (forallb ascii_digit s) || (3 <? py_len s) then None
  else if negb (bool_decide (s = u "0")) && startswith (u "0") s then None
  else if 255 <? decimal_value s then None else Some (decimal_value s).

(** [IPv4Address(s)] *)
Definition parse_v4 (s : pystr) : option Z :=
  if contains (u "/") s then None
  else match split (u ".") s with
       | [a; b; c; d] =>
           a ← parse_octet a; b ← parse_octet b; c ← parse_octet c; d ← parse_octet d;
           Some (Z.lor (Z.shiftl a 24) (Z.lor (Z.shiftl b 16) (Z.lor (Z.shiftl c 8) d)))
       | _ => None
       end.

(** [IPv6Address._parse_hextet]; an empty text is the [ValueError] of [int]. *)
Definition hextet_digit (c : N) : option Z := Z.of_N <$> hex_value c.
Definition parse_hextet (s : pystr) : option Z :=
  if bool_decide (s = []) || (4 <? py_len s) then None
  else foldl (λ n c, n ← n; d ← hextet_digit c; Some (n * 16 + d)) (Some 0) s.
Definition parse_hextets (ip : Z) (parts : list pystr) : option Z :=
  foldl (λ n p, n ← n; h ← parse_hextet p; Some (Z.lor (Z.shiftl n 16) h)) (Some ip) parts.

(** ['%x' % n] *)
Definition hex_text (n : Z) : pystr :=
  match drop_while (N.eqb 48) (hex_fuel 4 (Z.to_N n)) with [] => u "0" | digits => digits end.

(** A dotted last part stands for two hextets. *)
Definition expand_dotted (parts : list pystr) : option (list pystr) :=
  match reverse parts with
  | last :: before =>
      if contains (u ".") last then
        ip ← parse_v4 last;
        Some (reverse before ++ [hex_text (Z.land (Z.shiftr ip 16) 65535); hex_text (Z.land ip 65535)])
      else Some parts
  | [] => Some parts
  end.

(** The places, not at either end, where a part is empty *)
Definition empty_places (parts : list pystr) : list nat :=
  filter (λ i, parts !! i = Some []) (seq 1 (length parts - 2)).

Definition is_empty_at (parts : list pystr) (i : nat) : bool := bool_decide (parts !! i = Some []).

(** [IPv6Address._ip_int_from_string] *)
Definition parse_v6_text (s : pystr) : option Z :=
  let parts := split (u ":") s in
  if (length parts <? 3)%nat then None
  else
    parts ← expand_dotted parts;
    let n := length parts in
    if (9 <? n)%nat then None
    else match empty_places parts with
    | [] =>
        if negb (n =? 8)%nat || is_empty_at parts 0 || is_empty_at parts (n - 1) then None
        else parse_hextets 0 parts
    | [skip] =>
        let leading := is_empty_at parts 0 in
        let trailing := is_empty_at parts (n - 1) in
        let hi := if leading then (skip - 1)%nat else skip in
        let lo := if trailing then (n - skip - 2)%nat else (n - skip - 1)%nat in
        if (leading && negb (hi =? 0)%nat) || (trailing && negb (lo =? 0)%nat) || (8 <=? hi + lo)%nat then None
        else
          ip ← parse_hextets 0 (take hi parts);
          parse_hextets (Z.shiftl ip (16 * (8 - Z.of_nat (hi + lo)))) (drop (n - lo) parts)
    | _ => None
    end.

(** [IPv6Address(s)]: a scope after a percent sign is not part of the number. *)
Definition parse_v6 (s : pystr) : option Z :=
  if contains (u "/") s then None
  else match partition_at (u "%") s with
       | None => parse_v6_text s
       | Some (address, scope) =>
           if bool_decide (scope = []) || contains (u "%") scope then None else parse_v6_text address
       end.

(** [ipaddress.ip_address(s)]: [None] is its [ValueError]. *)
Definition parse_address (s : pystr) : option ip_address :=
  match parse_v4 s with Some ip => Some (IPv4 ip) | None => IPv6 <$> parse_v6 s end.

(** ** Networks *)

(** A network: its address and the length of its prefix. *)
Definition in_net (bits ip : Z) (net : Z * Z) : bool :=
  Z.shiftr ip (bits - net.2) =? Z.shiftr net.1 (bits - net.2).
Definition in_any (bits ip : Z) (nets : list (Z * Z)) : bool := existsb (in_net bits ip) nets.

Definition v4 (a b c d : Z) : Z := ((a * 256 + b) * 256 + c) * 256 + d.
Definition v6 (high : list Z) : Z :=
  fold_left (λ n h, n * 65536 + h) high 0 * 2 ^ (16 * (8 - Z.of_nat (length high))).

Definition private_v4 : list (Z * Z) :=
  [(v4 0 0 0 0, 8); (v4 10 0 0 0, 8); (v4 127 0 0 0, 8); (v4 169 254 0 0, 16); (v4 172 16 0 0, 12);
   (v4 192 0 0 0, 24); (v4 192 0 0 170, 31); (v4 192 0 2 0, 24); (v4 192 168 0 0, 16); (v4 198 18 0 0, 15);
   (v4 198 51 100 0, 24); (v4 203 0 113 0, 24); (v4 240 0 0 0, 4); (v4 255 255 255 255, 32)].
Definition public_in_private_v4 : list (Z * Z) := [(v4 192 0 0 9, 32); (v4 192 0 0 10, 32)].

Definition private_v6 : list (Z * Z) :=
  [(1, 128); (0, 128); (v6 [0; 0; 0; 0; 0; 65535], 96); (v6 [100; 65435; 1], 48); (v6 [256], 64);
   (v6 [8193], 23); (v6 [8193; 3512], 32); (v6 [8194], 16); (v6 [16383], 20); (v6 [64512], 7); (v6 [65152], 10)].
Definition public_in_private_v6 : list (Z * Z) :=
  [(v6 [8193; 1] + 1, 128); (v6 [8193; 1] + 2, 128); (v6 [8193; 3], 32); (v6 [8193; 4; 274], 48);
   (v6 [8193; 32], 28); (v6 [8193; 48], 28)].
Definition reserved_v6 : list (Z * Z) :=
  [(0, 8); (v6 [256], 8); (v6 [512], 7); (v6 [1024], 6); (v6 [2048], 5); (v6 [4096], 4); (v6 [16384], 3);
   (v6 [24576], 3); (v6 [32768], 3); (v6 [40960], 3); (v6 [49152], 3); (v6 [57344], 4); (v6 [61440], 5);
   (v6 [63488], 6); (v6 [65024], 9)].

Definition v4_is_private (ip : Z) : bool := in_any 32 ip private_v4 && negb (in_any 32 ip public_in_private_v4).
Definition ipv4_mapped (ip : Z) : option Z :=
  if Z.shiftr ip 32 =? 65535 then Some (Z.land ip (2 ^ 32 - 1)) else None.

Definition is_private (a : ip_address) : bool :=
  match a with
  | IPv4 ip => v4_is_private ip
  | IPv6 ip =>
      match ipv4_mapped ip with
      | Some ip4 => v4_is_private ip4
      | None => in_any 128 ip private_v6 && negb (in_any 128 ip public_in_private_v6)
      end
  end.
Definition is_loopback (a : ip_address) : bool :=
  match a with IPv4 ip => in_net 32 ip (v4 127 0 0 0, 8) | IPv6 ip => ip =? 1 end.
Definition is_link_local (a : ip_address) : bool :=
  match a with IPv4 ip => in_net 32 ip (v4 169 254 0 0, 16) | IPv6 ip => in_net 128 ip (v6 [65152], 10) end.
Definition is_multicast (a : ip_address) : bool :=
  match a with IPv4 ip => in_net 32 ip (v4 224 0 0 0, 4) | IPv6 ip => in_net 128 ip (v6 [65280], 8) end.
Definition is_reserved (a : ip_address) : bool :=
  match a with IPv4 ip => in_net 32 ip (v4 240 0 0 0, 4) | IPv6 ip => in_any 128 ip reserved_v6 end.
Definition is_unspecified (a : ip_address) : bool := match a with IPv4 ip | IPv6 ip => ip =? 0 end.

(** [_is_public] of web.py *)
Definition is_public (address : pystr) : bool :=
  match parse_address address with
  | None => false
  | Some ip =>
      negb (is_private ip || is_loopback ip || is_link_local ip || is_multicast ip || is_reserved ip
            || is_unspecified ip)
  end.

(** ** What the guard refuses *)

Definition dotted (a b c d : Z) : pystr := join (u ".") (map str_of_Z [a; b; c; d]).
Definition octet (a : Z) : Prop := 0 ≤ a < 256.

(** The addresses that lead back into the machine or its network, octet by octet *)
Definition internal (a b c d : Z) : Prop :=
  a = 0 ∨ a = 10 ∨ a = 127 ∨ (a = 169 ∧ b = 254) ∨ (a = 172 ∧ 16 ≤ b < 32) ∨ (a = 192 ∧ b = 168) ∨
  (a = 192 ∧ b = 0 ∧ c = 0 ∧ d ≠ 9 ∧ d ≠ 10) ∨ (a = 192 ∧ b = 0 ∧ c = 2) ∨ (a = 198 ∧ 18 ≤ b < 20) ∨
  (a = 198 ∧ b = 51 ∧ c = 100) ∨ (a = 203 ∧ b = 0 ∧ c = 113) ∨ 224 ≤ a.

Lemma octets_checked : forallb (λ a, bool_decide (parse_octet (str_of_Z a) = Some a)
  && forallb ascii_digit (str_of_Z a)) (seqZ 0 256) = true.
Proof. vm_compute. reflexivity. Qed.

Lemma octet_text a : octet a → parse_octet (str_of_Z a) = Some a ∧ Forall (λ c, ascii_digit c = true) (str_of_Z a).
Proof.
  intros Ha. pose proof octets_checked as Hc. rewrite forallb_forall in Hc.
  specialize (Hc a). rewrite andb_true_iff, bool_decide_eq_true, forallb_forall in Hc.
  destruct Hc as [H1 H2]; [apply list_elem_of_In, elem_of_seqZ; unfold octet in *; lia|].
  split; [done|]. apply Forall_forall. intros c Hin. by apply H2, list_elem_of_In.
Qed.

Lemma not_in_digits x a : ascii_digit x = false → octet a → x ∉ str_of_Z a.
Proof.
  intros Hx [_ Ha]%octet_text Hin. rewrite Forall_forall in Ha. specialize (Ha x Hin). congruence.
Qed.

Lemma lor_shiftl_add x y k : 0 ≤ k → 0 ≤ y < 2 ^ k → Z.lor (Z.shiftl x k) y = x * 2 ^ k + y.
Proof.
  intros Hk Hy. rewrite Z.shiftl_mul_pow2 by done. symmetry. rewrite <-Z.add_lor_land.
  assert (Z.land (x * 2 ^ k) y = 0) as ->; [|lia].
  apply Z.bits_inj'. intros i Hi. rewrite Z.land_spec, Z.bits_0.
  destruct (Z.ltb_spec i k).
  - by rewrite Z.mul_pow2_bits_low.
  - destruct (Z.eq_dec y 0) as [->|]; [by rewrite Z.bits_0, andb_false_r|].
    rewrite (Z.bits_above_log2 y i); [apply andb_false_r|lia|]. assert (Z.log2 y < k) by (apply Z.log2_lt_pow2; lia). lia.
Qed.

Lemma parse_dotted a b c d : octet a → octet b → octet c → octet d →
  parse_address (dotted a b c d) = Some (IPv4 (v4 a b c d)).
Proof.
  intros Ha Hb Hc Hd. unfold parse_address, parse_v4.
  assert (Hslash : contains (u "/") (dotted a b c d) = false).
  { unfold contains, dotted. change (u "/") with [47%N]. change (u ".") with [46%N].
    rewrite (proj2 (partition_at_char_None 47%N _)); [done|]. cbn [map join].
    rewrite !elem_of_app. assert (Hdot : 47%N ∉ [46%N]) by (rewrite list_elem_of_singleton; lia).
    pose proof (not_in_digits 47 a eq_refl Ha). pose proof (not_in_digits 47 b eq_refl Hb).
    pose proof (not_in_digits 47 c eq_refl Hc). pose proof (not_in_digits 47 d eq_refl Hd). tauto. }
  rewrite Hslash. unfold dotted, split. change (u ".") with [46%N].
  rewrite split_join_char; [|done| |].
  - cbn [map]. rewrite (proj1 (octet_text a Ha)), (proj1 (octet_text b Hb)), (proj1 (octet_text c Hc)),
      (proj1 (octet_text d Hd)). cbn [mbind option_bind]. f_equal. f_equal. unfold octet in *.
    rewrite (lor_shiftl_add c d 8), (lor_shiftl_add b _ 16), (lor_shiftl_add a _ 24) by lia. unfold v4. lia.
  - cbn [map]. repeat constructor; by apply not_in_digits.
  - cbn [map length]. lia.
Qed.

Lemma in_net_interval ip base prefix k q :
  32 - prefix = k → Z.shiftr base k = q → 0 ≤ k →
  in_net 32 ip (base, prefix) = (q * 2 ^ k <=? ip) && (ip <? (q + 1) * 2 ^ k).
Proof.
  intros Hk Hq Hk0. unfold in_net. simpl. rewrite Hk, Hq, Z.shiftr_div_pow2 by done.
  assert (0 < 2 ^ k) by (apply Z.pow_pos_nonneg; lia).
  pose proof (Z.div_mod ip (2 ^ k) ltac:(lia)) as Hd. pose proof (Z.mod_pos_bound ip (2 ^ k) ltac:(lia)).
  destruct (Z.eqb_spec (ip / 2 ^ k) q), (Z.leb_spec (q * 2 ^ k) ip), (Z.ltb_spec ip ((q + 1) * 2 ^ k)); nia.
Qed.

Ltac net_interval k q := rewrite (in_net_interval _ _ _ k q); [|reflexivity|try reflexivity|lia].

(** A network given by its first octet, its first two, its first three, or all four *)
Lemma in_net_8 a b c d a0 : octet a → octet b → octet c → octet d →
  in_net 32 (v4 a b c d) (v4 a0 0 0 0, 8) = (a =? a0).
Proof.
  unfold octet. intros. net_interval 24 a0;
    [|unfold v4; rewrite Z.shiftr_div_pow2 by lia; change (2 ^ 24) with 16777216; Z.to_euclidean_division_equations; lia].
  unfold v4. change (2 ^ 24) with 16777216. lia.
Qed.
Lemma in_net_16 a b c d a0 b0 : octet a → octet b → octet c → octet d → octet b0 →
  in_net 32 (v4 a b c d) (v4 a0 b0 0 0, 16) = (a =? a0) && (b =? b0).
Proof.
  unfold octet. intros. net_interval 16 (a0 * 256 + b0);
    [|unfold v4; rewrite Z.shiftr_div_pow2 by lia; change (2 ^ 16) with 65536; Z.to_euclidean_division_equations; lia].
  unfold v4. change (2 ^ 16) with 65536. lia.
Qed.
Lemma in_net_24 a b c d a0 b0 c0 : octet a → octet b → octet c → octet d → octet b0 → octet c0 →
  in_net 32 (v4 a b c d) (v4 a0 b0 c0 0, 24) = (a =? a0) && (b =? b0) && (c =? c0).
Proof.
  unfold octet. intros. net_interval 8 ((a0 * 256 + b0) * 256 + c0);
    [|unfold v4; rewrite Z.shiftr_div_pow2 by lia; change (2 ^ 8) with 256; Z.to_euclidean_division_equations; lia].
  unfold v4. change (2 ^ 8) with 256. lia.
Qed.
Lemma in_net_32 a b c d a0 b0 c0 d0 : octet a → octet b → octet c → octet d → octet b0 → octet c0 → octet d0 →
  in_net 32 (v4 a b c d) (v4 a0 b0 c0 d0, 32) = (a =? a0) && (b =? b0) && (c =? c0) && (d =? d0).
Proof. unfold octet, in_net, v4. cbn [fst snd]. rewrite !Z.shiftr_0_r. lia. Qed.

(** ** Other lengths, at the networks of the tables *)
Lemma in_net_odd a b c d : octet a → octet b → octet c → octet d →
  in_net 32 (v4 a b c d) (v4 172 16 0 0, 12) = (a =? 172) && (16 <=? b) && (b <? 32) ∧
  in_net 32 (v4 a b c d) (v4 198 18 0 0, 15) = (a =? 198) && (18 <=? b) && (b <? 20) ∧
  in_net 32 (v4 a b c d) (v4 192 0 0 170, 31) = (a =? 192) && (b =? 0) && (c =? 0) && (170 <=? d) && (d <? 172) ∧
  in_net 32 (v4 a b c d) (v4 224 0 0 0, 4) = (224 <=? a) && (a <? 240) ∧
  in_net 32 (v4 a b c d) (v4 240 0 0 0, 4) = (240 <=? a).
Proof.
  unfold octet. intros. split_and!.
  - net_interval 20 2753. unfold v4. change (2 ^ 20) with 1048576. lia.
  - net_interval 17 25353. unfold v4. change (2 ^ 17) with 131072. lia.
  - net_interval 1 1610612821. unfold v4. change (2 ^ 1) with 2. lia.
  - net_interval 28 14. unfold v4. change (2 ^ 28) with 268435456. lia.
  - net_interval 28 15. unfold v4. change (2 ^ 28) with 268435456. lia.
Qed.

Ltac refuted := match goal with H : ¬ internal _ _ _ _ |- ?b = false =>
  apply not_true_is_false; intros Hb; apply H; unfold internal;
  rewrite ?andb_true_iff, ?Z.eqb_eq, ?Z.leb_le, ?Z.ltb_lt in Hb; tauto end.

Lemma not_internal a b c d : ¬ internal a b c d →
  (a =? 0) = false ∧ (a =? 10) = false ∧ (a =? 127) = false ∧ (a =? 169) && (b =? 254) = false ∧
  (a =? 172) && (16 <=? b) && (b <? 32) = false ∧ (a =? 192) && (b =? 168) = false ∧
  (a =? 192) && (b =? 0) && (c =? 2) = false ∧ (a =? 198) && (18 <=? b) && (b <? 20) = false ∧
  (a =? 198) && (b =? 51) && (c =? 100) = false ∧ (a =? 203) && (b =? 0) && (c =? 113) = false ∧
  (240 <=? a) = false ∧ (224 <=? a) = false ∧ (a = 192 → b = 0 → c = 0 → d = 9 ∨ d = 10).
Proof.
  intros H. assert (Hl : a < 224) by (destruct (Z.lt_ge_cases a 224); [done|]; destruct H; unfold internal; tauto).
  split_and!; try refuted; try (apply Z.leb_gt; lia).
  intros H1 H2 H3. destruct (Z.eq_dec d 9), (Z.eq_dec d 10); auto. destruct H. unfold internal. tauto.
Qed.

(** of the dotted addresses the guard of the web tools lets through exactly those
    that are not of this machine, of a private or a link-local network, reserved,
    kept for documentation, or multicast.  The shared range 100.64.0.0/10 counts as
    public. *)
Theorem dotted_public a b c d : octet a → octet b → octet c → octet d →
  is_public (dotted a b c d) = true ↔ ¬ internal a b c d.
Proof.
  intros Ha Hb Hc Hd. unfold is_public. rewrite parse_dotted by done.
  unfold is_private, is_loopback, is_link_local, is_multicast, is_reserved, is_unspecified, v4_is_private, in_any.
  unfold private_v4, public_in_private_v4. cbn [existsb].
  pose proof (in_net_odd a b c d Ha Hb Hc Hd) as (-> & -> & -> & -> & ->).
  rewrite !in_net_8, !in_net_16, !in_net_24, !in_net_32 by (done || by unfold octet; lia).
  rewrite negb_true_iff. unfold internal, octet in *. split.
  - intros Hpub Hint. revert Hpub. apply not_false_iff_true.
    destruct Hint as [->|[->|[->|[[-> ->]|[[-> [Hl Hu]]|[[-> ->]|[(-> & -> & -> & H9 & H10)|
      [(-> & -> & ->)|[[-> [Hl Hu]]|[(-> & -> & ->)|[(-> & -> & ->)|Hl]]]]]]]]]]]; try reflexivity.
    + rewrite (proj2 (Z.leb_le _ _) Hl), (proj2 (Z.ltb_lt _ _) Hu). reflexivity.
    + rewrite (proj2 (Z.eqb_neq _ _) H9), (proj2 (Z.eqb_neq _ _) H10). reflexivity.
    + rewrite (proj2 (Z.leb_le _ _) Hl), (proj2 (Z.ltb_lt _ _) Hu). reflexivity.
    + rewrite (proj2 (Z.leb_le _ _) Hl). destruct (Z.leb_spec 240 a).
      * by rewrite !orb_true_r.
      * by rewrite (proj2 (Z.ltb_lt a 240)), !orb_true_r by lia.
  - intros Hint. pose proof (not_internal _ _ _ _ Hint) as Hn.
    destruct Hn as (-> & -> & -> & -> & -> & -> & -> & -> & -> & -> & -> & Hlow & Hexc).
    assert (Hz : (v4 a b c d =? 0) = false).
    { assert (a ≠ 0) as H0 by (intros ->; apply Hint; by left). clear Hint Hlow Hexc. unfold v4. lia. }
    rewrite Hz, Hlow. cbn [orb andb]. rewrite !orb_false_r.
    assert ((a =? 255) = false) as -> by (clear Hint Hexc Hz; lia). rewrite !orb_false_r.
    destruct ((a =? 192) && (b =? 0) && (c =? 0)) eqn:H0; [|done]. clear Hint.
    assert (a = 192 ∧ b = 0 ∧ c = 0) as (-> & -> & ->) by (clear Hexc Hlow Hz; lia). by destruct Hexc as [->| ->].
Qed.

Lemma dotted_public_witness : is_public (dotted 8 8 8 8) = true ↔ ¬ internal 8 8 8 8.
Proof. assert (H : octet 8) by (unfold octet; lia). exact (dotted_public 8 8 8 8 H H H H). Defined.

(** The shared range of RFC 6598 and the deprecated site-local addresses pass. *)
Example shared_and_site_local_pass :
  is_public (u "100.100.100.200") = true ∧ is_public (u "fec0::1") = true ∧ is_public (u "169.254.169.254") = false.
Proof. vm_compute. auto. Qed.
