(* ===== verification/Web.v ===== *)
(** * The web tools (src/core/tools/web.py)

    Fetching a page and searching the web.  The network is an argument: what names
    resolve to, what servers and search services reply, how httpx joins a
    redirect's location to a URL, and the text in a body of a given encoding.  Of
    the standard library, [urlparse] is written out as far as the guard reads it,
    but for the checks of a host's brackets and of its Unicode normal form, and the
    handler calls [HTMLParser] makes for a page are an argument.

    The computations carry a trace of what they asked of the network, which the
    tools drop: the theorems of WebSafety are about it. *)

From S2P Require Import Prelude PyStr PyFloat PyVal PyRegex PyJson Ipaddress Config State Budget Registry.
From S2P Require Import Providers Pricing Keys Events World ToolBase ToolArtifacts.

Definition MAX_RESPONSE_BYTES : Z := 2 * 1024 * 1024.
Definition MAX_REDIRECTS : nat := 3.
Definition ALLOWED_SCHEMES : list pystr := [u "http"; u "https"].
Definition METADATA_HOSTS : list pystr := [u "metadata.google.internal"; u "metadata.goog"].

(** ** The network *)

Inductive HtmlEvent := HStart (tag : pystr) | HEnd (tag : pystr) | HData (data : pystr).

Inductive Resolution :=
| Addresses (l : list pystr)
| GaiError
| ResolveFailed (name msg : pystr).      (* another exception of [getaddrinfo] *)

Record Response := mkResponse {
  rp_status : Z; rp_location : option pystr; rp_content_type : option pystr; rp_encoding : option pystr;
  rp_content : list N }.

Inductive Reply :=
| Replied (r : Response)
| HttpError (name : pystr)               (* an [httpx.HTTPError] *)
| RequestFailed (name msg : pystr).      (* another exception of httpx *)

Inductive SearchRequest :=
| BraveQuery (query : pystr) (count : Z) (api_key : pystr)
| TavilyQuery (query : pystr) (count : Z) (api_key : pystr).

Inductive SearchReply :=
| Found (payload : pyval)                (* the JSON of a reply with a 2xx status *)
| SearchHttpError (name : pystr)
| SearchFailed (name msg : pystr).

Class WebEnv := {
  web_resolve : nat → pystr → Resolution;
  web_get : nat → pystr → Reply;
  web_join : pystr → pystr → res exn pystr;           (* [response.url.join(location)] *)
  web_decode : pystr → list N → pystr;                (* [bytes.decode(encoding, errors="replace")] *)
  web_html : pystr → list HtmlEvent;
  web_search_reply : nat → SearchRequest → SearchReply;
  web_netloc_error : pystr → option pystr }.

Inductive NetEvent :=
| Resolved (host : pystr) (addresses : list pystr)
| Fetched (url : pystr)
| Searched (request : SearchRequest).

(** ** URLs *)

Definition scheme_char (c : N) : bool := ascii_alnum c || mem_char (u "+-.") c.

(** The scheme and what follows it, once leading controls and spaces, and tabs and
    line ends anywhere, are gone *)
Definition split_scheme (url : pystr) : pystr * pystr :=
  let url := List.filter (λ c, negb (mem_char [9; 13; 10]%N c)) (drop_while (λ c, (c <=? 32)%N) url) in
  match partition_at (u ":") url with
  | Some (c :: scheme, rest) =>
      if ascii_alpha c && forallb scheme_char (c :: scheme) then (map ascii_lower (c :: scheme), rest) else ([], url)
  | _ => ([], url)
  end.

(** [_splitnetloc] *)
Fixpoint take_netloc (s : pystr) : pystr :=
  match s with
  | c :: s' => if mem_char (u "/?#") c then [] else c :: take_netloc s'
  | [] => []
  end.

Record ParsedUrl := mkParsed { pu_scheme : pystr; pu_netloc : pystr }.

Definition urlparse `{WebEnv} (url : pystr) : res exn ParsedUrl :=
  let '(scheme, rest) := split_scheme url in
  let netloc := if startswith (u "//") rest then take_netloc (drop 2 rest) else [] in
  match web_netloc_error netloc with
  | Some msg => Err (ValueError msg)
  | None => Ok (mkParsed scheme netloc)
  end.

(** [ParseResult.hostname] *)
Definition before (c : pystr) (s : pystr) : pystr := match partition_at c s with Some (a, _) => a | None => s end.
Definition hostname `{PyTables} (p : ParsedUrl) : option pystr :=
  let hostinfo := after_last 64 (pu_netloc p) in
  let host := match partition_at (u "[") hostinfo with
              | Some (_, bracketed) => before (u "]") bracketed
              | None => before (u ":") hostinfo
              end in
  match host with
  | [] => None
  | _ => match partition_at (u "%") host with
         | Some (name, zone) => Some (lower name ++ u "%" ++ zone)
         | None => Some (lower host)
         end
  end.

(** ** Text of a page *)

Definition SKIP : list pystr := map u ["script"; "style"; "noscript"; "svg"; "head"]%string.
Definition BREAK : list pystr :=
  map u ["p"; "br"; "div"; "li"; "tr"; "h1"; "h2"; "h3"; "h4"; "h5"; "h6"]%string.

Record TextExtractor := mkExtractor {
  ex_parts : list pystr; ex_skip_depth : nat; ex_title : option pystr; ex_in_title : bool }.
Definition new_extractor : TextExtractor := mkExtractor [] 0 None false.

Definition add_part (s : pystr) (x : TextExtractor) : TextExtractor :=
  mkExtractor (ex_parts x ++ [s]) (ex_skip_depth x) (ex_title x) (ex_in_title x).
Definition set_depth (n : nat) (x : TextExtractor) : TextExtractor :=
  mkExtractor (ex_parts x) n (ex_title x) (ex_in_title x).
Definition set_in_title (b : bool) (x : TextExtractor) : TextExtractor :=
  mkExtractor (ex_parts x) (ex_skip_depth x) (ex_title x) b.
Definition set_title (t : pystr) (x : TextExtractor) : TextExtractor :=
  mkExtractor (ex_parts x) (ex_skip_depth x) (Some t) (ex_in_title x).

Definition handle_starttag (tag : pystr) (x : TextExtractor) : TextExtractor :=
  if bool_decide (tag ∈ SKIP) then set_depth (S (ex_skip_depth x)) x
  else if bool_decide (tag = u "title") then set_in_title true x
  else if bool_decide (tag ∈ BREAK) then add_part [10%N] x else x.
Definition handle_endtag (tag : pystr) (x : TextExtractor) : TextExtractor :=
  if bool_decide (tag ∈ SKIP) && negb (ex_skip_depth x =? 0)%nat then set_depth (pred (ex_skip_depth x)) x
  else if bool_decide (tag = u "title") then set_in_title false x
  else if bool_decide (tag ∈ BREAK) then add_part [10%N] x else x.
Definition handle_data (data : pystr) (x : TextExtractor) : TextExtractor :=
  if ex_in_title x && bool_decide (ex_title x = None) then set_title (strip data) x
  else if negb (ex_skip_depth x =? 0)%nat then x else add_part data x.

Definition handle (x : TextExtractor) (e : HtmlEvent) : TextExtractor :=
  match e with HStart tag => handle_starttag tag x | HEnd tag => handle_endtag tag x | HData d => handle_data d x end.
Definition feed (events : list HtmlEvent) (x : TextExtractor) : TextExtractor := foldl handle x events.

Definition BLANKS : re := RPlus (ROneOf [32; 9; 13; 12; 11]%N).
Definition EMPTY_LINES : re :=
  RSeqs [RChar 10; RStar true RSpace; RChar 10; RStar true RSpace; RPlus (RChar 10)].

Section text.
Context `{PyTables}.

(** [text] *)
Definition text (x : TextExtractor) : pystr :=
  let joined := sub BLANKS (u " ") (concat (ex_parts x)) in
  strip (sub EMPTY_LINES [10; 10]%N joined).

Definition html_to_text `{WebEnv} (html : pystr) : pystr * option pystr :=
  let parser := feed (web_html html) new_extractor in (text parser, ex_title parser).

Definition TAG : re := RSeqs [RChar 60; RPlus (RNotIn [62]%N); RChar 62].
(** [_strip_tags]; [re.sub] refuses what is not a string. *)
Definition strip_tags (v : pyval) : res exn pystr :=
  match v with
  | VStr text => Ok (strip (sub TAG [] text))
  | _ => Err (TypeError (u "expected string or bytes-like object"))
  end.
End text.

(** ** The tools *)

Section web.
Context {X : Type} `{Env} `{WebEnv}.

(** A computation on the run and the trace of what was asked of the network *)
Abbreviation Net A := (M (World X * list NetEvent) exn A).

Definition on_run {A} (m : M (World X) exn A) : Net A := λ s, let '(r, w) := m s.1 in (r, (w, s.2)).
Definition note (e : NetEvent) : Net unit := modify (λ s, (s.1, s.2 ++ [e])).
(** One request to the network: the environment answers by the count of awaits. *)
Definition asked {R} (answer : nat → R) : Net R :=
  _ ← on_run await; on_run (gets (λ w, answer (ck_tick (w_clock w)))).
(** [async with client:] leaving it closes the client, whatever happened inside. *)
Definition with_client {A} (m : Net A) : Net A := λ s,
  let '(r, s') := m s in
  match on_run await s' with
  | (Ok _, s'') => (r, s'')
  | (Err e, s'') => (Err e, s'')
  end.

(** [_resolve] *)
Definition resolve (host : pystr) : Net (list pystr) :=
  answer ← asked (λ t, web_resolve t host);
  match answer with
  | Addresses l => _ ← note (Resolved host l); m_ret l
  | GaiError => raise (UnsafeUrl (u "could not resolve host " ++ repr_str host))
  | ResolveFailed name msg => raise (ExternalError name msg)
  end.

(** [host] is one of [hosts] or inside one of them. *)
Definition under (host : pystr) (hosts : list pystr) : bool :=
  bool_decide (host ∈ hosts) || existsb (λ b, endswith (u "." ++ b) host) hosts.

Definition blocked_hosts : list pystr := map lower (cfg_tool_blocked_hosts env_settings).
Definition allowed_hosts : list pystr := map lower (cfg_tool_allowed_hosts env_settings).

(** The checks on the name of the host *)
Definition check_host (host : pystr) : res exn unit :=
  if bool_decide (host ∈ METADATA_HOSTS) then Err (UnsafeUrl (u "that host is not allowed"))
  else if under host blocked_hosts then Err (UnsafeUrl (host ++ u " is on the deny list"))
  else if negb (bool_decide (allowed_hosts = [])) && negb (under host allowed_hosts)
  then Err (UnsafeUrl (host ++ u " is not on this deployment's allow list"))
  else Ok tt.

(** The name of the host a URL is checked under *)
Definition checked_host (url : pystr) : res exn pystr :=
  parsed ← urlparse url;
  if negb (bool_decide (pu_scheme parsed ∈ ALLOWED_SCHEMES))
  then Err (UnsafeUrl (u "only http and https URLs are allowed, got " ++ repr_str (pu_scheme parsed)))
  else match hostname parsed with
       | None => Err (UnsafeUrl (u "the URL has no host"))
       | Some name => let host := lower name in _ ← check_host host; Ok host
       end.

Definition assert_safe_url (url : pystr) : Net pystr :=
  host ← lift_res (checked_host url);
  addresses ← resolve host;
  if forallb is_public addresses then m_ret url
  else raise (UnsafeUrl (host ++ u " resolves to a non-public address")).

(** [client.get(current)] *)
Definition get_url (url : pystr) : Net Response :=
  _ ← note (Fetched url);
  reply ← asked (λ t, web_get t url);
  match reply with
  | Replied r => m_ret r
  | HttpError name => raise (ToolError (u "request failed: " ++ name))
  | RequestFailed name msg => raise (ExternalError name msg)
  end.

(** [Response.is_redirect] *)
Definition is_redirect (r : Response) : bool := (300 <=? rp_status r) && (rp_status r <? 400).

(** The loop over the hops, [n] of them left *)
Fixpoint follow (n : nat) (current : pystr) : Net (pystr * Response) :=
  match n with
  | O => raise (ToolError (u "too many redirects (limit " ++ str_of_Z (Z.of_nat MAX_REDIRECTS) ++ u ")"))
  | S n' =>
      _ ← assert_safe_url current;
      response ← get_url current;
      if is_redirect response then
        match rp_location response with
        | Some (c :: location) => next ← lift_res (web_join current (c :: location)); follow n' next
        | _ => raise (ToolError (u "the server returned a redirect with no location"))
        end
      else m_ret (current, response)
  end.

Definition fetch_result (current : pystr) (response : Response) (max_chars : Z) : ToolResult :=
  if 400 <=? rp_status response then
    mkToolResult (u "HTTP " ++ str_of_Z (rp_status response) ++ u " from " ++ current) true
      [str_key "status" (VInt (rp_status response)); str_key "url" (VStr current)]
  else
    let raw := slice_to MAX_RESPONSE_BYTES (rp_content response) in
    let content_type := default [] (rp_content_type response) in
    let body := web_decode (match rp_encoding response with Some (c :: e) => c :: e | _ => u "utf-8" end) raw in
    let '(body, title) := if contains (u "html") content_type then html_to_text body else (body, None) in
    let header := match title with Some (c :: t) => u "# " ++ (c :: t) ++ [10; 10]%N | _ => [] end in
    mkToolResult (header ++ u "Source: " ++ current ++ [10; 10]%N ++ slice_to max_chars body) false
      [str_key "url" (VStr current); str_key "status" (VInt (rp_status response));
       str_key "content_type" (VStr content_type);
       str_key "title" (match title with Some t => VStr t | None => VNone end)].

Definition web_fetch_run (arguments : list (pystr * pyval)) (context : ToolContext X) : Net ToolResult :=
  url ← lift_res (require_str arguments (u "url") 2000);
  max_chars ← lift_res (optional_int arguments (u "max_chars") 20000 500 100000);
  r ← with_client (follow (S MAX_REDIRECTS) url);
  m_ret (fetch_result r.1 r.2 max_chars).

(** *** Searching *)

(** [v.get(key, default)] on what the JSON of a reply holds *)
Definition py_get (v : pyval) (key : pystr) (default_ : pyval) : res exn pyval :=
  match v with
  | VDict d => Ok (default default_ (assoc key d))
  | _ => Err (AttributeError (u "object has no attribute 'get'"))
  end.
(** What slicing something that is not a sequence raises: a dict looks the slice up. *)
Definition not_sliceable (v : pyval) : exn :=
  match v with
  | VDict _ => KeyError (u "slice")
  | _ => TypeError (u "object is not subscriptable")
  end.
(** [(v or [])[:count]], iterated *)
Definition first_items (v : pyval) (count : Z) : res exn (list pyval) :=
  match v with
  | VList l => Ok (slice_to count l)
  | VStr s => Ok (map (λ c, VStr [c]) (slice_to count s))
  | _ => if truthy v then Err (not_sliceable v) else Ok []
  end.
(** [v[:n]] of a string *)
Definition sliced (v : pyval) (n : Z) : res exn pyval :=
  match v with
  | VStr s => Ok (VStr (slice_to n s))
  | VList l => Ok (VList (slice_to n l))
  | _ => Err (not_sliceable v)
  end.

Record Hit := mkHit { hit_title : pyval; hit_url : pyval; hit_snippet : pyval }.

Definition brave_hit (item : pyval) : res exn Hit :=
  title ← py_get item (u "title") (VStr []);
  url ← py_get item (u "url") (VStr []);
  description ← py_get item (u "description") (VStr []);
  snippet ← strip_tags description;
  Ok (mkHit title url (VStr snippet)).
Definition brave_hits (payload : pyval) (count : Z) : res exn (list Hit) :=
  web ← py_get payload (u "web") (VDict []);
  results ← py_get web (u "results") VNone;
  items ← first_items results count;
  res_mapM brave_hit items.

Definition tavily_hit (item : pyval) : res exn Hit :=
  title ← py_get item (u "title") (VStr []);
  url ← py_get item (u "url") (VStr []);
  content ← py_get item (u "content") (VStr []);
  snippet ← sliced content 400;
  Ok (mkHit title url snippet).
Definition tavily_hits (payload : pyval) (count : Z) : res exn (list Hit) :=
  results ← py_get payload (u "results") VNone;
  items ← first_items results count;
  res_mapM tavily_hit items.

Definition ask_search (request : SearchRequest) : Net pyval :=
  with_client
    (_ ← note (Searched request);
     reply ← asked (λ t, web_search_reply t request);
     match reply with
     | Found payload => m_ret payload
     | SearchHttpError name => raise (ToolError (u "search request failed: " ++ name))
     | SearchFailed name msg => raise (ExternalError name msg)
     end).

Definition brave_search (query : pystr) (count : Z) (api_key : pystr) : Net (list Hit) :=
  if bool_decide (api_key = []) then raise (ToolError (u "the Brave search key is not configured"))
  else payload ← ask_search (BraveQuery query count api_key); lift_res (brave_hits payload count).
Definition tavily_search (query : pystr) (count : Z) (api_key : pystr) : Net (list Hit) :=
  if bool_decide (api_key = []) then raise (ToolError (u "the Tavily key is not configured"))
  else payload ← ask_search (TavilyQuery query count api_key); lift_res (tavily_hits payload count).

Definition render_hit (i : nat) (h : Hit) : pystr :=
  str_of_Z (Z.of_nat i + 1) ++ u ". " ++ str_of (hit_title h) ++ [10%N] ++ u "   " ++ str_of (hit_url h)
    ++ [10%N] ++ u "   " ++ str_of (hit_snippet h).

Definition web_search_run (arguments : list (pystr * pyval)) (context : ToolContext X) : Net ToolResult :=
  query ← lift_res (require_str arguments (u "query") 500);
  count ← lift_res (optional_int arguments (u "count") 5 1 10);
  let provider := cfg_search_provider env_settings in
  results ← (if bool_decide (provider = u "brave")
             then brave_search query count (default [] (cfg_brave_search_api_key env_settings))
             else if bool_decide (provider = u "tavily")
             then tavily_search query count (default [] (cfg_tavily_api_key env_settings))
             else raise (ToolError (u "no search provider is configured on this deployment")));
  match results with
  | [] => m_ret (mkToolResult (u "No results for " ++ repr_str query ++ u ".") false [str_key "count" (VInt 0)])
  | _ => m_ret (mkToolResult (join [10; 10]%N (imap render_hit results)) false
           [str_key "count" (VInt (Z.of_nat (length results))); str_key "provider" (VStr provider)])
  end.

(** A tool's [run]: the trace is only for the theorems. *)
Definition untraced {A} (m : Net A) : M (World X) exn A := λ w, let '(r, (w', _)) := m (w, []) in (r, w').

Definition WebFetch : Tool X := mkTool (u "web_fetch")
  (u "Fetch a public web page or API response and return it as text. Use it to read a specific URL you already know. HTML is converted to readable text.")
  (object_schema
     [str_key "url" (string_prop "Absolute http or https URL.");
      str_key "max_chars" (int_prop "Truncate the response to this many characters (default 20000).")]
     [u "url"])
  NETWORK (25 * fl_one) (λ arguments context, untraced (web_fetch_run arguments context)).

Definition WebSearch : Tool X := mkTool (u "web_search")
  (u "Search the public web and return ranked results with snippets. Use it when the answer depends on current information you do not already have; follow up with web_fetch to read a result in full.")
  (object_schema
     [str_key "query" (string_prop "The search query.");
      str_key "count" (int_prop "How many results to return (1-10, default 5).")]
     [u "query"])
  NETWORK (20 * fl_one) (λ arguments context, untraced (web_search_run arguments context)).
End web.
