(* ===== verification/WebSafety.v ===== *)
(** * Properties of the web tools

    Whatever page a model asks for and whatever the servers answer, no request
    leaves before the host it names has passed the guard, on every hop; a fetch
    asks at most four times; and neither tool touches anything of a run but its
    clock, which is what the theorems about runs ask of a tool from outside. *)

From S2P Require Import Prelude PyStr PyFloat PyVal PyRegex PyJson Ipaddress Config State Budget Registry.
From S2P Require Import Providers Pricing Keys Events World ToolBase ToolArtifacts ToolRegistry Engine.
From S2P Require Import EngineSafety EngineSinks Database Runner RunnerSafety Web.
From S2P Require Import Router.

(** ** What the checks on a URL establish *)

Section guard.
Context `{Env} `{WebEnv}.

Definition below (host h : pystr) : Prop := host = lower h ∨ (u "." ++ lower h) `suffix_of` host.

(** A URL the guard passes under the name [host], which resolved to [addresses] *)
Record safe_target (url host : pystr) (addresses : list pystr) : Prop := {
  st_named : ∃ p name, urlparse url = Ok p ∧ pu_scheme p ∈ ALLOWED_SCHEMES ∧ hostname p = Some name ∧ host = lower name;
  st_metadata : host ∉ METADATA_HOSTS;
  st_not_denied h : h ∈ cfg_tool_blocked_hosts env_settings → ¬ below host h;
  st_allowed : cfg_tool_allowed_hosts env_settings = [] ∨ ∃ h, h ∈ cfg_tool_allowed_hosts env_settings ∧ below host h;
  st_public a : a ∈ addresses → is_public a = true }.

Lemma under_spec host hosts : under host (map lower hosts) = true ↔ ∃ h, h ∈ hosts ∧ below host h.
Proof.
  unfold under, below. rewrite orb_true_iff, bool_decide_eq_true, existsb_exists. split.
  - intros [(h & -> & Hh)%list_elem_of_fmap|(b & Hb & He)]; [by exists h; auto|].
    apply list_elem_of_In, list_elem_of_fmap in Hb as (h & -> & Hh).
    exists h. split; [done|]. right. by apply bool_decide_eq_true in He.
  - intros (h & Hh & [->|Hs]); [left; apply list_elem_of_fmap; eauto|right].
    exists (lower h). split; [apply list_elem_of_In, list_elem_of_fmap; eauto|]. by apply bool_decide_eq_true.
Qed.

Lemma checked_host_safe url host addresses :
  checked_host url = Ok host → forallb is_public addresses = true → safe_target url host addresses.
Proof.
  unfold checked_host, mbind, res_bind. intros Hc Ha.
  destruct (urlparse url) as [p|] eqn:Hp; [|done].
  destruct (bool_decide (pu_scheme p ∈ ALLOWED_SCHEMES)) eqn:Hs; simpl in Hc; [|done].
  apply bool_decide_eq_true in Hs.
  destruct (hostname p) as [name|] eqn:Hn; [|done].
  destruct (check_host (lower name)) as [[]|] eqn:Hh; [|done]. injection Hc as <-.
  unfold check_host, blocked_hosts, allowed_hosts in Hh.
  destruct (bool_decide (lower name ∈ METADATA_HOSTS)) eqn:Hm; [done|]. apply bool_decide_eq_false in Hm.
  destruct (under (lower name) (map lower (cfg_tool_blocked_hosts env_settings))) eqn:Hd; [done|].
  split; [eauto 10|done| | |].
  - intros h Hin Hb. rewrite (proj2 (under_spec _ _)) in Hd by eauto. done.
  - destruct (under (lower name) (map lower (cfg_tool_allowed_hosts env_settings))) eqn:Hu; [right; by apply under_spec|left].
    by destruct (cfg_tool_allowed_hosts env_settings).
  - intros a Hin. rewrite forallb_forall in Ha. by apply Ha, list_elem_of_In.
Qed.
End guard.

(** ** The trace of a fetch *)

Section trace.
Context {X : Type} `{Env} `{WebEnv}.
Abbreviation Net A := (M (World X * list NetEvent) exn A).
Implicit Types tr : list NetEvent.

(** A trace of [n] requests, each right after its host has been resolved and checked *)
Inductive hops : nat → list NetEvent → Prop :=
| hops_none : hops 0 []
| hops_one n tr t url host addresses :
    hops n tr → web_resolve t host = Addresses addresses → safe_target url host addresses →
    hops (S n) (tr ++ [Resolved host addresses; Fetched url]).

(** ... and perhaps a last host that did not pass *)
Definition stopped (limit : nat) tr : Prop :=
  ∃ n tr0, hops n tr0 ∧ (n ≤ limit)%nat ∧ (tr = tr0 ∨ ∃ host addresses, tr = tr0 ++ [Resolved host addresses]).

Lemma hops_stopped n limit tr : hops n tr → (n ≤ limit)%nat → stopped limit tr.
Proof. intros. exists n, tr. auto. Qed.

Lemma asked_trace {R} (answer : nat → R) s :
  wp (asked (X:=X) answer) (λ r s', s'.2 = s.2 ∧ ∃ t, r = answer t) (λ _ s', s'.2 = s.2) s.
Proof.
  destruct s as [w tr]. unfold asked, on_run, wp, mbind, M_bind, m_bind. simpl.
  destruct (await w) as [[[]|e] w']; simpl; eauto.
Qed.

Lemma resolve_trace host s :
  wp (resolve (X:=X) host)
    (λ l s', s'.2 = s.2 ++ [Resolved host l] ∧ ∃ t, web_resolve t host = Addresses l) (λ _ s', s'.2 = s.2) s.
Proof.
  unfold resolve. apply wp_bind. eapply wp_mono; [apply asked_trace| |done].
  intros r s' [Hs (t & ->)]. destruct (web_resolve t host) eqn:Hr; [|by apply wp_raise..].
  apply wp_bind. unfold note, modify, wp. simpl. rewrite Hs. eauto.
Qed.

Lemma assert_safe_trace url s :
  wp (assert_safe_url (X:=X) url)
    (λ _ s', ∃ t host l, s'.2 = s.2 ++ [Resolved host l] ∧ web_resolve t host = Addresses l ∧ safe_target url host l)
    (λ _ s', s'.2 = s.2 ∨ ∃ host l, s'.2 = s.2 ++ [Resolved host l]) s.
Proof.
  unfold assert_safe_url. apply wp_bind. unfold lift_res at 1, wp at 1.
  destruct (checked_host url) as [host|e] eqn:Hc; [|auto].
  apply wp_bind. eapply wp_mono; [apply resolve_trace| |intros e s' ->; auto].
  intros l s' [Hs (t & Ht)]. destruct (forallb is_public l) eqn:Hp.
  - apply wp_ret. exists t, host, l. split_and!; [done|done|]. by apply checked_host_safe.
  - apply wp_raise. eauto.
Qed.

Lemma get_url_trace url s :
  wp (get_url (X:=X) url) (λ _ s', s'.2 = s.2 ++ [Fetched url]) (λ _ s', s'.2 = s.2 ++ [Fetched url]) s.
Proof.
  unfold get_url. apply wp_bind. unfold note, modify, wp at 1. cbn [fst snd].
  apply wp_bind. eapply wp_mono; [apply asked_trace| |intros e s' ->; done].
  intros r s' [Hs _]. destruct r; [apply wp_ret|apply wp_raise..]; by rewrite Hs.
Qed.

Lemma follow_trace limit n k current s : hops k s.2 → (k + n = limit)%nat →
  wp (follow (X:=X) n current) (λ _ s', stopped limit s'.2) (λ _ s', stopped limit s'.2) s.
Proof.
  revert k current s. induction n as [|n IH]; intros k current s Hh Hk; cbn [follow].
  { apply wp_raise. eapply hops_stopped; [done|lia]. }
  apply wp_bind. eapply wp_mono; [apply assert_safe_trace| |].
  2:{ intros e s' Hs. exists k, s.2. split_and!; [done|lia|done]. }
  intros _ s1 (t & host & l & Hs1 & Ht & Hsafe). apply wp_bind.
  assert (Hnext : hops (S k) ((s.2 ++ [Resolved host l]) ++ [Fetched current])).
  { rewrite <-(assoc_L (++)). by eapply hops_one. }
  rewrite <-Hs1 in Hnext.
  eapply wp_mono; [apply get_url_trace| |].
  2:{ intros e s' ->. eapply hops_stopped; [done|lia]. }
  intros response s2 Hs2. rewrite <-Hs2 in Hnext.
  assert (Hstop : stopped limit s2.2) by (eapply hops_stopped; [done|lia]).
  destruct (is_redirect response); [|by apply wp_ret].
  destruct (rp_location response) as [[|c location]|]; [by apply wp_raise| |by apply wp_raise].
  apply wp_bind. unfold lift_res, wp at 1. destruct (web_join _ _); [|done].
  apply (IH (S k)); [done|lia].
Qed.

Lemma with_client_trace {A} (m : Net A) P s :
  wp m (λ _ s', P s'.2) (λ _ s', P s'.2) s →
  wp (with_client m) (λ _ s', P s'.2) (λ _ s', P s'.2) s.
Proof.
  unfold wp, with_client, on_run. destruct (m s) as [r [w tr]]. cbn [fst snd]. intros Hm.
  assert (P tr) by by destruct r.
  destruct (await w) as [[[]|e] w']; simpl; [by destruct r|done].
Qed.

(** C25: the guard against requests forged by a model: whatever a fetch is asked for,
    whatever names resolve to and wherever servers redirect, each request the tool
    makes comes right after its host was resolved, and then the URL is http or
    https, the host is no metadata host, not on the deny list, on the allow list if
    there is one, and every address it resolved to is public.  At most four
    requests are made: the first and three redirects. *)
Theorem fetch_guarded arguments context (w : World X) :
  stopped 4 (web_fetch_run arguments context (w, [])).2.2.
Proof.
  enough (Hw : wp (web_fetch_run arguments context) (λ _ s, stopped 4 s.2) (λ _ s, stopped 4 s.2) (w, [])).
  { unfold wp in Hw. by destruct (web_fetch_run arguments context (w, [])) as [[]]. }
  assert (Hnil : stopped 4 []) by (apply (hops_stopped 0); [constructor|lia]).
  unfold web_fetch_run. apply wp_bind. unfold lift_res at 1, wp at 1.
  destruct (require_str _ _ _) as [url|]; [|done].
  apply wp_bind. unfold lift_res at 1, wp at 1. destruct (optional_int _ _ _ _ _) as [max_chars|]; [|done].
  apply wp_bind. eapply wp_mono; [apply with_client_trace, (follow_trace 4 _ 0); [constructor|done]| |done].
  intros r s Hs. by apply wp_ret.
Qed.
End trace.

(** ** The tools as a run sees them *)

Section outside.
Context {X : Type} `{Env} `{WebEnv}.
Abbreviation Net A := (M (World X * list NetEvent) exn A).

(** Only the clock of the run moves. *)
Definition clocked (s s' : World X * list NetEvent) : Prop := ∃ c, s'.1 = put_clock c s.1.

#[local] Instance clocked_preorder : PreOrder clocked.
Proof.
  split; [intros [w tr]; exists (w_clock w); by destruct w|].
  intros s1 s2 s3 [c1 H1] [c2 H2]. exists c2. by rewrite H2, H1.
Qed.

Lemma await_clocked : steps clocked (on_run await).
Proof.
  intros [w tr]. unfold on_run, await. cbn [fst snd].
  repeat case_match; simplify_eq/=; by eexists.
Qed.
Lemma asked_clocked {R} (answer : nat → R) : steps clocked (asked (X:=X) answer).
Proof. unfold asked. apply steps_bind; [tc_solve|apply await_clocked|]. intros _ [w tr]. exists (w_clock w). by destruct w. Qed.
Lemma note_clocked e : steps clocked (note (X:=X) e).
Proof. intros [w tr]. exists (w_clock w). by destruct w. Qed.
Lemma with_client_clocked {A} (m : Net A) : steps clocked m → steps clocked (with_client m).
Proof.
  intros Hm s. unfold with_client. specialize (Hm s). destruct (m s) as [r s']. simpl in Hm.
  pose proof (await_clocked s') as Ha. destruct (on_run await s') as [[[]|e] s'']; simpl in *; by etrans.
Qed.

Create HintDb clocked discriminated.
#[local] Hint Resolve asked_clocked note_clocked with_client_clocked : clocked.
Ltac clocked :=
  repeat first
    [ progress auto with clocked
    | apply with_client_clocked
    | apply steps_bind; [tc_solve| |intros ?]
    | apply steps_lift_res; tc_solve | apply steps_ret; tc_solve | apply steps_raise; tc_solve
    | case_match ].

Lemma resolve_clocked host : steps clocked (resolve (X:=X) host).
Proof. unfold resolve. clocked. Qed.
Lemma assert_safe_clocked url : steps clocked (assert_safe_url (X:=X) url).
Proof. unfold assert_safe_url. pose proof resolve_clocked. clocked. Qed.
Lemma get_url_clocked url : steps clocked (get_url (X:=X) url).
Proof. unfold get_url. clocked. Qed.
Lemma follow_clocked n current : steps clocked (follow (X:=X) n current).
Proof.
  revert current. induction n as [|n IH]; intros current; cbn [follow]; [clocked|].
  pose proof assert_safe_clocked. pose proof get_url_clocked. clocked.
Qed.
Lemma fetch_clocked arguments context : steps clocked (web_fetch_run (X:=X) arguments context).
Proof. unfold web_fetch_run. pose proof follow_clocked. clocked. Qed.
Lemma search_clocked arguments context : steps clocked (web_search_run (X:=X) arguments context).
Proof. unfold web_search_run, brave_search, tavily_search, ask_search. clocked. Qed.

Lemma untraced_framed R `{!Frame (X:=X) R} {A} (m : Net A) : steps clocked m → steps R (untraced m).
Proof.
  intros Hm w. unfold untraced. destruct (Hm (w, [])) as [c Hc].
  destruct (m (w, [])) as [r [w' tr]]. simpl in *. subst w'. apply frame_clock.
Qed.
Lemma untraced_ext RX `{!PreOrder RX} {A} (m : Net A) : steps clocked m → steps (ext_rel (X:=X) RX) (untraced m).
Proof.
  intros Hm w. unfold untraced. destruct (Hm (w, [])) as [c Hc].
  destruct (m (w, [])) as [r [w' tr]]. simpl in *. subst w'. unfold ext_rel. done.
Qed.

Lemma web_tools_contract : OutsideTool (X:=X) WebFetch ∧ OutsideTool (X:=X) WebSearch.
Proof.
  split; split.
  - intros RX HRX arguments context _. apply untraced_ext, fetch_clocked; done.
  - intros arguments context _. apply untraced_framed; [tc_solve|apply fetch_clocked].
  - intros RX HRX arguments context _. apply untraced_ext, search_clocked; done.
  - intros arguments context _. apply untraced_framed; [tc_solve|apply search_clocked].
Qed.

(** the two web tools meet the contract the theorems about runs assume of tools
    from outside: whatever the network does, they change nothing of the run's
    state, spending and record, and nothing outside it. *)
Theorem web_tools_outside : OutsideTool (X:=X) WebFetch ∧ OutsideTool (X:=X) WebSearch.
Proof. apply web_tools_contract. Qed.
End outside.

(** ** Text that is not shown *)

(** The skipped elements open at the end of [events], where [n] are open before *)
Fixpoint depth_after (n : nat) (events : list HtmlEvent) : nat :=
  match events with
  | [] => n
  | HStart tag :: l => depth_after (if bool_decide (tag ∈ SKIP) then S n else n) l
  | HEnd tag :: l => depth_after (if bool_decide (tag ∈ SKIP) then pred n else n) l
  | HData _ :: l => depth_after n l
  end.

Definition stays_inside (n : nat) (body : list HtmlEvent) : Prop :=
  ∀ k, (0 < depth_after n (take k body))%nat.

Lemma feed_inside body x : ex_skip_depth x ≠ 0%nat → stays_inside (ex_skip_depth x) body →
  ∃ breaks, Forall (eq [10%N]) breaks ∧ ex_parts (feed body x) = ex_parts x ++ breaks ∧
    ex_skip_depth (feed body x) = depth_after (ex_skip_depth x) body.
Proof.
  revert x. induction body as [|e body IH]; intros x Hx Hin.
  { exists []. by rewrite app_nil_r. }
  assert (Hstep : ∃ breaks, Forall (eq [10%N]) breaks ∧ ex_parts (handle x e) = ex_parts x ++ breaks ∧
    ex_skip_depth (handle x e) = depth_after (ex_skip_depth x) [e]).
  { apply Nat.eqb_neq in Hx.
    destruct e as [tag|tag|d]; simpl; unfold handle_starttag, handle_endtag, handle_data; rewrite ?Hx; simpl;
      repeat case_bool_decide; simpl;
      try (exists []; by rewrite app_nil_r); try (by exists [[10%N]]; auto).
    all: destruct (ex_in_title x); simpl; exists []; by rewrite app_nil_r. }
  destruct Hstep as (b1 & Hb1 & Hp1 & Hd1).
  destruct (IH (handle x e)) as (b2 & Hb2 & Hp2 & Hd2).
  - rewrite Hd1. pose proof (Hin 1%nat) as H1. destruct e; simpl in *; lia.
  - intros k. rewrite Hd1. pose proof (Hin (S k)) as H1. by destruct e.
  - exists (b1 ++ b2). split_and!; [by apply Forall_app| |].
    + simpl. rewrite Hp2, Hp1. by rewrite (assoc_L (++)).
    + simpl. rewrite Hd2, Hd1. by destruct e.
Qed.

(** what stands between the tags of a skipped element (a script, a style sheet,
    the head of a page) does not reach the model: such an element, nested ones
    included, adds line breaks at most to the text of the page. *)
Theorem skipped_text_hidden pre tag body x :
  tag ∈ SKIP → stays_inside (S (ex_skip_depth (feed pre x))) body →
  ∃ breaks, Forall (eq [10%N]) breaks ∧
    ex_parts (feed (pre ++ HStart tag :: body) x) = ex_parts (feed pre x) ++ breaks.
Proof.
  intros Ht Hin. unfold feed in *. rewrite foldl_app. cbn [foldl handle].
  set (x1 := foldl handle x pre) in *.
  assert (Hs : handle_starttag tag x1 = set_depth (S (ex_skip_depth x1)) x1).
  { unfold handle_starttag. by rewrite bool_decide_eq_true_2. }
  rewrite Hs. destruct (feed_inside body (set_depth (S (ex_skip_depth x1)) x1)) as (b & Hb & Hp & _); [done|done|].
  exists b. by split.
Qed.

(** ** The web tools at work

    Witnesses of the properties of the web tools, and the tools on a small web of
    three pages. *)

#[local] Instance web_run_env : Env := demo_env (λ _ _, ([], Err TimeoutError)).

Definition page : list HtmlEvent :=
  [HStart (u "head"); HStart (u "title"); HData (u "Hello"); HEnd (u "title"); HStart (u "script"); HData (u "spy()");
   HEnd (u "script"); HEnd (u "head"); HStart (u "p"); HData (u "one   two"); HEnd (u "p")].
(** The same page without the end tag of its head, which HTML allows to omit *)
Definition open_page : list HtmlEvent :=
  [HStart (u "head"); HStart (u "title"); HData (u "Hello"); HEnd (u "title"); HStart (u "body"); HStart (u "p");
   HData (u "one two"); HEnd (u "p")].

#[local] Instance demo_web : WebEnv := {|
  web_resolve := λ _ host,
    if bool_decide (host = u "169.254.169.254") then Addresses [host] else Addresses [u "93.184.216.34"];
  web_get := λ _ url,
    if bool_decide (url = u "http://page.example/") then Replied (mkResponse 200 None (Some (u "text/html")) None [1%N])
    else if bool_decide (url = u "http://hop.example/")
    then Replied (mkResponse 302 (Some (u "http://169.254.169.254/latest")) None None [])
    else Replied (mkResponse 302 (Some url) None None []);
  web_join := λ _ location, Ok location;
  web_decode := λ _ _, u "<html>";
  web_html := λ _, page;
  web_search_reply := λ _ _, SearchHttpError (u "ConnectError");
  web_netloc_error := λ _, None |}.

Definition web_world : World unit :=
  mkWorld (new_state (u "go")) demo_budget empty_bus (new_buffer 1) demo_router (mkClock 0 false true) tt.
Definition no_writer : ToolContext unit :=
  ToolBase.mkContext (u "o") (u "a1") (u "Ada") 0 (λ _ _ _, raise TimeoutError).
Definition fetch (url : string) : res exn pystr * list NetEvent :=
  let '(r, (_, tr)) := web_fetch_run [str_key "url" (VStr (u url))] no_writer (web_world, []) in
  (tl_content <$> r, tr).

Lemma page_fetched :
  fetch "http://page.example/" =
    (Ok (u "# Hello" ++ [10; 10]%N ++ u "Source: http://page.example/" ++ [10; 10]%N ++ u "one two"),
     [Resolved (u "page.example") [u "93.184.216.34"]; Fetched (u "http://page.example/")]).
Proof. vm_compute. reflexivity. Qed.

(** A public host that redirects to the metadata service: the second request is never made. *)
Lemma redirect_refused :
  fetch "http://hop.example/" =
    (Err (UnsafeUrl (u "169.254.169.254 resolves to a non-public address")),
     [Resolved (u "hop.example") [u "93.184.216.34"]; Fetched (u "http://hop.example/");
      Resolved (u "169.254.169.254") [u "169.254.169.254"]]).
Proof. vm_compute. reflexivity. Qed.

Lemma endless_redirects_end :
  (fetch "https://loop.example/").1 = Err (ToolError (u "too many redirects (limit 3)")) ∧
  length (List.filter (λ e, match e with Fetched _ => true | _ => false end) (fetch "https://loop.example/").2) = 4%nat.
Proof. vm_compute. auto. Qed.

(** The user, the password and the case of a name do not hide a host from the guard. *)
Lemma host_names :
  map (λ s, checked_host (u s))
    ["http://user:pw@Example.COM:8080/x"; "https://[::1]/"; "http://metadata.google.internal/"; "ftp://a.example/";
     "http:///x"]%string =
  [Ok (u "example.com"); Ok (u "::1"); Err (UnsafeUrl (u "that host is not allowed"));
   Err (UnsafeUrl (u "only http and https URLs are allowed, got 'ftp'")); Err (UnsafeUrl (u "the URL has no host"))].
Proof. vm_compute. reflexivity. Qed.

(** A head whose end tag is left out swallows the whole page: only the title is left. *)
Lemma open_head_swallows_page :
  ex_title (feed open_page new_extractor) = Some (u "Hello") ∧ text (feed open_page new_extractor) = [].
Proof. vm_compute. auto. Qed.

Lemma skipped_text_hidden_witness :
  ∃ breaks, Forall (eq [10%N]) breaks ∧
    ex_parts (feed ([HData (u "seen")] ++ HStart (u "svg") :: [HStart (u "p"); HData (u "hidden")]) new_extractor)
    = ex_parts (feed [HData (u "seen")] new_extractor) ++ breaks.
Proof.
  assert (Ht : u "svg" ∈ SKIP) by (apply (bool_decide_unpack _); vm_compute; exact I).
  assert (Hin : stays_inside (S (ex_skip_depth (feed [HData (u "seen")] new_extractor)))
                  [HStart (u "p"); HData (u "hidden")]).
  { intros [|[|[|k]]]; vm_compute; lia. }
  exact (skipped_text_hidden [HData (u "seen")] (u "svg") [HStart (u "p"); HData (u "hidden")] new_extractor Ht Hin).
Defined.
