(* ===== verification/Worker.v ===== *)
(** * The worker process (src/worker/main.py)

    The job that executes a run, and the two periodic sweeps.  Workers and the API
    share the tables and Redis ([Server]); a worker also keeps the prices it has
    loaded.  Each session and each call to Redis takes one tick, by which the
    environment decides what fails; while a run executes it is the environment of
    World.  What arq does with a job that is put into its queue, and the keys a scan
    of Redis finds, are arguments. *)

From S2P Require Import Prelude PyStr PyFloat PyVal PyRegex PyJson Config State Budget Registry.
From S2P Require Import Providers Pricing Keys Events World Router ToolBase ToolArtifacts ToolRegistry.
From S2P Require Import Engine Workflow Presets Database Auditing Billing Runner RateLimit Orphans Security Api Web.

(** [pl_counted]: the statuses counted in [office_runs_total]; [pl_rejected]: the
    counter [office_run_slot_rejections_total]. *)
Record Plant := mkPlant {
  pl_server : Server; pl_prices : PriceBook; pl_counted : list pystr; pl_rejected : Z; pl_tick : nat }.

Class WorkerEnv := {
  wk_env :: Env;
  wk_web :: WebEnv;
  wk_db : nat → DbEnv;
  wk_redis_fault : nat → option exn;
  wk_expired : nat → pystr → bool;             (* has Redis dropped this key by now? *)
  wk_emit_fault : nat → pystr → option exn;
  wk_enqueue_job : Job → list Job → list Job;
  wk_scan : nat → list pystr }.                (* the keys under slots:runs: a scan finds *)

Definition put_server s p := mkPlant s (pl_prices p) (pl_counted p) (pl_rejected p) (pl_tick p).
Definition put_db d p := put_server (mkServer d (sv_redis (pl_server p))) p.
Definition put_plant_redis r p := put_server (mkServer (sv_db (pl_server p)) r) p.
Definition next_call p := mkPlant (pl_server p) (pl_prices p) (pl_counted p) (pl_rejected p) (S (pl_tick p)).
Definition count_run (status : pystr) p :=
  mkPlant (pl_server p) (pl_prices p) (pl_counted p ++ [status]) (pl_rejected p) (pl_tick p).
Definition reject_run p := mkPlant (pl_server p) (pl_prices p) (pl_counted p) (pl_rejected p + 1) (pl_tick p).

Definition pl_db (p : Plant) : Db := sv_db (pl_server p).
Definition pl_redis (p : Plant) : Redis := sv_redis (pl_server p).
Definition pl_jobs (p : Plant) : list Job := rd_jobs (pl_redis p).

(** What an execution works on *)
Definition office_of (p : Plant) : Office := mkOffice (pl_db p) (rd_bus (pl_redis p)) (pl_prices p).
Definition put_office (o : Office) (p : Plant) : Plant :=
  mkPlant (mkServer (of_db o) (set_buses (of_bus o) (pl_redis p))) (of_prices o) (pl_counted p) (pl_rejected p)
    (pl_tick p).

Definition slots_bucket (org_id : pystr) : pystr := u "runs:" ++ org_id.
Definition slots_key (org_id : pystr) : pystr := u "slots:" ++ slots_bucket org_id.
(** The value of an organisation's counter *)
Definition slots_taken (org_id : pystr) (p : Plant) : Z := slot_value (rd_slots (pl_redis p) (slots_key org_id)).

Section worker.
Context `{WorkerEnv}.
Abbreviation Wk A := (M Plant exn A).

(** ** Sessions and Redis *)

(** [async with session_scope() as session:] *)
Definition in_session {A} (body : DbEnv → M Session exn A) : Wk A := λ p,
  let D := wk_db (pl_tick p) in
  let '(r, s) := @session_scope D Session A (λ m, m) (body D) (open_session (pl_db p)) in
  (r, put_db (ss_committed s) (next_call p)).

(** The failure of the [n]-th call to Redis *)
Definition redis_failure (n : nat) : option exn :=
  e ← wk_redis_fault n; if statement_failure e then Some e else None.

(** One command on a key of the slots *)
Definition on_slots {A} (key : pystr) (f : option Z → A * option Z) : Wk A := λ p,
  let n := pl_tick p in
  let p := next_call p in
  match redis_failure n with
  | Some e => (Err e, p)
  | None =>
      let slots := rd_slots (pl_redis p) in
      let '(a, c) := f (if wk_expired n key then None else slots key) in
      (Ok a, put_plant_redis (Api.set_slots (set_key key c slots) (pl_redis p)) p)
  end.

(** [limiter.acquire_slot], [limiter.release_slot], [limiter.slots_in_use] *)
Definition acquire (org_id : pystr) : Wk bool :=
  on_slots (slots_key org_id) (acquire_slot (cfg_max_concurrent_runs_per_org env_settings)).
Definition release (org_id : pystr) : Wk unit :=
  value ← on_slots (slots_key org_id) release_decr;
  if value <? 0 then on_slots (slots_key org_id) (λ _, (tt, Some 0)) else m_ret tt.
Definition in_use (org_id : pystr) : Wk Z :=
  on_slots (slots_key org_id) (λ c, (slots_in_use c, c)).

(** [ctx["redis"].enqueue_job(...)] *)
Definition enqueue_retry (run_id : pystr) : Wk unit := λ p,
  let n := pl_tick p in
  let p := next_call p in
  let job := mkJob run_id (u "run:" ++ run_id ++ u ":retry") 15 in
  match redis_failure n with
  | Some e => (Err e, p)
  | None => (Ok tt, put_plant_redis (set_jobs (wk_enqueue_job job (pl_jobs p)) (pl_redis p)) p)
  end.

(** ** The job *)

(** [await execute_run(run_id)], with the web tools of Web *)
Definition execute (run_id : pystr) : Wk unit := λ p,
  let '(r, o) := @execute_run wk_env (wk_db (pl_tick p)) WebFetch WebSearch run_id (office_of p) in
  (r, next_call (put_office o p)).

(** The [try] block with its [except] and [finally] *)
Definition execute_and_release (run_id org_id : pystr) : Wk unit :=
  r ← attempt (λ _, true) (execute run_id);
  _ ← (match r with
       | inl e => if is_exception e then modify (count_run (u "crashed")) else m_ret tt
       | inr _ => m_ret tt
       end);
  _ ← release org_id;
  match r with inl e => raise e | inr _ => m_ret tt end.

Definition run_workflow (run_id : pystr) : Wk unit :=
  run ← in_session (λ D, query (find_run run_id));
  match run with
  | None => m_ret tt
  | Some run =>
      if negb (bool_decide (ru_status run = u "queued")) then m_ret tt
      else
        acquired ← acquire (ru_org_id run);
        if negb acquired then
          _ ← modify reject_run;
          enqueue_retry run_id
        else
          _ ← execute_and_release run_id (ru_org_id run);
          finished ← in_session (λ D, query (find_run run_id));
          modify (count_run (match finished with Some run => ru_status run | None => u "unknown" end))
  end.

(** ** The sweeps *)

Definition stale_after : Z := cfg_run_timeout_seconds env_settings + 300.

Definition reap_orphans : Wk unit := λ p,
  let n := pl_tick p in
  let '(r, s) := @mark_orphaned_runs (wk_db n) (wk_emit_fault n) stale_after (pl_db p) (rd_bus (pl_redis p)) in
  (match r with Ok _ => Ok tt | Err e => Err e end,
   next_call (put_db (ss_committed (sw_session s)) (put_plant_redis (set_buses (sw_bus s) (pl_redis p)) p))).

(** [actual]: how many of the rows each organisation has *)
Definition running_counts (rows : list pystr) : list (pystr * Z) :=
  fold_left (λ actual org_id, assoc_set org_id (default 0 (assoc org_id actual) + 1) actual) rows [].

(** [key.split("slots:runs:", 1)[-1]] *)
Definition org_of_key (key : pystr) : pystr :=
  match partition_at (u "slots:runs:") key with Some (_, org_id) => org_id | None => key end.

Definition correct_slots (actual : list (pystr * Z)) (key : pystr) (_ : unit) : Wk (flow unit unit) :=
  let org_id := org_of_key key in
  let expected := default 0 (assoc org_id actual) in
  current ← in_use org_id;
  _ ← (if expected <? current then on_slots key (λ _, (tt, Some expected)) else m_ret tt);
  m_ret (Next tt).

Definition scan_keys : Wk (list pystr) := λ p,
  match redis_failure (pl_tick p) with
  | Some e => (Err e, next_call p)
  | None => (Ok (wk_scan (pl_tick p)), next_call p)
  end.

Definition release_stale_slots : Wk unit :=
  rows ← in_session (λ D, query (λ d, map ru_org_id (List.filter is_running (db_runs d))));
  keys ← scan_keys;
  _ ← for_loop keys (correct_slots (running_counts rows)) tt;
  m_ret tt.

End worker.
