(* ===== verification/WorkerSafety.v ===== *)
(** * Properties of the worker

    What a job does with the run it is given, on every branch; that the slot it
    takes comes back however the execution ends; and that however jobs and sweeps
    follow each other, the books stay balanced and finished runs stay as they
    finished. *)

From S2P Require Import Prelude PyStr PyFloat PyVal PyRegex PyJson Config State Budget Registry.
From S2P Require Import Providers Pricing Keys Events World Router ToolBase ToolArtifacts ToolRegistry.
From S2P Require Import Engine Workflow Presets Database Auditing Billing BillingSafety Runner RunnerSafety RunnerRuns.
From S2P Require Import RateLimit Orphans Security Api Web WebSafety Worker.
From S2P Require Import EngineSafety EngineSinks PresetFlow PresetDemo RunnerDemo.

Section jobs.
Context `{WorkerEnv}.
Abbreviation Wk A := (M Plant exn A).
Implicit Types p : Plant.

(** ** The pieces of a job *)

(** Nothing but the clock, the counter of finished runs and the slots *)
Definition same_work p p' : Prop :=
  office_of p' = office_of p ∧ pl_jobs p' = pl_jobs p ∧ pl_rejected p' = pl_rejected p.
#[local] Instance same_work_preorder : PreOrder same_work.
Proof. split; [done|]. unfold same_work. intros p1 p2 p3 (?&?&?) (?&?&?). split_and!; congruence. Qed.

Definition same_slots p p' : Prop := rd_slots (pl_redis p') = rd_slots (pl_redis p).

Lemma reading_session {A} (f : Db → A) p :
  wp (in_session (λ D, query f)) (λ a p', a = f (pl_db p) ∧ same_work p p' ∧ same_slots p p')
     (λ _ p', same_work p p' ∧ same_slots p p') p.
Proof.
  unfold in_session, wp, session_scope, mbind, M_bind, m_bind, query, commit. set (D := wk_db (pl_tick p)).
  assert (Hput : ∀ s, ss_committed s = pl_db p → same_work p (put_db (ss_committed s) (next_call p)) ∧
            same_slots p (put_db (ss_committed s) (next_call p))).
  { intros s ->. destruct p as [[d r] ? ? ? ?]. done. }
  pose proof (statement_same (open_session (pl_db p))) as [Hc1 Hw1].
  destruct (@statement D (open_session (pl_db p))) as [[[]|e] s1]; simpl in Hc1, Hw1.
  - pose proof (statement_same s1) as [Hc2 Hw2].
    destruct (@statement D s1) as [[[]|e] s2]; simpl in Hc2, Hw2; cbn.
    + rewrite Hw1. split; [done|]. rewrite Hw2, Hw1. apply (Hput (open_session (pl_db p))). done.
    + rewrite Hc2, Hc1. apply (Hput (open_session (pl_db p))). done.
  - cbn. rewrite Hc1. apply (Hput (open_session (pl_db p))). done.
Qed.

Lemma on_slots_work {A} key (f : option Z → A * option Z) : steps same_work (on_slots key f).
Proof.
  intros p. unfold on_slots. destruct p as [[d r] ? ? ? ?]. cbn.
  destruct (redis_failure _); [done|]. by destruct (f _).
Qed.
Lemma release_work org_id : steps same_work (release org_id).
Proof.
  unfold release. apply steps_bind; [tc_solve|apply on_slots_work|]. intros value.
  destruct (value <? 0); [apply on_slots_work|apply steps_ret; tc_solve].
Qed.

(** ** What a job does *)

(** What the job [run_id] made of the plant: nothing; put back for later; executed. *)
Inductive job_result (run_id : pystr) p p' : Prop :=
| job_idle : office_of p' = office_of p → pl_jobs p' = pl_jobs p → job_result run_id p p'
| job_deferred run :
    find_run run_id (pl_db p) = Some run → ru_status run = u "queued" → office_of p' = office_of p →
    pl_jobs p' = wk_enqueue_job (mkJob run_id (u "run:" ++ run_id ++ u ":retry") 15) (pl_jobs p) →
    pl_rejected p' = pl_rejected p + 1 → job_result run_id p p'
| job_executed run D r :
    find_run run_id (pl_db p) = Some run → ru_status run = u "queued" →
    @execute_run wk_env D WebFetch WebSearch run_id (office_of p) = (r, office_of p') →
    (∃ n, D = wk_db n) → pl_jobs p' = pl_jobs p → job_result run_id p p'.

Lemma execute_work run_id p r p' : execute run_id p = (r, p') →
  @execute_run wk_env (wk_db (pl_tick p)) WebFetch WebSearch run_id (office_of p) = (r, office_of p') ∧
  pl_jobs p' = pl_jobs p ∧ same_slots p p'.
Proof.
  unfold execute. destruct (execute_run _ _ run_id (office_of p)) as [r0 o] eqn:He. intros [= <- <-].
  destruct p as [[d rd] ? ? ? ?], o as [d' b' pr']. split_and!; [|done|done]. done.
Qed.

Lemma keeps_result {A} (m : Wk A) (P : Plant → Prop) p :
  steps same_work m → (∀ p', same_work p p' → P p') → wp m (λ _, P) (λ _, P) p.
Proof. intros Hm HP. eapply wp_mono; [by apply wp_steps|auto..]. Qed.

(** An execution by now *)
Definition executed (run_id : pystr) p p' : Prop :=
  ∃ n r, @execute_run wk_env (wk_db n) WebFetch WebSearch run_id (office_of p) = (r, office_of p') ∧
    pl_jobs p' = pl_jobs p.

Lemma executed_later run_id p p' p'' : executed run_id p p' → same_work p' p'' → executed run_id p p''.
Proof. intros (n & r & He & Hj) (Ho & Hj' & _). exists n, r. split; [by rewrite Ho|congruence]. Qed.

Lemma execute_and_release_wp run_id org_id p p1 : same_work p p1 →
  wp (execute_and_release run_id org_id) (λ _, executed run_id p) (λ _, executed run_id p) p1.
Proof.
  intros (Ho & Hj & _). unfold execute_and_release. apply wp_bind, wp_attempt. unfold wp at 1.
  destruct (execute run_id p1) as [x p2] eqn:He. apply execute_work in He as (He & Hj2 & _).
  assert (Hdone : executed run_id p p2).
  { eexists _, x. rewrite <-Ho. split; [exact He|congruence]. }
  assert (Htail : ∀ r : exn + unit, wp (
      _ ← (match r with
           | inl e => if is_exception e then modify (count_run (u "crashed")) else m_ret tt
           | inr _ => m_ret tt
           end);
      _ ← release org_id;
      match r with inl e => raise e | inr _ => m_ret tt end : Wk unit)
      (λ _, executed run_id p) (λ _, executed run_id p) p2).
  { intros r. apply keeps_result; [|intros p3; by apply executed_later].
    apply steps_bind; [tc_solve| |intros _; apply steps_bind; [tc_solve|apply release_work|intros _]].
    - destruct r as [e|]; [destruct (is_exception e)|]; try (apply steps_ret; tc_solve).
      intros q. by destruct q as [[d rd] ? ? ? ?].
    - destruct r; [apply steps_raise|apply steps_ret]; tc_solve. }
  destruct x as [[]|e]; [apply (Htail (inr tt))|apply (Htail (inl e))].
Qed.

Lemma run_workflow_result run_id p r p' : run_workflow run_id p = (r, p') → job_result run_id p p'.
Proof.
  unfold run_workflow. intros Hr.
  enough (Hw : wp (run_workflow run_id) (λ _ p', job_result run_id p p') (λ _ p', job_result run_id p p') p).
  { unfold wp, run_workflow in Hw. rewrite Hr in Hw. by destruct r. }
  clear Hr. unfold run_workflow. apply wp_bind. eapply wp_mono; [apply reading_session| |].
  2:{ intros e p1 [(?&?&?) _]. by apply job_idle. }
  intros o p1 (-> & Hs1 & _). pose proof Hs1 as (? & ? & _). destruct (find_run run_id (pl_db p)) as [run|] eqn:Hf; [|by apply wp_ret, job_idle].
  destruct (bool_decide (ru_status run = u "queued")) eqn:Hq; cbn [negb]; [|by apply wp_ret, job_idle].
  apply bool_decide_eq_true in Hq. apply wp_bind. eapply wp_mono; [apply wp_steps, on_slots_work| |].
  2:{ intros e p2 Hs. assert (Hs' : same_work p p2) by (by etrans). destruct Hs' as (? & ? & ?). by apply job_idle. }
  intros acquired p2 Hs2. assert (Hs : same_work p p2) by (by etrans). destruct acquired; cbn [negb].
  - apply wp_bind. eapply wp_mono; [by apply (execute_and_release_wp run_id (ru_org_id run) p)| |].
    + intros a p3 Hp3. assert (Hx : ∀ p4, same_work p3 p4 → job_result run_id p p4).
      { intros p4 Hp4. destruct (executed_later _ _ _ _ Hp3 Hp4) as (n & x & He & Hj). by eapply job_executed; eauto. }
      apply keeps_result; [|exact Hx]. apply steps_bind; [tc_solve| |].
      * intros q. pose proof (reading_session (find_run run_id) q) as Hq'. unfold wp in Hq'.
        destruct (in_session _ q) as [[]]; simpl; apply Hq'.
      * intros finished q. by destruct q as [[d rd] ? ? ? ?].
    + intros e p3 (n & x & He & Hj). by eapply job_executed; eauto.
  - apply wp_bind. unfold modify at 1, wp at 1. destruct Hs as (Ho & Hj & Hrej).
    unfold enqueue_retry, wp. change (pl_tick (reject_run p2)) with (pl_tick p2).
    destruct (redis_failure (pl_tick p2)); [by apply job_idle|].
    apply (job_deferred _ _ _ run); [done|done|exact Ho| |].
    + cbn. by rewrite <-Hj.
    + cbn. by rewrite Hrej.
Qed.

(** what a job does with its run, whatever fails on the way: either the tables,
    the events and the queue are as they were; or the run was queued and its
    organisation busy, and it is put back into the queue, untouched, once; or it was
    queued and what changed is exactly what one execution of it makes of the
    office. *)
Theorem run_workflow_decides run_id p r p' : run_workflow run_id p = (r, p') → job_result run_id p p'.
Proof. apply run_workflow_result. Qed.

(** ** The slot *)

Context (Hredis : ∀ n, redis_failure n = None) (Hlive : ∀ n key, wk_expired n key = false).

Lemma on_slots_up {A} key (f : option Z → A * option Z) p :
  let '(a, c) := f (rd_slots (pl_redis p) key) in
  ∃ p', on_slots key f p = (Ok a, p') ∧ rd_slots (pl_redis p') = set_key key c (rd_slots (pl_redis p)).
Proof.
  unfold on_slots. rewrite Hredis, Hlive. change (pl_redis (next_call p)) with (pl_redis p).
  destruct (f _) as [a c]. by eexists.
Qed.

Lemma set_key_eq {A} k (x : A) f : set_key k x f k = x.
Proof. unfold set_key. by rewrite bool_decide_eq_true_2. Qed.

Lemma slots_key_inj org org' : slots_key org = slots_key org' → org = org'.
Proof. unfold slots_key, slots_bucket. intros Heq. by repeat apply app_inv_head in Heq. Qed.

(** The counters of all organisations are as before, and [d] more for [org]. *)
Definition slots_more (org : pystr) (d : Z) p p' : Prop :=
  ∀ org', slots_taken org' p' = slots_taken org' p + (if bool_decide (org' = org) then d else 0).

Lemma slots_set org c p p' :
  rd_slots (pl_redis p') = set_key (slots_key org) c (rd_slots (pl_redis p)) →
  slots_more org (slot_value c - slots_taken org p) p p'.
Proof.
  intros Heq org'. unfold slots_taken. rewrite Heq. unfold set_key. case_bool_decide as Hk.
  - apply slots_key_inj in Hk as ->. rewrite bool_decide_eq_true_2 by done. lia.
  - rewrite bool_decide_eq_false_2; [lia|]. by intros ->.
Qed.

Lemma acquire_wp org p :
  wp (acquire org) (λ b p', slots_more org (if b then 1 else 0) p p') (λ _ _, False) p.
Proof.
  unfold acquire, wp. pose proof (on_slots_up (slots_key org) (acquire_slot (cfg_max_concurrent_runs_per_org env_settings)) p) as Hs.
  unfold acquire_slot in *. destruct (_ <=? _); destruct Hs as (p' & -> & Hp).
  - apply slots_set in Hp. unfold slots_taken in Hp. by rewrite Z.sub_diag in Hp.
  - apply slots_set in Hp. unfold slots_taken in Hp. simpl in Hp.
    intros org'. rewrite Hp. destruct (bool_decide _); lia.
Qed.

Lemma release_wp org p : 0 < slots_taken org p →
  wp (release org) (λ _ p', slots_more org (-1) p p') (λ _ _, False) p.
Proof.
  intros Hpos. unfold release. apply wp_bind. unfold wp at 1.
  destruct (on_slots_up (slots_key org) release_decr p) as (p' & -> & Hp).
  apply slots_set in Hp. unfold slots_taken in Hp, Hpos. simpl in Hp.
  destruct (Z.ltb_spec (slot_value (rd_slots (pl_redis p) (slots_key org)) - 1) 0); [lia|].
  apply wp_ret. intros org'. rewrite Hp. destruct (bool_decide _); lia.
Qed.

Lemma slots_more_same org d p p' p'' : slots_more org d p p' → same_slots p' p'' → slots_more org d p p''.
Proof. intros Hm Hs org'. rewrite <-Hm. unfold slots_taken. by rewrite Hs. Qed.

Lemma execute_and_release_slots run_id org p : 0 < slots_taken org p →
  wp (execute_and_release run_id org) (λ _ p', slots_more org (-1) p p') (λ _ p', slots_more org (-1) p p') p.
Proof.
  intros Hpos. unfold execute_and_release. apply wp_bind, wp_attempt. unfold wp at 1.
  destruct (execute run_id p) as [x p1] eqn:He. apply execute_work in He as (_ & _ & Hs).
  assert (Htail : ∀ r : exn + unit, wp (
      _ ← (match r with
           | inl e => if is_exception e then modify (count_run (u "crashed")) else m_ret tt
           | inr _ => m_ret tt
           end);
      _ ← release org;
      match r with inl e => raise e | inr _ => m_ret tt end : Wk unit)
      (λ _ p', slots_more org (-1) p p') (λ _ p', slots_more org (-1) p p') p1).
  { intros r. apply wp_bind. apply (wp_mono _ (λ _ p2, same_slots p p2) _ (λ _ _, False)); [|intros a p2 Hs2|done].
    - unfold wp. destruct r as [e|]; [destruct (is_exception e)|]; exact Hs.
    - apply wp_bind. assert (Hpos2 : 0 < slots_taken org p2) by (unfold slots_taken in *; by rewrite Hs2).
      eapply wp_mono; [by apply release_wp|intros b p3 Hp3|done].
      assert (Hm : slots_more org (-1) p p3).
      { intros org'. rewrite Hp3. unfold slots_taken. by rewrite Hs2. }
      by destruct r. }
  destruct x as [[]|e]; [apply (Htail (inr tt))|apply (Htail (inl e))].
Qed.

(** C27: the slot a job takes comes back: however the execution of the run ends, with
    a result, with an error or cancelled, after the job every organisation has
    exactly the slots taken it had before, as long as Redis answers and keeps the
    counters. *)
Theorem slots_come_back run_id p r p' org :
  (∀ o, 0 ≤ slots_taken o p) → run_workflow run_id p = (r, p') → slots_taken org p' = slots_taken org p.
Proof.
  intros Hnn Hr. enough (Hw : wp (run_workflow run_id) (λ _ p', ∀ o, slots_taken o p' = slots_taken o p)
                                (λ _ p', ∀ o, slots_taken o p' = slots_taken o p) p).
  { unfold wp in Hw. rewrite Hr in Hw. by destruct r. }
  clear Hr. unfold run_workflow. apply wp_bind. eapply wp_mono; [apply reading_session| |].
  2:{ intros e p1 [_ Hs] o. unfold slots_taken. by rewrite Hs. }
  intros found p1 (-> & _ & Hs1).
  assert (H1 : ∀ o, slots_taken o p1 = slots_taken o p) by (intros o; unfold slots_taken; by rewrite Hs1).
  destruct (find_run run_id (pl_db p)) as [run|]; [|by apply wp_ret].
  destruct (bool_decide (ru_status run = u "queued")); cbn [negb]; [|by apply wp_ret].
  apply wp_bind. eapply wp_mono; [apply acquire_wp| |done]. intros acquired p2 H2. cbn beta in H2.
  destruct acquired; cbn [negb].
  - apply wp_bind. assert (Hpos : 0 < slots_taken (ru_org_id run) p2).
    { rewrite H2, bool_decide_eq_true_2, H1 by done. specialize (Hnn (ru_org_id run)). lia. }
    assert (Hback : ∀ p3, slots_more (ru_org_id run) (-1) p2 p3 → ∀ o, slots_taken o p3 = slots_taken o p).
    { intros p3 H3 o. rewrite H3, H2, H1. destruct (bool_decide _); lia. }
    eapply wp_mono; [by apply execute_and_release_slots|intros a p3 H3|intros e p3 H3; by apply Hback].
    apply wp_bind. eapply wp_mono; [apply reading_session| |].
    + intros finished p4 (_ & _ & Hs4) o. rewrite <-(Hback p3 H3). exact (f_equal (λ f, slot_value (f (slots_key o))) Hs4).
    + intros e p4 [_ Hs4] o. rewrite <-(Hback p3 H3). exact (f_equal (λ f, slot_value (f (slots_key o))) Hs4).
  - apply wp_bind. unfold modify at 1, wp at 1. unfold enqueue_retry, wp. rewrite Hredis.
    intros o. rewrite <-H1. transitivity (slots_taken o p2); [done|]. rewrite H2. destruct (bool_decide _); lia.
Qed.
End jobs.

(** ** Any number of jobs and sweeps *)

(** One job or one sweep of the worker from its beginning to its end, whatever its
    environment does; while nobody else posts under the key of the run, and with row
    ids that are unique.  (What jobs of several workers do to one ledger at the same
    time is the subject of [BillingRace].) *)
Inductive plant_step (p p' : Plant) : Prop :=
| step_job (W : WorkerEnv) run_id r :
    (∀ n k, @db_race (wk_db n) k = false) → run_workflow run_id p = (r, p') → plant_step p p'
| step_reap (W : WorkerEnv) r :
    NoDup (map ru_id (db_runs (pl_db p))) → reap_orphans p = (r, p') → plant_step p p'
| step_slots (W : WorkerEnv) r : release_stale_slots p = (r, p') → plant_step p p'.

Section sweeps.
Context `{WorkerEnv}.
Abbreviation Wk A := (M Plant exn A).

Lemma on_slots_db {A} key (f : option Z → A * option Z) p : pl_db (on_slots key f p).2 = pl_db p.
Proof. unfold on_slots. destruct (redis_failure _); [done|]. by destruct (f _). Qed.

Definition same_db p p' : Prop := pl_db p' = pl_db p.
#[local] Instance same_db_preorder : PreOrder same_db.
Proof. split; [done|]. unfold same_db. intros p1 p2 p3. congruence. Qed.

Lemma session_db {A} (f : Db → A) : steps same_db (in_session (λ D, query f)).
Proof.
  intros p. pose proof (reading_session f p) as Hw. unfold wp, same_db in *.
  destruct (in_session _ p) as [[a|e] p']; simpl; [destruct Hw as (_ & [Ho _] & _)|destruct Hw as [[Ho _] _]];
    by injection Ho.
Qed.

Lemma release_stale_db : steps same_db release_stale_slots.
Proof.
  assert (Hslots : ∀ A key (f : option Z → A * option Z), steps same_db (on_slots key f)).
  { intros A key f p. apply on_slots_db. }
  unfold release_stale_slots. apply steps_bind; [tc_solve|apply session_db|]. intros rows.
  apply steps_bind; [tc_solve| |intros keys].
  { intros p. unfold scan_keys. by destruct (redis_failure _). }
  apply steps_bind; [tc_solve| |intros _; apply steps_ret; tc_solve].
  apply steps_for_loop; [tc_solve|]. intros key []. unfold correct_slots, in_use.
  apply steps_bind; [tc_solve|apply Hslots|]. intros current.
  apply steps_bind; [tc_solve| |intros _; apply steps_ret; tc_solve].
  destruct (_ <? current); [apply Hslots|apply steps_ret; tc_solve].
Qed.

(** The sweep of orphans posts nothing and leaves every run alone that is not running. *)
Lemma reap_safe p r p' : NoDup (map ru_id (db_runs (pl_db p))) → reap_orphans p = (r, p') →
  (∀ id x, find_run id (pl_db p) = Some x → ru_status x ≠ u "running" → find_run id (pl_db p') = Some x) ∧
  db_orgs (pl_db p') = db_orgs (pl_db p) ∧ db_ledger (pl_db p') = db_ledger (pl_db p).
Proof.
  intros Hnd Hr. unfold reap_orphans in Hr.
  destruct (mark_orphaned_runs _ _ (pl_db p) _) as [x s] eqn:Hm. injection Hr as <- <-.
  change (pl_db (next_call _)) with (ss_committed (sw_session s)).
  pose proof (sweep_spec _ _ _ _ _ _ Hnd Hm) as Hspec. destruct x as [n|e].
  - destruct Hspec as (_ & Hd & t & Hf). split; [|rewrite Hd; done].
    intros id x Hx Hs. rewrite Hf, Hx. simpl. unfold orphan, is_running. by rewrite bool_decide_eq_false_2.
  - by rewrite Hspec.
Qed.

(** ** The counters after a sweep *)

Lemma running_counts_get rows : ∀ org, default 0 (assoc org (running_counts rows))
  = py_len (List.filter (λ o, bool_decide (o = org)) rows).
Proof.
  unfold running_counts. intros org.
  enough (Hacc : ∀ acc, default 0 (assoc org (fold_left (λ actual org_id,
            assoc_set org_id (default 0 (assoc org_id actual) + 1) actual) rows acc))
          = default 0 (assoc org acc) + py_len (List.filter (λ o, bool_decide (o = org)) rows)) by apply (Hacc []).
  induction rows as [|o rows IH]; intros acc; cbn [fold_left List.filter]; [unfold py_len; simpl; lia|].
  rewrite IH. case_bool_decide as Ho.
  - subst o. rewrite assoc_set_eq. unfold py_len. simpl. lia.
  - by rewrite assoc_set_ne.
Qed.

Lemma running_orgs org d :
  default 0 (assoc org (running_counts (map ru_org_id (List.filter is_running (db_runs d))))) = running_runs org d.
Proof.
  rewrite running_counts_get. unfold running_runs, py_len, is_running. f_equal.
  induction (db_runs d) as [|r l IH]; [done|]. cbn [List.filter].
  destruct (bool_decide (ru_status r = u "running")); cbn [map List.filter];
    destruct (bool_decide (ru_org_id r = org)); cbn [andb length]; lia.
Qed.

Lemma partition_at_prefix pat s : partition_at pat (pat ++ s) = Some ([], s).
Proof.
  assert (Hs : startswith pat (pat ++ s) = true) by (apply startswith_spec; by rewrite drop_app_length).
  assert (Hd : drop (length pat) (pat ++ s) = s) by apply drop_app_length.
  destruct (pat ++ s); simpl; by rewrite Hs, Hd.
Qed.

Lemma org_of_slots_key org : org_of_key (slots_key org) = org.
Proof. unfold org_of_key. by rewrite (partition_at_prefix (u "slots:runs:") org : partition_at _ (slots_key org) = _). Qed.

Context (Hredis : ∀ n, redis_failure n = None) (Hlive : ∀ n key, wk_expired n key = false).

Lemma correct_slots_wp actual org p :
  wp (correct_slots actual (slots_key org) tt)
     (λ f p', f = Next tt ∧ pl_db p' = pl_db p ∧ ∀ o, slots_taken o p' =
        if bool_decide (o = org) then Z.min (slots_taken o p) (default 0 (assoc o actual)) else slots_taken o p)
     (λ _ _, False) p.
Proof.
  unfold correct_slots. rewrite org_of_slots_key. unfold in_use. apply wp_bind. unfold wp at 1.
  pose proof (on_slots_db (slots_key org) (λ c, (slots_in_use c, c)) p) as Hd1.
  destruct (on_slots_up Hredis Hlive (slots_key org) (λ c, (slots_in_use c, c)) p) as (p1 & Heq & Hp1).
  rewrite Heq in Hd1 |- *. apply slots_set in Hp1. fold (slots_taken org p) in Hp1. rewrite Z.sub_diag in Hp1.
  set (expected := default 0 (assoc org actual)).
  change (slots_in_use (rd_slots (pl_redis p) (slots_key org))) with (slots_taken org p).
  assert (H1 : ∀ o, slots_taken o p1 = slots_taken o p) by (intros o; rewrite Hp1; destruct (bool_decide _); lia).
  apply wp_bind. destruct (Z.ltb_spec expected (slots_taken org p)) as [Hlt|Hge].
  - unfold wp at 1. pose proof (on_slots_db (slots_key org) (λ _, (tt, Some expected)) p1) as Hd2.
    destruct (on_slots_up Hredis Hlive (slots_key org) (λ _, (tt, Some expected)) p1) as (p2 & Heq2 & Hp2).
    rewrite Heq2 in Hd2 |- *. simpl in Hd1, Hd2. apply wp_ret. split_and!; [done|congruence|].
    apply slots_set in Hp2. intros o. rewrite Hp2, !H1. simpl. case_bool_decide as Ho; [subst o; lia|lia].
  - apply wp_ret, wp_ret. split_and!; [done|done|]. intros o. rewrite H1. case_bool_decide as Ho; [subst o|done].
    fold expected. lia.
Qed.

Lemma correct_all_wp actual keys p seen before :
  (∀ key, key ∈ keys → ∃ org, key = slots_key org) →
  (∀ o, slots_taken o p = if bool_decide (slots_key o ∈ seen)
                          then Z.min (slots_taken o before) (default 0 (assoc o actual)) else slots_taken o before) →
  wp (for_loop keys (correct_slots actual) tt)
     (λ _ p', pl_db p' = pl_db p ∧ ∀ o, slots_taken o p' = if bool_decide (slots_key o ∈ seen ++ keys)
        then Z.min (slots_taken o before) (default 0 (assoc o actual)) else slots_taken o before)
     (λ _ _, False) p.
Proof.
  revert p seen. induction keys as [|key keys IH]; intros p seen Hkeys Hp; cbn [for_loop].
  { apply wp_ret. split; [done|]. by rewrite app_nil_r. }
  destruct (Hkeys key) as [org ->]; [by left|]. apply wp_bind.
  eapply wp_mono; [apply correct_slots_wp| |done]. intros f p1 (-> & Hd & H1).
  rewrite <-Hd, (cons_middle (slots_key org) seen keys), (assoc_L (++)). apply IH; [set_solver|].
  intros o. rewrite H1, Hp. case_bool_decide as Ho.
  - subst o. rewrite (bool_decide_eq_true_2 (_ ∈ seen ++ _)) by set_solver. destruct (bool_decide _); lia.
  - assert (Hiff : slots_key o ∈ seen ++ [slots_key org] ↔ slots_key o ∈ seen).
    { rewrite elem_of_app, list_elem_of_singleton. split; [intros [|Hk]; [done|]|tauto]. by apply slots_key_inj in Hk. }
    by rewrite (bool_decide_ext _ _ Hiff).
Qed.

Lemma stale_slots p p' :
  (∀ n key, key ∈ wk_scan n → ∃ org, key = slots_key org) →
  (∀ n org, slots_taken org p ≠ 0 → slots_key org ∈ wk_scan n) →
  (∀ o, 0 ≤ slots_taken o p) → release_stale_slots p = (Ok tt, p') →
  ∀ org, slots_taken org p' = Z.min (slots_taken org p) (running_runs org (pl_db p)).
Proof.
  intros Hkeys Hfull Hnn Hr.
  enough (Hw : wp release_stale_slots (λ _ p', ∀ o, slots_taken o p' = Z.min (slots_taken o p) (running_runs o (pl_db p)))
                 (λ _ _, True) p) by (unfold wp in Hw; by rewrite Hr in Hw).
  clear Hr. unfold release_stale_slots. apply wp_bind. eapply wp_mono; [apply reading_session| |done].
  intros rows p1 (-> & _ & Hs1). apply wp_bind. unfold scan_keys, wp at 1. rewrite Hredis.
  assert (H1 : ∀ o, slots_taken o (next_call p1) = slots_taken o p).
  { intros o. unfold slots_taken, same_slots in *. change (pl_redis (next_call p1)) with (pl_redis p1). by rewrite Hs1. }
  apply wp_bind. eapply wp_mono; [apply (correct_all_wp _ (wk_scan (pl_tick p1)) _ [] p)| |done].
  - intros key Hk. by eapply Hkeys.
  - done.
  - intros f p2 [_ H2]. apply wp_ret. intros o. rewrite H2, running_orgs. simpl. case_bool_decide as Hin; [done|].
    assert (Hz : slots_taken o p = 0).
    { destruct (Z.eq_dec (slots_taken o p) 0); [done|]. by destruct Hin; apply Hfull. }
    unfold running_runs, py_len. lia.
Qed.

(** the sweep of the slots computes what it means to: when it returns, the counter
    of every organisation is at most the number of its runs that are [running] in the
    committed tables, and it is never raised. *)
Theorem stale_slots_recomputed p p' :
  (∀ n key, key ∈ wk_scan n → ∃ org, key = slots_key org) →
  (∀ n org, slots_taken org p ≠ 0 → slots_key org ∈ wk_scan n) →
  (∀ o, 0 ≤ slots_taken o p) → release_stale_slots p = (Ok tt, p') →
  ∀ org, slots_taken org p' = Z.min (slots_taken org p) (running_runs org (pl_db p)).
Proof. apply stale_slots. Qed.
End sweeps.

(** What a step may do to a run that has finished. *)
Definition finished_kept (id : pystr) (d d' : Db) : Prop :=
  ∀ r, find_run id d = Some r → is_terminal (ru_status r) = true →
    find_run id d' = Some r ∧ ∀ org, find_entry org (run_key id) d' = find_entry org (run_key id) d.

Lemma plant_step_safe p p' : plant_step p p' → ledger_ok (pl_db p) →
  ledger_ok (pl_db p') ∧ ∀ id, finished_kept id (pl_db p) (pl_db p').
Proof.
  intros Hstep Hok.
  assert (Hsame : pl_db p' = pl_db p → ledger_ok (pl_db p') ∧ ∀ id, finished_kept id (pl_db p) (pl_db p')).
  { by intros ->. }
  destruct Hstep as [W run_id r Hrace Hr|W r Hnd Hr|W r Hr].
  - apply run_workflow_result in Hr as [Ho _|run _ _ Ho _ _|run D x _ _ He [n ->] _];
      [apply Hsame; by injection Ho|apply Hsame; by injection Ho|].
    pose proof (web_tools_contract (X:=RunExt)) as [Hf Hs].
    destruct (office_step_kept (office_of p) (office_of p')) as [Hok' Hrun]; [|done|].
    { by eapply (office_execution _ _ wk_env (wk_db n) WebFetch WebSearch). }
    split; [exact Hok'|]. intros id x' Hx Ht. destruct (Hrun id x' Hx) as (r' & Hf' & Hkeep).
    destruct Hkeep as [-> Hent]; [by intros Hq; rewrite Hq in Ht|]. by split.
  - destruct (reap_safe p r p' Hnd Hr) as (Hf & Ho & Hl). split; [by eapply ledger_ok_ext|].
    intros id x Hx Ht. split; [apply Hf; [done|by intros Hs; rewrite Hs in Ht]|]. intros org.
    unfold find_entry. by rewrite Hl.
  - apply Hsame. pose proof (release_stale_db p) as Hd. by rewrite Hr in Hd.
Qed.

(** C26: finished runs stay as they finished: over any jobs and sweeps of the worker, one
    after the other, of whichever runs, in whatever order and environments and with
    whatever failures, while nobody else posts under the keys of runs and the ids of
    runs are unique, the books stay balanced, and a run whose status is terminal keeps
    its row and its ledger entry exactly as they are, for good. *)
Theorem workers_safe p p' :
  rtc plant_step p p' → ledger_ok (pl_db p) →
  ledger_ok (pl_db p') ∧
  ∀ id r, find_run id (pl_db p) = Some r → is_terminal (ru_status r) = true →
    find_run id (pl_db p') = Some r ∧
    ∀ org, find_entry org (run_key id) (pl_db p') = find_entry org (run_key id) (pl_db p).
Proof.
  intros Hsteps. induction Hsteps as [p|p1 p2 p3 Hs _ IH]; intros Hok; [by split|].
  destruct (plant_step_safe p1 p2 Hs Hok) as (Hok2 & Hrun). destruct (IH Hok2) as (H2 & H3). split; [done|].
  intros id r Hf Ht. destruct (Hrun id r Hf Ht) as [Hf' Hent].
  destruct (H3 id r Hf' Ht) as [Hf3 Hent3]. split; [done|]. intros org. by rewrite Hent3, Hent.
Qed.

(** ** A worker at work

    Witnesses of the properties of the worker, on the office of RunnerDemo, and the
    two ways its guarantees fail. *)

Definition worker_env (E : Env) : WorkerEnv := {|
  wk_env := E; wk_web := demo_web; wk_db := λ _, quiet_db; wk_redis_fault := λ _, None; wk_expired := λ _ _, false;
  wk_emit_fault := λ _ _, None;
  (* arq: a job whose id is known is not queued again *)
  wk_enqueue_job := λ job q, if bool_decide (jb_job_id job ∈ map jb_job_id q) then q else q ++ [job];
  wk_scan := λ _, [slots_key (u "o")] |}.
#[local] Instance steady_worker : WorkerEnv := worker_env steady_env.

(** The run [r] is queued; [taken] slots of its organisation are in use. *)
Definition demo_plant (taken : Z) (jobs : list Job) : Plant :=
  mkPlant (mkServer (demo_tables (u "queued") one_node)
             (mkRedis (λ _, []) (λ k, if bool_decide (k = slots_key (u "o")) then Some taken else None)
                (λ _, empty_bus) jobs)) default_price_book [] 0 0.

Definition plant_summary (p : Plant) : list pystr * Z * list pystr * list pystr :=
  (map ru_status (db_runs (pl_db p)), slots_taken (u "o") p, map jb_job_id (pl_jobs p), pl_counted p).

(** ** The job runs, fails, or waits *)

Lemma job_executes :
  plant_summary (run_workflow (u "r") (demo_plant 1 [])).2 = ([u "succeeded"], 1, [], [u "succeeded"]).
Proof. vm_compute. reflexivity. Qed.

(** The worker is shut down while the run executes: the slot still comes back. *)
Definition stopped_worker : WorkerEnv := worker_env (interrupted_env 5 ICancel).
Lemma stopped_job :
  (let '(r, p) := @run_workflow stopped_worker (u "r") (demo_plant 1 []) in (is_ok r, plant_summary p))
  = (false, ([u "queued"], 1, [], [])).
Proof. vm_compute. reflexivity. Qed.

Lemma job_waits :
  plant_summary (run_workflow (u "r") (demo_plant 5 [])).2 = ([u "queued"], 5, [u "run:r:retry"], []).
Proof. vm_compute. reflexivity. Qed.

(** When the job that was put back finds the organisation busy again, it asks for a
    job of its own id, which arq does not queue twice: the run stays queued, and no
    job is left to execute it. *)
Lemma retry_of_a_retry_is_lost :
  let retry := mkJob (u "r") (u "run:r:retry") 15 in
  let '(r, p) := run_workflow (u "r") (demo_plant 5 [retry]) in
  r = Ok tt ∧ map ru_status (db_runs (pl_db p)) = [u "queued"] ∧ pl_jobs p = [retry].
Proof. vm_compute. auto. Qed.

(** While a run executes its slot is taken, but its row is [queued] in the committed
    tables: the sweep gives the slot away. *)
Lemma sweep_forgets_runs_in_flight :
  let '(r, p) := release_stale_slots (demo_plant 5 []) in r = Ok tt ∧ slots_taken (u "o") p = 0.
Proof. vm_compute. auto. Qed.

(** ** Witnesses *)

Definition after_job : Plant := (run_workflow (u "r") (demo_plant 1 [])).2.
Lemma job_eq : run_workflow (u "r") (demo_plant 1 []) = ((run_workflow (u "r") (demo_plant 1 [])).1, after_job).
Proof. apply surjective_pairing. Qed.

Lemma demo_slots taken jobs : 0 ≤ taken → ∀ o, 0 ≤ slots_taken o (demo_plant taken jobs).
Proof. intros Ht o. unfold slots_taken. cbn. by case_bool_decide. Qed.

Lemma run_workflow_decides_witness : job_result (u "r") (demo_plant 1 []) after_job.
Proof. exact (run_workflow_decides (u "r") _ _ _ job_eq). Defined.

Lemma redis_up : ∀ n, redis_failure n = None.
Proof. done. Qed.
Lemma keys_live : ∀ n key, wk_expired n key = false.
Proof. done. Qed.

Lemma slots_come_back_witness : slots_taken (u "o") after_job = slots_taken (u "o") (demo_plant 1 []).
Proof.
  assert (H0 : 0 ≤ 1) by lia.
  exact (slots_come_back redis_up keys_live (u "r") _ _ _ (u "o") (demo_slots 1 [] H0) job_eq).
Defined.

Lemma demo_scan : ∀ n key, key ∈ wk_scan n → ∃ org, key = slots_key org.
Proof. intros n key ->%list_elem_of_singleton. eauto. Qed.
Lemma demo_scan_full taken jobs : ∀ n org, slots_taken org (demo_plant taken jobs) ≠ 0 → slots_key org ∈ wk_scan n.
Proof.
  intros n org. unfold slots_taken. cbn. case_bool_decide as Hk; [|done]. intros _. rewrite Hk. by left.
Qed.
Definition after_sweep : Plant := (release_stale_slots (demo_plant 5 [])).2.
Lemma sweep_eq : release_stale_slots (demo_plant 5 []) = (Ok tt, after_sweep).
Proof.
  pose proof sweep_forgets_runs_in_flight as Hs. unfold after_sweep.
  destruct (release_stale_slots (demo_plant 5 [])) as [r p]. by destruct Hs as [-> _].
Qed.

Lemma stale_slots_recomputed_witness :
  slots_taken (u "o") after_sweep
  = Z.min (slots_taken (u "o") (demo_plant 5 [])) (running_runs (u "o") (pl_db (demo_plant 5 []))).
Proof.
  assert (H5 : 0 ≤ 5) by lia.
  exact (stale_slots_recomputed redis_up keys_live (demo_plant 5 []) after_sweep demo_scan (demo_scan_full 5 [])
           (demo_slots 5 [] H5) sweep_eq (u "o")).
Defined.

(** The job is delivered again after the run has succeeded. *)
Definition after_again : Plant := (run_workflow (u "r") after_job).2.
Lemma workers_safe_witness :
  ledger_ok (pl_db after_again) ∧ is_Some (find_run (u "r") (pl_db after_job)) ∧
  find_run (u "r") (pl_db after_again) = find_run (u "r") (pl_db after_job).
Proof.
  assert (Hs : plant_step (demo_plant 1 []) after_job).
  { exact (step_job _ _ steady_worker (u "r") _ (λ n, quiet_db_alone) job_eq). }
  assert (Hagain : plant_step after_job after_again).
  { exact (step_job _ _ steady_worker (u "r") _ (λ n, quiet_db_alone) (surjective_pairing _)). }
  destruct (workers_safe (demo_plant 1 []) after_job (rtc_once _ _ Hs) (demo_tables_ok _ _)) as [Hok _].
  destruct (workers_safe after_job after_again (rtc_once _ _ Hagain) Hok) as [Hok' Hkept].
  split; [exact Hok'|].
  assert (Hf : match find_run (u "r") (pl_db after_job) with Some r => is_terminal (ru_status r) | None => false end = true)
    by (vm_compute; reflexivity).
  destruct (find_run (u "r") (pl_db after_job)) as [r|] eqn:Hr; [|discriminate Hf].
  split; [exists r; reflexivity|]. exact (proj1 (Hkept (u "r") r Hr Hf)).
Defined.
