(* ===== verification/Team.v ===== *)
(** * Agents and workflows (src/api/routers/agents.py, src/api/routers/workflows.py)

    What an organisation works with: its agents, and the workflows that wire them
    together.  The bodies are as pydantic has parsed them; the bounds and the
    validators of the schemas run before the handler, after the caller has been
    checked. *)

From S2P Require Import Prelude PyStr PyFloat PyVal Config State Budget Registry Providers Pricing Keys Events.
From S2P Require Import World ToolBase ToolArtifacts ToolRegistry Web Workflow Database Auditing Security RateLimit.
From S2P Require Import Api ApiSafety Auth Orgs RunsApi.

(** ** Bodies *)

Record AgentCreate := mkAgentCreate {
  an_name : pystr; an_role : pystr; an_system_prompt : pystr; an_model : pystr; an_effort : pystr;
  an_max_tokens : Z; an_tools : list pystr }.
Record AgentUpdate := mkAgentUpdate {
  au_name : patch pystr; au_role : patch pystr; au_system_prompt : patch pystr; au_model : patch pystr;
  au_effort : patch pystr; au_max_tokens : patch Z; au_tools : patch (list pystr); au_is_active : patch bool }.
Record WorkflowCreate := mkWorkflowCreate {
  wc_name : pystr; wc_description : pystr; wc_preset : pystr; wc_graph : Graph }.
Record WorkflowUpdate := mkWorkflowUpdate {
  wu_name : patch pystr; wu_description : patch pystr; wu_preset : patch pystr; wu_graph : patch Graph;
  wu_is_active : patch bool }.

(** [list(dict.fromkeys(l))]: each string where it comes first *)
Fixpoint fromkeys (seen l : list pystr) : list pystr :=
  match l with
  | [] => []
  | x :: l' => if bool_decide (x ∈ seen) then fromkeys seen l' else x :: fromkeys (x :: seen) l'
  end.

(** The names of the tools; they do not depend on the deployment. *)
Definition tool_names : list pystr :=
  [u "list_artifacts"; u "read_artifact"; u "write_artifact"; u "edit_artifact"; u "web_fetch"; u "web_search"].

(** pydantic's refusal of a body: a [RequestValidationError], answered with 422 *)
Definition invalid_body : exn := ExternalError (u "RequestValidationError") [].
Definition within (low high : Z) (s : pystr) : bool := (low <=? py_len s) && (py_len s <=? high).

(** [_known_tools] *)
Definition known_tools (value : list pystr) : res exn (list pystr) :=
  let unknown := sorted_strs (fromkeys [] (List.filter (λ t, negb (bool_decide (t ∈ tool_names))) value)) in
  match unknown with
  | [] => Ok (fromkeys [] value)
  | _ => Err (ValueError (u "unknown tool(s): " ++ join (u ", ") unknown ++ u ". Available: "
                            ++ join (u ", ") (sorted_strs tool_names)))
  end.
(** [_known_model]: the [KeyError] of [get_spec] is not pydantic's to catch; the server answers it with 422. *)
Definition known_model `{PyTables} (value : pystr) : res exn pystr := _ ← get_spec value; Ok value.
(** [_known_effort] *)
Definition known_effort (value : pystr) : res exn pystr :=
  if bool_decide (value ∈ EFFORT_LEVELS) then Ok value
  else Err (ValueError (u "effort must be one of " ++ join (u ", ") EFFORT_LEVELS)).
(** [_known_preset] *)
Definition known_preset (value : pystr) : res exn pystr :=
  if bool_decide (value ∈ PRESET_NAMES) then Ok value
  else Err (ValueError (u "preset must be one of " ++ join (u ", ") PRESET_NAMES)).

(** A validator's [ValueError] makes the body invalid. *)
Definition validated {A} (r : res exn A) : res exn A :=
  match r with Err (ValueError _) => Err invalid_body | _ => r end.
Definition on_patch {A} (f : A → res exn A) (p : patch A) : res exn (patch A) :=
  match p with Value a => a' ← f a; Ok (Value a') | _ => Ok p end.
Definition bounded_text (low high : Z) (s : pystr) : res exn pystr := if within low high s then Ok s else Err invalid_body.
Definition bounded_tokens (n : Z) : res exn Z := if (256 <=? n) && (n <=? 128000) then Ok n else Err invalid_body.
Definition bounded_tools (l : list pystr) : res exn (list pystr) :=
  if py_len l <=? 16 then validated (known_tools l) else Err invalid_body.

Section bodies.
Context `{PyTables}.

(** The fields of [AgentBase], in order *)
Definition check_agent_create (p : AgentCreate) : res exn AgentCreate :=
  name ← bounded_text 1 200 (an_name p);
  role ← bounded_text 1 100 (an_role p);
  prompt ← bounded_text 0 100000 (an_system_prompt p);
  model ← bounded_text 1 80 (an_model p);
  model ← known_model model;
  effort ← validated (known_effort (an_effort p));
  max_tokens ← bounded_tokens (an_max_tokens p);
  tools ← bounded_tools (an_tools p);
  Ok (mkAgentCreate name role prompt model effort max_tokens tools).

Definition check_agent_update (p : AgentUpdate) : res exn AgentUpdate :=
  name ← on_patch (bounded_text 1 200) (au_name p);
  role ← on_patch (bounded_text 1 100) (au_role p);
  prompt ← on_patch (bounded_text 0 100000) (au_system_prompt p);
  model ← on_patch known_model (au_model p);
  effort ← on_patch (λ e, validated (known_effort e)) (au_effort p);
  max_tokens ← on_patch bounded_tokens (au_max_tokens p);
  tools ← on_patch bounded_tools (au_tools p);
  Ok (mkAgentUpdate name role prompt model effort max_tokens tools (au_is_active p)).

Definition check_workflow_create (p : WorkflowCreate) : res exn WorkflowCreate :=
  name ← bounded_text 1 200 (wc_name p);
  description ← bounded_text 0 4000 (wc_description p);
  preset ← validated (known_preset (wc_preset p));
  Ok (mkWorkflowCreate name description preset (wc_graph p)).

Definition check_workflow_update (p : WorkflowUpdate) : res exn WorkflowUpdate :=
  name ← on_patch (bounded_text 1 200) (wu_name p);
  description ← on_patch (bounded_text 0 4000) (wu_description p);
  preset ← on_patch (λ e, validated (known_preset e)) (wu_preset p);
  Ok (mkWorkflowUpdate name description preset (wu_graph p) (wu_is_active p)).
End bodies.

(** ** The presets on offer *)

Record PresetInfo := mkPresetInfo {
  pi_name : pystr; pi_summary : pystr; pi_required_keys : list pystr; pi_optional_keys : list pystr }.
(** [_PRESET_DOCS]; [list_presets] answers with it. *)
Definition PRESET_DOCS : list PresetInfo :=
  [mkPresetInfo (u "pipeline") (u "Linear hand-off: each agent builds on the previous agent's output.")
     [u "nodes"] [u "max_steps"; u "max_cost_cents"];
   mkPresetInfo (u "supervisor") (u "A manager decomposes the task, delegates, and decides when it is done.")
     [u "supervisor_agent_id"; u "workers"] [u "max_rounds"; u "max_steps"; u "max_cost_cents"];
   mkPresetInfo (u "debate") (u "Agents argue for N rounds, then a judge rules. Higher cost, higher quality.")
     [u "debaters"; u "judge_agent_id"] [u "rounds"; u "max_steps"; u "max_cost_cents"];
   mkPresetInfo (u "blackboard") (u "A planner posts a dependency-ordered task list; workers claim ready tasks.")
     [u "planner_agent_id"; u "workers"] [u "max_tasks"; u "max_steps"; u "max_cost_cents"];
   mkPresetInfo (u "swarm") (u "Peer-to-peer hand-off: whoever holds the task decides who gets it next.")
     [u "entry_agent_id"; u "agents"] [u "max_hops"; u "max_steps"; u "max_cost_cents"];
   mkPresetInfo (u "custom") ((u "Arbitrary directed graph with agent and router nodes " ++ [8212%N]) ++ u " the visual editor.")
     [u "start"; u "nodes"] [u "edges"; u "max_hops"; u "max_steps"; u "max_cost_cents"]].
Definition list_presets : list PresetInfo := PRESET_DOCS.

(** ** Rows *)

Definition find_agent (id : pystr) (d : Db) : option AgentRow :=
  List.find (λ a, bool_decide (ag_id (ar_spec a) = id)) (db_agents d).
Definition update_agent_row (id : pystr) (f : AgentRow → AgentRow) (d : Db) : Db :=
  set_agents (map (λ a, if bool_decide (ag_id (ar_spec a) = id) then f a else a) (db_agents d)) d.
Definition update_workflow_row (id : pystr) (f : WorkflowRow → WorkflowRow) (d : Db) : Db :=
  set_workflows (map (λ w, if bool_decide (wf_id w = id) then f w else w) (db_workflows d)) d.

Definition new_agent (id org_id created_by : pystr) (p : AgentCreate) : AgentRow :=
  mkAgentRow org_id true (Some created_by)
    (mkAgent id (an_name p) (an_role p) (an_system_prompt p) (an_model p) (an_effort p) (an_max_tokens p)
       (map VStr (an_tools p))).
(** [setattr] for every field that was sent; the spec of a row whose [tools] are null has
    none ([_to_spec]: [list(row.tools or [])]). *)
Definition patch_spec (p : AgentUpdate) (a : AgentSpec) : AgentSpec :=
  mkAgent (ag_id a) (patched (au_name p) (ag_name a)) (patched (au_role p) (ag_role a))
    (patched (au_system_prompt p) (ag_system_prompt a)) (patched (au_model p) (ag_model a))
    (patched (au_effort p) (ag_effort a)) (patched (au_max_tokens p) (ag_max_tokens a))
    (match au_tools p with Value l => map VStr l | Null => [] | Unset => ag_tools a end).
Definition patch_agent (p : AgentUpdate) (a : AgentRow) : AgentRow :=
  mkAgentRow (ar_org_id a) (patched (au_is_active p) (ar_is_active a)) (ar_created_by a) (patch_spec p (ar_spec a)).
Definition retire_agent (a : AgentRow) : AgentRow := mkAgentRow (ar_org_id a) false (ar_created_by a) (ar_spec a).

Definition new_workflow (id org_id created_by : pystr) (p : WorkflowCreate) : WorkflowRow :=
  mkWorkflowRow id org_id (wc_name p) (wc_description p) (wc_preset p) (wc_graph p) true (Some created_by).
Definition patch_workflow (p : WorkflowUpdate) (w : WorkflowRow) : WorkflowRow :=
  mkWorkflowRow (wf_id w) (wf_org_id w) (patched (wu_name p) (wf_name w))
    (patched (wu_description p) (wf_description w)) (patched (wu_preset p) (wf_preset w))
    (patched (wu_graph p) (wf_graph w)) (patched (wu_is_active p) (wf_is_active w)) (wf_created_by w).
Definition retire_workflow (w : WorkflowRow) : WorkflowRow :=
  mkWorkflowRow (wf_id w) (wf_org_id w) (wf_name w) (wf_description w) (wf_preset w) (wf_graph w) false (wf_created_by w).

(** The fields of a PATCH body that are present, sorted *)
Definition is_set {A} (p : patch A) : bool := match p with Unset => false | _ => true end.
Definition set_fields (l : list (string * bool)) : list pystr :=
  sorted_strs (map (λ f, u f.1) (List.filter snd l)).
Definition agent_fields (p : AgentUpdate) : list pystr :=
  set_fields [("name", is_set (au_name p)); ("role", is_set (au_role p)); ("system_prompt", is_set (au_system_prompt p));
    ("model", is_set (au_model p)); ("effort", is_set (au_effort p)); ("max_tokens", is_set (au_max_tokens p));
    ("tools", is_set (au_tools p)); ("is_active", is_set (au_is_active p))]%string.
Definition workflow_fields (p : WorkflowUpdate) : list pystr :=
  set_fields [("name", is_set (wu_name p)); ("description", is_set (wu_description p)); ("preset", is_set (wu_preset p));
    ("graph", is_set (wu_graph p)); ("is_active", is_set (wu_is_active p))]%string.

(** A [null] in a column that is [NOT NULL]; [tools] is JSON, where [None] is a value. *)
Definition agent_nulls (p : AgentUpdate) : bool :=
  is_null (au_name p) || is_null (au_role p) || is_null (au_system_prompt p) || is_null (au_model p)
  || is_null (au_effort p) || is_null (au_max_tokens p) || is_null (au_is_active p).
Definition workflow_nulls (p : WorkflowUpdate) : bool :=
  is_null (wu_name p) || is_null (wu_description p) || is_null (wu_is_active p).

(** ** Handlers *)

Section team.
Context `{ApiEnv}.
Abbreviation Api A := (M ApiWorld exn A).

Definition audit_team (action kind : pystr) (rq : Request) (c : OrgContext) (target : pystr)
    (detail : list (pystr * pyval)) : Api unit :=
  on_sql (audit_record (audit_row action (Some (oc_org_id c)) (Some (us_id (oc_user c))) (Some kind)
                          (Some target) (client_ip rq) None detail)).

(** [_get_owned] of agents.py *)
Definition owned_agent (org_id agent_id : pystr) : Api AgentRow :=
  o ← on_sql (query (find_agent agent_id));
  match o with
  | Some a => if bool_decide (ar_org_id a = org_id) then m_ret a else http_error 404 (u "agent not found")
  | None => http_error 404 (u "agent not found")
  end.

Definition create_agent (payload : AgentCreate) (rq : Request) (c : OrgContext) : Api AgentRow :=
  id ← secret;
  let row := new_agent id (oc_org_id c) (us_id (oc_user c)) payload in
  _ ← on_sql (insert (λ _, true) (λ d, set_agents (db_agents d ++ [row]) d));
  _ ← audit_team (u "agent.created") (u "agent") rq c id
        [(u "name", VStr (an_name payload)); (u "model", VStr (an_model payload))];
  m_ret row.

(** Rows in the order they were created: the order of the table *)
Definition list_agents (include_inactive : bool) (c : OrgContext) : Api (list AgentRow) :=
  on_sql (query (λ d, List.filter (λ a, bool_decide (ar_org_id a = oc_org_id c) && (include_inactive || ar_is_active a))
                        (db_agents d))).

Definition get_agent (agent_id : pystr) (c : OrgContext) : Api AgentRow := owned_agent (oc_org_id c) agent_id.

(** The answer to a body whose [tools] is [null] cannot be serialised. *)
Definition update_agent (agent_id : pystr) (payload : AgentUpdate) (rq : Request) (c : OrgContext) : Api AgentRow :=
  agent ← owned_agent (oc_org_id c) agent_id;
  _ ← on_sql (flush_changes (agent_nulls payload) (update_agent_row agent_id (patch_agent payload)));
  _ ← audit_team (u "agent.updated") (u "agent") rq c agent_id
        [(u "fields", VList (map VStr (agent_fields payload)))];
  if is_null (au_tools payload) then raise (ExternalError (u "ResponseValidationError") [])
  else m_ret (patch_agent payload agent).

Definition deactivate_agent (agent_id : pystr) (rq : Request) (c : OrgContext) : Api unit :=
  _ ← owned_agent (oc_org_id c) agent_id;
  _ ← on_sql (change (update_agent_row agent_id retire_agent));
  audit_team (u "agent.deleted") (u "agent") rq c agent_id [].

(** *** Workflows *)

(** The active agents of an organisation, by id *)
Definition active_ids (org_id : pystr) (d : Db) : list pystr :=
  map (λ a, ag_id (ar_spec a)) (List.filter (λ a, bool_decide (ar_org_id a = org_id) && ar_is_active a) (db_agents d)).

(** [_validate]: a reference that is no string matches no row, and cannot be named in
    the message either. *)
Definition validate_references (org_id preset : pystr) (graph : Graph) : Api unit :=
  referenced ← validate_or_422 preset graph;
  match referenced with
  | [] => m_ret tt
  | _ =>
      referenced ← lift_res (res_mapM hashed referenced);
      known ← on_sql (query (active_ids org_id));
      let missing := List.filter (λ v, match v with VStr s => negb (bool_decide (s ∈ known)) | _ => true end) referenced in
      match missing with
      | [] => m_ret tt
      | _ =>
          match mapM (λ v, match v with VStr s => Some s | _ => None end) missing with
          | Some names =>
              http_error 422 (u "graph references unknown or inactive agents: "
                                ++ join (u ", ") (sorted_strs (fromkeys [] names)))
          | None => raise (TypeError (u "sequence item: expected str instance"))
          end
      end
  end.

(** [_get_owned] of workflows.py *)
Definition owned_workflow (org_id workflow_id : pystr) : Api WorkflowRow :=
  o ← on_sql (query (find_workflow workflow_id));
  match o with
  | Some w => if bool_decide (wf_org_id w = org_id) then m_ret w else http_error 404 (u "workflow not found")
  | None => http_error 404 (u "workflow not found")
  end.

Definition create_workflow (payload : WorkflowCreate) (rq : Request) (c : OrgContext) : Api WorkflowRow :=
  _ ← validate_references (oc_org_id c) (wc_preset payload) (wc_graph payload);
  id ← secret;
  let row := new_workflow id (oc_org_id c) (us_id (oc_user c)) payload in
  _ ← on_sql (insert (λ _, true) (λ d, set_workflows (db_workflows d ++ [row]) d));
  _ ← audit_team (u "workflow.created") (u "workflow") rq c id [(u "preset", VStr (wc_preset payload))];
  m_ret row.

Definition list_workflows (include_inactive : bool) (c : OrgContext) : Api (list WorkflowRow) :=
  on_sql (query (λ d, List.filter (λ w, bool_decide (wf_org_id w = oc_org_id c) && (include_inactive || wf_is_active w))
                        (db_workflows d))).

Definition get_workflow (workflow_id : pystr) (c : OrgContext) : Api WorkflowRow := owned_workflow (oc_org_id c) workflow_id.

(** [_validate] of what the row would be: a preset that is [null] is none of the
    presets, a graph that is [null] has no [get]. *)
Definition validate_update (org_id : pystr) (payload : WorkflowUpdate) (workflow : WorkflowRow) : Api unit :=
  if is_set (wu_preset payload) || is_set (wu_graph payload) then
    match wu_preset payload, wu_graph payload with
    | Null, _ => http_error 422 (u "unknown preset None; available presets: " ++ join (u ", ") PRESET_NAMES)
    | _, Null => raise (AttributeError (u "'NoneType' object has no attribute 'get'"))
    | preset, graph => validate_references org_id (patched preset (wf_preset workflow)) (patched graph (wf_graph workflow))
    end
  else m_ret tt.

Definition update_workflow (workflow_id : pystr) (payload : WorkflowUpdate) (rq : Request) (c : OrgContext) : Api WorkflowRow :=
  workflow ← owned_workflow (oc_org_id c) workflow_id;
  _ ← validate_update (oc_org_id c) payload workflow;
  _ ← on_sql (flush_changes (workflow_nulls payload) (update_workflow_row workflow_id (patch_workflow payload)));
  _ ← audit_team (u "workflow.updated") (u "workflow") rq c workflow_id
        [(u "fields", VList (map VStr (workflow_fields payload)))];
  m_ret (patch_workflow payload workflow).

Definition deactivate_workflow (workflow_id : pystr) (c : OrgContext) : Api unit :=
  _ ← owned_workflow (oc_org_id c) workflow_id;
  on_sql (change (update_workflow_row workflow_id retire_workflow)).

(** ** Routes *)

(** The body is checked once the caller is known to be allowed. *)
Definition with_body {B A} (check : B → res exn B) (body : B) (handler : B → OrgContext → Api A) (c : OrgContext) : Api A :=
  payload ← lift_res (check body); handler payload c.

Definition create_agent_route rq org_id body : Api AgentRow :=
  org_route (Some (u "member")) rq org_id (with_body check_agent_create body (λ p, create_agent p rq)).
Definition list_agents_route rq org_id all : Api (list AgentRow) := org_route None rq org_id (list_agents all).
Definition get_agent_route rq org_id id : Api AgentRow := org_route None rq org_id (get_agent id).
Definition update_agent_route rq org_id id body : Api AgentRow :=
  org_route (Some (u "member")) rq org_id (with_body check_agent_update body (λ p, update_agent id p rq)).
Definition deactivate_agent_route rq org_id id : Api unit :=
  org_route (Some (u "admin")) rq org_id (deactivate_agent id rq).
Definition create_workflow_route rq org_id body : Api WorkflowRow :=
  org_route (Some (u "member")) rq org_id (with_body check_workflow_create body (λ p, create_workflow p rq)).
Definition list_workflows_route rq org_id all : Api (list WorkflowRow) := org_route None rq org_id (list_workflows all).
Definition get_workflow_route rq org_id id : Api WorkflowRow := org_route None rq org_id (get_workflow id).
Definition update_workflow_route rq org_id id body : Api WorkflowRow :=
  org_route (Some (u "member")) rq org_id (with_body check_workflow_update body (λ p, update_workflow id p rq)).
Definition deactivate_workflow_route rq org_id id : Api unit :=
  org_route (Some (u "admin")) rq org_id (deactivate_workflow id).
End team.
