(* ===== verification/TeamSafety.v ===== *)
(** * What an organisation saves can be run

    Whatever is asked of the routes of agents and workflows: the agents in the
    tables have a known model and known tools; a saved workflow references agents a
    run will find; and a request touches the rows of its own organisation only. *)

From S2P Require Import Prelude PyStr PyFloat PyVal Config State Budget Registry Providers Pricing Keys Events.
From S2P Require Import World ToolBase ToolArtifacts ToolRegistry Web Workflow Database Auditing Security RateLimit.
From S2P Require Import Billing BillingSafety Runner Api ApiSafety Auth Orgs RunsApi Team.

(** A check that has succeeded, field by field *)
Ltac res_steps Hok :=
  unfold mbind, res_bind in Hok;
  repeat match type of Hok with
  | context [match ?m with Ok _ => _ | Err _ => _ end] => let Hm := fresh "Hm" in destruct m eqn:Hm; [|discriminate Hok]
  end; injection Hok as <-.

(** The names the schemas accept are those of the registry. *)
Lemma tool_names_known {X} `{Env} `{WebEnv} :
  @known_names X env_tables WebFetch WebSearch = tool_names.
Proof. reflexivity. Qed.

(** ** The documented presets *)

(** What a validator requires is there in a graph it accepts. *)
Lemma requires_key `{PyTables} {A} graph key (k : pyval → res exn A) a :
  mbind k (require_key graph key) = Ok a → is_missing (dict_get graph (u key)) = false ∧ ∃ v, k v = Ok a.
Proof. unfold require_key, mbind, res_bind. destruct (is_missing _); [done|]. eauto. Qed.

(** The catalogue is true: it lists the presets there are, and a graph that has nothing
    under a key it calls required is not valid. *)
Theorem documented_keys_required `{PyTables} :
  map pi_name list_presets = PRESET_NAMES ∧
  ∀ info key graph ids, info ∈ list_presets → key ∈ pi_required_keys info →
    validate_graph (pi_name info) graph = Ok ids → is_missing (dict_get graph key) = false.
Proof.
  split; [reflexivity|]. intros info key graph ids Hi Hk Hv. unfold validate_graph in Hv.
  destruct (assoc (pi_name info) VALIDATORS) as [validate|] eqn:Ha; [|done].
  assert (Hg : ∃ l, validate graph = Ok l) by (unfold mbind, res_bind in Hv; destruct (validate graph); eauto; done).
  destruct Hg as [l Hg]. clear Hv.
  unfold list_presets, PRESET_DOCS in Hi. rewrite !elem_of_cons, elem_of_nil in Hi.
  destruct Hi as [->|[->|[->|[->|[->|[->|[]]]]]]]; cbn [pi_name pi_required_keys] in *;
    simpl in Ha; injection Ha as <-.
  all: unfold validate_pipeline, validate_supervisor, validate_debate, validate_blackboard, validate_swarm, validate_custom in Hg.
  all: repeat (apply requires_key in Hg as [? [? Hg]]).
  all: rewrite !elem_of_cons, elem_of_nil in Hk; repeat destruct Hk as [->|Hk]; done.
Qed.

(** ** Requests that change something *)

Inductive TeamRequest :=
| CreateAgent (body : AgentCreate) | UpdateAgent (id : pystr) (body : AgentUpdate) | DeactivateAgent (id : pystr)
| CreateWorkflow (body : WorkflowCreate) | UpdateWorkflow (id : pystr) (body : WorkflowUpdate)
| DeactivateWorkflow (id : pystr).

(** Every key given to [dict] is a key of the result. *)
Lemma elem_assoc_of_list {V} k (l : list (pystr * V)) : k ∈ l.*1 → k ∈ (assoc_of_list l).*1.
Proof.
  unfold assoc_of_list. intros Hk.
  assert (Hgen : ∀ (l' : list (pystr * V)) d, k ∈ d.*1 ∨ k ∈ l'.*1 → k ∈ (fold_left (λ d kv, assoc_set kv.1 kv.2 d) l' d).*1).
  { intros l'. induction l' as [|[k' v'] l' IH]; csimpl; [by intros d [|Hn%elem_of_nil]|].
    intros d Hd. apply IH. rewrite assoc_set_keys. rewrite elem_of_cons in Hd. destruct Hd as [Hd|[->|Hd]]; [left|left|by right].
    - case_decide; [done|]. apply elem_of_app. by left.
    - case_decide; [done|]. apply elem_of_app. right. by apply list_elem_of_singleton. }
  apply Hgen. by right.
Qed.

Lemma load_active org d s : s ∈ active_ids org d → ∃ a, assoc s (load_agents org d) = Some a.
Proof.
  unfold active_ids, load_agents. intros Hs.
  match goal with |- context [assoc_of_list ?l] => assert (Hk : PyVal.has_key (assoc_of_list l) s = true) end.
  { apply has_key_elem, elem_assoc_of_list. change (@fmap list _ _ _) with (@map (pystr * AgentSpec) pystr). by rewrite map_map. }
  unfold PyVal.has_key in Hk. destruct (assoc s _) as [a|]; [by exists a|done].
Qed.

(** What a run of the workflow needs of the agents of its organisation *)
Definition loads `{PyTables} (org : pystr) (d : Db) (preset : pystr) (graph : Graph) : Prop :=
  ∃ ids, validate_graph preset graph = Ok ids ∧
    ∀ id what, id ∈ ids → ∃ a, lookup_agent (load_agents org d) id what = Ok a.

(** What saving a workflow leaves *)
Definition saved `{PyTables} (org : pystr) (wf : WorkflowRow) (d : Db) : Prop :=
  wf ∈ db_workflows d ∧ wf_org_id wf = org ∧ loads org d (wf_preset wf) (wf_graph wf).

Lemma loads_same `{PyTables} org d d' preset graph : db_agents d' = db_agents d → loads org d preset graph → loads org d' preset graph.
Proof. intros Hd (ids & Hv & Hl). exists ids. split; [done|]. unfold load_agents. by rewrite Hd. Qed.

Section team.
Context `{ApiEnv}.
Abbreviation Api A := (M ApiWorld exn A).

Definition team_route (rq : Request) (org : pystr) (q : TeamRequest) : Api unit :=
  match q with
  | CreateAgent body => _ ← create_agent_route rq org body; m_ret tt
  | UpdateAgent id body => _ ← update_agent_route rq org id body; m_ret tt
  | DeactivateAgent id => deactivate_agent_route rq org id
  | CreateWorkflow body => _ ← create_workflow_route rq org body; m_ret tt
  | UpdateWorkflow id body => _ ← update_workflow_route rq org id body; m_ret tt
  | DeactivateWorkflow id => deactivate_workflow_route rq org id
  end.

(** ** Agents a run can use *)

Record usable_spec (a : AgentSpec) : Prop := {
  us_model : is_ok (get_spec (ag_model a)) = true;
  us_effort : ag_effort a ∈ EFFORT_LEVELS;
  us_tokens : 256 ≤ ag_max_tokens a ≤ 128000;
  us_tools v : v ∈ ag_tools a → ∃ name, v = VStr name ∧ name ∈ tool_names }.
Definition all_usable (d : Db) : Prop := ∀ a, a ∈ db_agents d → usable_spec (ar_spec a).

Lemma fromkeys_in seen l x : x ∈ fromkeys seen l → x ∈ l.
Proof.
  revert seen. induction l as [|y l IH]; intros seen; simpl; [done|].
  case_bool_decide; [intros Hx; right; by eapply IH|].
  rewrite elem_of_cons. intros [->|Hx]; [by left|right; by eapply IH].
Qed.
Lemma fromkeys_nil seen l : fromkeys seen l = [] → ∀ x, x ∈ l → x ∈ seen.
Proof.
  revert seen. induction l as [|y l IH]; intros seen; simpl; [intros _ x Hx; by apply elem_of_nil in Hx|].
  case_bool_decide; [|done]. intros Hn x [->|Hx]%elem_of_cons; [done|]. by eapply IH.
Qed.

Lemma known_tools_ok l l' : known_tools l = Ok l' → ∀ x, x ∈ l' → x ∈ tool_names.
Proof.
  unfold known_tools. destruct (sorted_strs _) eqn:Hs; [|done]. intros [= <-] x Hx%fromkeys_in.
  assert (Hn : fromkeys [] (List.filter (λ t, negb (bool_decide (t ∈ tool_names))) l) = []).
  { apply Permutation_nil. etrans; [|apply (merge_sort_Permutation str_le)]. unfold sorted_strs in Hs. by rewrite Hs. }
  destruct (decide (x ∈ tool_names)) as [|Hno]; [done|].
  enough (Hnil : x ∈ ([] : list pystr)) by by apply elem_of_nil in Hnil. apply (fromkeys_nil [] _ Hn x).
  apply list_elem_of_In, List.filter_In. split; [by apply list_elem_of_In|]. by rewrite bool_decide_eq_false_2.
Qed.

Lemma bounded_tools_ok l l' : bounded_tools l = Ok l' → ∀ x, x ∈ l' → x ∈ tool_names.
Proof.
  unfold bounded_tools, validated. destruct (_ <=? 16); [|done].
  destruct (known_tools l) as [k|[]] eqn:Hk; try done. intros [= <-]. by eapply known_tools_ok.
Qed.
Lemma known_model_ok m m' : known_model m = Ok m' → is_ok (get_spec m') = true.
Proof. unfold known_model. destruct (get_spec m) eqn:Hm; [|done]. intros [= <-]. by rewrite Hm. Qed.
Lemma known_effort_ok e e' : validated (known_effort e) = Ok e' → e' ∈ EFFORT_LEVELS.
Proof. unfold known_effort, validated. case_bool_decide; [by intros [= <-]|done]. Qed.
Lemma bounded_tokens_ok n n' : bounded_tokens n = Ok n' → 256 ≤ n' ≤ 128000.
Proof.
  unfold bounded_tokens. destruct (Z.leb_spec 256 n), (Z.leb_spec n 128000); try done. intros [= <-]. lia.
Qed.

Lemma on_patch_ok {A} (f : A → res exn A) (P : A → Prop) p p' old :
  (∀ a a', f a = Ok a' → P a') → on_patch f p = Ok p' → P old → P (patched p' old).
Proof.
  intros Hf Hp Ho. destruct p as [| |a]; simpl in Hp; [by injection Hp as <-..|].
  destruct (f a) as [a'|] eqn:Ha; [|done]. injection Hp as <-. by eapply Hf.
Qed.

Lemma on_patch_tools p p' :
  on_patch bounded_tools p = Ok p' → match p' with Value l => ∀ x, x ∈ l → x ∈ tool_names | _ => True end.
Proof.
  destruct p as [| |l]; simpl; [by intros [= <-]..|]. destruct (bounded_tools l) as [l'|] eqn:Hb; [|done].
  intros [= <-]. by eapply bounded_tools_ok.
Qed.

Lemma created_usable p p' id org_id by_ : check_agent_create p = Ok p' → usable_spec (ar_spec (new_agent id org_id by_ p')).
Proof.
  unfold check_agent_create. intros Hok. res_steps Hok. split; cbn.
  - by eapply known_model_ok.
  - by eapply known_effort_ok.
  - by eapply bounded_tokens_ok.
  - intros v (name & -> & Hin)%list_elem_of_fmap. exists name. split; [done|]. by eapply bounded_tools_ok.
Qed.

Lemma updated_usable p p' a : check_agent_update p = Ok p' → usable_spec a → usable_spec (patch_spec p' a).
Proof.
  unfold check_agent_update. intros Hok [U1 U2 U3 U4]. res_steps Hok. split; cbn.
  - eapply (on_patch_ok known_model (λ m, is_ok (get_spec m) = true)); [apply known_model_ok|done|done].
  - eapply (on_patch_ok _ (λ e, e ∈ EFFORT_LEVELS)); [apply known_effort_ok|done|done].
  - eapply (on_patch_ok _ (λ n, 256 ≤ n ≤ 128000)); [apply bounded_tokens_ok|done|done].
  - match goal with Hx : on_patch bounded_tools _ = Ok ?t |- _ => apply on_patch_tools in Hx; destruct t; first [exact U4|by intros v ?%elem_of_nil|idtac] end.
    intros v (name & -> & Hin)%list_elem_of_fmap. eauto.
Qed.

(** Usable agents stay so. *)
Definition usable_kept (d d' : Db) : Prop := all_usable d → all_usable d'.
#[local] Instance usable_kept_preorder : PreOrder usable_kept.
Proof. unfold usable_kept. split; [by intros d Hd|]. intros d1 d2 d3 H1 H2 Hd. by apply H2, H1. Qed.

Lemma usable_same d d' : db_agents d' = db_agents d → usable_kept d d'.
Proof. unfold usable_kept, all_usable. by intros ->. Qed.
Lemma usable_updated id f d : (∀ a, usable_spec (ar_spec a) → usable_spec (ar_spec (f a))) →
  usable_kept d (update_agent_row id f d).
Proof.
  intros Hf Hd a. unfold update_agent_row. cbn. intros (x & -> & Hx)%list_elem_of_fmap.
  destruct (bool_decide _); [apply Hf|]; by apply Hd.
Qed.
Lemma usable_added row d : usable_spec (ar_spec row) → usable_kept d (set_agents (db_agents d ++ [row]) d).
Proof. intros Hr Hd a. cbn. rewrite elem_of_app, list_elem_of_singleton. intros [Ha| ->]; [by apply Hd|done]. Qed.

Ltac team_step :=
  lazymatch goal with
  | |- steps _ (owned_agent _ _) => unfold owned_agent
  | |- steps _ (owned_workflow _ _) => unfold owned_workflow
  | |- steps _ (validate_references _ _ _) => unfold validate_references, validate_or_422
  | |- steps _ (validate_update _ _ _) => unfold validate_update
  | |- steps _ (flush_changes _ _) => unfold flush_changes
  | |- steps _ (audit_team _ _ _ _ _ _) => unfold audit_team, audit_record
  | _ => framed_step
  end.

(** A body is checked before the handler sees it. *)
Lemma with_body_framed {RS : relation Session} `{!PreOrder RS} {B A} (check : B → res exn B) body (handler : B → OrgContext → Api A) c :
  (∀ p, check body = Ok p → steps (framed RS) (handler p c)) → steps (framed RS) (with_body check body handler c).
Proof.
  intros Hh w. unfold with_body, lift_res, mbind, M_bind, m_bind.
  destruct (check body) as [p|e] eqn:Hc; [by apply Hh|]. done.
Qed.

(** Every request is within a relation each of its writes is within. *)
Section writes.
Context {RS : relation Session} {P : (Db → Db) → Prop} `{!SessionFrame RS P}.
Context (Haudit : ∀ row, P (λ d, set_audit (db_audit d ++ [row]) d)).
Context (Hflow : ∀ body body' id org by_, check_workflow_create body = Ok body' →
  P (λ d, set_workflows (db_workflows d ++ [new_workflow id org by_ body']) d)).
Context (Hflows : ∀ body body' id, check_workflow_update body = Ok body' → P (update_workflow_row id (patch_workflow body'))).
Context (Hclose : ∀ id, P (update_workflow_row id retire_workflow)).
Context (Hadd : ∀ body body' id org by_, check_agent_create body = Ok body' →
  P (λ d, set_agents (db_agents d ++ [new_agent id org by_ body']) d)).
Context (Hpatch : ∀ body body' id, check_agent_update body = Ok body' → P (update_agent_row id (patch_agent body'))).
Context (Hretire : ∀ id, P (update_agent_row id retire_agent)).

Lemma team_route_framed rq org q : steps (framed RS) (team_route rq org q).
Proof.
  destruct q as [body|id body|id|body|id body|id]; cbn [team_route];
    unfold create_agent_route, update_agent_route, deactivate_agent_route, create_workflow_route,
      update_workflow_route, deactivate_workflow_route;
    try (apply steps_bind; [tc_solve| |intros _; apply steps_ret; tc_solve]); apply org_route_framed; intros c;
    try (apply with_body_framed; intros p Hp);
    unfold create_agent, update_agent, deactivate_agent, create_workflow, update_workflow, deactivate_workflow;
    repeat team_step; eauto.
Qed.
End writes.

(** C28: the agents an organisation has saved can be run: whatever is created and updated,
    by whom and however it ends, every agent in the tables has a model the registry
    knows, an effort of the scale, a token limit in range and tools that exist; so do
    the agents a run loads. *)
Theorem agents_stay_usable rq org q sv r sv' ck :
  all_usable (sv_db sv) → serve (team_route rq org q) sv = (r, sv', ck) →
  all_usable (sv_db sv') ∧ ∀ o id a, assoc id (load_agents o (sv_db sv')) = Some a → usable_spec a.
Proof.
  intros Hu Heq.
  assert (Hk : usable_kept (sv_db sv) (sv_db sv')).
  { eapply (serve_tracked usable_kept); [|exact Heq]. apply team_route_framed.
    - intros row d. by apply usable_same.
    - intros body body' id o by_ _ d. by apply usable_same.
    - intros body body' id _ d. by apply usable_same.
    - intros id d. by apply usable_same.
    - intros body body' id o by_ Hb d. apply usable_added. by eapply created_usable.
    - intros body body' id Hb d. apply usable_updated. intros a. by apply (updated_usable body).
    - intros id d. by apply usable_updated. }
  split; [by apply Hk|]. intros o id a Ha. specialize (Hk Hu).
  assert (Hf : Forall (λ kv, usable_spec kv.2) (load_agents o (sv_db sv'))).
  { apply Forall_assoc_of_list, Forall_map, Forall_forall. intros x Hx. simpl. apply Hk.
    apply list_elem_of_In in Hx. apply List.filter_In in Hx as [Hx _]. by apply list_elem_of_In. }
  apply assoc_Some_elem in Ha. rewrite Forall_forall in Hf. exact (Hf _ Ha).
Qed.

(** ** Workflows whose agents are there *)

Lemma hashed_all ids ids' : res_mapM hashed ids = Ok ids' → ids' = ids ∧ Forall (λ v, hashable v = true) ids.
Proof.
  intros Hm%res_mapM_Forall2. induction Hm as [|v v' l l' Hv Hl [-> IH]]; [done|].
  unfold hashed in Hv. destruct (hashable v) eqn:Hh; [|done]. injection Hv as <-. auto.
Qed.

Lemma references_bind {B} org preset graph (k : unit → Api B) Q (X : exn → ApiWorld → Prop) w :
  (∀ e w', X e w') → (∀ w', reads w w' → loads org (tables w) preset graph → wp (k tt) Q X w') →
  wp (mbind k (validate_references org preset graph)) Q X w.
Proof.
  intros HX Hk. apply wp_bind. unfold validate_references, validate_or_422. apply wp_bind.
  destruct (validate_graph preset graph) as [ids|e] eqn:Hv; [|destruct e; apply HX].
  apply wp_ret. destruct ids as [|i0 l0] eqn:Hids.
  { apply wp_ret. apply Hk; [done|]. exists []. split; [done|]. intros id what Hid. by apply elem_of_nil in Hid. }
  rewrite <-Hids in *. clear Hids i0 l0. apply wp_bind. unfold lift_res, wp at 1.
  destruct (res_mapM hashed ids) as [ids'|] eqn:Hh; [|apply HX]. apply hashed_all in Hh as [-> Hh].
  apply query_bind; [done|]. intros w' R. cbv zeta.
  match goal with |- context [match ?l with [] => _ | _ => _ end] => destruct l as [|v0 vs] eqn:Hm end.
  2:{ destruct (mapM _ _); apply HX. }
  apply wp_ret. apply Hk; [done|]. exists ids. split; [done|]. intros id what Hid.
  destruct (List.filter_In (λ v, match v with VStr s => negb (bool_decide (s ∈ active_ids org (tables w))) | _ => true end) id ids)
    as [_ Hin]. rewrite Hm in Hin.
  assert (Hno : ∀ b, (match id with VStr s => negb (bool_decide (s ∈ active_ids org (tables w))) | _ => true end) = b → b = false).
  { intros [] Hb; [|done]. destruct Hin. split; [by apply list_elem_of_In|done]. }
  destruct id as [| | | |s| |]; try (by specialize (Hno _ eq_refl)).
  specialize (Hno _ eq_refl). apply negb_false_iff, bool_decide_eq_true in Hno.
  destruct (load_active _ _ _ Hno) as [a Ha]. exists a. unfold lookup_agent, hashed. simpl. by rewrite Ha.
Qed.

Lemma create_workflow_wp body rq c w :
  wp (create_workflow body rq c) (λ wf w', saved (oc_org_id c) wf (tables w')) (λ _ _, True) w.
Proof.
  unfold create_workflow. apply references_bind; [done|]. intros w1 (T1 & _) Hl. apply wp_bind. unfold secret, wp at 1.
  cbv zeta. apply insert_bind; [done|]. intros w2 _ T2 _ _. apply wp_bind. unfold wp at 1, audit_team. cbn.
  change (tables (next_tick w1)) with (tables w1) in T2. rewrite T1 in T2.
  unfold saved, tables. cbn. change (ss_working (ap_session w2)) with (tables w2). rewrite T2. split_and!; [|done|exact Hl].
  cbn. rewrite elem_of_app, list_elem_of_singleton. by right.
Qed.

Lemma owned_workflow_bind {B} org id (k : WorkflowRow → Api B) Q (X : exn → ApiWorld → Prop) w :
  (∀ e w', X e w') →
  (∀ wf w', reads w w' → find_workflow id (tables w) = Some wf → wf_org_id wf = org → wp (k wf) Q X w') →
  wp (mbind k (owned_workflow org id)) Q X w.
Proof.
  intros HX Hk. apply wp_bind. unfold owned_workflow. apply query_bind; [done|]. intros w' R.
  destruct (find_workflow id (tables w)) as [wf|] eqn:Hf; [|apply HX].
  case_bool_decide as Ho; [|apply HX]. apply wp_ret. by apply Hk.
Qed.

Lemma update_workflow_wp id body rq c w :
  is_set (wu_preset body) || is_set (wu_graph body) = true →
  wp (update_workflow id body rq c) (λ wf w', saved (oc_org_id c) wf (tables w')) (λ _ _, True) w.
Proof.
  intros Hset. unfold update_workflow. apply owned_workflow_bind; [done|]. intros wf w1 (T1 & _) Hf Ho.
  unfold validate_update. rewrite Hset.
  enough (Hrest : ∀ w2, tables w2 = tables w → loads (oc_org_id c) (tables w) (wf_preset (patch_workflow body wf))
                    (wf_graph (patch_workflow body wf)) →
    wp (_ ← on_sql (flush_changes (workflow_nulls body) (update_workflow_row id (patch_workflow body)));
        _ ← audit_team (u "workflow.updated") (u "workflow") rq c id [(u "fields", VList (map VStr (workflow_fields body)))];
        m_ret (patch_workflow body wf)) (λ wf' w', saved (oc_org_id c) wf' (tables w')) (λ _ _, True) w2).
  { destruct (wu_preset body) as [| |p] eqn:Hp; [destruct (wu_graph body) as [| |g] eqn:Hg; [done|by apply wp_bind|]
      |by apply wp_bind|destruct (wu_graph body) as [| |g] eqn:Hg; [|by apply wp_bind|]];
    (apply references_bind; [done|]; intros w2 (T2 & _) Hl; apply Hrest; [congruence|]; rewrite T1 in Hl;
     unfold patch_workflow; cbn; rewrite ?Hp, ?Hg; exact Hl). }
  intros w2 T2 Hl. unfold flush_changes. apply insert_bind; [done|]. intros w3 _ T3 _ _.
  apply wp_bind. unfold wp at 1, audit_team. cbn. unfold saved, tables. cbn.
  change (ss_working (ap_session w3)) with (tables w3). rewrite T3, T2. split_and!; [|exact Ho|by eapply loads_same].
  cbn. apply List.find_some in Hf as [Hin%list_elem_of_In Hid%bool_decide_eq_true].
  apply list_elem_of_fmap. exists wf. rewrite bool_decide_eq_true_2 by done. done.
Qed.

(** C29: a workflow that has just been saved can start: when a workflow was created, or its
    preset or graph changed, it is in the tables, its graph is valid, and every agent the
    graph references is among those a run of the organisation loads. *)
Theorem saved_workflow_loads rq org sv wf sv' ck :
  (∃ body, serve (create_workflow_route rq org body) sv = (Ok wf, sv', ck)) ∨
  (∃ id body, is_set (wu_preset body) || is_set (wu_graph body) = true ∧
     serve (update_workflow_route rq org id body) sv = (Ok wf, sv', ck)) →
  saved org wf (sv_db sv').
Proof.
  intros [[body Heq]|(id & body & Hset & Heq)].
  - unfold create_workflow_route in Heq.
    apply (route_org _ _ _ _ _ _ _ _ (λ wf s, saved org wf (sv_db s))) in Heq as [_ Heq]; [exact Heq|]. intros c w _ <- _.
    unfold with_body. apply wp_bind. unfold lift_res, wp at 1. destruct (check_workflow_create body) as [p|]; [|exact I].
    apply create_workflow_wp.
  - unfold update_workflow_route in Heq.
    apply (route_org _ _ _ _ _ _ _ _ (λ wf s, saved org wf (sv_db s))) in Heq as [_ Heq]; [exact Heq|]. intros c w _ <- _.
    unfold with_body. apply wp_bind. unfold lift_res, wp at 1. destruct (check_workflow_update body) as [p|] eqn:Hp; [|exact I].
    apply update_workflow_wp. revert Hset Hp. unfold check_workflow_update, mbind, res_bind. intros Hset Hp.
    destruct (on_patch _ (wu_name body)); [|done]. destruct (on_patch _ (wu_description body)); [|done].
    destruct (on_patch _ (wu_preset body)) as [q|] eqn:Hq; [|done]. injection Hp as <-. cbn.
    replace (is_set q) with (is_set (wu_preset body)); [done|]. destruct (wu_preset body) as [| |x]; simpl in Hq;
      [by injection Hq as <-..|]. unfold mbind, res_bind in Hq. destruct (validated _); [|done]. by injection Hq as <-.
Qed.

(** ** The rows of the others *)

(** The agents and the workflows of all organisations but one *)
Definition foreign (org : pystr) (d : Db) : list AgentRow * list WorkflowRow :=
  (List.filter (λ a, negb (bool_decide (ar_org_id a = org))) (db_agents d),
   List.filter (λ f, negb (bool_decide (wf_org_id f = org))) (db_workflows d)).
(** The primary keys *)
Definition keyed (d : Db) : Prop :=
  NoDup (map (λ a, ag_id (ar_spec a)) (db_agents d)) ∧ NoDup (map wf_id (db_workflows d)).

(** Changing rows that the filter leaves out, into rows that it leaves out. *)
Lemma filter_out_map {A} (keep changed : A → bool) (f : A → A) l :
  (∀ x, x ∈ l → changed x = true → keep x = false ∧ keep (f x) = false) →
  List.filter keep (map (λ x, if changed x then f x else x) l) = List.filter keep l.
Proof.
  induction l as [|x l IH]; simpl; intros Hl; [done|].
  rewrite IH by (intros y Hy; apply Hl; by right).
  destruct (changed x) eqn:Hc; [|done]. destruct (Hl x) as [-> ->]; [by left|done|done].
Qed.

Lemma filter_out_last {A} (keep : A → bool) l x : keep x = false → List.filter keep (l ++ [x]) = List.filter keep l.
Proof. intros Hx. rewrite List.filter_app. simpl. rewrite Hx. by rewrite app_nil_r. Qed.

Lemma foreign_new_agent org row d : ar_org_id row = org → foreign org (set_agents (db_agents d ++ [row]) d) = foreign org d.
Proof. intros Ho. unfold foreign. cbn. rewrite filter_out_last; [done|]. by rewrite bool_decide_eq_true_2. Qed.
Lemma foreign_new_workflow org row d :
  wf_org_id row = org → foreign org (set_workflows (db_workflows d ++ [row]) d) = foreign org d.
Proof. intros Ho. unfold foreign. cbn. rewrite (filter_out_last _ (db_workflows d)); [done|]. by rewrite bool_decide_eq_true_2. Qed.

Lemma foreign_agent org id f a d :
  keyed d → find_agent id d = Some a → ar_org_id a = org → (∀ x, ar_org_id (f x) = ar_org_id x) →
  foreign org (update_agent_row id f d) = foreign org d.
Proof.
  intros [Hk _] [Ha Hid]%List.find_some Ho Hf. apply bool_decide_eq_true in Hid. apply list_elem_of_In in Ha.
  unfold foreign. cbn. rewrite filter_out_map; [done|]. intros x Hx Hc%bool_decide_eq_true.
  assert (x = a) as -> by (apply (NoDup_map_eq _ _ _ _ Hk); [done|done|simpl; congruence]).
  rewrite Hf, Ho. by rewrite bool_decide_eq_true_2.
Qed.
Lemma foreign_workflow org id f a d :
  keyed d → find_workflow id d = Some a → wf_org_id a = org → (∀ x, wf_org_id (f x) = wf_org_id x) →
  foreign org (update_workflow_row id f d) = foreign org d.
Proof.
  intros [_ Hk] [Ha Hid]%List.find_some Ho Hf. apply bool_decide_eq_true in Hid. apply list_elem_of_In in Ha.
  unfold foreign. cbn. rewrite (filter_out_map (λ f, negb (bool_decide (wf_org_id f = org)))); [done|].
  intros x Hx Hc%bool_decide_eq_true.
  assert (x = a) as -> by (apply (NoDup_map_eq _ _ _ _ Hk); [done|done|simpl; congruence]).
  rewrite Hf, Ho. by rewrite bool_decide_eq_true_2.
Qed.

Lemma owned_agent_bind {B} org id (k : AgentRow → Api B) Q (X : exn → ApiWorld → Prop) w :
  (∀ e w', X e w') →
  (∀ a w', reads w w' → find_agent id (tables w) = Some a → ar_org_id a = org → wp (k a) Q X w') →
  wp (mbind k (owned_agent org id)) Q X w.
Proof.
  intros HX Hk. apply wp_bind. unfold owned_agent. apply query_bind; [done|]. intros w' R.
  destruct (find_agent id (tables w)) as [a|] eqn:Hf; [|apply HX].
  case_bool_decide as Ho; [|apply HX]. apply wp_ret. by apply Hk.
Qed.

Lemma validated_reads org body wf w :
  wp (validate_update org body wf) (λ _ w', tables w' = tables w) (λ _ _, True) w.
Proof.
  unfold validate_update. destruct (_ || _); [|by apply wp_ret].
  assert (Hr : ∀ preset graph, wp (validate_references org preset graph) (λ _ w', tables w' = tables w) (λ _ _, True) w).
  { intros preset graph. pose proof (references_bind org preset graph m_ret (λ _ w', tables w' = tables w) (λ _ _, True) w) as Hb.
    unfold mbind, M_bind, m_bind, wp in *. destruct (validate_references org preset graph w) as [[[]|e] w']; [|done].
    apply Hb; [done|]. by intros w2 (T & _) _. }
  destruct (wu_preset body), (wu_graph body); try exact I; apply Hr.
Qed.

(** The handler of a request, in the context of its organisation *)
Definition team_handler (rq : Request) (q : TeamRequest) : OrgContext → Api unit :=
  match q with
  | CreateAgent body => λ c, _ ← with_body check_agent_create body (λ p, create_agent p rq) c; m_ret tt
  | UpdateAgent id body => λ c, _ ← with_body check_agent_update body (λ p, update_agent id p rq) c; m_ret tt
  | DeactivateAgent id => deactivate_agent id rq
  | CreateWorkflow body => λ c, _ ← with_body check_workflow_create body (λ p, create_workflow p rq) c; m_ret tt
  | UpdateWorkflow id body => λ c, _ ← with_body check_workflow_update body (λ p, update_workflow id p rq) c; m_ret tt
  | DeactivateWorkflow id => deactivate_workflow id
  end.

Abbreviation leaves_others org d := (λ _ w', foreign org (tables w') = foreign org d) (only parsing).

(** The audit entry at the end of a handler *)
Lemma audited {B} action kind rq c target detail (k : unit → Api B) Q (X : exn → ApiWorld → Prop) w :
  (∀ w', foreign (oc_org_id c) (tables w') = foreign (oc_org_id c) (tables w) → wp (k tt) Q X w') →
  wp (mbind k (audit_team action kind rq c target detail)) Q X w.
Proof. intros Hk. apply wp_bind. unfold wp at 1, audit_team. cbn. by apply Hk. Qed.

Lemma checked {B A} (check : B → res exn B) body (handler : B → OrgContext → Api A) c Q (X : exn → ApiWorld → Prop) w :
  (∀ e w', X e w') → (∀ p, wp (handler p c) Q X w) → wp (with_body check body handler c) Q X w.
Proof.
  intros HX Hh. unfold with_body. apply wp_bind. unfold lift_res, wp at 1. destruct (check body); [apply Hh|apply HX].
Qed.

Lemma agents_leave_others rq q c w :
  match q with CreateWorkflow _ | UpdateWorkflow _ _ | DeactivateWorkflow _ => False | _ => True end →
  keyed (tables w) →
  wp (team_handler rq q c) (leaves_others (oc_org_id c) (tables w)) (λ _ _, True) w.
Proof.
  intros Hq Hk. destruct q as [body|id body|id|?|? ?|?]; try done; cbn [team_handler]; clear Hq.
  - apply wp_bind, checked; [done|]. intros p. unfold create_agent. apply wp_bind. unfold secret, wp at 1. cbv zeta.
    apply insert_bind; [done|]. intros w1 _ T1 _ _. apply audited. intros w2 F2. do 2 apply wp_ret.
    rewrite F2, T1. by apply foreign_new_agent.
  - apply wp_bind, checked; [done|]. intros p. unfold update_agent. apply owned_agent_bind; [done|].
    intros a w1 (T1 & _) Hf Ho. apply insert_bind; [done|]. intros w2 _ T2 _ _. apply audited. intros w3 F3.
    destruct (is_null _); [exact I|]. do 2 apply wp_ret. rewrite F3, T2, T1. by eapply foreign_agent.
  - unfold deactivate_agent. apply owned_agent_bind; [done|]. intros a w1 (T1 & _) Hf Ho.
    unfold wp. cbn. change (foreign (oc_org_id c) (update_agent_row id retire_agent (tables w1)) = foreign (oc_org_id c) (tables w)).
    rewrite T1. by eapply foreign_agent.
Qed.

Lemma workflows_leave_others rq q c w :
  match q with CreateWorkflow _ | UpdateWorkflow _ _ | DeactivateWorkflow _ => True | _ => False end →
  keyed (tables w) →
  wp (team_handler rq q c) (leaves_others (oc_org_id c) (tables w)) (λ _ _, True) w.
Proof.
  intros Hq Hk. destruct q as [?|? ?|?|body|id body|id]; try done; cbn [team_handler]; clear Hq.
  - apply wp_bind, checked; [done|]. intros p. unfold create_workflow. apply references_bind; [done|].
    intros w1 (T1 & _) _. apply wp_bind. unfold secret, wp at 1. cbv zeta. apply insert_bind; [done|].
    intros w2 _ T2 _ _. apply audited. intros w3 F3. do 2 apply wp_ret. rewrite F3, T2.
    change (tables (next_tick w1)) with (tables w1). rewrite T1. by apply foreign_new_workflow.
  - apply wp_bind, checked; [done|]. intros p. unfold update_workflow. apply owned_workflow_bind; [done|].
    intros wf w1 (T1 & _) Hf Ho. apply wp_bind. eapply wp_mono; [apply validated_reads|simpl|done]. intros [] w2 T2.
    apply insert_bind; [done|]. intros w3 _ T3 _ _. apply audited. intros w4 F4. do 2 apply wp_ret.
    rewrite F4, T3, T2, T1. by eapply foreign_workflow.
  - unfold deactivate_workflow. apply owned_workflow_bind; [done|]. intros wf w1 (T1 & _) Hf Ho.
    unfold wp. cbn.
    change (foreign (oc_org_id c) (update_workflow_row id retire_workflow (tables w1)) = foreign (oc_org_id c) (tables w)).
    rewrite T1. by eapply foreign_workflow.
Qed.

(** C30: tenants are apart: a request to an organisation, answered or refused, leaves the
    agents and the workflows of every other organisation as they were, whatever ids it
    names. *)
Theorem others_untouched rq org q sv r sv' ck :
  keyed (sv_db sv) → serve (team_route rq org q) sv = (r, sv', ck) → foreign org (sv_db sv') = foreign org (sv_db sv).
Proof.
  intros Hk Heq. destruct r as [[]|e].
  2:{ f_equal. eapply serve_refused; [|exact Heq]. by apply (team_route_framed (RS := uncommitted) (P := λ _, True)). }
  destruct (serve_ok _ sv tt sv' ck (λ _ w, foreign org (tables w) = foreign org (sv_db sv)) Heq) as (w & Hw & E1 & _);
    [|by rewrite E1].
  assert (Hh : ∀ minimum c w, authorised minimum rq org c (sv_db sv) → tables w = sv_db sv →
            wp (team_handler rq q c) (λ _ w', foreign org (tables w') = foreign org (sv_db sv)) (λ _ _, True) w).
  { intros minimum c w Ha T. pose proof (au_org _ _ _ _ _ Ha) as [_ Hid%bool_decide_eq_true]%List.find_some.
    change (oc_org_id c = org) in Hid. rewrite <- Hid, <- T. rewrite <- T in Hk.
    destruct q; by first [by apply agents_leave_others|by apply workflows_leave_others]. }
  destruct q; cbn [team_route];
    unfold create_agent_route, update_agent_route, deactivate_agent_route, create_workflow_route,
      update_workflow_route, deactivate_workflow_route;
    first [apply org_route_bind|apply wp_bind, org_route_bind]; try done; intros c w (T & _) Ha;
    pose proof (Hh _ c w Ha T) as Hw; cbn [team_handler] in Hw; first [exact Hw|by apply wp_bind in Hw].
Qed.
End team.
