(* ===== verification/TeamDemo.v ===== *)
(** * Concrete agents and workflows

    An organisation with one agent saves another and a workflow, where the theorems
    about agents and workflows are applied; and requests that fail. *)

From S2P Require Import Prelude PyStr PyFloat PyVal Config State Budget Registry Providers Pricing Keys Events.
From S2P Require Import World ToolBase ToolArtifacts ToolRegistry Web Workflow Database Auditing Security RateLimit.
From S2P Require Import Runner Billing BillingSafety Api ApiSafety Auth AuthSafety AuthDemo Orgs OrgSafety RunsApi RunsDemo.
From S2P Require Import Team TeamSafety.

#[local] Existing Instance demo_api.

Definition writer : AgentRow :=
  mkAgentRow (og_id demo_org) true None
    (mkAgent (u "a1") (u "Ann") (u "writer") [] (u "gpt-5") (u "high") 4096 [VStr (u "web_fetch")]).
(** An agent and a workflow of somebody else *)
Definition foreign_agent_row : AgentRow :=
  mkAgentRow (u "elsewhere") true None (mkAgent (u "a2") (u "Bob") (u "writer") [] (u "gpt-5") (u "low") 256 []).
Definition office_db : Db := set_agents [writer; foreign_agent_row] team_db.
Definition office : Server := auth_server office_db.

Definition new_hire : AgentCreate :=
  mkAgentCreate (u "Cid") (u "critic") [] (u "claude-opus-5") (u "medium") 1024 [u "web_fetch"; u "web_fetch"].
Definition hire : TeamRequest := CreateAgent new_hire.

#[local] Abbreviation hired := (serve (team_route plain_request (og_id demo_org) hire) office).

Lemma office_usable : all_usable office_db.
Proof.
  intros a Ha. unfold office_db in Ha. cbn in Ha. rewrite !elem_of_cons in Ha.
  destruct Ha as [->|[->|Ha%elem_of_nil]]; [| |done]; split; try (by vm_compute); cbn.
  - apply (bool_decide_unpack _). vm_compute. exact I.
  - intros v Hv%list_elem_of_singleton. exists (u "web_fetch"). split; [done|].
    apply (bool_decide_unpack _). vm_compute. exact I.
  - apply (bool_decide_unpack _). vm_compute. exact I.
  - by intros v Hv%elem_of_nil.
Qed.

Lemma hired_eq : hired = (Ok tt, hired.1.2, hired.2).
Proof. apply answered; [vm_compute; reflexivity|reflexivity]. Qed.

Lemma agents_stay_usable_witness :
  map (λ a, ag_tools (ar_spec a)) (db_agents (sv_db hired.1.2)) = [[VStr (u "web_fetch")]; []; [VStr (u "web_fetch")]] ∧
  all_usable (sv_db hired.1.2).
Proof.
  split; [vm_compute; reflexivity|].
  exact (proj1 (agents_stay_usable plain_request (og_id demo_org) hire office (Ok tt) hired.1.2 hired.2 office_usable hired_eq)).
Defined.

(** Naming another organisation's agent finds nothing. *)
#[local] Abbreviation poached :=
  (serve (team_route plain_request (og_id demo_org) (DeactivateAgent (u "a2"))) office).

Lemma office_keyed : keyed office_db.
Proof. split; apply (bool_decide_unpack _); vm_compute; exact I. Qed.

Lemma others_untouched_witness :
  is_ok poached.1.1 = false ∧ foreign (og_id demo_org) (sv_db hired.1.2) = ([foreign_agent_row], []).
Proof.
  split; [vm_compute; reflexivity|].
  exact (others_untouched plain_request (og_id demo_org) hire office (Ok tt) hired.1.2 hired.2 office_keyed hired_eq).
Defined.

Definition solo : WorkflowCreate := mkWorkflowCreate (u "Solo") [] (u "pipeline") one_agent.
#[local] Abbreviation solo_saved := (serve (create_workflow_route plain_request (og_id demo_org) solo) office).

Lemma saved_workflow_loads_witness :
  is_ok solo_saved.1.1 = true ∧ ∃ wf, saved (og_id demo_org) wf (sv_db solo_saved.1.2).
Proof.
  split; [vm_compute; reflexivity|].
  assert (Hr : is_ok solo_saved.1.1 = true) by (vm_compute; reflexivity).
  destruct solo_saved as [[r sv1] ck] eqn:Heq. destruct r as [wf|e]; [|discriminate Hr]. exists wf.
  exact (saved_workflow_loads plain_request (og_id demo_org) office wf sv1 ck (or_introl (ex_intro _ solo Heq))).
Defined.

(** ** The limits *)

(** Retiring an agent does not look at the workflows that reference it: a run of the
    saved workflow then finds no such agent. *)
Lemma retired_agent_strands_workflow :
  let saved_sv := solo_saved.1.2 in
  let retired := serve (team_route plain_request (og_id demo_org) (DeactivateAgent (u "a1"))) saved_sv in
  is_ok retired.1.1 = true ∧ load_agents (og_id demo_org) (sv_db retired.1.2) = [] ∧
  map wf_is_active (db_workflows (sv_db retired.1.2)) = [true].
Proof. split_and!; vm_compute; reflexivity. Qed.

(** A [null] in a PATCH body is [NOT NULL]'s to refuse, not the schema's. *)
Definition null_name : AgentUpdate := mkAgentUpdate Null Unset Unset Unset Unset Unset Unset Unset.
Lemma null_name_is_a_server_error :
  check_agent_update null_name = Ok null_name ∧
  (serve (update_agent_route plain_request (og_id demo_org) (u "a1") null_name) office).1.1 = Err IntegrityError.
Proof. split; vm_compute; reflexivity. Qed.

(** Retiring a workflow leaves no audit entry; retiring an agent does. *)
Lemma workflow_retired_unaudited :
  let saved_sv := solo_saved.1.2 in
  let id := default [] (wf_id <$> head (db_workflows (sv_db saved_sv))) in
  let retired := serve (team_route plain_request (og_id demo_org) (DeactivateWorkflow id)) saved_sv in
  is_ok retired.1.1 = true ∧ map wf_is_active (db_workflows (sv_db retired.1.2)) = [false] ∧
  db_audit (sv_db retired.1.2) = db_audit (sv_db saved_sv).
Proof. split_and!; vm_compute; reflexivity. Qed.
