(* ===== verification/Admin.v ===== *)
(** * Operators and catalogues (src/api/routers/admin.py, models.py and tools.py)

    What a superuser may change: the prices of models and the credits of an
    organisation; and the catalogues of models and tools.  The price book is one
    object per process: a handler changes it at once, whatever becomes of its
    transaction. *)

From S2P Require Import Prelude PyStr PyFloat PyVal PyRegex Config State Budget Registry Providers Pricing Keys Events.
From S2P Require Import World ToolBase ToolArtifacts ToolRegistry Workflow Database Auditing Billing Security RateLimit.
From S2P Require Import Api ApiSafety Auth Orgs Team.

(** ** Bodies and answers *)

(** A price is finite here; pydantic lets an infinite one through. *)
Record ModelPriceIn := mkPriceIn {
  mi_model : pystr; mi_input_per_mtok : Z; mi_output_per_mtok : Z; mi_cached_input_per_mtok : option Z;
  mi_note : pystr }.
Record AdjustCreditsIn := mkAdjust {
  ac_org_id : pystr; ac_amount_cents : Z; ac_description : pystr; ac_idempotency_key : pystr }.

Definition check_price (p : ModelPriceIn) : res exn ModelPriceIn :=
  if (0 <=? mi_input_per_mtok p) && (0 <=? mi_output_per_mtok p)
     && match mi_cached_input_per_mtok p with Some c => 0 <=? c | None => true end
     && (py_len (mi_note p) <=? 300)
  then Ok p else Err invalid_body.
Definition check_adjust (p : AdjustCreditsIn) : res exn AdjustCreditsIn :=
  if (py_len (ac_description p) <=? 400) && within 8 128 (ac_idempotency_key p) then Ok p else Err invalid_body.

Record ModelOut := mkModelOut {
  mo_id : pystr; mo_provider : pystr; mo_display_name : pystr; mo_input_per_mtok : Z; mo_output_per_mtok : Z;
  mo_cached_input_per_mtok : option Z; mo_max_output_tokens : Z; mo_context_window : Z;
  mo_supports_effort : bool; mo_available : bool }.

Record ToolOut := mkToolOut {
  to_name : pystr; to_description : pystr; to_side_effect : SideEffect; to_available : bool;
  to_unavailable_reason : option pystr }.
Record ToolLimits := mkToolLimits {
  tl_max_iterations : Z; tl_max_calls_per_turn : Z; tl_tools_enabled : bool }.
Record ToolCatalogue := mkCatalogue { tc_tools : list ToolOut; tc_limits : ToolLimits }.

(** ** The table of prices *)

Definition find_price (model : pystr) (d : Db) : option ModelPrice :=
  List.find (λ p, bool_decide (mp_model p = model)) (db_prices d).
Definition price_row (p : ModelPriceIn) (by_ : pystr) : ModelPrice :=
  mkPrice (mi_model p) (mkRate (mi_input_per_mtok p) (mi_output_per_mtok p) (mi_cached_input_per_mtok p))
    (mi_note p) (Some by_).
Definition price_out (p : ModelPrice) : ModelPriceIn :=
  mkPriceIn (mp_model p) (rt_input_per_mtok (mp_rate p)) (rt_output_per_mtok (mp_rate p))
    (rt_cached_input_per_mtok (mp_rate p)) (mp_note p).
Definition put_price (row : ModelPrice) (d : Db) : Db :=
  match find_price (mp_model row) d with
  | Some _ => set_prices (map (λ p, if bool_decide (mp_model p = mp_model row) then row else p) (db_prices d)) d
  | None => set_prices (db_prices d ++ [row]) d
  end.
Definition drop_price (model : pystr) (d : Db) : Db :=
  set_prices (List.filter (λ p, negb (bool_decide (mp_model p = model))) (db_prices d)) d.

(** ** A request and the price book of the process *)

Record PricedWorld := mkPriced { pw_api : ApiWorld; pw_book : PriceBook }.
Class OfficeEnv := {
  office_api :: ApiEnv;
  office_monotonic : nat → Z }.            (* [time.monotonic()], float units *)

Section admin.
Context `{OfficeEnv}.
Abbreviation Priced A := (M PricedWorld exn A).

Definition on_api {A} (m : M ApiWorld exn A) : Priced A := λ w,
  let '(r, a) := m (pw_api w) in (r, mkPriced a (pw_book w)).

(** [time.monotonic()] *)
Definition monotonic : Priced Z := λ w,
  (Ok (office_monotonic (ap_tick (pw_api w))), mkPriced (next_tick (pw_api w)) (pw_book w)).

Definition the_book : Priced PriceBook := λ w, (Ok (pw_book w), w).
Definition price_rows (d : Db) : list (pystr * Rate) := map (λ p, (mp_model p, mp_rate p)) (db_prices d).

(** [default_price_book().refresh(session, force=force)] *)
Definition refresh_book (force : bool) : Priced unit :=
  now ← (if force then m_ret 0 else monotonic);
  book ← the_book;
  if negb force && (rnd (now - pb_loaded_at book) 1 <? pb_ttl book) then m_ret tt
  else
    rows ← on_api (on_sql (query price_rows));
    now' ← monotonic;
    modify (λ w, mkPriced (pw_api w) (Pricing.refresh rows force now now' book)).

(** *** Operators *)

(** [SuperuserDep], then the body, then the handler *)
Definition superuser_route {B A} (rq : Request) (check : B → res exn B) (body : B) (handler : B → User → Priced A) : Priced A :=
  user ← on_api (user_dep rq);
  user ← on_api (require_superuser user);
  payload ← lift_res (check body);
  handler payload user.
Definition no_body (x : pystr) : res exn pystr := Ok x.

Definition list_prices : Priced (list ModelPriceIn) :=
  rows ← on_api (on_sql (query db_prices)); m_ret (map price_out rows).

Definition upsert_price (payload : ModelPriceIn) (user : User) : Priced ModelPriceIn :=
  _ ← lift_res (get_spec (mi_model payload));
  _ ← on_api (on_sql (query (find_price (mi_model payload))));
  let row := price_row payload (us_id user) in
  _ ← on_api (on_sql (insert (λ _, true) (put_price row)));
  _ ← refresh_book true;
  _ ← on_api (on_sql (audit_record (audit_row (u "admin.model_price_updated") None (Some (us_id user))
        (Some (u "model_price")) (Some (mi_model payload)) None None
        [(u "input_per_mtok", VFloat (FFin (mi_input_per_mtok payload)));
         (u "output_per_mtok", VFloat (FFin (mi_output_per_mtok payload)))])));
  m_ret (price_out row).

Definition delete_price (model : pystr) (user : User) : Priced unit :=
  o ← on_api (on_sql (query (find_price model)));
  match o with
  | None => on_api (http_error 404 (u "no override for that model"))
  | Some _ =>
      _ ← on_api (on_sql (insert (λ _, true) (drop_price model)));
      _ ← refresh_book true;
      on_api (on_sql (audit_record (audit_row (u "admin.model_price_deleted") None (Some (us_id user))
                (Some (u "model_price")) (Some model) None None [])))
  end.

Definition adjust_credits (payload : AdjustCreditsIn) (user : User) : Priced LedgerEntryOut :=
  on_api (
    o ← on_sql (query (find_org (ac_org_id payload)));
    match o with
    | None => http_error 404 (u "organisation not found")
    | Some _ =>
        if ac_amount_cents payload =? 0 then http_error 422 (u "amount must not be zero")
        else
          entry ← on_sql (post_entry recursion_limit
                    (mkPosting (ac_org_id payload) (u "adjustment") (ac_amount_cents payload)
                       (ac_idempotency_key payload) (ac_description payload) None (Some (us_id user))));
          _ ← on_sql (audit_record (audit_row (u "credits.adjusted") (Some (ac_org_id payload)) (Some (us_id user))
                (Some (u "org")) (Some (ac_org_id payload)) None None
                [(u "amount_cents", VInt (ac_amount_cents payload))]));
          entry_row (le_id entry)
    end).

Definition list_prices_route rq : Priced (list ModelPriceIn) := superuser_route rq no_body [] (λ _ _, list_prices).
Definition upsert_price_route rq body : Priced ModelPriceIn := superuser_route rq check_price body upsert_price.
Definition delete_price_route rq model : Priced unit := superuser_route rq no_body model delete_price.
Definition adjust_credits_route rq body : Priced LedgerEntryOut := superuser_route rq check_adjust body adjust_credits.

(** *** The catalogue of models *)

Definition effort_supported (s : ModelSpec) : bool := match sp_effort_style s with ES_NONE => false | _ => true end.

(** The providers an organisation has an active key for *)
Definition own_providers (org_id : pystr) (d : Db) : list pystr :=
  map ak_provider (List.filter (λ k, bool_decide (ak_org_id k = org_id) && ak_is_active k) (db_api_keys d)).
Definition has_platform (p : Provider) : bool :=
  match platform_key api_settings p with Some (_ :: _) => true | _ => false end.
Definition model_available (org : Org) (own : list pystr) (spec : ModelSpec) : bool :=
  let has_own := bool_decide (provider_value (sp_provider spec) ∈ own) in
  if bool_decide (og_key_mode org = u "byok") then has_own else has_platform (sp_provider spec) || has_own.
Definition model_out (org : Org) (own : list pystr) (spec : ModelSpec) (rate : Rate) : ModelOut :=
  mkModelOut (sp_id spec) (provider_value (sp_provider spec)) (sp_display_name spec) (rt_input_per_mtok rate)
    (rt_output_per_mtok rate) (rt_cached_input_per_mtok rate) (sp_max_output_tokens spec) (sp_context_window spec)
    (effort_supported spec) (model_available org own spec).

Definition list_available_models (c : OrgContext) : Priced (list ModelOut) :=
  own ← on_api (on_sql (query (own_providers (oc_org_id c))));
  _ ← refresh_book false;
  book ← the_book;
  lift_res (res_mapM (λ spec, rate ← rate_for book (sp_id spec); Ok (model_out (oc_org c) own spec rate))
              (list_models None)).

Definition list_models_route (rq : Request) (org_id : pystr) : Priced (list ModelOut) :=
  c ← on_api (org_route None rq org_id m_ret);
  list_available_models c.

(** *** The catalogue of tools *)

Section tools.
Context {X : Type} (web_fetch web_search : Tool X).

Definition tool_out (info : ToolInfo) : ToolOut :=
  mkToolOut (ti_name info) (ti_description info) (ti_side_effect info)
    (ti_available info && cfg_tools_enabled api_settings)
    (if negb (cfg_tools_enabled api_settings) then Some (u "tools are disabled on this deployment")
     else ti_unavailable_reason info).
Definition list_tools (rq : Request) : Priced ToolCatalogue :=
  _ ← on_api (current_claims rq);
  m_ret (mkCatalogue (map tool_out (catalogue api_settings web_fetch web_search))
           (mkToolLimits (cfg_max_tool_iterations api_settings) (cfg_max_tool_calls_per_turn api_settings)
              (cfg_tools_enabled api_settings))).
End tools.

(** ** A request *)

(** In its own session; the book keeps what the handler made of it. *)
Definition serve_priced {A} (handler : Priced A) (sv : Server) (book : PriceBook) : res exn A * Server * PriceBook :=
  let '(r, w) := session_scope (λ m, on_api (on_sql m)) handler
                   (mkPriced (mkApi (open_session (sv_db sv)) (sv_redis sv) CookieKept 0) book) in
  (r, mkServer (ss_committed (ap_session (pw_api w))) (ap_redis (pw_api w)), pw_book w).
End admin.
