(* ===== verification/AdminSafety.v ===== *)
(** * What operators can do, and what the catalogue of models promises

    Only superusers change prices and credits; a changed price is the one the
    process charges from then on; an adjustment is one posting of the ledger; and
    every model a run of the organisation could call is listed as available. *)

From S2P Require Import Prelude PyStr PyFloat PyVal PyRegex Config State Budget Registry Providers Pricing Keys Events.
From S2P Require Import World ToolBase ToolArtifacts ToolRegistry Workflow Database Auditing Billing BillingSafety.
From S2P Require Import Security RateLimit Bytes Crypto Api ApiSafety Auth Orgs Keyring Team Admin.
From S2P Require Import Engine EngineSafety EngineSinks Presets Runner RunnerSafety RunnerRuns.
From S2P Require Import RunnerDemo AuthSafety AuthDemo OrgSafety.

Section admin.
Context `{OfficeEnv}.
Abbreviation Priced A := (M PricedWorld exn A).

(** ** Reasoning about requests with a price book *)

Lemma on_api_bind {A B} (m : M ApiWorld exn A) (k : A → Priced B) Q (X : exn → PricedWorld → Prop) w :
  wp m (λ a w', wp (k a) Q X (mkPriced w' (pw_book w))) (λ e w', X e (mkPriced w' (pw_book w))) (pw_api w) →
  wp (mbind k (on_api m)) Q X w.
Proof. intros Hm. apply wp_bind. unfold wp, on_api in *. by destruct (m (pw_api w)) as [[a|e] w']. Qed.

(** [m] as the first part of a computation whose rest returns its value *)
Lemma wp_then_ret {W A} (m : M W exn A) Q (X : exn → W → Prop) w : wp (mbind m_ret m) Q X w ↔ wp m Q X w.
Proof. unfold mbind, M_bind, m_bind, wp. by destruct (m w) as [[a|e] w']. Qed.

Lemma ask_bind {A B} (f : Db → A) (k : A → Priced B) Q w :
  (∀ w', tables (pw_api w') = tables (pw_api w) → pw_book w' = pw_book w → wp (k (f (tables (pw_api w)))) Q (λ _ _, True) w') →
  wp (mbind k (on_api (on_sql (query f)))) Q (λ _ _, True) w.
Proof.
  intros Hk. apply on_api_bind, wp_then_ret, query_bind; [done|]. intros w' (T & _). apply wp_ret. by apply Hk.
Qed.

Lemma flush_bind {B} allowed add (k : unit → Priced B) Q w :
  (∀ w', tables (pw_api w') = add (tables (pw_api w)) → pw_book w' = pw_book w → wp (k tt) Q (λ _ _, True) w') →
  wp (mbind k (on_api (on_sql (insert allowed add)))) Q (λ _ _, True) w.
Proof.
  intros Hk. apply on_api_bind, wp_then_ret, insert_bind; [done|]. intros w' _ T _ _. apply wp_ret. by apply Hk.
Qed.

Lemma refresh_forced_bind {B} (k : unit → Priced B) Q w :
  (∀ w', tables (pw_api w') = tables (pw_api w) → pb_overrides (pw_book w') = assoc_of_list (price_rows (tables (pw_api w))) →
     wp (k tt) Q (λ _ _, True) w') →
  wp (mbind k (refresh_book true)) Q (λ _ _, True) w.
Proof.
  intros Hk. apply wp_bind. unfold refresh_book. apply wp_bind. rewrite wp_ret. apply wp_bind. unfold the_book, wp at 1.
  cbv beta iota. cbn [negb andb]. apply ask_bind. intros w1 T1 _. apply wp_bind. unfold wp at 1, monotonic.
  unfold wp at 1, modify. apply Hk; cbn; [|done]. exact T1.
Qed.

Lemma note_bind {B} row (k : unit → Priced B) Q w :
  (∀ w', db_prices (tables (pw_api w')) = db_prices (tables (pw_api w)) → pw_book w' = pw_book w → wp (k tt) Q (λ _ _, True) w') →
  wp (mbind k (on_api (on_sql (audit_record row)))) Q (λ _ _, True) w.
Proof. intros Hk. apply on_api_bind. unfold wp at 1. cbn. by apply Hk. Qed.

Lemma superuser_bind {B A} rq (check : B → res exn B) body (handler : B → User → Priced A) Q w :
  (∀ user payload w', reads (pw_api w) (pw_api w') → pw_book w' = pw_book w → signed_in rq user (tables (pw_api w)) →
     us_is_superuser user = true → check body = Ok payload → wp (handler payload user) Q (λ _ _, True) w') →
  wp (superuser_route rq check body handler) Q (λ _ _, True) w.
Proof.
  intros Hh. unfold superuser_route. apply on_api_bind, wp_then_ret, user_dep_bind; [done|]. intros user w1 R1 Hs.
  apply wp_ret, on_api_bind. unfold require_superuser. destruct (us_is_superuser user) eqn:Hsu; [|exact I].
  apply wp_ret, wp_bind. unfold lift_res, wp at 1. destruct (check body) as [payload|e] eqn:Hc; [|exact I].
  apply Hh; by try exact R1.
Qed.

Lemma serve_priced_ok {A} (handler : Priced A) sv book a sv' book' (Q : A → PricedWorld → Prop) :
  serve_priced handler sv book = (Ok a, sv', book') →
  wp handler Q (λ _ _, True) (mkPriced (mkApi (open_session (sv_db sv)) (sv_redis sv) CookieKept 0) book) →
  ∃ w, Q a w ∧ sv_db sv' = tables (pw_api w) ∧ book' = pw_book w.
Proof.
  unfold serve_priced, session_scope. set (w0 := mkPriced _ _). unfold mbind, M_bind, m_bind, wp.
  destruct (handler w0) as [[a'|e] w1]; [|done]. intros Heq HQ. exists w1. unfold on_api, on_sql, commit in Heq.
  destruct (statement (ap_session (pw_api w1))) as [[[]|e] s'] eqn:Hs; [|discriminate Heq].
  injection Heq as -> <- <-. split_and!; try done. simpl.
  pose proof (statement_reads (pw_api w1)) as Hr. unfold on_sql in Hr. rewrite Hs in Hr. apply Hr.
Qed.

(** ** Prices *)

Lemma assoc_of_rows (l : list (pystr * Rate)) k : NoDup l.*1 → assoc k (assoc_of_list l) = assoc k l.
Proof.
  intros Hl. unfold assoc_of_list.
  assert (Hgen : ∀ (l' d : list (pystr * Rate)), NoDup l'.*1 →
    assoc k (fold_left (λ d kv, assoc_set kv.1 kv.2 d) l' d) = match assoc k l' with Some v => Some v | None => assoc k d end).
  { intros l'. induction l' as [|[k' v'] l' IH]; intros d; csimpl; [done|]. intros [Hn Hd]%NoDup_cons.
    rewrite IH by done. destruct (decide (k = k')) as [->|Hne].
    - destruct (assoc k' l') as [v|] eqn:Hv; [|by rewrite assoc_set_eq].
      destruct Hn. apply assoc_Some_elem in Hv. apply list_elem_of_fmap. by exists (k', v).
    - by rewrite assoc_set_ne. }
  rewrite Hgen by done. by destruct (assoc k l).
Qed.

(** The primary key of [model_prices] *)
Definition priced_once (d : Db) : Prop := NoDup (map mp_model (db_prices d)).

(** What a model costs by the tables: the override, or the registry's price *)
Definition table_rate (d : Db) (model : pystr) : res exn Rate :=
  match find_price model d with Some p => Ok (mp_rate p) | None => rate_from_spec <$> get_spec model end.

Lemma rate_for_rows book d model :
  priced_once d → pb_overrides book = assoc_of_list (price_rows d) → rate_for book model = table_rate d model.
Proof.
  intros Hd Hb. unfold rate_for, table_rate. rewrite Hb, assoc_of_rows.
  - unfold price_rows, find_price. induction (db_prices d) as [|p l IH]; simpl; [done|].
    destruct (decide (model = mp_model p)) as [->|Hne]; [by rewrite bool_decide_eq_true_2|].
    by rewrite bool_decide_eq_false_2 by congruence.
  - unfold price_rows. change (@fmap list _ _ _) with (@map (pystr * Rate) pystr). by rewrite map_map.
Qed.

Lemma find_replaced (l : list ModelPrice) row model :
  List.find (λ p, bool_decide (mp_model p = model)) (map (λ p, if bool_decide (mp_model p = mp_model row) then row else p) l)
  = match List.find (λ p, bool_decide (mp_model p = model)) l with
    | Some p => Some (if bool_decide (mp_model row = model) then row else p)
    | None => None
    end.
Proof.
  induction l as [|p l IH]; simpl; [done|].
  destruct (decide (mp_model p = mp_model row)) as [Hp|Hp].
  - rewrite Hp, (bool_decide_eq_true_2 (mp_model row = mp_model row)) by done.
    destruct (bool_decide (mp_model row = model)) eqn:Hm; [done|exact IH].
  - rewrite (bool_decide_eq_false_2 (mp_model p = mp_model row)) by done.
    destruct (decide (mp_model p = model)) as [<-|Hm]; [|by rewrite !(bool_decide_eq_false_2 (mp_model p = model))].
    rewrite !(bool_decide_eq_true_2 (mp_model p = mp_model p)) by done.
    by rewrite (bool_decide_eq_false_2 (mp_model row = mp_model p)) by congruence.
Qed.

Lemma find_appended {A} (f : A → bool) l l' :
  List.find f (l ++ l') = match List.find f l with Some x => Some x | None => List.find f l' end.
Proof. induction l as [|x l IH]; simpl; [done|]. by destruct (f x). Qed.

Lemma find_price_put row d model :
  find_price model (put_price row d) = if bool_decide (mp_model row = model) then Some row else find_price model d.
Proof.
  unfold put_price. destruct (find_price (mp_model row) d) as [old|] eqn:Ho; unfold find_price in *; cbn.
  - rewrite find_replaced. destruct (decide (mp_model row = model)) as [<-|Hm].
    + rewrite Ho. by rewrite !bool_decide_eq_true_2.
    + rewrite (bool_decide_eq_false_2 (mp_model row = model)) by done. match goal with |- match ?o with _ => _ end = _ => by destruct o end.
  - destruct (decide (mp_model row = model)) as [<-|Hm].
    + rewrite (bool_decide_eq_true_2 (mp_model row = mp_model row)) by done. rewrite find_appended, Ho. simpl.
      by rewrite bool_decide_eq_true_2.
    + rewrite (bool_decide_eq_false_2 (mp_model row = model)) by done. rewrite find_appended. simpl.
      rewrite (bool_decide_eq_false_2 (mp_model row = model)) by done.
      match goal with |- match ?o with _ => _ end = _ => by destruct o end.
Qed.

Lemma put_price_once row d : priced_once d → priced_once (put_price row d).
Proof.
  unfold priced_once, put_price. intros Hd. destruct (find_price (mp_model row) d) as [old|] eqn:Ho; cbn.
  - rewrite map_map. erewrite map_ext; [exact Hd|]. intros p. by case_bool_decide.
  - rewrite map_app. apply NoDup_app. split_and!; [done| |apply NoDup_singleton].
    intros m Hm ->%list_elem_of_singleton. apply list_elem_of_fmap in Hm as (p & Hp & Hin).
    apply list_elem_of_In in Hin. pose proof (List.find_none _ _ Ho p Hin) as Hn. simpl in Hn.
    by rewrite bool_decide_eq_true_2 in Hn.
Qed.

Lemma find_price_drop m d model :
  find_price model (drop_price m d) = if bool_decide (m = model) then None else find_price model d.
Proof.
  unfold drop_price, find_price. cbn. induction (db_prices d) as [|p l IH]; simpl; [by destruct (bool_decide _)|].
  destruct (decide (mp_model p = m)) as [Hp|Hp].
  - rewrite (bool_decide_eq_true_2 (mp_model p = m)) by done. simpl. rewrite IH, Hp. by case_bool_decide.
  - rewrite (bool_decide_eq_false_2 (mp_model p = m)) by done. simpl. rewrite IH.
    destruct (decide (mp_model p = model)) as [<-|Hm].
    + by rewrite !(bool_decide_eq_true_2 (mp_model p = mp_model p)), (bool_decide_eq_false_2 (m = mp_model p)) by congruence.
    + by rewrite !(bool_decide_eq_false_2 (mp_model p = model)).
Qed.

Lemma drop_price_once m d : priced_once d → priced_once (drop_price m d).
Proof.
  unfold priced_once, drop_price. cbn. induction (db_prices d) as [|p l IH]; simpl; [done|].
  intros [Hn Hl]%NoDup_cons. destruct (negb _); simpl; [|by apply IH]. apply NoDup_cons. split; [|by apply IH].
  intros Hin. apply Hn. apply list_elem_of_fmap in Hin as (q & Hq & Hin). apply list_elem_of_In, List.filter_In in Hin as [Hin _].
  apply list_elem_of_fmap. exists q. by rewrite list_elem_of_In.
Qed.

Lemma price_out_in p by_ : price_out (price_row p by_) = p.
Proof. by destruct p. Qed.

(** An answered change of the price of [model], asked for by a superuser, to what
    [found] says: the other prices are as they were, and the process charges by the
    tables that were committed. *)
Definition repriced (rq : Request) (model : pystr) (found : User → option ModelPrice) (d d' : Db) (book' : PriceBook) : Prop :=
  ∃ user, signed_in rq user d ∧ us_is_superuser user = true ∧ find_price model d' = found user ∧
    (∀ m, m ≠ model → find_price m d' = find_price m d) ∧ priced_once d' ∧ ∀ m, rate_for book' m = table_rate d' m.

Lemma repriced_end rq model found user d d2 d' book :
  priced_once d2 → signed_in rq user d → us_is_superuser user = true → find_price model d2 = found user →
  (∀ m, m ≠ model → find_price m d2 = find_price m d) → pb_overrides book = assoc_of_list (price_rows d2) →
  db_prices d' = db_prices d2 → repriced rq model found d d' book.
Proof.
  intros H2 Hs Hsu Hf Ho Hb Hd. exists user.
  assert (Hfind : ∀ m, find_price m d' = find_price m d2) by (intros m; unfold find_price; by rewrite Hd).
  split_and!; [done|done|by rewrite Hfind|intros m Hm; rewrite Hfind; by apply Ho|unfold priced_once in *; by rewrite Hd|].
  intros m. rewrite (rate_for_rows book d2) by done. unfold table_rate. by rewrite Hfind.
Qed.

(** C31: prices change as asked and at once: when a superuser's new price, or the removal
    of one, is answered, the table has it, the prices of the other models are as they
    were, and the process charges every model by the table from then on; a new price is
    only taken for a model the registry knows. *)
Theorem prices_take_effect rq sv book sv' book' :
  priced_once (sv_db sv) →
  (∀ p out, serve_priced (upsert_price_route rq p) sv book = (Ok out, sv', book') →
     out = p ∧ is_ok (get_spec (mi_model p)) = true ∧
     repriced rq (mi_model p) (λ user, Some (price_row p (us_id user))) (sv_db sv) (sv_db sv') book') ∧
  (∀ model, serve_priced (delete_price_route rq model) sv book = (Ok tt, sv', book') →
     repriced rq model (λ _, None) (sv_db sv) (sv_db sv') book').
Proof.
  intros Hd. split.
  - intros p out Heq. unfold upsert_price_route in Heq.
    destruct (serve_priced_ok _ _ _ _ _ _ (λ out w, out = p ∧ is_ok (get_spec (mi_model p)) = true ∧
      repriced rq (mi_model p) (λ user, Some (price_row p (us_id user))) (sv_db sv) (tables (pw_api w)) (pw_book w)) Heq)
      as (w & Hw & -> & ->); [|exact Hw].
    apply superuser_bind. intros user payload w0 (T0 & _) B0 Hs Hsu Hc. unfold check_price in Hc.
    destruct (_ && _ && _ && _) in Hc; [|done]. injection Hc as <-. unfold upsert_price. apply wp_bind.
    unfold lift_res, wp at 1. destruct (get_spec (mi_model p)) as [spec|e] eqn:Hspec; [|exact I].
    apply ask_bind. intros w1 T1 B1. cbv zeta. apply flush_bind. intros w2 T2 B2. apply refresh_forced_bind.
    intros w3 T3 B3. apply note_bind. intros w4 P4 B4. apply wp_ret. rewrite price_out_in. split_and!; [done|done|].
    rewrite B4. eapply (repriced_end _ _ _ user _ (put_price (price_row p (us_id user)) (sv_db sv)));
      rewrite ?P4, ?T3, ?T2, ?T1, ?T0 in *; try done.
    + by apply put_price_once.
    + rewrite find_price_put. by rewrite bool_decide_eq_true_2.
    + intros m Hm. rewrite find_price_put. by rewrite bool_decide_eq_false_2 by (simpl; congruence).
  - intros model Heq. unfold delete_price_route in Heq.
    destruct (serve_priced_ok _ _ _ _ _ _ (λ _ w, repriced rq model (λ _, None) (sv_db sv) (tables (pw_api w)) (pw_book w)) Heq)
      as (w & Hw & -> & ->); [|exact Hw].
    apply superuser_bind. intros user payload w0 (T0 & _) B0 Hs Hsu [= <-]. unfold delete_price.
    apply ask_bind. intros w1 T1 B1. destruct (find_price model _) as [old|]; [|exact I]. apply flush_bind. intros w2 T2 B2.
    apply refresh_forced_bind. intros w3 T3 B3. apply wp_then_ret, note_bind. intros w4 P4 B4. apply wp_ret.
    rewrite B4. eapply (repriced_end _ _ _ user _ (drop_price model (sv_db sv))); rewrite ?P4, ?T3, ?T2, ?T1, ?T0 in *; try done.
    + by apply drop_price_once.
    + rewrite find_price_drop. by rewrite bool_decide_eq_true_2.
    + intros m Hm. rewrite find_price_drop. by rewrite bool_decide_eq_false_2 by congruence.
Qed.

(** ** Credits *)

Definition adjustment (p : AdjustCreditsIn) (user : User) : Posting :=
  mkPosting (ac_org_id p) (u "adjustment") (ac_amount_cents p) (ac_idempotency_key p) (ac_description p) None
    (Some (us_id user)).

(** an answered adjustment is one posting: a superuser asked for it, the amount is not
    zero, the ledger and the balances are those of a single posting under the key that was
    given (none, when the key was posted before; the other transaction's, when one has
    committed the key first), and the answer is that entry. *)
Theorem adjustment_is_a_posting rq p sv book out sv' book' :
  serve_priced (adjust_credits_route rq p) sv book = (Ok out, sv', book') →
  ∃ user e d row, signed_in rq user (sv_db sv) ∧ us_is_superuser user = true ∧ ac_amount_cents p ≠ 0 ∧
    (posts (adjustment p user) (sv_db sv) d e ∨
     (∃ k, db_race k = true ∧ rival_commits (adjustment p user) (db_rival k) (sv_db sv) = Some d)) ∧
    db_ledger (sv_db sv') = db_ledger d ∧ db_orgs (sv_db sv') = db_orgs d ∧
    row ∈ db_ledger d ∧ cl_id row = le_id e ∧ out = entry_out row ∧ book' = book.
Proof.
  intros Heq. unfold adjust_credits_route in Heq.
  destruct (serve_priced_ok _ _ _ _ _ _ (λ out w, ∃ user e d row, signed_in rq user (sv_db sv) ∧ us_is_superuser user = true ∧
    ac_amount_cents p ≠ 0 ∧ (posts (adjustment p user) (sv_db sv) d e ∨
     (∃ k, db_race k = true ∧ rival_commits (adjustment p user) (db_rival k) (sv_db sv) = Some d)) ∧
    db_ledger (tables (pw_api w)) = db_ledger d ∧
    db_orgs (tables (pw_api w)) = db_orgs d ∧ row ∈ db_ledger d ∧ cl_id row = le_id e ∧ out = entry_out row ∧
    pw_book w = book) Heq) as (w & Hw & -> & ->); [|exact Hw].
  apply superuser_bind. intros user payload w0 (T0 & C0 & _) B0 Hs Hsu Hc. unfold check_adjust in Hc.
  destruct (_ && _) in Hc; [|done]. injection Hc as <-. unfold adjust_credits. apply wp_then_ret, on_api_bind.
  apply query_bind; [done|]. intros w1 (T1 & C1 & _). destruct (find_org (ac_org_id p) (tables (pw_api w0))) as [org|]; [|exact I].
  destruct (Z.eqb_spec (ac_amount_cents p) 0) as [|Hz]; [exact I|]. apply wp_bind. unfold on_sql at 1, wp at 1.
  pose proof (post_entry_outcome recursion_limit (adjustment p user) (ap_session w1)) as Hp. unfold adjustment in Hp at 1.
  unfold wp in Hp. destruct (post_entry _ _ _) as [[e|e] s']; [|exact I].
  assert (Hd : posts (adjustment p user) (sv_db sv) (ss_working s') e ∨
     (∃ k, db_race k = true ∧ rival_commits (adjustment p user) (db_rival k) (sv_db sv) = Some (ss_working s'))).
  { change (tables w1 = tables (pw_api w0)) in T1. change (tables (pw_api w0) = sv_db sv) in T0.
    change (committed w1 = committed (pw_api w0)) in C1. change (committed (pw_api w0) = sv_db sv) in C0.
    destruct Hp as [_ Hposts|row (_ & k & _ & Hk & Hl) Hws _ _]; [left|right].
    - change (posts (adjustment p user) (tables w1) (ss_working s') e) in Hposts. by rewrite T1, T0 in Hposts.
    - exists k. split; [done|]. change (rival_commits (adjustment p user) (db_rival k) (committed w1) = Some (ss_committed s')) in Hl.
      rewrite C1, C0 in Hl. by rewrite Hws. }
  apply wp_bind. unfold wp at 1. cbn. unfold entry_row. apply query_bind; [done|]. intros w2 (T2 & _).
  match goal with |- wp (match ?o with _ => _ end) _ _ _ => destruct o as [row|] eqn:Hr end; [|exact I]. unfold wp, m_ret. cbn [fst snd].
  apply List.find_some in Hr as [Hin Hid]. apply bool_decide_eq_true in Hid. apply list_elem_of_In in Hin.
  exists user, e, (ss_working s'), row. cbn. unfold tables in T2 |- *. cbn in T2. rewrite T2. by split_and!.
Qed.

(** ** The catalogue of models *)

Lemma listed_specs : Forall (λ s, get_spec (sp_id s) = Ok s) (list_models None).
Proof. vm_compute. repeat constructor. Qed.

Lemma own_provider_stored d org p : provider_value p ∈ own_providers org d ↔ is_Some (stored_key d org p).
Proof.
  unfold own_providers, stored_key. rewrite fmap_is_Some. induction (db_api_keys d) as [|k l IH]; simpl.
  { split; [by intros ?%elem_of_nil|by intros [? ?]]. }
  unfold same_slot at 1. destruct (bool_decide (ak_org_id k = org)); simpl; [|exact IH].
  destruct (decide (ak_provider k = provider_value p)) as [Hp|Hp].
  - rewrite (bool_decide_eq_true_2 (ak_provider k = provider_value p)) by done. simpl.
    destruct (ak_is_active k); simpl; [|exact IH]. split; [by eexists|]. intros _. rewrite Hp. by left.
  - rewrite (bool_decide_eq_false_2 (ak_provider k = provider_value p)) by done. simpl.
    destruct (ak_is_active k); simpl; [|exact IH]. rewrite elem_of_cons, IH. split; [by intros [|]|by right].
Qed.

(** What the catalogue says of a model, given what the organisation has *)
Definition quoted (c : OrgContext) (d : Db) (book : PriceBook) (spec : ModelSpec) (out : ModelOut) : Prop :=
  ∃ rate, rate_for book (sp_id spec) = Ok rate ∧ out = model_out (oc_org c) (own_providers (oc_org_id c) d) spec rate.

Lemma resolved_available c d decrypt mode spec key :
  key_mode_of (og_key_mode (oc_org c)) = Ok mode → get_spec (sp_id spec) = Ok spec →
  resolve_spec api_settings (stored_key d) decrypt mode (oc_org_id c) (sp_id spec) = Ok key →
  model_available (oc_org c) (own_providers (oc_org_id c) d) spec = true.
Proof.
  intros Hm Hs Hr. unfold resolve_spec, mbind, res_bind in Hr. rewrite Hs in Hr. unfold model_available, has_platform.
  assert (Hb : bool_decide (og_key_mode (oc_org c) = u "byok") = true → mode = BYOK).
  { intros Hb%bool_decide_eq_true. rewrite Hb in Hm. by injection Hm as <-. }
  destruct (uses_platform mode (sp_id spec)) eqn:Hu.
  - destruct (bool_decide _) eqn:Hby; [rewrite (Hb eq_refl) in Hu; discriminate Hu|].
    by destruct (platform_key api_settings (sp_provider spec)) as [[|? ?]|].
  - assert (Hown : bool_decide (provider_value (sp_provider spec) ∈ own_providers (oc_org_id c) d) = true).
    { apply bool_decide_eq_true, own_provider_stored. unfold own_key in Hr. by destruct (stored_key _ _ _). }
    rewrite Hown, orb_true_r. by destruct (bool_decide (og_key_mode _ = _)).
Qed.

(** the catalogue is complete: an answered list of models names every model of the
    registry at the price the process charges, and marks as available every model for
    which a run of the organisation, in the organisation's mode, would find a credential;
    when the organisation brings its own keys, exactly those it has a key for. *)
Theorem runnable_models_listed rq org sv book l sv' book' :
  serve_priced (list_models_route rq org) sv book = (Ok l, sv', book') →
  ∃ c, authorised None rq org c (sv_db sv) ∧ oc_org_id c = org ∧ Forall2 (quoted c (sv_db sv) book') (list_models None) l ∧
    (∀ spec decrypt mode key, spec ∈ list_models None → key_mode_of (og_key_mode (oc_org c)) = Ok mode →
       resolve_spec api_settings (stored_key (sv_db sv)) decrypt mode org (sp_id spec) = Ok key →
       ∃ out, out ∈ l ∧ mo_id out = sp_id spec ∧ mo_available out = true) ∧
    (og_key_mode (oc_org c) = u "byok" → ∀ spec out, quoted c (sv_db sv) book' spec out →
       (mo_available out = true ↔ is_Some (stored_key (sv_db sv) org (sp_provider spec)))).
Proof.
  intros Heq. unfold list_models_route in Heq.
  destruct (serve_priced_ok _ _ _ _ _ _ (λ l w, ∃ c, authorised None rq org c (sv_db sv) ∧ oc_org_id c = org ∧
    Forall2 (quoted c (sv_db sv) (pw_book w)) (list_models None) l) Heq) as (w & (c & Ha & Ho & Hl) & _ & ->).
  - apply on_api_bind, org_route_bind; [done|]. intros c w (T & _) Ha. apply wp_ret.
    change (tables w = sv_db sv) in T. change (authorised None rq org c (sv_db sv)) in Ha.
    unfold list_available_models. apply ask_bind. intros w1 T1 _. apply wp_bind.
    assert (Hany : ∀ (m : Priced unit) Q w, (∀ w', Q tt w') → wp m Q (λ _ _, True) w).
    { intros m Q w2 HQ. unfold wp in *. destruct (m w2) as [[[]|e] w3]; [apply HQ|done]. }
    apply Hany. intros w2. apply wp_bind. unfold the_book, wp at 1. unfold lift_res, wp.
    destruct (res_mapM _ _) as [l'|e] eqn:Hm; [|exact I]. exists c. split; [done|]. split.
    { pose proof (au_org _ _ _ _ _ Ha) as [_ Hid%bool_decide_eq_true]%List.find_some. exact Hid. }
    apply res_mapM_Forall2 in Hm. eapply Forall2_impl; [exact Hm|]. intros spec out Hout. unfold mbind, res_bind in Hout.
    destruct (rate_for _ _) as [rate|] eqn:Hrate; [|done]. injection Hout as <-. exists rate. split; [done|].
    by rewrite <- T.
  - exists c. split_and!; [done|done|done| |].
    + intros spec decrypt mode key Hin Hm Hr. apply list_elem_of_lookup in Hin as [i Hi]. destruct (Forall2_lookup_l _ _ _ _ _ Hl Hi) as (out & Hi' & rate & _ & ->).
      exists (model_out (oc_org c) (own_providers (oc_org_id c) (sv_db sv)) spec rate). split_and!; [|done|].
      * by eapply list_elem_of_lookup_2.
      * rewrite <- Ho in Hr. apply (resolved_available c (sv_db sv) decrypt mode spec key); [done| |done].
        pose proof listed_specs as Hf. rewrite Forall_lookup in Hf. by apply (Hf i).
    + intros Hby spec out (rate & _ & ->). cbn. unfold model_available. rewrite Hby, bool_decide_eq_true_2 by done.
      rewrite bool_decide_eq_true, own_provider_stored. by rewrite Ho.
Qed.

(** ** Refusals *)

Inductive OperatorRequest :=
| ListPrices | UpsertPrice (body : ModelPriceIn) | DeletePrice (model : pystr) | AdjustCredits (body : AdjustCreditsIn).
Definition operator_route (rq : Request) (q : OperatorRequest) : Priced unit :=
  match q with
  | ListPrices => _ ← list_prices_route rq; m_ret tt
  | UpsertPrice body => _ ← upsert_price_route rq body; m_ret tt
  | DeletePrice model => delete_price_route rq model
  | AdjustCredits body => _ ← adjust_credits_route rq body; m_ret tt
  end.

(** Nothing is committed along the way. *)
Definition pending (w w' : PricedWorld) : Prop := framed uncommitted (pw_api w) (pw_api w').
#[local] Instance pending_preorder : PreOrder pending.
Proof. unfold pending. split; [by intros w|]. intros w1 w2 w3 ? ?. by etrans. Qed.

Lemma on_api_pending {A} (m : M ApiWorld exn A) : steps (framed uncommitted) m → steps pending (on_api m).
Proof. intros Hm w. specialize (Hm (pw_api w)). unfold on_api, pending. by destruct (m (pw_api w)). Qed.
Lemma refresh_pending force : steps pending (refresh_book force).
Proof.
  assert (Hmono : steps pending monotonic) by by intros w.
  unfold refresh_book. apply steps_bind; [tc_solve|destruct force; [apply steps_ret; tc_solve|done]|]. intros now.
  apply steps_bind; [tc_solve|by intros w|]. intros book. destruct (_ && _); [apply steps_ret; tc_solve|].
  apply steps_bind; [tc_solve|apply on_api_pending; repeat framed_step|]. intros rows.
  apply steps_bind; [tc_solve|done|]. intros now' w. done.
Qed.

Ltac priced_step :=
  lazymatch goal with
  | |- steps pending (on_api (user_dep _)) => apply on_api_pending, user_dep_framed
  | |- steps pending (on_api (require_superuser _)) => apply on_api_pending; unfold require_superuser
  | |- steps pending (on_api _) => apply on_api_pending
  | |- steps pending (refresh_book _) => apply refresh_pending
  | |- steps _ (audit_record _) => unfold audit_record
  | |- steps _ (post_entry _ _) => apply post_entry_framed; [done..|congruence]
  | |- steps _ (entry_row _) => unfold entry_row
  | _ => framed_step
  end.

Lemma operator_pending rq q : (∀ k, db_race k = false) → steps pending (operator_route rq q).
Proof.
  intros Hrace. destruct q; cbn [operator_route];
    unfold list_prices_route, upsert_price_route, delete_price_route, adjust_credits_route, superuser_route,
      list_prices, upsert_price, delete_price, adjust_credits;
    repeat priced_step; done.
Qed.

Lemma superuser_refused {B A} rq (check : B → res exn B) body (handler : B → User → Priced A) w :
  (∀ user, signed_in rq user (tables (pw_api w)) → us_is_superuser user = false) →
  wp (superuser_route rq check body handler) (λ _ _, False) (λ _ w', pw_book w' = pw_book w) w.
Proof.
  intros Hno. unfold superuser_route. apply on_api_bind, wp_then_ret, user_dep_bind; [done|]. intros user w1 R1 Hs.
  apply wp_ret, on_api_bind. unfold require_superuser. by rewrite Hno.
Qed.

(** operators only: a request to the operators' routes that is refused, for whatever
    reason, changes no table (while nobody else posts under the key of an adjustment);
    and when the caller is nobody's superuser it is refused,
    and the prices of the process are left alone as well. *)
Theorem operators_only rq q sv book r sv' book' :
  (∀ k, db_race k = false) → serve_priced (operator_route rq q) sv book = (r, sv', book') →
  (is_ok r = false → sv_db sv' = sv_db sv) ∧
  ((∀ user, signed_in rq user (sv_db sv) → us_is_superuser user = false) → is_ok r = false ∧ book' = book).
Proof.
  intros Hrace Heq. unfold serve_priced, session_scope in Heq. set (w0 := mkPriced _ book) in Heq.
  pose proof (operator_pending rq q Hrace w0) as Hp. unfold mbind, M_bind, m_bind in Heq. split.
  - intros Hr. destruct (operator_route rq q w0) as [[[]|e] w1].
    + unfold on_api, on_sql, commit in Heq. pose proof (statement_reads (pw_api w1)) as Hs. unfold on_sql in Hs.
      destruct (statement (ap_session (pw_api w1))) as [[[]|e] s']; [by injection Heq as <- _ _|].
      injection Heq as <- <- _. destruct Hs as (_ & Hc & _). cbn in *. unfold committed in Hc. cbn in Hc.
      etrans; [exact Hc|exact Hp].
    + injection Heq as <- <- _. exact Hp.
  - intros Hno.
    assert (Hw : wp (operator_route rq q) (λ _ _, False) (λ _ w', pw_book w' = book) w0).
    { destruct q; cbn [operator_route]; first [by apply superuser_refused|apply wp_bind;
        eapply wp_mono; [by apply superuser_refused|done|done]]. }
    unfold wp in Hw. destruct (operator_route rq q w0) as [[[]|e] w1]; [done|]. injection Heq as <- _ <-. by split.
Qed.
End admin.

(** ** Concrete operators and catalogues

    An operator and a member of a small organisation, where the theorems about prices,
    credits and the catalogue of models are applied; and where the catalogue promises
    more than a run finds. *)

(** A deployment that has a key for one provider *)
Definition platform_settings : Settings :=
  mkSettings (u "dev") [] (u "1") (u "secret") (u "HS256") 15 30 12 None (Some (u "sk-platform")) None None None true true
    8 6 [] [] (u "none") None None 40 500 600 3600 400000 true 40 100 20 300 5 [] [] 2097152.
Definition platform_api (db : DbEnv) : ApiEnv := {|
  api_tables := ascii_tables; api_vault := toy_vault; api_db := db; api_settings := platform_settings;
  api_redis_fault := λ _, None; api_time := λ _, 0; api_expired := λ _, false;
  api_secret := λ n, u "s" ++ str_of_Z (Z.of_nat n) |}.
Definition office_env (db : DbEnv) : OfficeEnv := {|
  office_api := platform_api db; office_monotonic := λ n, (Z.of_nat n + 1000) * fl_one |}.
#[local] Instance demo_office : OfficeEnv := office_env quiet_db.

Definition operator : User := mkUser (u "u1") (u "a@b.c") (u "h:correct horse") None true true None 0.
Definition operator_db : Db :=
  set_memberships [mkMembership (u "u1") (og_id demo_org) (u "owner")] (set_users [operator] (set_orgs [demo_org] empty_db)).
Definition operator_server : Server := auth_server operator_db.

Lemma answered_priced {A} (x : res exn A * Server * PriceBook) a : x.1.1 = Ok a → x = (Ok a, x.1.2, x.2).
Proof. destruct x as [[r sv] b]. simpl. by intros ->. Qed.

(** ** Prices *)

Definition dearer : ModelPriceIn := mkPriceIn (u "gpt-5") (2 * fl_one) (20 * fl_one) None [].
#[local] Abbreviation priced := (serve_priced (upsert_price_route plain_request dearer) operator_server default_price_book).

Lemma priced_eq : priced = (Ok dearer, priced.1.2, priced.2).
Proof. apply answered_priced. vm_compute. reflexivity. Qed.

Lemma operator_priced_once : priced_once (sv_db operator_server).
Proof. apply NoDup_nil_2. Qed.

Lemma prices_take_effect_witness :
  rate_for priced.2 (u "gpt-5") = Ok (mkRate (2 * fl_one) (20 * fl_one) None) ∧
  ∃ user, us_is_superuser user = true ∧ find_price (u "gpt-5") (sv_db priced.1.2) = Some (price_row dearer (us_id user)).
Proof.
  split; [vm_compute; reflexivity|].
  destruct (proj1 (prices_take_effect plain_request operator_server default_price_book priced.1.2 priced.2
                     operator_priced_once) dearer dearer priced_eq) as (_ & _ & user & _ & Hsu & Hf & _).
  by exists user.
Defined.

Lemma operators_only_witness :
  let asked := serve_priced (operator_route plain_request (UpsertPrice dearer)) (auth_server auth_db) default_price_book in
  sv_db asked.1.2 = auth_db ∧ asked.2 = default_price_book.
Proof.
  cbv zeta. destruct (serve_priced _ _ _) as [[r sv'] book'] eqn:Heq.
  assert (Hno : ∀ user, signed_in plain_request user (sv_db (auth_server auth_db)) → us_is_superuser user = false).
  { intros user (Hf & _). apply List.find_some in Hf as [[<-|[]] _]. reflexivity. }
  assert (Hrace : ∀ n, @db_race quiet_db n = false) by done.
  destruct (@operators_only demo_office plain_request (UpsertPrice dearer) (auth_server auth_db) default_price_book r sv' book' Hrace Heq)
    as [Hdb Hrefused].
  destruct (Hrefused Hno) as [Hr Hb]. by split; [apply Hdb|].
Defined.

(** The price book is told before the commit: a commit that fails leaves the process
    charging a price that no table has. *)
Lemma price_published_before_commit :
  let lost := serve_priced (H := office_env (failing_db 4 connection_lost))
                (upsert_price_route (H := office_env (failing_db 4 connection_lost)) plain_request dearer)
                operator_server default_price_book in
  is_ok lost.1.1 = false ∧ db_prices (sv_db lost.1.2) = [] ∧
  rate_for lost.2 (u "gpt-5") = Ok (mkRate (2 * fl_one) (20 * fl_one) None).
Proof. split_and!; vm_compute; reflexivity. Qed.

(** ** Credits *)

Definition adjusting (key : string) : AdjustCreditsIn := mkAdjust (og_id demo_org) 500 (u "goodwill") (u key).
#[local] Abbreviation adjusted :=
  (serve_priced (adjust_credits_route plain_request (adjusting "goodwill-1")) operator_server default_price_book).

Lemma adjustment_is_a_posting_witness :
  map og_credits_cents (db_orgs (sv_db adjusted.1.2)) = [500] ∧
  ∃ user d, (∃ e, posts (adjustment (adjusting "goodwill-1") user) operator_db d e) ∧ db_ledger (sv_db adjusted.1.2) = db_ledger d.
Proof.
  split; [vm_compute; reflexivity|].
  assert (Hr : is_ok adjusted.1.1 = true) by (vm_compute; reflexivity).
  destruct adjusted as [[r sv'] book'] eqn:Heq. destruct r as [out|e]; [|discriminate Hr].
  destruct (adjustment_is_a_posting plain_request (adjusting "goodwill-1") operator_server default_price_book out sv' book' Heq)
    as (user & e & d & row & _ & _ & _ & [Hp|(k & Hk & _)] & Hl & _); [|discriminate Hk].
  exists user, d. split; [by exists e|exact Hl].
Defined.

(** Keys of the ledger are one namespace: an entry posted under the key of a run stands
    in for the charge of that run. *)
Lemma entry_stands_in_for_charge :
  let posted := serve_priced (adjust_credits_route plain_request (adjusting "run:r-0001")) operator_server default_price_book in
  let charged := @charge_run quiet_db platform_settings (og_id demo_org) (u "r-0001") 90000000 (open_session (sv_db posted.1.2)) in
  is_ok posted.1.1 = true ∧ (is_ok charged.1 = true ∧ ss_working charged.2 = sv_db posted.1.2).
Proof. cbv zeta. split_and!; vm_compute; reflexivity. Qed.

(** ** The catalogue of models *)

#[local] Abbreviation listed := (serve_priced (list_models_route plain_request (og_id demo_org)) operator_server default_price_book).

Lemma runnable_models_listed_witness :
  ∃ l c, listed.1.1 = Ok l ∧ oc_org_id c = og_id demo_org ∧ Forall2 (quoted c operator_db listed.2) (list_models None) l.
Proof.
  assert (Hr : is_ok listed.1.1 = true) by (vm_compute; reflexivity).
  destruct listed as [[r sv'] book'] eqn:Heq. destruct r as [l|e]; [|discriminate Hr].
  destruct (runnable_models_listed plain_request (og_id demo_org) operator_server default_price_book l sv' book' Heq)
    as (c & _ & Ho & Hl & _).
  exists l, c. split; [reflexivity|]. split; [exact Ho|exact Hl].
Defined.

(** What the catalogue says of a model, and whether a run of the organisation finds a key *)
Definition offered (mode own model : string) : bool * bool :=
  let org := mkOrg (u "o") (u "Acme") (u "acme") (u mode) 0 true in
  let keys := [mkApiKey (u "k") (u "o") (u own) (u "c") [] [] true None None None] in
  match get_spec (u model), key_mode_of (u mode) with
  | Ok spec, Ok m =>
      (model_available org (own_providers (u "o") (set_api_keys keys empty_db)) spec,
       is_ok (resolve_spec platform_settings (stored_key (set_api_keys keys empty_db)) (λ c _, Ok c) m (u "o") (u model)))
  | _, _ => (false, false)
  end.

(** In managed mode a key of the organisation's own makes a model available that its
    runs cannot call; in hybrid mode a key of the platform's does. *)
Lemma available_but_not_runnable :
  offered "managed" "anthropic" "claude-opus-5" = (true, false) ∧
  offered "hybrid" "anthropic" "gpt-5" = (true, false) ∧
  offered "byok" "anthropic" "claude-opus-5" = (true, true).
Proof. split_and!; vm_compute; reflexivity. Qed.
