(* ===== verification/Adapters.v ===== *)
(** * The provider adapters (src/core/llm/providers/)

    One neutral request goes to four vendors' client libraries, and what they answer
    comes back as one result.  The libraries are arguments ([Sdk]): given what an
    adapter asks, the pieces of the reply that arrived, in order, and the error that
    ended it, if any.  An adapter's reply is a function of these: the text it hands to
    [on_token], piece by piece, and what it returns or raises. *)

From S2P Require Import Prelude PyStr PyFloat PyVal PyJson PyDumps Registry Providers.

Definition str_key (k : string) (v : pyval) : pystr * pyval := (u k, v).
Definition dict (l : list (pystr * pyval)) : pyval := VDict l.
Definition text_or_none (s : pystr) : pyval := match s with [] => VNone | _ => VStr s end.
Definition role_text (r : role) : pystr := match r with User => u "user" | Assistant => u "assistant" end.
(** A string that is there and not empty *)
Definition present (o : option pystr) : option pystr := match o with Some (_ :: _) => o | _ => None end.
Definition count_or_zero (o : option Z) : Z := default 0 o.

(** The errors of the Anthropic and OpenAI libraries the adapters tell apart *)
Inductive SdkError :=
| RateLimited (text : pystr)
| StatusError (code : Z) (text message : pystr)
| ConnectionFailed (text : pystr)
| SdkFailure (e : exn).
(** and of google-genai *)
Inductive GenaiError :=
| ClientError (code : Z) (text : pystr)
| ServerError (text : pystr)
| GenaiFailure (e : exn).

(** ** Anthropic (anthropic_provider.py) *)

Inductive Block := TextBlock (text : pystr) | ToolUse (id name : pystr) (input : pyval) | OtherBlock.
Record AnthropicUsage := mkAnthropicUsage {
  au_input_tokens : Z; au_output_tokens : Z; au_cache_read : option Z; au_cache_creation : option Z;
  au_dump : list (pystr * pyval) }.
Record AnthropicMessage := mkAnthropicMessage {
  am_stop_reason : option pystr; am_stop_category : option pystr; am_stop_explanation : option pystr;
  am_content : list Block; am_usage : AnthropicUsage }.

Section anthropic.
Context `{PyTables}.

Definition to_anthropic (m : Message) : pyval :=
  match m_tool_results m, m_tool_calls m with
  | (_ :: _) as results, _ =>
      dict [str_key "role" (VStr (u "user"));
            str_key "content" (VList (map (λ r, dict [str_key "type" (VStr (u "tool_result"));
              str_key "tool_use_id" (VStr (tr_tool_call_id r)); str_key "content" (VStr (tr_content r));
              str_key "is_error" (VBool (tr_is_error r))]) results))]
  | [], (_ :: _) as calls =>
      dict [str_key "role" (VStr (u "assistant"));
            str_key "content" (VList (match m_content m with
              | [] => []
              | text => [dict [str_key "type" (VStr (u "text")); str_key "text" (VStr text)]]
              end ++ map (λ c, dict [str_key "type" (VStr (u "tool_use")); str_key "id" (VStr (tc_id c));
                str_key "name" (VStr (tc_name c)); str_key "input" (VDict (tc_arguments c))]) calls))]
  | [], [] => dict [str_key "role" (VStr (role_text (m_role m))); str_key "content" (VStr (m_content m))]
  end.

Definition is_anthropic_effort (s : ModelSpec) : bool := match sp_effort_style s with ES_ANTHROPIC => true | _ => false end.

Definition anthropic_params (rq : CompletionRequest) : list (pystr * pyval) :=
  let spec := rq_spec rq in
  [str_key "model" (VStr (sp_id spec)); str_key "max_tokens" (VInt (Z.min (rq_max_tokens rq) (sp_max_output_tokens spec)));
   str_key "messages" (VList (map to_anthropic (rq_messages rq)))]
  ++ match rq_system rq with
     | [] => []
     | system =>
         [str_key "system" (VList [dict ([str_key "type" (VStr (u "text")); str_key "text" (VStr system)]
            ++ (if sp_supports_prompt_cache spec && rq_cache_system_prompt rq
                then [str_key "cache_control" (dict [str_key "type" (VStr (u "ephemeral"))])] else []))])]
     end
  ++ match rq_tools rq with
     | [] => []
     | tools =>
         [str_key "tools" (VList (map (λ t, dict [str_key "name" (VStr (ts_name t));
            str_key "description" (VStr (ts_description t)); str_key "input_schema" (ts_parameters t)]) tools))]
     end
  ++ if is_anthropic_effort spec
     then [str_key "thinking" (dict [str_key "type" (VStr (u "adaptive"))]);
           str_key "output_config" (dict [str_key "effort" (VStr (rq_effort rq))])]
     else [].

Definition anthropic_error (e : SdkError) : exn :=
  match e with
  | RateLimited text => RetryableLLMError (u "anthropic rate limit: " ++ text)
  | StatusError code text message =>
      if 500 <=? code then RetryableLLMError (u "anthropic server error " ++ str_of_Z code)
      else
        let lowered := lower text in
        if contains (u "context") lowered && (contains (u "long") lowered || contains (u "window") lowered)
        then ContextWindowExceeded text
        else LLMError (u "anthropic error " ++ str_of_Z code ++ u ": " ++ message)
  | ConnectionFailed text => RetryableLLMError (u "anthropic connection error: " ++ text)
  | SdkFailure e => e
  end.

(** The loop over the blocks of a message *)
Fixpoint read_blocks (blocks : list Block) : res exn (list pystr * list ToolCallRequest) :=
  match blocks with
  | [] => Ok ([], [])
  | TextBlock text :: rest => t ← read_blocks rest; Ok (text :: t.1, t.2)
  | ToolUse id name input :: rest =>
      arguments ← parse_arguments input;
      t ← read_blocks rest;
      Ok (t.1, mkCall id name arguments :: t.2)
  | OtherBlock :: rest => read_blocks rest
  end.

Definition anthropic_usage (raw : AnthropicUsage) : Usage :=
  let cache_read := count_or_zero (au_cache_read raw) in
  let cache_write := count_or_zero (au_cache_creation raw) in
  mkUsage (au_input_tokens raw + cache_read + cache_write) (au_output_tokens raw) cache_read 0 (au_dump raw).

Definition anthropic_result (spec : ModelSpec) (m : AnthropicMessage) : res exn LLMResult :=
  if bool_decide (am_stop_reason m = Some (u "refusal"))
  then Err (RefusalError (am_stop_category m) (am_stop_explanation m))
  else if bool_decide (am_stop_reason m = Some (u "model_context_window_exceeded"))
  then Err (ContextWindowExceeded (u "conversation exceeded the model context window"))
  else
    t ← read_blocks (am_content m);
    Ok (mkResult (mjoin t.1) (sp_id spec) (u "anthropic") (anthropic_usage (am_usage m)) (am_stop_reason m) t.2).
End anthropic.

(** ** OpenAI, xAI and OpenRouter (openai_compat.py) *)

Record Fragment := mkFragment { fr_index : Z; fr_id : option pystr; fr_function : option (option pystr * option pystr) }.
Record Choice := mkChoice { ch_finish_reason : option pystr; ch_content : option pystr; ch_tool_calls : list Fragment }.
Record ChatUsage := mkChatUsage {
  cu_prompt_tokens : option Z; cu_completion_tokens : option Z; cu_cached_tokens : option Z;
  cu_reasoning_tokens : option Z; cu_dump : list (pystr * pyval) }.
Record ChatEvent := mkChatEvent { ce_usage : option ChatUsage; ce_choices : list Choice }.

(** [BASE_URLS] *)
Definition base_url (p : Provider) : option pystr :=
  match p with
  | XAI => Some (u "https://api.x.ai/v1") | OPENROUTER => Some (u "https://openrouter.ai/api/v1") | _ => None
  end.

Definition chat_usage (raw : ChatUsage) : Usage :=
  mkUsage (count_or_zero (cu_prompt_tokens raw)) (count_or_zero (cu_completion_tokens raw))
    (count_or_zero (cu_cached_tokens raw)) (count_or_zero (cu_reasoning_tokens raw)) (cu_dump raw).
Definition no_usage : Usage := mkUsage 0 0 0 0 [].

Section openai.
Context `{PyTables}.

Definition call_text (c : ToolCallRequest) : res exn pyval :=
  arguments ← dumps (VDict (tc_arguments c));
  Ok (dict [str_key "id" (VStr (tc_id c)); str_key "type" (VStr (u "function"));
            str_key "function" (dict [str_key "name" (VStr (tc_name c)); str_key "arguments" (VStr arguments)])]).

Definition to_openai (m : Message) : res exn (list pyval) :=
  match m_tool_results m, m_tool_calls m with
  | (_ :: _) as results, _ =>
      Ok (map (λ r, dict [str_key "role" (VStr (u "tool")); str_key "tool_call_id" (VStr (tr_tool_call_id r));
                          str_key "content" (VStr (tr_content r))]) results)
  | [], (_ :: _) as calls =>
      texts ← res_mapM call_text calls;
      Ok [dict [str_key "role" (VStr (u "assistant")); str_key "content" (text_or_none (m_content m));
                str_key "tool_calls" (VList texts)]]
  | [], [] => Ok [dict [str_key "role" (VStr (role_text (m_role m))); str_key "content" (VStr (m_content m))]]
  end.

(** [OPENAI_EFFORT[request.effort]], [GOOGLE_THINKING_BUDGET[request.effort]] *)
Definition effort_entry {V} (table : list (pystr * V)) (effort : pystr) : res exn V :=
  match assoc effort table with Some v => Ok v | None => Err (KeyError (repr_str effort)) end.

Definition openai_params (rq : CompletionRequest) : res exn (list (pystr * pyval)) :=
  let spec := rq_spec rq in
  messages ← res_mapM to_openai (rq_messages rq);
  reasoning ← match sp_effort_style spec with
              | ES_OPENAI_REASONING => e ← effort_entry OPENAI_EFFORT (rq_effort rq); Ok [str_key "reasoning_effort" (VStr e)]
              | _ => Ok []
              end;
  Ok ([str_key "model" (VStr (sp_id spec));
       str_key "messages" (VList (match rq_system rq with
         | [] => []
         | system => [dict [str_key "role" (VStr (u "system")); str_key "content" (VStr system)]]
         end ++ mjoin messages));
       str_key "max_completion_tokens" (VInt (Z.min (rq_max_tokens rq) (sp_max_output_tokens spec)));
       str_key "stream" (VBool true); str_key "stream_options" (dict [str_key "include_usage" (VBool true)]);
       str_key "timeout" (VFloat (FFin (rq_timeout_seconds rq)))]
      ++ reasoning
      ++ match rq_tools rq with
         | (_ :: _) as tools =>
             [str_key "tools" (VList (map (λ t, dict [str_key "type" (VStr (u "function"));
                str_key "function" (dict [str_key "name" (VStr (ts_name t)); str_key "description" (VStr (ts_description t));
                                          str_key "parameters" (ts_parameters t)])]) tools))]
         | [] =>
             if rq_json_mode rq && sp_supports_json_mode spec
             then [str_key "response_format" (dict [str_key "type" (VStr (u "json_object"))])] else []
         end).

Definition openai_error (name : pystr) (e : SdkError) : exn :=
  match e with
  | RateLimited text => RetryableLLMError (name ++ u " rate limit: " ++ text)
  | StatusError code text _ =>
      if 500 <=? code then RetryableLLMError (name ++ u " server error " ++ str_of_Z code)
      else
        let detail := lower text in
        if contains (u "context") detail && (contains (u "length") detail || contains (u "window") detail)
        then ContextWindowExceeded text
        else LLMError (name ++ u " error " ++ str_of_Z code ++ u ": " ++ text)
  | ConnectionFailed text => RetryableLLMError (name ++ u " connection error: " ++ text)
  | SdkFailure e => e
  end.

(** The locals of the loop over the stream *)
Record Slot := mkSlot { sl_id : pystr; sl_name : pystr; sl_arguments : pystr }.
Record ChatState := mkChat {
  cs_parts : list pystr; cs_usage : Usage; cs_stop_reason : option pystr; cs_pending : list (Z * Slot) }.
Definition chat_start : ChatState := mkChat [] no_usage None [].

Definition empty_slot : Slot := mkSlot [] [] [].
Definition fill_slot (f : Fragment) (s : Slot) : Slot :=
  let id := default (sl_id s) (present (fr_id f)) in
  match fr_function f with
  | None => mkSlot id (sl_name s) (sl_arguments s)
  | Some (name, arguments) =>
      mkSlot id (default (sl_name s) (present name)) (sl_arguments s ++ default [] arguments)
  end.
(** [pending.setdefault(index, ...)], and what is done to the slot *)
Fixpoint on_fragment (f : Fragment) (pending : list (Z * Slot)) : list (Z * Slot) :=
  match pending with
  | [] => [(fr_index f, fill_slot f empty_slot)]
  | (i, s) :: rest =>
      if bool_decide (i = fr_index f) then (i, fill_slot f s) :: rest else (i, s) :: on_fragment f rest
  end.

Definition on_choice (st : ChatState) (c : Choice) : ChatState :=
  mkChat (match present (ch_content c) with Some text => cs_parts st ++ [text] | None => cs_parts st end) (cs_usage st)
    (match present (ch_finish_reason c) with Some r => Some r | None => cs_stop_reason st end)
    (fold_left (λ pending f, on_fragment f pending) (ch_tool_calls c) (cs_pending st)).
Definition on_event (st : ChatState) (e : ChatEvent) : ChatState :=
  fold_left on_choice (ce_choices e)
    (mkChat (cs_parts st) (match ce_usage e with Some raw => chat_usage raw | None => cs_usage st end)
       (cs_stop_reason st) (cs_pending st)).

#[export] Instance index_le_dec : ∀ a b : Z * Slot, Decision (a.1 ≤ b.1).
Proof. apply _. Defined.
Definition sorted_pending (pending : list (Z * Slot)) : list (Z * Slot) := merge_sort (λ a b, a.1 ≤ b.1) pending.

Definition slot_call (p : Z * Slot) : res exn ToolCallRequest :=
  arguments ← parse_arguments (VStr (sl_arguments p.2));
  Ok (mkCall (match sl_id p.2 with [] => u "call_" ++ str_of_Z p.1 | id => id end) (sl_name p.2) arguments).
Definition named (p : Z * Slot) : bool := match sl_name p.2 with [] => false | _ => true end.

Definition openai_result (name : pystr) (spec : ModelSpec) (st : ChatState) : res exn LLMResult :=
  if bool_decide (cs_stop_reason st = Some (u "content_filter"))
  then Err (RefusalError (Some (u "content_filter")) (Some (u "provider content filter blocked the response")))
  else
    tool_calls ← res_mapM slot_call (List.filter named (sorted_pending (cs_pending st)));
    Ok (mkResult (mjoin (cs_parts st)) (sp_id spec) name (cs_usage st) (cs_stop_reason st) tool_calls).
End openai.

(** ** Google (google_provider.py) *)

Inductive GPart :=
| GText (text : pystr)
| GCall (name : pystr) (args : list (pystr * pyval))
| GResponse (name : pystr) (response : list (pystr * pyval)).
Record GContent := mkContent { gc_role : pystr; gc_parts : list GPart }.
Record GDeclaration := mkDeclaration { gd_name : pystr; gd_description : pystr; gd_parameters : pyval }.
Record GConfig := mkGConfig {
  gf_max_output_tokens : Z; gf_system_instruction : option pystr; gf_thinking_budget : option Z;
  gf_functions : option (list GDeclaration); gf_response_mime_type : option pystr }.

(** A part of a reply: its function call, if any, and its text *)
Record GReplyCall := mkReplyCall { gr_id : option pystr; gr_name : option pystr; gr_args : option (list (pystr * pyval)) }.
Record GReplyPart := mkReplyPart { gp_function_call : option GReplyCall; gp_text : option pystr }.
Record GCandidate := mkCandidate { gn_finish_reason : option pystr; gn_parts : list GReplyPart }.
Record GUsage := mkGUsage { gu_prompt : option Z; gu_cached : option Z; gu_candidates : option Z; gu_thoughts : option Z }.
Record GChunk := mkChunk { gk_candidates : list GCandidate; gk_usage : option GUsage }.

Definition UNSUPPORTED_SCHEMA_KEYS : list pystr :=
  [u "additionalProperties"; u "$schema"; u "$id"; u "definitions"; u "$defs"; u "examples"].
(** [_clean_schema] on a value that is a dict, and what it does to the others *)
Fixpoint clean_schema (v : pyval) : pyval :=
  match v with
  | VDict d =>
      VDict ((fix go d := match d with
                          | [] => []
                          | (k, v) :: d' =>
                              if bool_decide (k ∈ UNSUPPORTED_SCHEMA_KEYS) then go d' else (k, clean_schema v) :: go d'
                          end) d)
  | VList l =>
      VList ((fix go l := match l with
                          | [] => []
                          | v :: l' => match v with VDict _ => clean_schema v | _ => v end :: go l'
                          end) l)
  | _ => v
  end.

Definition to_google (m : Message) : GContent :=
  match m_tool_results m, m_tool_calls m with
  | (_ :: _) as results, _ =>
      mkContent (u "user") (map (λ r, GResponse (tr_name r)
        [(if tr_is_error r then u "error" else u "result", VStr (tr_content r))]) results)
  | [], (_ :: _) as calls =>
      mkContent (u "model") (match m_content m with [] => [] | text => [GText text] end
                             ++ map (λ c, GCall (tc_name c) (tc_arguments c)) calls)
  | [], [] =>
      mkContent (match m_role m with Assistant => u "model" | User => u "user" end) [GText (m_content m)]
  end.

Definition google_usage (meta : GUsage) : Usage :=
  let prompt := count_or_zero (gu_prompt meta) in
  let cached := count_or_zero (gu_cached meta) in
  let output := count_or_zero (gu_candidates meta) in
  let thoughts := count_or_zero (gu_thoughts meta) in
  mkUsage prompt (output + thoughts) cached thoughts
    [str_key "prompt_token_count" (VInt prompt); str_key "candidates_token_count" (VInt output);
     str_key "thoughts_token_count" (VInt thoughts); str_key "cached_content_token_count" (VInt cached)].

Definition BLOCKED : list pystr :=
  [u "SAFETY"; u "PROHIBITED_CONTENT"; u "BLOCKLIST"; u "SPII"; u "IMAGE_SAFETY"].

Section google.
Context `{PyTables} (minted : nat → pystr).         (* the ids of [uuid.uuid4] *)

Definition google_config (rq : CompletionRequest) : res exn GConfig :=
  let spec := rq_spec rq in
  thinking ← match sp_effort_style spec with
             | ES_GOOGLE_THINKING => b ← effort_entry GOOGLE_THINKING_BUDGET (rq_effort rq); Ok (Some b)
             | _ => Ok None
             end;
  Ok (mkGConfig (Z.min (rq_max_tokens rq) (sp_max_output_tokens spec)) (present (Some (rq_system rq))) thinking
        (match rq_tools rq with
         | [] => None
         | tools => Some (map (λ t, mkDeclaration (ts_name t) (ts_description t) (clean_schema (ts_parameters t))) tools)
         end)
        (match rq_tools rq with
         | [] => if rq_json_mode rq && sp_supports_json_mode spec then Some (u "application/json") else None
         | _ => None
         end)).

Definition google_error (e : GenaiError) : exn :=
  match e with
  | ClientError code text =>
      if code =? 429 then RetryableLLMError (u "google rate limit: " ++ text)
      else if contains (u "token") (lower text) && contains (u "exceed") (lower text) then ContextWindowExceeded text
      else LLMError (u "google error " ++ str_of_Z code ++ u ": " ++ text)
  | ServerError text => RetryableLLMError (u "google server error: " ++ text)
  | GenaiFailure e => e
  end.

(** The locals of the loop over the stream *)
Record GeminiState := mkGemini {
  gs_parts : list pystr; gs_tool_calls : list ToolCallRequest; gs_usage : Usage; gs_stop_reason : option pystr }.
Definition gemini_start : GeminiState := mkGemini [] [] no_usage None.

Definition reply_call (p : GReplyPart) : option (pystr * GReplyCall) :=
  match gp_function_call p with
  | Some call => match present (gr_name call) with Some name => Some (name, call) | None => None end
  | None => None
  end.
Definition on_part (st : GeminiState) (p : GReplyPart) : GeminiState :=
  match reply_call p with
  | Some (name, call) =>
      let id := default (u "gem_" ++ minted (length (gs_tool_calls st))) (present (gr_id call)) in
      mkGemini (gs_parts st) (gs_tool_calls st ++ [mkCall id name (default [] (gr_args call))]) (gs_usage st)
        (gs_stop_reason st)
  | None =>
      match present (gp_text p) with
      | Some text => mkGemini (gs_parts st ++ [text]) (gs_tool_calls st) (gs_usage st) (gs_stop_reason st)
      | None => st
      end
  end.
Definition on_candidate (st : GeminiState) (c : GCandidate) : GeminiState :=
  fold_left on_part (gn_parts c)
    (mkGemini (gs_parts st) (gs_tool_calls st) (gs_usage st)
       (match gn_finish_reason c with Some r => Some r | None => gs_stop_reason st end)).
Definition on_chunk (st : GeminiState) (k : GChunk) : GeminiState :=
  let st' := fold_left on_candidate (gk_candidates k) st in
  mkGemini (gs_parts st') (gs_tool_calls st')
    (match gk_usage k with Some meta => google_usage meta | None => gs_usage st' end) (gs_stop_reason st').

Definition is_blocked (reason : pystr) : bool := existsb (λ flag, contains flag (upper reason)) BLOCKED.
Definition google_result (spec : ModelSpec) (st : GeminiState) : res exn LLMResult :=
  match gs_stop_reason st with
  | Some ((_ :: _) as reason) =>
      if is_blocked reason
      then Err (RefusalError (Some reason) (Some (u "Gemini safety filter blocked the response")))
      else Ok (mkResult (mjoin (gs_parts st)) (sp_id spec) (u "google") (gs_usage st) (gs_stop_reason st) (gs_tool_calls st))
  | _ => Ok (mkResult (mjoin (gs_parts st)) (sp_id spec) (u "google") (gs_usage st) (gs_stop_reason st) (gs_tool_calls st))
  end.
End google.

(** ** One adapter per provider *)

(** The client libraries: what arrives for a request, and how it ends *)
Class Sdk := {
  sdk_tables :: PyTables;
  sdk_anthropic : Z → list (pystr * pyval) → list pystr * (SdkError + AnthropicMessage);
  sdk_openai : option pystr → list (pystr * pyval) → list ChatEvent * option SdkError;
  sdk_google : pystr → list GContent → GConfig → list GChunk * option GenaiError;
  sdk_minted : nat → pystr }.

Section adapters.
Context `{Sdk}.

(** A reply: the pieces for [on_token], and what [complete] returns or raises *)
Abbreviation Reply := (list pystr * res exn LLMResult)%type.

Definition anthropic_complete (rq : CompletionRequest) : Reply :=
  let '(chunks, r) := sdk_anthropic (rq_timeout_seconds rq) (anthropic_params rq) in
  (chunks, match r with inl e => Err (anthropic_error e) | inr m => anthropic_result (rq_spec rq) m end).

Definition openai_complete (p : Provider) (rq : CompletionRequest) : Reply :=
  match openai_params rq with
  | Err e => ([], Err e)
  | Ok params =>
      let '(events, failed) := sdk_openai (base_url p) params in
      let st := fold_left on_event events chat_start in
      (cs_parts st, match failed with
                    | Some e => Err (openai_error (provider_value p) e)
                    | None => openai_result (provider_value p) (rq_spec rq) st
                    end)
  end.

Definition google_complete (rq : CompletionRequest) : Reply :=
  match google_config rq with
  | Err e => ([], Err e)
  | Ok config =>
      let '(chunks, failed) := sdk_google (sp_id (rq_spec rq)) (map to_google (rq_messages rq)) config in
      let st := fold_left (on_chunk sdk_minted) chunks gemini_start in
      (gs_parts st, match failed with Some e => Err (google_error e) | None => google_result (rq_spec rq) st end)
  end.

(** [_build_adapter], and the [complete] of what it builds *)
Definition adapter_reply (p : Provider) (rq : CompletionRequest) : Reply :=
  match p with
  | ANTHROPIC => anthropic_complete rq
  | GOOGLE => google_complete rq
  | OPENAI | XAI | OPENROUTER => openai_complete p rq
  end.
End adapters.
