(* ===== verification/AdaptersSafety.v ===== *)
(** * What the adapters keep

    Tool calls that arrive in pieces are put together as they were sent; results go
    back next to the calls they answer, in every vendor's shape; the text that was
    streamed is the text of the result; the vendors' errors are told apart by whether a
    retry can help; and no schema reaches Gemini with a keyword it rejects. *)

From S2P Require Import Prelude PyStr PyFloat PyVal PyJson PyDumps Config State Budget Registry Providers Pricing Keys Events.
From S2P Require Import World Router ToolBase Engine EngineTurn Adapters.

(** ** Tool calls in pieces *)

Section fragments.
Context `{PyTables}.

(** The fragments of a stream, in the order they arrive *)
Definition fragments (events : list ChatEvent) : list Fragment :=
  mjoin (map (λ e, mjoin (map ch_tool_calls (ce_choices e))) events).
(** What the fragments of one call carry together: the last id and name that are not
    empty, and the texts of the arguments one after the other *)
Definition last_present (l : list (option pystr)) : pystr := fold_left (λ acc o, default acc (present o)) l [].
Definition function_of (f : Fragment) : option pystr * option pystr := default (None, None) (fr_function f).
Definition pieces (i : Z) (fs : list Fragment) : list Fragment := List.filter (λ f, bool_decide (fr_index f = i)) fs.
Definition carried (fs : list Fragment) : Slot :=
  mkSlot (last_present (map fr_id fs)) (last_present (map (λ f, (function_of f).1) fs))
    (mjoin (map (λ f, default [] (function_of f).2) fs)).

Lemma fold_fill fs s :
  fold_left (λ s f, fill_slot f s) fs s =
  mkSlot (fold_left (λ acc o, default acc (present o)) (map fr_id fs) (sl_id s))
    (fold_left (λ acc o, default acc (present o)) (map (λ f, (function_of f).1) fs) (sl_name s))
    (sl_arguments s ++ mjoin (map (λ f, default [] (function_of f).2) fs)).
Proof.
  revert s. induction fs as [|f fs IH]; intros s; simpl; [destruct s; by rewrite app_nil_r|].
  rewrite IH. unfold fill_slot, function_of. destruct (fr_function f) as [[name args]|]; simpl.
  - by rewrite <- app_assoc.
  - done.
Qed.

Fixpoint slot_at (i : Z) (pending : list (Z * Slot)) : option Slot :=
  match pending with
  | [] => None
  | (j, s) :: rest => if bool_decide (j = i) then Some s else slot_at i rest
  end.

Lemma slot_at_fragment i f pending :
  slot_at i (on_fragment f pending) =
  if bool_decide (fr_index f = i) then Some (fill_slot f (default empty_slot (slot_at i pending))) else slot_at i pending.
Proof.
  induction pending as [|[j s] rest IH]; simpl; [done|].
  destruct (decide (j = fr_index f)) as [->|Hj].
  - rewrite bool_decide_eq_true_2 by done. simpl. by case_bool_decide.
  - rewrite (bool_decide_eq_false_2 (j = fr_index f)) by done. simpl. rewrite IH.
    destruct (decide (j = i)) as [->|Hi]; [|by rewrite !(bool_decide_eq_false_2 (j = i))].
    rewrite !(bool_decide_eq_true_2 (i = i)) by done. by rewrite bool_decide_eq_false_2 by congruence.
Qed.

Lemma keys_fragment f pending :
  (on_fragment f pending).*1 = if bool_decide (fr_index f ∈ pending.*1) then pending.*1 else pending.*1 ++ [fr_index f].
Proof.
  induction pending as [|[j s] rest IH]; csimpl; [done|].
  destruct (decide (j = fr_index f)) as [->|Hj].
  - rewrite bool_decide_eq_true_2 by done. csimpl. rewrite bool_decide_eq_true_2; [done|]. by left.
  - rewrite (bool_decide_eq_false_2 (j = fr_index f)) by done. csimpl. rewrite IH.
    destruct (decide (fr_index f ∈ rest.*1)) as [Hin|Hin].
    + rewrite !bool_decide_eq_true_2; [done|by right|done].
    + rewrite !bool_decide_eq_false_2; [done| |done]. by intros [|]%elem_of_cons.
Qed.

Lemma folded_slots fs pending i :
  slot_at i (fold_left (λ p f, on_fragment f p) fs pending) =
  match pieces i fs, slot_at i pending with
  | [], o => o
  | ps, o => Some (fold_left (λ s f, fill_slot f s) ps (default empty_slot o))
  end.
Proof.
  revert pending. induction fs as [|f fs IH]; intros pending; simpl; [done|].
  rewrite IH, slot_at_fragment. destruct (bool_decide (fr_index f = i)); simpl; [|done].
  by destruct (pieces i fs), (slot_at i pending).
Qed.

Lemma folded_keys fs pending :
  NoDup pending.*1 → NoDup (fold_left (λ p f, on_fragment f p) fs pending).*1.
Proof.
  revert pending. induction fs as [|f fs IH]; intros pending Hp; simpl; [done|]. apply IH. rewrite keys_fragment.
  case_bool_decide as Hin; [done|]. apply NoDup_app. split_and!; [done| |apply NoDup_singleton].
  by intros x Hx ->%list_elem_of_singleton.
Qed.

Lemma slot_at_elem i s pending : NoDup pending.*1 → (i, s) ∈ pending ↔ slot_at i pending = Some s.
Proof.
  induction pending as [|[j t] rest IH]; csimpl; [by split; [intros ?%elem_of_nil|]|]. intros [Hn Hd]%NoDup_cons.
  rewrite elem_of_cons. destruct (decide (j = i)) as [->|Hj].
  - rewrite bool_decide_eq_true_2 by done. split; [|intros [= ->]; by left]. intros [[= ->]|Hin]; [done|].
    destruct Hn. apply list_elem_of_fmap. by exists (i, s).
  - rewrite bool_decide_eq_false_2, <- IH by done. split; [intros [[= -> _]|]; done|by right].
Qed.

Lemma pending_folded events st :
  cs_pending (fold_left on_event events st) = fold_left (λ p f, on_fragment f p) (fragments events) (cs_pending st).
Proof.
  revert st. induction events as [|e events IH]; intros st; [done|]. cbn [fold_left]. rewrite IH. unfold fragments.
  cbn [map mjoin list_join]. rewrite fold_left_app. f_equal. unfold on_event.
  set (st' := mkChat _ _ _ _). change (cs_pending st) with (cs_pending st'). generalize st'. clear.
  induction (ce_choices e) as [|c cs IH]; intros st; [done|]. cbn [fold_left map mjoin list_join].
  rewrite IH, fold_left_app. done.
Qed.

(** The index order is strict on lists whose keys are distinct. *)
Definition index_lt (a b : Z * Slot) : Prop := a.1 < b.1.
#[local] Instance index_lt_antisymm : AntiSymm (=) index_lt.
Proof. unfold index_lt. intros a b ? ?. lia. Qed.
#[local] Instance index_le_trans : Transitive (λ a b : Z * Slot, a.1 ≤ b.1).
Proof. intros a b c ? ?. lia. Qed.
#[local] Instance index_le_total : Total (λ a b : Z * Slot, a.1 ≤ b.1).
Proof. intros a b. lia. Qed.

Lemma sorted_strictly l : StronglySorted (λ a b : Z * Slot, a.1 ≤ b.1) l → NoDup l.*1 → StronglySorted index_lt l.
Proof.
  induction 1 as [|a l Hl IH Ha]; csimpl; [constructor|]. intros [Hn Hd]%NoDup_cons. constructor; [by apply IH|].
  rewrite Forall_forall in Ha |- *. intros b Hb. specialize (Ha b Hb). unfold index_lt.
  assert (a.1 ≠ b.1); [|lia]. intros Hab. apply Hn. rewrite Hab. apply list_elem_of_fmap. by exists b.
Qed.

Lemma sorted_pending_unique pending l :
  NoDup pending.*1 → StronglySorted index_lt l → (∀ p, p ∈ l ↔ p ∈ pending) → sorted_pending pending = l.
Proof.
  intros Hn Hl Hin. unfold sorted_pending.
  assert (Hperm : merge_sort (λ a b : Z * Slot, a.1 ≤ b.1) pending ≡ₚ pending) by apply merge_sort_Permutation.
  apply (StronglySorted_unique index_lt); [|done|].
  - apply sorted_strictly; [apply (StronglySorted_merge_sort _)|]. by rewrite Hperm.
  - rewrite Hperm. apply NoDup_Permutation; [by apply (NoDup_fmap_1 fst)| |by intros p; rewrite Hin].
    clear -Hl. induction Hl as [|a l Hl IH Ha]; constructor; [|done]. intros Hin. rewrite Forall_forall in Ha.
    specialize (Ha a Hin). unfold index_lt in Ha. lia.
Qed.

(** The fragments of [fs] with index [i] carry the call [c]. *)
Definition carries (fs : list Fragment) (i : Z) (c : ToolCallRequest) : Prop :=
  pieces i fs ≠ [] ∧ plain (VDict (tc_arguments c)) ∧
  ∃ text, dumps (VDict (tc_arguments c)) = Ok text ∧ text ≠ [] ∧ tc_id c ≠ [] ∧ tc_name c ≠ [] ∧
    carried (pieces i fs) = mkSlot (tc_id c) (tc_name c) text.

(** C32: tool calls survive the stream: however a vendor of the Chat Completions protocol
    cuts the calls of a reply into fragments, and however it interleaves them, when the
    fragments of each index together carry a call, with an id, a name and arguments
    that hold no floating-point number and were written with [json.dumps], and the
    reply was not stopped by a content filter, the result has exactly these calls, in
    the order of their indices, arguments included. *)
Theorem fragmented_calls_reassembled name spec events calls :
  StronglySorted Z.lt calls.*1 →
  (∀ f, f ∈ fragments events → fr_index f ∈ calls.*1) →
  Forall (λ ic, carries (fragments events) ic.1 ic.2) calls →
  cs_stop_reason (fold_left on_event events chat_start) ≠ Some (u "content_filter") →
  ∃ r, openai_result name spec (fold_left on_event events chat_start) = Ok r ∧ lr_tool_calls r = calls.*2.
Proof.
  intros Hsort Hin Hcalls Hstop. unfold openai_result. rewrite bool_decide_eq_false_2 by done. rewrite pending_folded.
  set (fs := fragments events) in *. cbn [cs_pending chat_start]. set (pending := fold_left _ fs []).
  assert (Hn : NoDup pending.*1) by (apply folded_keys; constructor).
  assert (Hslot : ∀ i, slot_at i pending = match pieces i fs with [] => None | ps => Some (carried ps) end).
  { intros i. unfold pending. rewrite folded_slots. destruct (pieces i fs) as [|p ps]; [done|].
    rewrite (fold_fill (p :: ps)). done. }
  assert (Hsorted : sorted_pending pending = map (λ ic, (ic.1, carried (pieces ic.1 fs))) calls).
  { apply sorted_pending_unique; [done| |].
    - clear -Hsort. induction calls as [|[i c] calls IH]; [constructor|]. rewrite fmap_cons in Hsort. apply StronglySorted_inv in Hsort as [Hs Hi].
      cbn [map]. constructor; [by apply IH|]. apply Forall_map. rewrite Forall_fmap in Hi. exact Hi.
    - intros [i s]. rewrite (slot_at_elem i s pending), Hslot by done. split.
      + intros ([j c] & Heq & Hj)%list_elem_of_fmap. injection Heq as -> ->. simpl.
        rewrite Forall_forall in Hcalls. destruct (Hcalls _ Hj) as [Hne _]. simpl in Hne. by destruct (pieces j fs).
      + destruct (pieces i fs) as [|p ps] eqn:Hp; [done|]. intros [= <-].
        assert (Hpi : p ∈ fs ∧ fr_index p = i).
        { assert (p ∈ pieces i fs) as Hpin by (rewrite Hp; by left). apply list_elem_of_In, List.filter_In in Hpin as [Hpin Hpi].
          apply bool_decide_eq_true in Hpi. by rewrite list_elem_of_In. }
        destruct Hpi as [Hpin Hpi]. specialize (Hin p Hpin). rewrite Hpi in Hin.
        apply list_elem_of_fmap in Hin as ([j c] & -> & Hj). apply list_elem_of_fmap. exists (j, c). simpl in *. by rewrite Hp. }
  rewrite Hsorted.
  assert (Hread : res_mapM slot_call (List.filter named (map (λ ic, (ic.1, carried (pieces ic.1 fs))) calls)) = Ok calls.*2).
  { clear -Hcalls. induction Hcalls as [|[i c] calls (Hne & Hp & text & Hd & Ht & Hid & Hname & Hc) Hcalls IH]; [done|].
    assert (Hparse : parse_arguments (VStr text) = Ok (tc_arguments c)).
    { unfold parse_arguments. destruct text as [|t0 t]; [done|]. by rewrite (loads_dumps _ _ Hp Hd). }
    cbn [fst snd] in *. assert (Hcall : slot_call (i, carried (pieces i fs)) = Ok c).
    { unfold slot_call. rewrite Hc. cbn [snd fst sl_arguments sl_id sl_name]. rewrite Hparse. cbn [mbind res_bind].
      destruct c as [[|i0 idc] nm args]; simpl in *; [congruence|reflexivity]. }
    assert (Hnm : named (i, carried (pieces i fs)) = true) by (unfold named; rewrite Hc; cbn [snd sl_name]; destruct (tc_name c) eqn:?; [congruence|reflexivity]).
    cbn [map fst List.filter]. rewrite Hnm. cbn [res_mapM]. rewrite Hcall. cbn [mbind res_bind]. by rewrite IH. }
  rewrite Hread. eexists. split; [reflexivity|done].
Qed.
End fragments.

(** ** Results next to the calls they answer *)

Section exchanges.
Context `{PyTables}.

Definition field (k : string) (v : pyval) : pyval := match v with VDict d => dict_get d (u k) | _ => VNone end.
Definition items (v : pyval) : list pyval := match v with VList l => l | _ => [] end.
Definition of_type (k : string) (v : pyval) : bool :=
  match field "type" v with VStr s => bool_decide (s = u k) | _ => false end.

(** What a vendor matches by: for the calls of an assistant's turn, and for the results
    that come back *)
Definition anthropic_calls (v : pyval) : list pyval := map (field "id") (List.filter (of_type "tool_use") (items (field "content" v))).
Definition anthropic_results (v : pyval) : list pyval :=
  map (field "tool_use_id") (List.filter (of_type "tool_result") (items (field "content" v))).
Definition openai_calls (l : list pyval) : list pyval := mjoin (map (λ v, map (field "id") (items (field "tool_calls" v))) l).
Definition openai_results (l : list pyval) : list pyval := map (field "tool_call_id") l.
Definition google_calls (c : GContent) : list pystr := omap (λ p, match p with GCall name _ => Some name | _ => None end) (gc_parts c).
Definition google_responses (c : GContent) : list pystr :=
  omap (λ p, match p with GResponse name _ => Some name | _ => None end) (gc_parts c).

Lemma filter_all {A} (f : A → bool) l : Forall (λ x, f x = true) l → List.filter f l = l.
Proof. induction 1 as [|x l Hx Hl IH]; simpl; [done|]. by rewrite Hx, IH. Qed.

Lemma answered_same {B} (f : ToolCallRequest → B) (g : ToolResultPart → B) calls results :
  (∀ c r, answers c r → f c = g r) → Forall2 answers calls results → map f calls = map g results.
Proof. intros Hfg. induction 1 as [|c r cs rs Hcr Hl IH]; simpl; [done|]. by rewrite IH, (Hfg c r). Qed.

Lemma call_texts calls texts : res_mapM call_text calls = Ok texts → map (field "id") texts = map (λ c, VStr (tc_id c)) calls.
Proof.
  intros Hm%res_mapM_Forall2. induction Hm as [|c t cs ts Ht Hl IH]; simpl; [done|]. rewrite IH. f_equal.
  unfold call_text, mbind, res_bind in Ht. destruct (dumps _); [|done]. by injection Ht as <-.
Qed.

(** C33: every vendor is shown each result next to its call: when an assistant's turn asks
    for tools and the next turn holds the results that answer it, one for each call, the
    ids (for Gemini, the names) of the results that an adapter sends are those of the
    calls it sends, in the same order, as each vendor requires. *)
Theorem exchanges_matched text calls results :
  calls ≠ [] → Forall2 answers calls results →
  let asked := mkMessage Assistant text calls [] in let answered := mkMessage User [] [] results in
  anthropic_results (to_anthropic answered) = anthropic_calls (to_anthropic asked) ∧
  google_responses (to_google answered) = google_calls (to_google asked) ∧
  ∀ l l', to_openai asked = Ok l → to_openai answered = Ok l' → openai_results l' = openai_calls l.
Proof.
  intros Hne Ha. cbv zeta. destruct results as [|r0 rs] eqn:Hres; [by inversion Ha|].
  destruct calls as [|c0 cs] eqn:Hcs; [done|].
  assert (Hid : map (λ c, VStr (tc_id c)) calls = map (λ r, VStr (tr_tool_call_id r)) results).
  { subst. apply answered_same; [|done]. by intros c r [-> _]. }
  assert (Hname : map tc_name calls = map tr_name results) by (subst; apply answered_same; [by intros c r [_ ->]|done]).
  clear Hne Ha. unfold to_anthropic, to_google, to_openai. cbn [m_tool_results m_tool_calls m_content].
  rewrite <- Hcs, <- Hres in *. split_and!.
  - unfold anthropic_results, anthropic_calls.
    match goal with |- map _ (List.filter _ ?l) = map _ (List.filter _ ?l') =>
      change l with (map (λ r, dict [str_key "type" (VStr (u "tool_result")); str_key "tool_use_id" (VStr (tr_tool_call_id r));
        str_key "content" (VStr (tr_content r)); str_key "is_error" (VBool (tr_is_error r))]) results) end.
    rewrite filter_all by (apply Forall_map, Forall_forall; by intros). rewrite map_map.
    etrans; [by apply (map_ext _ (λ r, VStr (tr_tool_call_id r)))|]. rewrite <- Hid. symmetry.
    match goal with |- map _ (List.filter _ ?l') = _ => change l' with (match text with [] => []
      | n :: l => [dict [str_key "type" (VStr (u "text")); str_key "text" (VStr (n :: l))]] end
      ++ map (λ c, dict [str_key "type" (VStr (u "tool_use")); str_key "id" (VStr (tc_id c));
                str_key "name" (VStr (tc_name c)); str_key "input" (VDict (tc_arguments c))]) calls) end.
    rewrite List.filter_app, map_app, (filter_all _ (map _ calls)) by (apply Forall_map, Forall_forall; by intros).
    rewrite map_map. destruct text; cbn [List.filter map app]; by apply map_ext.
  - unfold google_responses, google_calls. cbn [gc_parts]. rewrite omap_app.
    replace (omap _ (match text with [] => [] | _ => _ end)) with (@nil pystr) by (by destruct text). cbn [app].
    etrans; [|etrans; [symmetry; exact Hname|]].
    + clear. induction results as [|r rs IH]; [done|]. cbn [map]. csimpl. by rewrite <- IH.
    + clear. induction calls as [|c cs IH]; [done|]. cbn [map]. csimpl. by rewrite <- IH.
  - intros l l' Hl Hl'. injection Hl' as <-. unfold mbind, res_bind in Hl. destruct (res_mapM call_text calls) as [texts|] eqn:Ht; [|done].
    injection Hl as <-. unfold openai_results, openai_calls. rewrite map_map.
    etrans; [by apply (map_ext _ (λ r, VStr (tr_tool_call_id r)))|]. rewrite <- Hid. symmetry. cbn [map mjoin list_join].
    rewrite app_nil_r. exact (call_texts _ _ Ht).
Qed.
End exchanges.

(** ** Schemas for Gemini *)

(** No dict, at the top, as a value or as an item of a list, has a keyword Gemini rejects. *)
Fixpoint accepted (v : pyval) : bool :=
  match v with
  | VDict d => (fix go d := match d with
                            | [] => true
                            | (k, v) :: d' => negb (bool_decide (k ∈ UNSUPPORTED_SCHEMA_KEYS)) && accepted v && go d'
                            end) d
  | VList l => (fix go l := match l with
                            | [] => true
                            | v :: l' => match v with VDict _ => accepted v | _ => true end && go l'
                            end) l
  | _ => true
  end.

(** a schema that was cleaned is accepted, and one that is accepted is left as it is *)
Lemma clean_schema_accepted v : accepted (clean_schema v) = true ∧ (accepted v = true → clean_schema v = v).
Proof.
  induction v as [|b|z|f|s|l IH|d IH] using pyval_nested_ind; try (by split).
  - cbn [accepted clean_schema]. induction IH as [|v l [Ha Hc] IH [IHa IHc]]; [by split|]. split.
    + destruct v; cbn [andb]; try exact IHa. rewrite IHa, andb_true_r. exact Ha.
    + intros [Hv Hl]%andb_true_iff. specialize (IHc Hl). injection IHc as IHc. rewrite IHc. destruct v; try done.
      by rewrite Hc.
  - cbn [accepted clean_schema]. induction IH as [|[k v] d [Ha Hc] IH [IHa IHc]]; [by split|]. simpl in Ha, Hc. split.
    + destruct (bool_decide (k ∈ UNSUPPORTED_SCHEMA_KEYS)) eqn:Hk; [exact IHa|]. rewrite Hk. cbn [negb andb].
      by rewrite Ha, IHa.
    + intros [[Hk Hv]%andb_true_iff Hd]%andb_true_iff. apply negb_true_iff in Hk. rewrite Hk. specialize (IHc Hd).
      injection IHc as IHc. by rewrite IHc, Hc.
Qed.

(** ** The text, the errors and the usage *)

Section replies.
Context `{Sdk}.

Lemma google_result_text spec st r : google_result spec st = Ok r → lr_text r = mjoin (gs_parts st).
Proof. unfold google_result. destruct (gs_stop_reason st) as [[|? ?]|]; [..|]; try case_match; intros; by simplify_eq. Qed.

(** the text of a result is what was streamed, piece by piece; Anthropic's is read from
    the final message instead *)
Lemma streamed_is_result p rq chunks r :
  p ≠ ANTHROPIC → adapter_reply p rq = (chunks, Ok r) → lr_text r = mjoin chunks.
Proof.
  assert (Ho : ∀ q, openai_complete q rq = (chunks, Ok r) → lr_text r = mjoin chunks).
  { intros q. unfold openai_complete. destruct (openai_params rq) as [params|]; [|done].
    destruct (sdk_openai _ _) as [events [e|]]; [done|]. intros [= <- Hr]. unfold openai_result in Hr.
    case_bool_decide; [done|]. unfold mbind, res_bind in Hr. destruct (res_mapM _ _); [|done]. by injection Hr as <-. }
  destruct p; cbn [adapter_reply]; intros Hp Hr; try done; try by eapply Ho.
  unfold google_complete in Hr. destruct (google_config rq) as [config|]; [|done].
  destruct (sdk_google _ _ _) as [cs [e|]]; [done|]. injection Hr as <- Hr. by eapply google_result_text.
Qed.

(** The failures a retry can help against *)
Definition transient (e : SdkError) : bool :=
  match e with RateLimited _ | ConnectionFailed _ => true | StatusError code _ _ => 500 <=? code | SdkFailure e => is_retryable e end.
Definition google_transient (e : GenaiError) : bool :=
  match e with ClientError code _ => code =? 429 | ServerError _ => true | GenaiFailure e => is_retryable e end.

(** failures are told apart: whatever error a client library ends a call with, the
    adapter's is one the router retries exactly when a retry can help (rate limits,
    errors of the server, lost connections), and every error the libraries report of a
    request is one the engine knows as a failure of the model. *)
Theorem vendor_errors_classified name (e : SdkError) (g : GenaiError) :
  is_retryable (anthropic_error e) = transient e ∧ is_retryable (openai_error name e) = transient e ∧
  is_retryable (google_error g) = google_transient g ∧
  match e with SdkFailure _ => True | _ => is_llm_error (anthropic_error e) = true ∧ is_llm_error (openai_error name e) = true end ∧
  match g with GenaiFailure _ => True | _ => is_llm_error (google_error g) = true end.
Proof.
  split_and!; destruct e, g; simpl; try done; repeat case_match; try done; try (by split).
Qed.

(** usages are comparable: the part read from a cache is never more than the input, and
    what is priced as fresh is what the vendor reported as neither read nor cached *)
Lemma anthropic_usage_comparable raw :
  0 ≤ au_input_tokens raw → 0 ≤ count_or_zero (au_cache_read raw) → 0 ≤ count_or_zero (au_cache_creation raw) →
  us_cached_input_tokens (anthropic_usage raw) ≤ us_input_tokens (anthropic_usage raw) ∧
  fresh_input_tokens (anthropic_usage raw) = au_input_tokens raw + count_or_zero (au_cache_creation raw).
Proof. intros. unfold fresh_input_tokens, anthropic_usage. cbn. lia. Qed.
End replies.

(** ** Vendors at work

    A vendor that sends two calls in interleaved fragments, and the same vendor behind
    the router and the engine. *)

#[local] Existing Instance ascii_tables.

Definition piece (i : Z) (id name args : option string) : Fragment :=
  mkFragment i (u <$> id) (Some (u <$> name, u <$> args)).
Definition delta (text : option string) (fs : list Fragment) : ChatEvent :=
  mkChatEvent None [mkChoice None (u <$> text) fs].

Definition first_call : ToolCallRequest := mkCall (u "c1") (u "read_artifact") [str_key "path" (VStr (u "a.md"))].
Definition second_call : ToolCallRequest := mkCall (u "c2") (u "list_artifacts") [].
Definition demo_stream : list ChatEvent := [
  delta (Some "Let me "%string) [];
  delta (Some "look."%string) [piece 1 (Some "c2"%string) (Some "list_artifacts"%string) (Some "{"%string)];
  delta None [piece 0 (Some "c1"%string) (Some "read_artifact"%string) None; piece 1 None None (Some "}"%string)];
  delta None [mkFragment 0 None (Some (None, Some ([123; 34]%N ++ u "path" ++ [34]%N)))];
  delta None [mkFragment 0 None (Some (None, Some (u ": " ++ [34]%N ++ u "a.m")))];
  mkChatEvent None [mkChoice (Some (u "tool_calls")) None [mkFragment 0 None (Some (None, Some (u "d" ++ [34; 125]%N)))]];
  mkChatEvent (Some (mkChatUsage (Some 20) (Some 5) None None [])) []].
Definition demo_calls : list (Z * ToolCallRequest) := [(0, first_call); (1, second_call)].

Definition gpt : ModelSpec := default (hd (spec [] OPENAI [] 0 0 None 0 0 ES_NONE false) MODEL_LIST)
  (match get_spec (u "gpt-5") with Ok s => Some s | Err _ => None end).

Lemma demo_indices : StronglySorted Z.lt demo_calls.*1.
Proof. repeat constructor. Qed.
Lemma demo_covered f : f ∈ fragments demo_stream → fr_index f ∈ demo_calls.*1.
Proof.
  assert (Hall : forallb (λ f, bool_decide (fr_index f ∈ demo_calls.*1)) (fragments demo_stream) = true) by (vm_compute; reflexivity).
  rewrite forallb_forall in Hall. intros Hf%list_elem_of_In. exact (bool_decide_eq_true_1 _ (Hall f Hf)).
Qed.
Lemma demo_carries : Forall (λ ic, carries (fragments demo_stream) ic.1 ic.2) demo_calls.
Proof.
  apply Forall_cons; split; [|apply Forall_cons; split; [|constructor]]; unfold carries; cbn [fst snd].
  - split; [by vm_compute|]. split; [by split; [apply NoDup_singleton|]|].
    eexists. split; [vm_compute; reflexivity|]. split_and!; try discriminate. vm_compute. reflexivity.
  - split; [by vm_compute|]. split; [by split; [constructor|]|].
    eexists. split; [vm_compute; reflexivity|]. split_and!; try discriminate. vm_compute. reflexivity.
Qed.

Lemma fragmented_calls_reassembled_witness :
  ∃ r, openai_result (u "openai") gpt (fold_left on_event demo_stream chat_start) = Ok r ∧
       lr_tool_calls r = [first_call; second_call].
Proof.
  exact (fragmented_calls_reassembled (u "openai") gpt demo_stream demo_calls demo_indices demo_covered demo_carries
           ltac:(vm_compute; discriminate)).
Defined.

Lemma demo_answered :
  Forall2 answers [first_call; second_call]
    [mkPart (u "c1") (u "read_artifact") (u "text") false; mkPart (u "c2") (u "list_artifacts") (u "none") true].
Proof. by repeat constructor. Qed.

Lemma exchanges_matched_witness :
  anthropic_results (to_anthropic (mkMessage User [] []
     [mkPart (u "c1") (u "read_artifact") (u "text") false; mkPart (u "c2") (u "list_artifacts") (u "none") true]))
  = [VStr (u "c1"); VStr (u "c2")].
Proof.
  etrans; [|exact (eq_refl (anthropic_calls (to_anthropic (mkMessage Assistant (u "ok") [first_call; second_call] []))))].
  exact (proj1 (exchanges_matched (u "ok") [first_call; second_call] _ ltac:(discriminate) demo_answered)).
Defined.

(** ** Behind the router *)

(** The vendor answers a question with the two calls, and their results with a text. *)
Definition asks (params : list (pystr * pyval)) : bool :=
  match dict_get params (u "messages") with VList l => py_len l <=? 2 | _ => false end.
Definition demo_sdk : Sdk := {|
  sdk_tables := ascii_tables;
  sdk_anthropic := λ _ _, ([], inl (ConnectionFailed (u "offline")));
  sdk_openai := λ _ params,
    if asks params then (demo_stream, None)
    else ([delta (Some "All done."%string) []; mkChatEvent None [mkChoice (Some (u "stop")) None []]], None);
  sdk_google := λ _ _ _, ([], Some (GenaiFailure (ExternalError (u "ConnectError") (u "offline"))));
  sdk_minted := λ n, str_of_Z (Z.of_nat n) |}.
Definition vendor_env : Env := {|
  env_tables := ascii_tables; env_settings := default_settings; env_clock := λ _, 0; env_interrupt := λ _, None;
  env_cancel := λ _, false; env_reply := λ _ rq, @adapter_reply demo_sdk (sp_provider (rq_spec rq)) rq;
  env_stored := λ _ _, Some (u "sk"); env_decrypt := demo_decrypt; env_schedule := λ _, [] |}.

Lemma routed_reply :
  match (@complete unit vendor_env 3 demo_args demo_world).1 with
  | Ok r => (lr_text (rr_result r), map tc_name (lr_tool_calls (rr_result r)), rr_attempts r)
  | Err _ => ([], [], 0)
  end = (u "Let me look.", [u "read_artifact"; u "list_artifacts"], 1).
Proof. vm_compute. reflexivity. Qed.

(** A connection that fails is tried again with every vendor but Google, whose adapter
    handles the errors of the API only. *)
Definition asking (model : string) : CompleteArgs :=
  mkArgs (u model) [] [mkMessage User (u "hi") [] []] 100 (u "low") false 600 [] true.
Definition attempts_of (model : string) : nat :=
  length (calls (@complete unit vendor_env 3 (asking model) demo_world).2).
Lemma google_connection_not_retried : attempts_of "claude-opus-5" = 3%nat ∧ attempts_of "gemini-2.5-pro" = 1%nat.
Proof. split; vm_compute; reflexivity. Qed.
