(* ===== verification/Schema.v ===== *)
(** * The declared tables (src/core/models.py)

    What a class of models.py says about its table: the columns in order, with
    their types, whether they may be null, the keys, the constraints and the
    indexes.  [table_of] is the table such a declaration stands for, by the rules
    the declarations rely on: a column is nullable when its annotation says
    [None], unless the declaration or the primary key says otherwise; a foreign
    key has the type of the column it refers to; [index=True] is an index of its
    own, which [unique=True] makes unique; an unnamed check is named after its
    table and column.  Defaults that the application fills in are not part of a
    table.  The migrations that build these tables are in Migrations, the rows
    that must fit them in Rows. *)

From S2P Require Import Prelude.
From Stdlib Require Import Ascii.
From stdpp Require Import strings.

#[local] Open Scope string_scope.

Inductive coltype : Type :=
| TString (n : Z) | TText | TInteger | TBigInteger | TFloat | TBoolean | TDateTime | TJSON.

Record column := mkColumn {
  c_name : string; c_type : coltype; c_nullable : bool; c_server_default : option string }.

(** [ix_where]: the column that must not be null for a row to be indexed *)
Record index := mkIndex {
  ix_name : string; ix_columns : list string; ix_unique : bool; ix_where : option string }.

Inductive constraint : Type :=
| PrimaryKey (cols : list string)
| Unique (name : option string) (cols : list string)
| Check_ (name : option string) (text : string)
| ForeignKey (col : string) (table target : string) (ondelete : string).

Record table := mkTable {
  t_columns : list column; t_constraints : list constraint; t_indexes : list index }.

#[global] Instance coltype_eq_dec : EqDecision coltype. Proof. solve_decision. Defined.
#[global] Instance column_eq_dec : EqDecision column. Proof. solve_decision. Defined.
#[global] Instance index_eq_dec : EqDecision index. Proof. solve_decision. Defined.
#[global] Instance constraint_eq_dec : EqDecision constraint. Proof. solve_decision. Defined.

(** ** Declarations *)

Inductive attr_type : Type :=
| Typed (t : coltype)
| Refers (table target : string).      (* ForeignKey("table.target", ondelete="CASCADE") *)

Inductive flag : Type := Optional | NotNull | Primary | UniqueCol | Indexed.
#[global] Instance flag_eq_dec : EqDecision flag. Proof. solve_decision. Defined.

Record attribute := mkAttr { at_name : string; at_type : attr_type; at_flags : list flag }.

Inductive table_arg : Type :=
| AIndex (name : string) (cols : list string) (unique : bool) (where_ : option string)
| AUnique (name : string) (cols : list string)
| ACheck (name : string) (text : string).

Record model := mkModel {
  m_table : string; m_attributes : list attribute; m_args : list table_arg }.

Definition has (f : flag) (a : attribute) : bool := bool_decide (f ∈ at_flags a).

(** The text of a check begins with the column it is about. *)
Fixpoint first_word (s : string) : string :=
  match s with
  | EmptyString => EmptyString
  | String " "%char _ => EmptyString
  | String c s' => String c (first_word s')
  end.

Definition named_check (table : string) (c : constraint) : constraint :=
  match c with
  | Check_ None text => Check_ (Some (table +:+ "_" +:+ first_word text +:+ "_check")) text
  | _ => c
  end.

Section tables.
Variable models : list model.

Definition find_model (t : string) : option model :=
  List.find (λ m, bool_decide (m_table m = t)) models.
Definition find_attr (c : string) (m : model) : option attribute :=
  List.find (λ a, bool_decide (at_name a = c)) (m_attributes m).

(** A reference has the type of the column it names, which is not a reference
    itself in these models. *)
Definition type_of (a : attribute) : coltype :=
  match at_type a with
  | Typed t => t
  | Refers table target =>
      match m ← find_model table; a' ← find_attr target m; Some (at_type a') with
      | Some (Typed t) => t
      | _ => TText
      end
  end.

Definition column_of (a : attribute) : column :=
  mkColumn (at_name a) (type_of a) (has Optional a && negb (has NotNull a) && negb (has Primary a)) None.

Definition attr_constraints (a : attribute) : list constraint :=
  (if has UniqueCol a && negb (has Indexed a) then [Unique None [at_name a]] else []) ++
  match at_type a with
  | Refers table target => [ForeignKey (at_name a) table target "CASCADE"]
  | Typed _ => []
  end.

Definition attr_indexes (t : string) (a : attribute) : list index :=
  if has Indexed a
  then [mkIndex ("ix_" +:+ t +:+ "_" +:+ at_name a) [at_name a] (has UniqueCol a) None] else [].

Definition arg_constraints (g : table_arg) : list constraint :=
  match g with
  | AUnique name cols => [Unique (Some name) cols]
  | ACheck name text => [Check_ (Some name) text]
  | AIndex _ _ _ _ => []
  end.
Definition arg_indexes (g : table_arg) : list index :=
  match g with AIndex name cols uniq w => [mkIndex name cols uniq w] | _ => [] end.

Definition table_of (m : model) : table :=
  mkTable
    (map column_of (m_attributes m))
    (PrimaryKey (at_name <$> List.filter (has Primary) (m_attributes m)) ::
     mjoin (map attr_constraints (m_attributes m)) ++ mjoin (map arg_constraints (m_args m)))
    (mjoin (map (attr_indexes (m_table m)) (m_attributes m)) ++ mjoin (map arg_indexes (m_args m))).
End tables.

(** ** The models *)

Definition attr name t flags := mkAttr name (Typed t) flags.
Definition ref name table flags := mkAttr name (Refers table "id") flags.
Definition id_column := attr "id" (TString 36) [Primary].

Definition TimestampMixin : list attribute :=
  [attr "created_at" TDateTime [NotNull]; attr "updated_at" TDateTime [NotNull]].

Definition Org_model := mkModel "orgs"
  ([id_column; attr "name" (TString 200) [NotNull]; attr "slug" (TString 80) [UniqueCol; NotNull];
    attr "key_mode" (TString 16) [NotNull]; attr "credits_cents" TBigInteger [NotNull];
    attr "is_active" TBoolean [NotNull]] ++ TimestampMixin)
  [ACheck "orgs_key_mode_check" "key_mode in ('managed','byok','hybrid')"].

Definition User_model := mkModel "users"
  ([id_column; attr "email" (TString 320) [UniqueCol; NotNull; Indexed];
    attr "password_hash" TText [NotNull]; attr "name" (TString 200) [Optional];
    attr "is_active" TBoolean [NotNull]; attr "is_superuser" TBoolean [NotNull];
    attr "last_login_at" TDateTime [Optional]; attr "token_epoch" TInteger [NotNull]]
   ++ TimestampMixin) [].

Definition Membership_model := mkModel "memberships"
  ([id_column; ref "user_id" "users" [NotNull; Indexed]; ref "org_id" "orgs" [NotNull; Indexed];
    attr "role" (TString 20) [NotNull]] ++ TimestampMixin)
  [AUnique "uq_membership_user_org" ["user_id"; "org_id"];
   ACheck "memberships_role_check" "role in ('owner','admin','member','viewer')"].

Definition RefreshToken_model := mkModel "refresh_tokens"
  ([id_column; ref "user_id" "users" [NotNull; Indexed];
    attr "token_hash" (TString 64) [UniqueCol; NotNull; Indexed];
    attr "family_id" (TString 36) [NotNull; Indexed]; attr "expires_at" TDateTime [NotNull];
    attr "used_at" TDateTime [Optional]; attr "revoked_at" TDateTime [Optional];
    attr "user_agent" (TString 400) [Optional]; attr "ip_address" (TString 64) [Optional]]
   ++ TimestampMixin) [].

Definition ApiKey_model := mkModel "api_keys"
  ([id_column; ref "org_id" "orgs" [NotNull; Indexed]; attr "provider" (TString 32) [NotNull];
    attr "ciphertext" TText [NotNull]; attr "mask" (TString 64) [NotNull];
    attr "fingerprint" (TString 32) [NotNull]; attr "is_active" TBoolean [NotNull];
    attr "last_used_at" TDateTime [Optional]; attr "last_error" TText [Optional];
    attr "created_by" (TString 36) [Optional]] ++ TimestampMixin)
  [AUnique "uq_api_key_org_provider" ["org_id"; "provider"];
   ACheck "api_keys_provider_check" "provider in ('anthropic','openai','xai','google','openrouter')"].

Definition Agent_model := mkModel "agents"
  ([id_column; ref "org_id" "orgs" [NotNull]; attr "name" (TString 200) [NotNull];
    attr "role" (TString 100) [NotNull]; attr "system_prompt" TText [NotNull];
    attr "model" (TString 80) [NotNull]; attr "effort" (TString 16) [NotNull];
    attr "max_tokens" TInteger [NotNull]; attr "tools" TJSON [NotNull];
    attr "is_active" TBoolean [NotNull]; attr "created_by" (TString 36) [Optional]]
   ++ TimestampMixin)
  [AIndex "ix_agents_org_active" ["org_id"; "is_active"] false None;
   ACheck "agents_effort_check" "effort in ('low','medium','high','xhigh','max')"].

Definition Workflow_model := mkModel "workflows"
  ([id_column; ref "org_id" "orgs" [NotNull]; attr "name" (TString 200) [NotNull];
    attr "description" TText [NotNull]; attr "preset" (TString 32) [NotNull];
    attr "graph" TJSON [NotNull]; attr "is_active" TBoolean [NotNull];
    attr "created_by" (TString 36) [Optional]] ++ TimestampMixin)
  [AIndex "ix_workflows_org" ["org_id"] false None].

(** The partial index that makes submissions of runs idempotent *)
Definition uq_runs_idempotency : table_arg :=
  AIndex "uq_runs_idempotency" ["org_id"; "idempotency_key"] true (Some "idempotency_key").

Definition Run_model := mkModel "runs"
  ([id_column; ref "org_id" "orgs" [NotNull]; ref "workflow_id" "workflows" [NotNull];
    attr "created_by" (TString 36) [Optional]; attr "status" (TString 24) [NotNull];
    attr "input" TText [NotNull]; attr "output" TText [Optional]; attr "error" TText [Optional];
    attr "key_mode" (TString 16) [NotNull]; attr "cost_microcents" TBigInteger [NotNull];
    attr "cost_cents" TInteger [NotNull]; attr "billable_microcents" TBigInteger [NotNull];
    attr "tokens_in" TBigInteger [NotNull]; attr "tokens_out" TBigInteger [NotNull];
    attr "steps_used" TInteger [NotNull]; attr "max_steps" TInteger [NotNull];
    attr "max_cost_cents" TInteger [NotNull]; attr "cancel_requested" TBoolean [NotNull];
    attr "idempotency_key" (TString 128) [Optional]; attr "started_at" TDateTime [Optional];
    attr "finished_at" TDateTime [Optional]] ++ TimestampMixin)
  [AIndex "ix_runs_org_created" ["org_id"; "created_at"] false None;
   AIndex "ix_runs_status" ["status"] false None;
   ACheck "runs_status_check"
     ("status in ('queued','running','succeeded','failed','cancelled'," +:+
      "'budget_exceeded','timed_out')");
   uq_runs_idempotency].

Definition RunStep_model := mkModel "run_steps"
  ([id_column; ref "run_id" "runs" [NotNull; Indexed]; attr "index" TInteger [NotNull];
    attr "agent_id" (TString 36) [Optional]; attr "agent_name" (TString 200) [NotNull];
    attr "role" (TString 100) [NotNull]; attr "model" (TString 80) [NotNull];
    attr "provider" (TString 32) [NotNull]; attr "input" TText [NotNull];
    attr "output" TText [NotNull]; attr "stop_reason" (TString 48) [Optional];
    attr "tokens_in" TInteger [NotNull]; attr "tokens_out" TInteger [NotNull];
    attr "cached_tokens" TInteger [NotNull]; attr "reasoning_tokens" TInteger [NotNull];
    attr "cost_microcents" TBigInteger [NotNull]; attr "latency_ms" TInteger [NotNull];
    attr "attempts" TInteger [NotNull]; attr "model_calls" TInteger [NotNull];
    attr "tool_calls" TInteger [NotNull]] ++ TimestampMixin)
  [AUnique "uq_run_step_index" ["run_id"; "index"]].

Definition Artifact_model := mkModel "artifacts"
  ([id_column; ref "run_id" "runs" [NotNull]; attr "org_id" (TString 36) [NotNull; Indexed];
    attr "path" (TString 400) [NotNull]; attr "kind" (TString 40) [NotNull];
    attr "language" (TString 40) [Optional]; attr "content" TText [NotNull];
    attr "size_bytes" TInteger [NotNull]; attr "version" TInteger [NotNull];
    attr "produced_by_step" TInteger [Optional]; attr "produced_by_agent" (TString 200) [Optional]]
   ++ TimestampMixin)
  [AUnique "uq_artifact_version" ["run_id"; "path"; "version"];
   AIndex "ix_artifacts_run_path" ["run_id"; "path"] false None].

Definition ToolCallLog_model := mkModel "tool_calls"
  ([id_column; ref "run_id" "runs" [NotNull]; attr "step_index" TInteger [NotNull];
    attr "call_index" TInteger [NotNull]; attr "agent_id" (TString 36) [Optional];
    attr "agent_name" (TString 200) [NotNull]; attr "tool" (TString 80) [NotNull];
    attr "arguments" TJSON [NotNull]; attr "result" TText [NotNull];
    attr "is_error" TBoolean [NotNull]; attr "latency_ms" TInteger [NotNull];
    attr "meta" TJSON [NotNull]] ++ TimestampMixin)
  [AUnique "uq_tool_call_index" ["run_id"; "step_index"; "call_index"];
   AIndex "ix_tool_calls_run" ["run_id"] false None].

Definition CreditLedger_model := mkModel "credit_ledger"
  ([id_column; ref "org_id" "orgs" [NotNull]; attr "kind" (TString 20) [NotNull];
    attr "amount_cents" TBigInteger [NotNull]; attr "balance_after_cents" TBigInteger [NotNull];
    attr "run_id" (TString 36) [Optional; Indexed]; attr "description" (TString 400) [NotNull];
    attr "idempotency_key" (TString 128) [NotNull]; attr "created_by" (TString 36) [Optional]]
   ++ TimestampMixin)
  [AIndex "ix_ledger_org_created" ["org_id"; "created_at"] false None;
   AUnique "uq_ledger_idempotency" ["org_id"; "idempotency_key"];
   ACheck "credit_ledger_kind_check" "kind in ('topup','debit','refund','bonus','adjustment')"].

Definition ModelPrice_model := mkModel "model_prices"
  ([attr "model" (TString 80) [Primary]; attr "input_per_mtok" TFloat [NotNull];
    attr "output_per_mtok" TFloat [NotNull]; attr "cached_input_per_mtok" TFloat [Optional];
    attr "note" (TString 300) [NotNull]; attr "updated_by" (TString 36) [Optional]]
   ++ TimestampMixin) [].

Definition AuditLog_model := mkModel "audit_log"
  [id_column; attr "created_at" TDateTime [NotNull]; attr "org_id" (TString 36) [Optional];
   attr "actor_user_id" (TString 36) [Optional]; attr "action" (TString 80) [NotNull];
   attr "target_type" (TString 60) [Optional]; attr "target_id" (TString 64) [Optional];
   attr "ip_address" (TString 64) [Optional]; attr "user_agent" (TString 400) [Optional];
   attr "detail" TJSON [NotNull]]
  [AIndex "ix_audit_org_created" ["org_id"; "created_at"] false None].

(** [Base.metadata] *)
Definition metadata : list model := [
  Org_model; User_model; Membership_model; RefreshToken_model; ApiKey_model; Agent_model;
  Workflow_model; Run_model; RunStep_model; Artifact_model; ToolCallLog_model;
  CreditLedger_model; ModelPrice_model; AuditLog_model].

(** The tables the code is written against. *)
Definition declared : gmap string table :=
  list_to_map (map (λ m, (m_table m, table_of metadata m)) metadata).

(** Two descriptions of one table: columns, constraints and indexes in any order. *)
Definition same_table (t t' : table) : Prop :=
  t_columns t ≡ₚ t_columns t' ∧ t_constraints t ≡ₚ t_constraints t' ∧ t_indexes t ≡ₚ t_indexes t'.
#[global] Instance same_table_dec t t' : Decision (same_table t t').
Proof. unfold same_table. apply _. Defined.

#[global] Instance same_table_equivalence : Equivalence same_table.
Proof.
  unfold same_table. split.
  - intros t. done.
  - intros t t' (H1 & H2 & H3). by rewrite H1, H2, H3.
  - intros t t' t'' (H1 & H2 & H3). by rewrite H1, H2, H3.
Qed.
