(* ===== verification/Migrations.v ===== *)
(** * Migrations (src/migrations/versions)

    The schema of the database is owned by the migrations: each revision is a
    list of statements that [upgrade] runs and a list that [downgrade] runs.  The
    lists below are those of the two revisions, in order.  [run_op] says what a
    statement does to the tables and to the rows they already hold, and which
    statements the database refuses ([None]): a table or an index that exists
    already, a reference to a table that does not exist yet, a column that may
    not be null added without a default to a table with rows, the removal of a
    table another one refers to.  A revision runs in one transaction, so it
    happens whole or not at all.  The values of the rows and the reading of a
    server default are arguments. *)

From S2P Require Import Prelude Schema.
From stdpp Require Import strings.

#[local] Open Scope string_scope.

Inductive op : Type :=
| CreateTable (name : string) (cols : list column) (constraints : list constraint)
| DropTable (name : string)
| CreateIndex (table : string) (ix : index)
| DropIndex (table name : string)
| AddColumn (table : string) (c : column)
| AlterDefault (table col : string) (server_default : option string)
| DropColumn (table col : string).

(** ** What a statement does *)

(** A row has no entry for a column that is null. *)
Record stored V := mkStored { st_table : table; st_rows : list (gmap string V) }.
#[global] Arguments mkStored {V}.
#[global] Arguments st_table {V}.
#[global] Arguments st_rows {V}.
Abbreviation tables V := (gmap string (stored V)).

Section statements.
Context {V : Type} `{EqDecision V}.
Variable read_default : coltype → string → V.

Definition has_column (t : table) (c : string) : bool :=
  existsb (λ col, bool_decide (c_name col = c)) (t_columns t).

Definition references (name : string) (c : constraint) : bool :=
  match c with ForeignKey _ t _ _ => bool_decide (t = name) | _ => false end.
Definition mentions (col : string) (c : constraint) : bool :=
  match c with
  | PrimaryKey cols | Unique _ cols => bool_decide (col ∈ cols)
  | Check_ _ text => bool_decide (first_word text = col)
  | ForeignKey c _ _ _ => bool_decide (c = col)
  end.

(** The tables a constraint of a new table refers to are there. *)
Definition target_exists (d : tables V) (name : string) (cols : list column) (c : constraint) : bool :=
  match c with
  | ForeignKey _ t target _ =>
      if bool_decide (t = name) then existsb (λ col, bool_decide (c_name col = target)) cols
      else match d !! t with Some s => has_column (st_table s) target | None => false end
  | _ => true
  end.

Definition index_exists (d : tables V) (name : string) : bool :=
  existsb (λ s, existsb (λ ix, bool_decide (ix_name ix = name)) (t_indexes (st_table s)))
    (map_to_list d).*2.

(** The keys a unique index would hold: rows with a null are not compared. *)
Definition index_keys (ix : index) (rows : list (gmap string V)) : list (list V) :=
  omap (λ r, match ix_where ix with
             | Some c => match r !! c with Some _ => mapM (r !!.) (ix_columns ix) | None => None end
             | None => mapM (r !!.) (ix_columns ix)
             end) rows.

Definition set_columns cs (t : table) := mkTable cs (t_constraints t) (t_indexes t).
Definition set_indexes ixs (t : table) := mkTable (t_columns t) (t_constraints t) ixs.

Definition set_default (col : string) (dflt : option string) (c : column) : column :=
  if bool_decide (c_name c = col) then mkColumn (c_name c) (c_type c) (c_nullable c) dflt else c.

Definition fill (c : column) (rows : list (gmap string V)) : list (gmap string V) :=
  match c_server_default c with
  | Some text => map (<[c_name c := read_default (c_type c) text]>) rows
  | None => rows
  end.

Definition run_op (o : op) (d : tables V) : option (tables V) :=
  match o with
  | CreateTable name cols constraints =>
      if bool_decide (d !! name = None) && bool_decide (NoDup (map c_name cols))
         && forallb (target_exists d name cols) constraints
      then Some (<[name := mkStored (mkTable cols (map (named_check name) constraints) []) []]> d)
      else None
  | DropTable name =>
      match d !! name with
      | Some _ =>
          if existsb (λ s, existsb (references name) (t_constraints (st_table s)))
               (map_to_list (delete name d)).*2
          then None else Some (delete name d)
      | None => None
      end
  | CreateIndex name ix =>
      match d !! name with
      | Some (mkStored t rows) =>
          if negb (index_exists d (ix_name ix)) && forallb (has_column t) (ix_columns ix)
             && (negb (ix_unique ix) || bool_decide (NoDup (index_keys ix rows)))
          then Some (<[name := mkStored (set_indexes (t_indexes t ++ [ix]) t) rows]> d)
          else None
      | None => None
      end
  | DropIndex name iname =>
      match d !! name with
      | Some (mkStored t rows) =>
          if existsb (λ ix, bool_decide (ix_name ix = iname)) (t_indexes t)
          then Some (<[name := mkStored (set_indexes
                 (List.filter (λ ix, negb (bool_decide (ix_name ix = iname))) (t_indexes t)) t) rows]> d)
          else None
      | None => None
      end
  | AddColumn name c =>
      match d !! name with
      | Some (mkStored t rows) =>
          if has_column t (c_name c) then None
          else match c_nullable c, c_server_default c, rows with
               | false, None, _ :: _ => None
               | _, _, _ => Some (<[name := mkStored (set_columns (t_columns t ++ [c]) t) (fill c rows)]> d)
               end
      | None => None
      end
  | AlterDefault name col dflt =>
      match d !! name with
      | Some (mkStored t rows) =>
          if has_column t col
          then Some (<[name := mkStored (set_columns (map (set_default col dflt) (t_columns t)) t) rows]> d)
          else None
      | None => None
      end
  | DropColumn name col =>
      match d !! name with
      | Some (mkStored t rows) =>
          if has_column t col
          then Some (<[name := mkStored
                 (mkTable (List.filter (λ c, negb (bool_decide (c_name c = col))) (t_columns t))
                    (List.filter (λ c, negb (mentions col c)) (t_constraints t))
                    (List.filter (λ ix, negb (bool_decide (col ∈ ix_columns ix))) (t_indexes t)))
                 (map (delete col) rows)]> d)
          else None
      | None => None
      end
  end.

(** One revision: the statements in order, or nothing. *)
Fixpoint run (ops : list op) (d : tables V) : option (tables V) :=
  match ops with
  | [] => Some d
  | o :: ops' => match run_op o d with Some d' => run ops' d' | None => None end
  end.

Lemma run_app ops ops' d :
  run (ops ++ ops') d = match run ops d with Some d' => run ops' d' | None => None end.
Proof.
  revert d. induction ops as [|o ops IH]; intros d; [done|]. simpl.
  by destruct (run_op o d).
Qed.
End statements.

(** ** Revision 0001_initial *)

Definition Column name t nullable := mkColumn name t nullable None.

Definition create_audit_log : list op := [
  CreateTable "audit_log"
    [Column "id" (TString 36) false; Column "created_at" TDateTime false;
     Column "org_id" (TString 36) true; Column "actor_user_id" (TString 36) true;
     Column "action" (TString 80) false; Column "target_type" (TString 60) true;
     Column "target_id" (TString 64) true; Column "ip_address" (TString 64) true;
     Column "user_agent" (TString 400) true; Column "detail" TJSON false]
    [PrimaryKey ["id"]];
  CreateIndex "audit_log" (mkIndex "ix_audit_org_created" ["org_id"; "created_at"] false None)].

Definition create_model_prices : list op := [
  CreateTable "model_prices"
    [Column "model" (TString 80) false; Column "input_per_mtok" TFloat false;
     Column "output_per_mtok" TFloat false; Column "cached_input_per_mtok" TFloat true;
     Column "note" (TString 300) false; Column "updated_by" (TString 36) true;
     Column "created_at" TDateTime false; Column "updated_at" TDateTime false]
    [PrimaryKey ["model"]]].

Definition create_orgs : list op := [
  CreateTable "orgs"
    [Column "id" (TString 36) false; Column "name" (TString 200) false;
     Column "slug" (TString 80) false; Column "key_mode" (TString 16) false;
     Column "credits_cents" TBigInteger false; Column "is_active" TBoolean false;
     Column "created_at" TDateTime false; Column "updated_at" TDateTime false]
    [Check_ None "key_mode in ('managed','byok','hybrid')"; PrimaryKey ["id"];
     Unique None ["slug"]]].

Definition create_users : list op := [
  CreateTable "users"
    [Column "id" (TString 36) false; Column "email" (TString 320) false;
     Column "password_hash" TText false; Column "name" (TString 200) true;
     Column "is_active" TBoolean false; Column "is_superuser" TBoolean false;
     Column "last_login_at" TDateTime true; Column "token_epoch" TInteger false;
     Column "created_at" TDateTime false; Column "updated_at" TDateTime false]
    [PrimaryKey ["id"]];
  CreateIndex "users" (mkIndex "ix_users_email" ["email"] true None)].

Definition create_agents : list op := [
  CreateTable "agents"
    [Column "id" (TString 36) false; Column "org_id" (TString 36) false;
     Column "name" (TString 200) false; Column "role" (TString 100) false;
     Column "system_prompt" TText false; Column "model" (TString 80) false;
     Column "effort" (TString 16) false; Column "max_tokens" TInteger false;
     Column "tools" TJSON false; Column "is_active" TBoolean false;
     Column "created_by" (TString 36) true; Column "created_at" TDateTime false;
     Column "updated_at" TDateTime false]
    [Check_ None "effort in ('low','medium','high','xhigh','max')";
     ForeignKey "org_id" "orgs" "id" "CASCADE"; PrimaryKey ["id"]];
  CreateIndex "agents" (mkIndex "ix_agents_org_active" ["org_id"; "is_active"] false None)].

Definition create_api_keys : list op := [
  CreateTable "api_keys"
    [Column "id" (TString 36) false; Column "org_id" (TString 36) false;
     Column "provider" (TString 32) false; Column "ciphertext" TText false;
     Column "mask" (TString 64) false; Column "fingerprint" (TString 32) false;
     Column "is_active" TBoolean false; Column "last_used_at" TDateTime true;
     Column "last_error" TText true; Column "created_by" (TString 36) true;
     Column "created_at" TDateTime false; Column "updated_at" TDateTime false]
    [Check_ None "provider in ('anthropic','openai','xai','google','openrouter')";
     ForeignKey "org_id" "orgs" "id" "CASCADE"; PrimaryKey ["id"];
     Unique (Some "uq_api_key_org_provider") ["org_id"; "provider"]];
  CreateIndex "api_keys" (mkIndex "ix_api_keys_org_id" ["org_id"] false None)].

Definition create_credit_ledger : list op := [
  CreateTable "credit_ledger"
    [Column "id" (TString 36) false; Column "org_id" (TString 36) false;
     Column "kind" (TString 20) false; Column "amount_cents" TBigInteger false;
     Column "balance_after_cents" TBigInteger false; Column "run_id" (TString 36) true;
     Column "description" (TString 400) false; Column "idempotency_key" (TString 128) false;
     Column "created_by" (TString 36) true; Column "created_at" TDateTime false;
     Column "updated_at" TDateTime false]
    [Check_ None "kind in ('topup','debit','refund','bonus','adjustment')";
     ForeignKey "org_id" "orgs" "id" "CASCADE"; PrimaryKey ["id"];
     Unique (Some "uq_ledger_idempotency") ["org_id"; "idempotency_key"]];
  CreateIndex "credit_ledger" (mkIndex "ix_credit_ledger_run_id" ["run_id"] false None);
  CreateIndex "credit_ledger" (mkIndex "ix_ledger_org_created" ["org_id"; "created_at"] false None)].

Definition create_memberships : list op := [
  CreateTable "memberships"
    [Column "id" (TString 36) false; Column "user_id" (TString 36) false;
     Column "org_id" (TString 36) false; Column "role" (TString 20) false;
     Column "created_at" TDateTime false; Column "updated_at" TDateTime false]
    [Check_ None "role in ('owner','admin','member','viewer')";
     ForeignKey "org_id" "orgs" "id" "CASCADE"; ForeignKey "user_id" "users" "id" "CASCADE";
     PrimaryKey ["id"]; Unique (Some "uq_membership_user_org") ["user_id"; "org_id"]];
  CreateIndex "memberships" (mkIndex "ix_memberships_org_id" ["org_id"] false None);
  CreateIndex "memberships" (mkIndex "ix_memberships_user_id" ["user_id"] false None)].

Definition create_refresh_tokens : list op := [
  CreateTable "refresh_tokens"
    [Column "id" (TString 36) false; Column "user_id" (TString 36) false;
     Column "token_hash" (TString 64) false; Column "family_id" (TString 36) false;
     Column "expires_at" TDateTime false; Column "used_at" TDateTime true;
     Column "revoked_at" TDateTime true; Column "user_agent" (TString 400) true;
     Column "ip_address" (TString 64) true; Column "created_at" TDateTime false;
     Column "updated_at" TDateTime false]
    [ForeignKey "user_id" "users" "id" "CASCADE"; PrimaryKey ["id"]];
  CreateIndex "refresh_tokens" (mkIndex "ix_refresh_tokens_family_id" ["family_id"] false None);
  CreateIndex "refresh_tokens" (mkIndex "ix_refresh_tokens_token_hash" ["token_hash"] true None);
  CreateIndex "refresh_tokens" (mkIndex "ix_refresh_tokens_user_id" ["user_id"] false None)].

Definition create_workflows : list op := [
  CreateTable "workflows"
    [Column "id" (TString 36) false; Column "org_id" (TString 36) false;
     Column "name" (TString 200) false; Column "description" TText false;
     Column "preset" (TString 32) false; Column "graph" TJSON false;
     Column "is_active" TBoolean false; Column "created_by" (TString 36) true;
     Column "created_at" TDateTime false; Column "updated_at" TDateTime false]
    [ForeignKey "org_id" "orgs" "id" "CASCADE"; PrimaryKey ["id"]];
  CreateIndex "workflows" (mkIndex "ix_workflows_org" ["org_id"] false None)].

Definition create_runs : list op := [
  CreateTable "runs"
    [Column "id" (TString 36) false; Column "org_id" (TString 36) false;
     Column "workflow_id" (TString 36) false; Column "created_by" (TString 36) true;
     Column "status" (TString 24) false; Column "input" TText false; Column "output" TText true;
     Column "error" TText true; Column "key_mode" (TString 16) false;
     Column "cost_microcents" TBigInteger false; Column "cost_cents" TInteger false;
     Column "billable_microcents" TBigInteger false; Column "tokens_in" TBigInteger false;
     Column "tokens_out" TBigInteger false; Column "steps_used" TInteger false;
     Column "max_steps" TInteger false; Column "max_cost_cents" TInteger false;
     Column "cancel_requested" TBoolean false; Column "idempotency_key" (TString 128) true;
     Column "started_at" TDateTime true; Column "finished_at" TDateTime true;
     Column "created_at" TDateTime false; Column "updated_at" TDateTime false]
    [Check_ None "status in ('queued','running','succeeded','failed','cancelled','budget_exceeded','timed_out')";
     ForeignKey "org_id" "orgs" "id" "CASCADE";
     ForeignKey "workflow_id" "workflows" "id" "CASCADE"; PrimaryKey ["id"]];
  CreateIndex "runs" (mkIndex "ix_runs_org_created" ["org_id"; "created_at"] false None);
  CreateIndex "runs" (mkIndex "ix_runs_status" ["status"] false None);
  CreateIndex "runs" (mkIndex "uq_runs_idempotency" ["org_id"; "idempotency_key"] true (Some "idempotency_key"))].

Definition create_artifacts : list op := [
  CreateTable "artifacts"
    [Column "id" (TString 36) false; Column "run_id" (TString 36) false;
     Column "org_id" (TString 36) false; Column "path" (TString 400) false;
     Column "kind" (TString 40) false; Column "language" (TString 40) true;
     Column "content" TText false; Column "size_bytes" TInteger false;
     Column "version" TInteger false; Column "produced_by_step" TInteger true;
     Column "produced_by_agent" (TString 200) true; Column "created_at" TDateTime false;
     Column "updated_at" TDateTime false]
    [ForeignKey "run_id" "runs" "id" "CASCADE"; PrimaryKey ["id"];
     Unique (Some "uq_artifact_version") ["run_id"; "path"; "version"]];
  CreateIndex "artifacts" (mkIndex "ix_artifacts_org_id" ["org_id"] false None);
  CreateIndex "artifacts" (mkIndex "ix_artifacts_run_path" ["run_id"; "path"] false None)].

Definition create_run_steps : list op := [
  CreateTable "run_steps"
    [Column "id" (TString 36) false; Column "run_id" (TString 36) false;
     Column "index" TInteger false; Column "agent_id" (TString 36) true;
     Column "agent_name" (TString 200) false; Column "role" (TString 100) false;
     Column "model" (TString 80) false; Column "provider" (TString 32) false;
     Column "input" TText false; Column "output" TText false;
     Column "stop_reason" (TString 48) true; Column "tokens_in" TInteger false;
     Column "tokens_out" TInteger false; Column "cached_tokens" TInteger false;
     Column "reasoning_tokens" TInteger false; Column "cost_microcents" TBigInteger false;
     Column "latency_ms" TInteger false; Column "attempts" TInteger false;
     Column "created_at" TDateTime false; Column "updated_at" TDateTime false]
    [ForeignKey "run_id" "runs" "id" "CASCADE"; PrimaryKey ["id"];
     Unique (Some "uq_run_step_index") ["run_id"; "index"]];
  CreateIndex "run_steps" (mkIndex "ix_run_steps_run_id" ["run_id"] false None)].

Definition upgrade_0001 : list op :=
  create_audit_log ++ create_model_prices ++ create_orgs ++ create_users ++ create_agents ++ create_api_keys ++ create_credit_ledger ++ create_memberships ++ create_refresh_tokens ++ create_workflows ++ create_runs ++ create_artifacts ++ create_run_steps.

Definition downgrade_0001 : list op := [
  DropIndex "run_steps" "ix_run_steps_run_id";
  DropTable "run_steps";
  DropIndex "artifacts" "ix_artifacts_run_path";
  DropIndex "artifacts" "ix_artifacts_org_id";
  DropTable "artifacts";
  DropIndex "runs" "uq_runs_idempotency";
  DropIndex "runs" "ix_runs_status";
  DropIndex "runs" "ix_runs_org_created";
  DropTable "runs";
  DropIndex "workflows" "ix_workflows_org";
  DropTable "workflows";
  DropIndex "refresh_tokens" "ix_refresh_tokens_user_id";
  DropIndex "refresh_tokens" "ix_refresh_tokens_token_hash";
  DropIndex "refresh_tokens" "ix_refresh_tokens_family_id";
  DropTable "refresh_tokens";
  DropIndex "memberships" "ix_memberships_user_id";
  DropIndex "memberships" "ix_memberships_org_id";
  DropTable "memberships";
  DropIndex "credit_ledger" "ix_ledger_org_created";
  DropIndex "credit_ledger" "ix_credit_ledger_run_id";
  DropTable "credit_ledger";
  DropIndex "api_keys" "ix_api_keys_org_id";
  DropTable "api_keys";
  DropIndex "agents" "ix_agents_org_active";
  DropTable "agents";
  DropIndex "users" "ix_users_email";
  DropTable "users";
  DropTable "orgs";
  DropTable "model_prices";
  DropIndex "audit_log" "ix_audit_org_created";
  DropTable "audit_log"].

(** ** Revision 0002_tool_calls *)

Definition upgrade_0002 : list op := [
  CreateTable "tool_calls"
    [Column "id" (TString 36) false; Column "run_id" (TString 36) false;
     Column "step_index" TInteger false; Column "call_index" TInteger false;
     Column "agent_id" (TString 36) true; Column "agent_name" (TString 200) false;
     Column "tool" (TString 80) false; Column "arguments" TJSON false;
     Column "result" TText false; Column "is_error" TBoolean false;
     Column "latency_ms" TInteger false; Column "meta" TJSON false;
     Column "created_at" TDateTime false; Column "updated_at" TDateTime false]
    [ForeignKey "run_id" "runs" "id" "CASCADE"; PrimaryKey ["id"];
     Unique (Some "uq_tool_call_index") ["run_id"; "step_index"; "call_index"]];
  CreateIndex "tool_calls" (mkIndex "ix_tool_calls_run" ["run_id"] false None);
  AddColumn "run_steps" (mkColumn "model_calls" TInteger false (Some "1"));
  AddColumn "run_steps" (mkColumn "tool_calls" TInteger false (Some "0"));
  AlterDefault "run_steps" "model_calls" None;
  AlterDefault "run_steps" "tool_calls" None].

Definition downgrade_0002 : list op := [
  DropColumn "run_steps" "tool_calls";
  DropColumn "run_steps" "model_calls";
  DropIndex "tool_calls" "ix_tool_calls_run";
  DropTable "tool_calls"].
