(* ===== verification/MigrationsSafety.v ===== *)
(** * What the migrations build

    The revisions together build the tables that models.py declares, the second
    one keeps the rows the first one's tables hold, and each downgrade takes back
    what its upgrade did. *)

From S2P Require Import Prelude Schema Migrations.
From stdpp Require Import strings.

#[local] Open Scope string_scope.

Section revisions.
Context {V : Type} `{EqDecision V}.
Variable read_default : coltype → string → V.
Abbreviation run := (run read_default).

(** The tables, without the rows. *)
Definition schema_of (d : tables V) : gmap string table := st_table <$> d.

Definition same_schema (s s' : gmap string table) : Prop :=
  map_relation (λ _, same_table) (λ _ _, False) (λ _ _, False) s s'.
#[global] Instance same_schema_dec s s' : Decision (same_schema s s').
Proof. unfold same_schema. apply _. Defined.

(** The tables after the first revision, holding the rows [data]. *)
Definition revision_0001 : tables V := default ∅ (run upgrade_0001 ∅).
Definition holding (data : string → list (gmap string V)) : tables V :=
  map_imap (λ name s, Some (mkStored (st_table s) (data name))) revision_0001.

(** The rows the second revision leaves in the table of steps. *)
Definition backfilled (r : gmap string V) : gmap string V :=
  <["tool_calls" := read_default TInteger "0"]> (<["model_calls" := read_default TInteger "1"]> r).

Lemma first_upgrade_runs : run upgrade_0001 ∅ = Some revision_0001.
Proof. vm_cast_no_check (eq_refl (Some revision_0001)). Qed.

Definition is_empty_table (s : stored V) : bool := match st_rows s with [] => true | _ => false end.

Lemma both_upgrades_checked :
  match run (upgrade_0001 ++ upgrade_0002) ∅ with
  | Some d => bool_decide (same_schema (schema_of d) declared) && forallb is_empty_table (map_to_list d).*2
  | None => false
  end = true.
Proof. vm_compute. reflexivity. Qed.

(** C34: running both revisions on an empty database succeeds, leaves every table
    empty, and the tables are those models.py declares: the same columns with
    the same types and nullability, keys, constraints and indexes. *)
Theorem migrations_build_models :
  ∃ d, run (upgrade_0001 ++ upgrade_0002) ∅ = Some d ∧
    same_schema (schema_of d) declared ∧ ∀ name s, d !! name = Some s → st_rows s = [].
Proof.
  pose proof both_upgrades_checked as Hc.
  destruct (run (upgrade_0001 ++ upgrade_0002) ∅) as [d|]; [|done].
  apply andb_true_iff in Hc as [Hs He]. exists d.
  split; [done|]. split; [by apply (bool_decide_unpack _), Is_true_true_2|].
  intros name s Hn. rewrite forallb_forall in He.
  assert (is_empty_table s = true) as Hempty.
  { apply He, list_elem_of_In, list_elem_of_fmap. exists (name, s).
    split; [done|by apply elem_of_map_to_list]. }
  unfold is_empty_table in Hempty. by destruct (st_rows s).
Qed.

(** ** Revisions on tables that hold rows *)

(** The tables after both revisions, holding the rows [data]. *)
Definition revision_0002 : tables V := default ∅ (run upgrade_0002 revision_0001).
Definition holding_0002 (data : string → list (gmap string V)) : tables V :=
  map_imap (λ name s, Some (mkStored (st_table s) (data name))) revision_0002.

(** The rows the second revision makes of those of the first, and back. *)
Definition new_rows (data : string → list (gmap string V)) (name : string) : list (gmap string V) :=
  if bool_decide (name = "run_steps") then map backfilled (data name)
  else if bool_decide (name = "tool_calls") then [] else data name.
Definition old_rows (data : string → list (gmap string V)) (name : string) : list (gmap string V) :=
  if bool_decide (name = "run_steps")
  then map (λ r, delete "model_calls" (delete "tool_calls" r)) (data name) else data name.

Lemma imap_rows_ext (d : tables V) (data data' : string → list (gmap string V)) :
  (∀ name, is_Some (d !! name) → data name = data' name) →
  map_imap (λ name s, Some (mkStored (st_table s) (data name))) d =
  map_imap (λ name s, Some (mkStored (st_table s) (data' name))) d.
Proof.
  intros Heq. apply map_eq. intros name. rewrite !map_lookup_imap.
  specialize (Heq name). destruct (d !! name); simpl; [|done]. by rewrite Heq.
Qed.

Lemma holding_ext data data' :
  (∀ name, is_Some (revision_0001 !! name) → data name = data' name) → holding data = holding data'.
Proof. intros Heq. exact (imap_rows_ext revision_0001 data data' Heq). Qed.

Lemma holding_0002_ext data data' :
  (∀ name, data name = data' name) → holding_0002 data = holding_0002 data'.
Proof. intros Heq. exact (imap_rows_ext revision_0002 data data' (λ name _, Heq name)). Qed.

Lemma rows_of_0002 data name s : holding_0002 data !! name = Some s → st_rows s = data name.
Proof.
  unfold holding_0002. rewrite map_lookup_imap.
  destruct (revision_0002 !! name); simpl; [|done]. by intros [= <-].
Qed.

Lemma schema_of_0002 data : schema_of (holding_0002 data) = schema_of revision_0002.
Proof.
  apply map_eq. intros name. unfold schema_of, holding_0002.
  rewrite !lookup_fmap, map_lookup_imap. by destruct (revision_0002 !! name).
Qed.

Lemma revision_0002_declared : same_schema (schema_of revision_0002) declared.
Proof.
  apply (bool_decide_unpack _), Is_true_true_2.
  vm_cast_no_check (eq_refl true).
Qed.

(** The same statements, the two columns filled and dropped one after the other. *)
Lemma upgrade_0002_computed data :
  run upgrade_0002 (holding data) =
    Some (holding_0002 (λ name,
      if bool_decide (name = "run_steps")
      then map (<["tool_calls" := read_default TInteger "0"]>)
             (map (<["model_calls" := read_default TInteger "1"]>) (data name))
      else if bool_decide (name = "tool_calls") then [] else data name)).
Proof. match goal with |- _ = ?rhs => vm_cast_no_check (eq_refl rhs) end. Qed.

Lemma downgrade_0002_computed data :
  run downgrade_0002 (holding_0002 data) =
    Some (holding (λ name,
      if bool_decide (name = "run_steps")
      then map (delete "model_calls") (map (delete "tool_calls") (data name)) else data name)).
Proof. match goal with |- _ = ?rhs => vm_cast_no_check (eq_refl rhs) end. Qed.

Lemma upgrade_0002_runs data : run upgrade_0002 (holding data) = Some (holding_0002 (new_rows data)).
Proof.
  rewrite upgrade_0002_computed. apply (f_equal Some), holding_0002_ext. intros name.
  unfold new_rows. case_bool_decide; [exact (map_map _ _ _)|reflexivity].
Qed.

Lemma downgrade_0002_runs data : run downgrade_0002 (holding_0002 data) = Some (holding (old_rows data)).
Proof.
  rewrite downgrade_0002_computed. apply (f_equal Some), holding_ext. intros name _.
  unfold old_rows. case_bool_decide; [exact (map_map _ _ _)|reflexivity].
Qed.

(** the second revision goes through whatever rows the tables of the first one
    hold: the tables it leaves are those models.py declares, every step has
    made one call of a model and none of a tool, no call of a tool is recorded,
    and every other row is as it was. *)
Theorem upgrade_keeps_rows data :
  ∃ d, run upgrade_0002 (holding data) = Some d ∧ same_schema (schema_of d) declared ∧
    ∀ name s, d !! name = Some s → st_rows s = new_rows data name.
Proof.
  exists (holding_0002 (new_rows data)). split; [apply upgrade_0002_runs|split].
  - rewrite schema_of_0002. apply revision_0002_declared.
  - intros name s. apply rows_of_0002.
Qed.

(** The rows of the first revision's steps have no entry for the columns it lacks. *)
Definition old_steps (data : string → list (gmap string V)) : Prop :=
  Forall (λ r, r !! "model_calls" = None ∧ r !! "tool_calls" = None) (data "run_steps").

(** downgrading takes back the upgrade: the second revision's downgrade brings
    back the tables of the first one with the rows they held, and the first
    one's downgrade leaves an empty database, whatever rows there were. *)
Theorem downgrade_undoes_upgrade data :
  old_steps data →
  run (upgrade_0002 ++ downgrade_0002) (holding data) = Some (holding data) ∧
  run downgrade_0001 (holding data) = Some ∅.
Proof.
  intros Hold. split; [|vm_cast_no_check (eq_refl (Some (∅ : tables V)))].
  rewrite run_app, upgrade_0002_runs, downgrade_0002_runs. apply (f_equal Some), holding_ext.
  intros name Hname. unfold old_rows, new_rows.
  destruct (decide (name = "run_steps")) as [->|Hn].
  - rewrite !bool_decide_eq_true_2 by done. rewrite map_map.
    rewrite <-(map_id (data "run_steps")) at 2. apply map_ext_in. intros r Hr%list_elem_of_In.
    unfold old_steps in Hold. rewrite Forall_forall in Hold. apply Hold in Hr as [H1 H2]. unfold backfilled.
    rewrite delete_insert_id by (by rewrite lookup_insert_ne).
    by rewrite delete_insert_id.
  - rewrite !(bool_decide_eq_false_2 (name = "run_steps")) by done.
    case_bool_decide as Htool; [|done]. subst.
    assert (revision_0001 !! "tool_calls" = None) as Hnone
      by (vm_cast_no_check (eq_refl (@None (stored V)))).
    rewrite Hnone in Hname. destruct (is_Some_None Hname).
Qed.

End revisions.

(** ** Concrete rows *)

(** A step of the first revision *)
Definition demo_step : gmap string Z := {[ "index" := 0%Z ]}.
Definition demo_rows (name : string) : list (gmap string Z) :=
  if bool_decide (name = "run_steps") then [demo_step] else [].
Definition read_int (_ : coltype) (text : string) : Z := if bool_decide (text = "1") then 1%Z else 0%Z.

Lemma downgrade_undoes_upgrade_witness :
  run read_int (upgrade_0002 ++ downgrade_0002) (holding read_int demo_rows) =
    Some (holding read_int demo_rows) ∧
  run read_int downgrade_0001 (holding read_int demo_rows) = Some ∅.
Proof.
  apply (downgrade_undoes_upgrade read_int demo_rows).
  constructor; [split; reflexivity|constructor].
Defined.

(** Without a server default the column is refused as soon as there is a step. *)
Example default_required :
  run_op read_int (AddColumn "run_steps" (Column "model_calls" TInteger false))
    (holding read_int demo_rows) = None.
Proof. vm_compute. reflexivity. Qed.

(** The tables of the first revision can only be dropped in the order of the
    downgrade: others refer to the organisations. *)
Example orgs_dropped_last :
  run_op read_int (DropTable "orgs") (holding read_int demo_rows) = None.
Proof. vm_compute. reflexivity. Qed.
