(* ===== verification/Schemas.v ===== *)
(** * What the API answers with (src/api/schemas.py)

    The response models as lists of fields, each with the attribute it is read
    from; [validate] is pydantic's check of an attribute, [render] the answer made
    of a row.  The bodies of requests are with the routes that take them.  The
    theorems: whatever a row of the declared tables (Schema) holds can be answered
    with, the answer never depends on a stored credential, and the values a body
    may name are the values the tables' checks allow. *)

From S2P Require Import Prelude PyStr PyFloat PyVal Schema.
From Stdlib Require Import Ascii.
From stdpp Require Import strings.

#[local] Open Scope string_scope.

(** ** Types of fields *)

(** [Literal[...]] *)
Definition KeyMode : list string := ["managed"; "byok"; "hybrid"].
Definition ProviderName : list string := ["anthropic"; "openai"; "xai"; "google"; "openrouter"].
Definition Effort : list string := ["low"; "medium"; "high"; "xhigh"; "max"].
Definition Role : list string := ["owner"; "admin"; "member"; "viewer"].

Inductive field_type : Type :=
| FStr | FInt | FBool | FDatetime
| FEmail                              (* EmailStr *)
| FLiteral (values : list string)
| FStrList                            (* list[str] *)
| FDict.                              (* dict[str, Any] *)

(** A field, whether [None] is allowed, and the table and column it is read from *)
Record field := mkField {
  f_name : string; f_type : field_type; f_optional : bool; f_table : string; f_column : string }.

(** What an attribute of a row can be *)
Inductive value : Type :=
| CNull | CText (s : pystr) | CNumber (z : Z) | CFlag (b : bool) | CTime (t : Z) | CFloat (x : pyfloat) | CJson (v : pyval).

Section validate.
Variable valid_email : pystr → bool.        (* email-validator *)

Definition all_str (l : list pyval) : bool := forallb (λ v, match v with VStr _ => true | _ => false end) l.

(** pydantic's check of an attribute, for the values attributes have *)
Definition validate (f : field) (v : value) : bool :=
  match f_type f, v with
  | _, CNull => f_optional f
  | FStr, CText _ => true
  | FInt, CNumber _ => true
  | FBool, CFlag _ => true
  | FDatetime, CTime _ => true
  | FEmail, CText s => valid_email s
  | FLiteral values, CText s => bool_decide (s ∈ map u values)
  | FStrList, CJson (VList l) => all_str l
  | FDict, CJson (VDict _) => true
  | _, _ => false
  end.

(** The attributes of the rows an answer is made of, by table and column *)
Definition attributes : Type := string → string → option value.

(** The answer: a field whose attribute is missing or refused is a
    [ResponseValidationError]. *)
Fixpoint render (fields : list field) (row : attributes) : option (list (string * value)) :=
  match fields with
  | [] => Some []
  | f :: fields =>
      v ← row (f_table f) (f_column f);
      if validate f v then rest ← render fields row; Some ((f_name f, v) :: rest) else None
  end.
End validate.

(** ** The response models *)

(** [from_attributes]: a field is read from the attribute of its own name. *)
Definition own (table : string) (fields : list (string * field_type)) : list field :=
  map (λ f, mkField f.1 f.2 false table f.1) fields.
Definition own_opt (table name : string) (t : field_type) : field := mkField name t true table name.

Definition stamps : list (string * field_type) := [("created_at", FDatetime); ("updated_at", FDatetime)].

Definition AgentOut : list field := own "agents"
  ([("id", FStr); ("name", FStr); ("role", FStr); ("system_prompt", FStr); ("model", FStr); ("effort", FStr);
    ("max_tokens", FInt); ("tools", FStrList); ("is_active", FBool)] ++ stamps).

Definition WorkflowOut : list field := own "workflows"
  ([("id", FStr); ("name", FStr); ("description", FStr); ("preset", FStr); ("graph", FDict); ("is_active", FBool)] ++ stamps).

Definition RunStepOut : list field :=
  own "run_steps" [("index", FInt)] ++ [own_opt "run_steps" "agent_id" FStr] ++
  own "run_steps" [("agent_name", FStr); ("role", FStr); ("model", FStr); ("provider", FStr); ("input", FStr); ("output", FStr)] ++
  [own_opt "run_steps" "stop_reason" FStr] ++
  own "run_steps" [("tokens_in", FInt); ("tokens_out", FInt); ("cached_tokens", FInt); ("cost_microcents", FInt);
    ("latency_ms", FInt); ("attempts", FInt); ("model_calls", FInt); ("tool_calls", FInt); ("created_at", FDatetime)].

Definition ToolCallOut : list field := own "tool_calls"
  [("step_index", FInt); ("call_index", FInt); ("agent_name", FStr); ("tool", FStr); ("arguments", FDict);
   ("result", FStr); ("is_error", FBool); ("latency_ms", FInt); ("created_at", FDatetime)].

Definition ArtifactOut : list field :=
  own "artifacts" [("id", FStr); ("path", FStr); ("kind", FStr)] ++ [own_opt "artifacts" "language" FStr] ++
  own "artifacts" [("version", FInt); ("size_bytes", FInt)] ++
  [own_opt "artifacts" "produced_by_step" FInt; own_opt "artifacts" "produced_by_agent" FStr] ++
  own "artifacts" [("created_at", FDatetime)].

Definition ArtifactContent : list field := ArtifactOut ++ own "artifacts" [("content", FStr)].

(** [RunDetail] adds the lists of the three models above. *)
Definition RunOut : list field :=
  own "runs" [("id", FStr); ("workflow_id", FStr); ("status", FStr); ("input", FStr)] ++
  [own_opt "runs" "output" FStr; own_opt "runs" "error" FStr] ++
  own "runs" [("key_mode", FStr); ("cost_cents", FInt); ("tokens_in", FInt); ("tokens_out", FInt); ("steps_used", FInt);
    ("max_steps", FInt); ("max_cost_cents", FInt); ("created_at", FDatetime)] ++
  [own_opt "runs" "started_at" FDatetime; own_opt "runs" "finished_at" FDatetime].

Definition ApiKeyOut : list field :=
  own "api_keys" [("id", FStr); ("provider", FStr); ("mask", FStr); ("fingerprint", FStr); ("is_active", FBool)] ++
  [own_opt "api_keys" "last_used_at" FDatetime; own_opt "api_keys" "last_error" FStr] ++
  own "api_keys" [("created_at", FDatetime)].

Definition LedgerEntryOut : list field :=
  own "credit_ledger" [("id", FStr); ("kind", FStr); ("amount_cents", FInt); ("balance_after_cents", FInt)] ++
  [own_opt "credit_ledger" "run_id" FStr] ++ own "credit_ledger" [("description", FStr); ("created_at", FDatetime)].

(** The routes build these from two rows. *)
Definition OrgSummary : list field :=
  own "orgs" [("id", FStr); ("name", FStr); ("slug", FStr)] ++ own "memberships" [("role", FLiteral Role)] ++
  own "orgs" [("key_mode", FLiteral KeyMode); ("credits_cents", FInt)].

Definition MemberOut : list field :=
  [mkField "user_id" FStr false "users" "id"; mkField "email" FEmail false "users" "email";
   mkField "name" FStr true "users" "name"; mkField "role" (FLiteral Role) false "memberships" "role";
   mkField "joined_at" FDatetime false "memberships" "created_at"].

(** [orgs] is a list of the summaries. *)
Definition MeResponse : list field :=
  [mkField "id" FStr false "users" "id"; mkField "email" FEmail false "users" "email";
   mkField "name" FStr true "users" "name"; mkField "is_superuser" FBool false "users" "is_superuser"].

Definition responses : list (list field) :=
  [AgentOut; WorkflowOut; RunStepOut; ToolCallOut; ArtifactOut; ArtifactContent; RunOut; ApiKeyOut; LedgerEntryOut;
   OrgSummary; MemberOut; MeResponse].

(** ** Rows of the declared tables *)

(** What a column holds; JSON is checked by nobody. *)
Definition holds (c : column) (v : value) : bool :=
  match c_type c, v with
  | _, CNull => c_nullable c
  | TString n, CText s => py_len s <=? n
  | TText, CText _ => true
  | TInteger, CNumber z => (- 2 ^ 31 <=? z) && (z <? 2 ^ 31)
  | TBigInteger, CNumber z => (- 2 ^ 63 <=? z) && (z <? 2 ^ 63)
  | TFloat, CFloat _ => true
  | TBoolean, CFlag _ => true
  | TDateTime, CTime _ => true
  | TJSON, CJson _ => true
  | _, _ => false
  end%Z.

(** The text of a check, [column in ('a','b')]: the quoted values *)
Fixpoint quoted (inside : bool) (word s : string) : list string :=
  match s with
  | EmptyString => []
  | String "'"%char s' => if inside then word :: quoted false "" s' else quoted true "" s'
  | String c s' => if inside then quoted true (word +:+ String c "") s' else quoted false "" s'
  end.

(** What the checks of a table allow in a column, when there is one about it *)
Definition allowed_in (table col : string) : option (list string) :=
  t ← declared !! table;
  head (omap (λ c, match c with
                   | Check_ _ text => if bool_decide (first_word text = col) then Some (quoted false "" text) else None
                   | _ => None
                   end) (t_constraints t)).

Definition column_at (table col : string) : option column :=
  t ← declared !! table; List.find (λ c, bool_decide (c_name c = col)) (t_columns t).

(** A row as Postgres keeps it: every column of its table, with a value it holds and
    its checks allow *)
Definition stored (row : attributes) : Prop :=
  ∀ table col c, column_at table col = Some c →
    ∃ v, row table col = Some v ∧ holds c v = true ∧
      ∀ l s, allowed_in table col = Some l → v = CText s → s ∈ map u l.

(** The columns of credentials *)
Definition secret (table col : string) : bool :=
  bool_decide ((table, col) ∈ [("users", "password_hash"); ("refresh_tokens", "token_hash"); ("api_keys", "ciphertext")]).

(** What the code writes where the tables check nothing: lists of names in [tools],
    objects in the other JSON columns, addresses in [email] *)
Definition well_shaped (valid_email : pystr → bool) (row : attributes) : Prop :=
  (∀ l, row "agents" "tools" = Some l → ∃ names, l = CJson (VList (map VStr names))) ∧
  (∀ v, row "workflows" "graph" = Some v → ∃ d, v = CJson (VDict d)) ∧
  (∀ v, row "tool_calls" "arguments" = Some v → ∃ d, v = CJson (VDict d)) ∧
  (∀ s, row "users" "email" = Some (CText s) → valid_email s = true).

(** ** Every row can be answered with *)

(** What the fields of a response promise of the columns they read, by table and column *)
Definition compatible (f : field) : bool :=
  match column_at (f_table f) (f_column f) with
  | None => false
  | Some c =>
      implb (c_nullable c) (f_optional f) &&
      match f_type f, c_type c with
      | FStr, (TString _ | TText) | FInt, (TInteger | TBigInteger) | FBool, TBoolean | FDatetime, TDateTime => true
      | FLiteral l, TString _ => bool_decide (allowed_in (f_table f) (f_column f) = Some l)
      | FEmail, TString _ => bool_decide ((f_table f, f_column f) = ("users", "email"))
      | FStrList, TJSON => bool_decide ((f_table f, f_column f) = ("agents", "tools"))
      | FDict, TJSON => bool_decide ((f_table f, f_column f) ∈ [("workflows", "graph"); ("tool_calls", "arguments")])
      | _, _ => false
      end
  end.

Section answers.
Variable valid_email : pystr → bool.
Implicit Types row : attributes.

Lemma all_str_map l : all_str (map VStr l) = true.
Proof. by induction l. Qed.

Lemma compatible_valid f row :
  compatible f = true → stored row → well_shaped valid_email row →
  ∃ v, row (f_table f) (f_column f) = Some v ∧ validate valid_email f v = true.
Proof.
  intros Hc Hs (Ht & Hg & Ha & He). unfold compatible in Hc.
  destruct (column_at (f_table f) (f_column f)) as [c|] eqn:Hcol; [|done].
  apply andb_true_iff in Hc as [Hn Hc]. destruct (Hs _ _ _ Hcol) as (v & Hv & Hh & Hl). exists v. split; [done|].
  unfold validate, holds in *. destruct v as [|s|z|b|t|x|j].
  { destruct (f_optional f), (c_type c), (c_nullable c), (f_type f); done. }
  all: destruct (f_type f), (c_type c); try done; apply bool_decide_eq_true in Hc.
  - injection Hc as H1 H2. rewrite H1, H2 in Hv. by apply He.
  - apply bool_decide_eq_true. by eapply Hl.
  - injection Hc as H1 H2. rewrite H1, H2 in Hv. destruct (Ht _ Hv) as (names & [= ->]). apply all_str_map.
  - rewrite !elem_of_cons, elem_of_nil in Hc. destruct Hc as [[= H1 H2]|[[= H1 H2]|[]]]; rewrite H1, H2 in Hv.
    + by destruct (Hg _ Hv) as (d & [= ->]).
    + by destruct (Ha _ Hv) as (d & [= ->]).
Qed.

Lemma render_answers row fields :
  forallb compatible fields = true → stored row → well_shaped valid_email row →
  ∃ answer, render valid_email fields row = Some answer ∧ map fst answer = map f_name fields.
Proof.
  intros Hf Hs Hw. induction fields as [|f fields IH]; [by exists []|]. simpl in Hf. apply andb_true_iff in Hf as [Hf Hfs].
  destruct (IH Hfs) as (rest & Hr & Hn), (compatible_valid f row Hf Hs Hw) as (v & Hv & Hok).
  exists ((f_name f, v) :: rest). simpl. rewrite Hv. simpl. rewrite Hok, Hr. simpl. by rewrite Hn.
Qed.

Lemma render_same row row' fields :
  Forall (λ f, row' (f_table f) (f_column f) = row (f_table f) (f_column f)) fields →
  render valid_email fields row' = render valid_email fields row.
Proof. induction 1 as [|f fields Hf _ IH]; [done|]. simpl. by rewrite Hf, IH. Qed.

(** C39: answers are made of any well-shaped row: whatever a row of the declared tables
    holds, as long as the tools of an agent are a list of strings and not null, the
    graph of a workflow and the arguments of a tool call are dictionaries, and the
    email address of an account passes the validation of addresses; and whichever
    response model the row is put into, the answer has exactly the fields of the
    model, none of them refused, and it is the same answer for every other value of
    the columns that hold password hashes, token hashes and encrypted keys. *)
Theorem rows_answered fields row :
  fields ∈ responses → stored row → well_shaped valid_email row →
  ∃ answer, render valid_email fields row = Some answer ∧ map fst answer = map f_name fields ∧
    ∀ row', (∀ t c, secret t c = false → row' t c = row t c) → render valid_email fields row' = Some answer.
Proof.
  intros Hin Hs Hw.
  assert (Forall (λ l, forallb compatible l && forallb (λ f, negb (secret (f_table f) (f_column f))) l = true) responses) as Hall
    by (apply (bool_decide_unpack _); vm_compute; exact I).
  rewrite Forall_forall in Hall. specialize (Hall _ Hin). apply andb_true_iff in Hall as [Hc Hk].
  destruct (render_answers row fields Hc Hs Hw) as (answer & Hr & Hn). exists answer. split_and!; [done..|].
  intros row' Hrow. rewrite <- Hr. apply render_same, Forall_forall. intros f Hf. apply Hrow.
  rewrite forallb_forall in Hk. apply negb_true_iff, Hk. by apply list_elem_of_In.
Qed.
End answers.

(** ** Literals and checks *)

(** What the bodies of requests may name is what the checks of the tables allow. *)
Lemma literals_are_checked :
  allowed_in "orgs" "key_mode" = Some KeyMode ∧ allowed_in "api_keys" "provider" = Some ProviderName ∧
  allowed_in "agents" "effort" = Some Effort ∧ allowed_in "memberships" "role" = Some Role.
Proof. vm_compute. split_and!; reflexivity. Qed.

(** ** A concrete row *)

Definition sample : attributes := λ table col,
  c ← column_at table col;
  Some (match allowed_in table col, c_type c with
        | Some (l :: _), _ => CText (u l)
        | _, (TString _ | TText) => CText (u "x")
        | _, (TInteger | TBigInteger) => CNumber 1
        | _, TFloat => CFloat (FFin 0)
        | _, TBoolean => CFlag true
        | _, TDateTime => CTime 0
        | _, TJSON =>
            if bool_decide ((table, col) = ("agents", "tools")) then CJson (VList [VStr (u "web_fetch")])
            else CJson (VDict [])
        end).

Definition sample_holds (table : string) (c : column) : bool :=
  match sample table (c_name c) with
  | Some v => holds c v && match allowed_in table (c_name c), v with
                           | Some l, CText s => bool_decide (s ∈ map u l)
                           | _, _ => true
                           end
  | None => false
  end.

Lemma sample_stored : stored sample.
Proof.
  assert (Forall (λ t, Forall (λ c, sample_holds t.1 c = true) (t_columns t.2)) (map_to_list declared)) as Hall
    by (apply (bool_decide_unpack _); vm_compute; exact I).
  intros table col c Hc. unfold column_at in Hc. destruct (declared !! table) as [t|] eqn:Ht; [|done]. simpl in Hc.
  apply List.find_some in Hc as [Hin Hname%bool_decide_eq_true]. subst col.
  rewrite Forall_forall in Hall. specialize (Hall (table, t) (proj2 (elem_of_map_to_list _ _ _) Ht)). simpl in Hall.
  rewrite Forall_forall in Hall. specialize (Hall c (proj2 (list_elem_of_In _ _) Hin)). unfold sample_holds in Hall.
  destruct (sample table (c_name c)) as [v|]; [|done]. apply andb_true_iff in Hall as [Hh Hall]. exists v.
  split_and!; [done..|]. intros l s Hl ->. rewrite Hl in Hall. by apply bool_decide_eq_true in Hall.
Qed.

Lemma sample_shaped : well_shaped (λ _, true) sample.
Proof.
  split_and!.
  - intros l. vm_compute. intros [= <-]. by exists [u "web_fetch"].
  - intros v. vm_compute. intros [= <-]. by exists [].
  - intros v. vm_compute. intros [= <-]. by exists [].
  - done.
Qed.

(** A key of a provider is answered with as its mask and its fingerprint. *)
Lemma rows_answered_witness :
  ApiKeyOut ∈ responses ∧ ∃ answer, render (λ _, true) ApiKeyOut sample = Some answer ∧ map fst answer = map f_name ApiKeyOut.
Proof.
  assert (ApiKeyOut ∈ responses) as Hin by (unfold responses; rewrite !elem_of_cons; tauto). split; [exact Hin|].
  destruct (rows_answered (λ _, true) ApiKeyOut sample Hin sample_stored sample_shaped) as (answer & Hr & Hn & _).
  exists answer. split; [exact Hr|exact Hn].
Defined.

(** JSON is checked by nobody: an agent whose [tools] is [null] cannot be answered with. *)
Lemma null_tools_refused :
  render (λ _, true) AgentOut (λ t c, if bool_decide ((t, c) = ("agents", "tools")) then Some (CJson VNone) else sample t c) = None.
Proof. vm_compute. reflexivity. Qed.
