(* ===== verification/Rows.v ===== *)
(** * Rows and the columns they are stored in

    A text column of models.py holds so many characters and an integer column so
    many bits; Postgres refuses a row that does not fit, and with it the
    transaction.  [cells] are the values of a row by column and [fits] compares
    them with the declared columns.  What comes from a client or from a model is
    compared; identifiers are UUIDs made by the server, in columns of 36
    characters. *)

From stdpp Require Import strings.
From S2P Require Import Prelude PyStr PyFloat PyVal PyRegex Config State Budget Registry Providers Pricing Keys Events.
From S2P Require Import World Artifacts Engine Workflow Database Runner Api ApiSafety Auth Orgs RunsApi Team TeamSafety Schema.
From S2P Require Import ToolBase ToolArtifacts ToolRegistry Web Auditing Security RateLimit Billing.
From S2P Require Import BillingSafety AuthSafety AuthDemo OrgSafety RunsDemo TeamDemo.

#[local] Open Scope Z_scope.

Inductive cell : Type := CNull | CText (s : pystr) | CInt (z : Z) | CBool (b : bool).

Definition cell_of (o : option pystr) : cell := match o with Some s => CText s | None => CNull end.

Definition signed (bits z : Z) : bool := (- 2 ^ (bits - 1) <=? z) && (z <? 2 ^ (bits - 1)).

Definition cell_fits (c : column) (v : cell) : bool :=
  match c_type c, v with
  | _, CNull => c_nullable c
  | TString n, CText s => py_len s <=? n
  | TText, CText _ => true
  | TInteger, CInt z => signed 32 z
  | TBigInteger, CInt z => signed 64 z
  | TBoolean, CBool _ => true
  | _, _ => false
  end.

Definition column_named (table col : string) : option column :=
  t ← declared !! table; List.find (λ c, bool_decide (c_name c = col)) (t_columns t).

Definition fits (table : string) (cells : list (string * cell)) : bool :=
  forallb (λ kv, match column_named table kv.1 with Some c => cell_fits c kv.2 | None => false end) cells.

(** ** The columns that are filled from outside *)

Definition agent_cells (a : AgentRow) : list (string * cell) :=
  let s := ar_spec a in
  [("name", CText (ag_name s)); ("role", CText (ag_role s)); ("system_prompt", CText (ag_system_prompt s));
   ("model", CText (ag_model s)); ("effort", CText (ag_effort s)); ("max_tokens", CInt (ag_max_tokens s));
   ("is_active", CBool (ar_is_active a))]%string.

Definition workflow_cells (w : WorkflowRow) : list (string * cell) :=
  [("name", CText (wf_name w)); ("description", CText (wf_description w)); ("preset", CText (wf_preset w));
   ("is_active", CBool (wf_is_active w))]%string.

Definition artifact_cells (a : ArtifactRow) : list (string * cell) :=
  [("path", CText (aw_path a)); ("kind", CText (aw_kind a)); ("language", cell_of (aw_language a));
   ("content", CText (aw_content a)); ("size_bytes", CInt (aw_size_bytes a)); ("version", CInt (aw_version a));
   ("produced_by_step", CInt (aw_produced_by_step a)); ("produced_by_agent", CText (aw_produced_by_agent a))]%string.

Definition run_cells (r : Run) : list (string * cell) :=
  [("status", CText (ru_status r)); ("input", CText (ru_input r)); ("output", cell_of (ru_output r));
   ("error", cell_of (ru_error r)); ("key_mode", CText (ru_key_mode r));
   ("cost_microcents", CInt (ru_cost_microcents r)); ("cost_cents", CInt (ru_cost_cents r));
   ("billable_microcents", CInt (ru_billable_microcents r)); ("tokens_in", CInt (ru_tokens_in r));
   ("tokens_out", CInt (ru_tokens_out r)); ("steps_used", CInt (ru_steps_used r));
   ("max_steps", CInt (ru_max_steps r)); ("max_cost_cents", CInt (ru_max_cost_cents r));
   ("cancel_requested", CBool (ru_cancel_requested r)); ("idempotency_key", cell_of (ru_idempotency_key r))]%string.

(** The comparison, spelled out by table *)
Ltac look_up_columns :=
  unfold fits; cbn [forallb fst snd];
  repeat match goal with
  | |- context [column_named ?t ?c] =>
      let v := eval vm_compute in (column_named t c) in
      let E := fresh in
      assert (column_named t c = v) as E by (vm_compute; reflexivity); rewrite E; clear E
  end;
  unfold cell_fits; cbn [c_type c_nullable].

Lemma agent_fits a :
  fits "agents" (agent_cells a) =
    ((py_len (ag_name (ar_spec a)) <=? 200) && ((py_len (ag_role (ar_spec a)) <=? 100) &&
     ((py_len (ag_model (ar_spec a)) <=? 80) && ((py_len (ag_effort (ar_spec a)) <=? 16) &&
      (signed 32 (ag_max_tokens (ar_spec a)) && true))))).
Proof. unfold agent_cells, workflow_cells. look_up_columns. reflexivity. Qed.
Lemma workflow_fits w :
  fits "workflows" (workflow_cells w) = ((py_len (wf_name w) <=? 200) && ((py_len (wf_preset w) <=? 32) && true)).
Proof. unfold agent_cells, workflow_cells. look_up_columns. reflexivity. Qed.
Lemma artifact_fits a :
  fits "artifacts" (artifact_cells a) =
    ((py_len (aw_path a) <=? 400) && ((py_len (aw_kind a) <=? 40) &&
     (match aw_language a with Some l => py_len l <=? 40 | None => true end &&
      (signed 32 (aw_size_bytes a) && (signed 32 (aw_version a) && (signed 32 (aw_produced_by_step a) &&
       ((py_len (aw_produced_by_agent a) <=? 200) && true))))))).
Proof.
  unfold artifact_cells, cell_of. look_up_columns. by destruct (aw_language a).
Qed.

(** ** What the routes of agents and workflows save *)

Definition agents_fit (d : Db) : Prop := ∀ a, a ∈ db_agents d → fits "agents" (agent_cells a) = true.
Definition workflows_fit (d : Db) : Prop := ∀ w, w ∈ db_workflows d → fits "workflows" (workflow_cells w) = true.
Definition rows_fit (d : Db) : Prop := agents_fit d ∧ workflows_fit d.

Lemma bounded_text_ok low high s s' : bounded_text low high s = Ok s' → py_len s' ≤ high.
Proof. unfold bounded_text, within. destruct (Z.leb_spec (py_len s) high); [|by rewrite andb_false_r]. case_match; by intros [= <-]. Qed.

Lemma elem_short (l : list pystr) n : forallb (λ s, py_len s <=? n) l = true → ∀ s, s ∈ l → py_len s ≤ n.
Proof. rewrite forallb_forall. intros Hl s Hs%list_elem_of_In. by apply Z.leb_le, Hl. Qed.

Lemma known_effort_short e e' : validated (known_effort e) = Ok e' → py_len e' ≤ 16.
Proof. intros He%known_effort_ok. revert e' He. apply elem_short. vm_compute. reflexivity. Qed.
Lemma known_preset_short p p' : validated (known_preset p) = Ok p' → py_len p' ≤ 32.
Proof.
  unfold validated, known_preset. case_bool_decide as Hp; [|done]. intros [= <-]. revert p Hp.
  apply elem_short. vm_compute. reflexivity.
Qed.
Lemma known_model_short `{PyTables} m m' : known_model m = Ok m' → py_len m' ≤ 80.
Proof.
  unfold known_model, get_spec. destruct (assoc m MODELS) as [s|] eqn:Ha; [|done].
  intros [= <-]. apply assoc_Some_elem in Ha.
  apply (elem_short MODELS.*1); [vm_compute; reflexivity|]. apply list_elem_of_fmap. by exists (m, s).
Qed.

Lemma fits_agent_iff a :
  fits "agents" (agent_cells a) = true ↔
    py_len (ag_name (ar_spec a)) ≤ 200 ∧ py_len (ag_role (ar_spec a)) ≤ 100 ∧
    py_len (ag_model (ar_spec a)) ≤ 80 ∧ py_len (ag_effort (ar_spec a)) ≤ 16 ∧
    signed 32 (ag_max_tokens (ar_spec a)) = true.
Proof. rewrite agent_fits, !andb_true_iff, !Z.leb_le. tauto. Qed.
Lemma fits_workflow_iff w :
  fits "workflows" (workflow_cells w) = true ↔ py_len (wf_name w) ≤ 200 ∧ py_len (wf_preset w) ≤ 32.
Proof. rewrite workflow_fits, !andb_true_iff, !Z.leb_le. tauto. Qed.

Lemma tokens_signed n : 256 ≤ n ≤ 128000 → signed 32 n = true.
Proof. unfold signed. intros [Hl Hh]. apply andb_true_intro. split; [apply Z.leb_le|apply Z.ltb_lt]; simpl; lia. Qed.

Section saved.
Context `{PyTables}.

Lemma created_fits p p' id org by_ : check_agent_create p = Ok p' → fits "agents" (agent_cells (new_agent id org by_ p')) = true.
Proof.
  unfold check_agent_create. intros Hok. res_steps Hok. apply fits_agent_iff. cbn.
  split_and!; first [by eapply bounded_text_ok | by eapply known_model_short | by eapply known_effort_short
                    | by eapply tokens_signed, bounded_tokens_ok].
Qed.

Lemma patched_fits p p' a :
  check_agent_update p = Ok p' → fits "agents" (agent_cells a) = true → fits "agents" (agent_cells (patch_agent p' a)) = true.
Proof.
  unfold check_agent_update. intros Hok. res_steps Hok. rewrite !fits_agent_iff. cbn. intros (H1 & H2 & H3 & H4 & H5).
  split_and!.
  - eapply (on_patch_ok _ (λ s, py_len s ≤ 200)); [apply bounded_text_ok|done..].
  - eapply (on_patch_ok _ (λ s, py_len s ≤ 100)); [apply bounded_text_ok|done..].
  - eapply (on_patch_ok _ (λ s, py_len s ≤ 80)); [apply known_model_short|done..].
  - eapply (on_patch_ok _ (λ s, py_len s ≤ 16)); [apply known_effort_short|done..].
  - eapply (on_patch_ok _ (λ n, signed 32 n = true)); [|done..]. intros n n' Hn. by eapply tokens_signed, bounded_tokens_ok.
Qed.

Lemma created_workflow_fits p p' id org by_ :
  check_workflow_create p = Ok p' → fits "workflows" (workflow_cells (new_workflow id org by_ p')) = true.
Proof.
  unfold check_workflow_create. intros Hok. res_steps Hok. apply fits_workflow_iff. cbn.
  split; [by eapply bounded_text_ok|by eapply known_preset_short].
Qed.

Lemma patched_workflow_fits p p' w :
  check_workflow_update p = Ok p' → fits "workflows" (workflow_cells w) = true →
  fits "workflows" (workflow_cells (patch_workflow p' w)) = true.
Proof.
  unfold check_workflow_update. intros Hok. res_steps Hok. rewrite !fits_workflow_iff. cbn. intros (H1 & H2). split.
  - eapply (on_patch_ok _ (λ s, py_len s ≤ 200)); [apply bounded_text_ok|done..].
  - eapply (on_patch_ok _ (λ s, py_len s ≤ 32)); [apply known_preset_short|done..].
Qed.
End saved.

Section routes.
Context `{ApiEnv}.

Definition fits_kept (d d' : Db) : Prop := rows_fit d → rows_fit d'.
#[local] Instance fits_kept_preorder : PreOrder fits_kept.
Proof. unfold fits_kept. split; [by intros d Hd|]. intros d1 d2 d3 H1 H2 Hd. by apply H2, H1. Qed.

Lemma fits_agent_updated id f d :
  (∀ a, fits "agents" (agent_cells a) = true → fits "agents" (agent_cells (f a)) = true) →
  fits_kept d (update_agent_row id f d).
Proof.
  intros Hf [Ha Hw]. split; [|exact Hw]. intros a. unfold update_agent_row. cbn.
  intros (x & -> & Hx)%list_elem_of_fmap. destruct (bool_decide _); [apply Hf|]; by apply Ha.
Qed.
Lemma fits_workflow_updated id f d :
  (∀ w, fits "workflows" (workflow_cells w) = true → fits "workflows" (workflow_cells (f w)) = true) →
  fits_kept d (update_workflow_row id f d).
Proof.
  intros Hf [Ha Hw]. split; [exact Ha|]. intros w. unfold update_workflow_row. cbn.
  intros (x & -> & Hx)%list_elem_of_fmap. destruct (bool_decide _); [apply Hf|]; by apply Hw.
Qed.

(** C35: whatever is asked of the routes that create, change and retire agents and
    workflows, by whom and however it ends, the rows of both tables stay within
    their columns: names, roles, models, efforts and presets are no longer than
    the migrations allow, and token limits fit their integers. *)
Theorem saved_rows_fit rq org q sv r sv' ck :
  rows_fit (sv_db sv) → serve (team_route rq org q) sv = (r, sv', ck) → rows_fit (sv_db sv').
Proof.
  intros Hfit Heq. revert Hfit.
  change (fits_kept (sv_db sv) (sv_db sv')).
  eapply (serve_tracked fits_kept); [|exact Heq]. apply team_route_framed.
  - intros row d [Ha Hw]. by split.
  - intros body body' id o by_ Hb d [Ha Hw]. split; [exact Ha|]. intros w. cbn.
    rewrite elem_of_app, list_elem_of_singleton. intros [Hin| ->]; [by apply Hw|by eapply created_workflow_fits].
  - intros body body' id Hb d. apply fits_workflow_updated. intros w. by apply (patched_workflow_fits body).
  - intros id d. apply fits_workflow_updated. by intros w.
  - intros body body' id o by_ Hb d [Ha Hw]. split; [|exact Hw]. intros a. cbn.
    rewrite elem_of_app, list_elem_of_singleton. intros [Hin| ->]; [by apply Ha|by eapply created_fits].
  - intros body body' id Hb d. apply fits_agent_updated. intros a. by apply (patched_fits body).
  - intros id d. apply fits_agent_updated. by intros a.
Qed.
End routes.

(** ** What a run saves of a reply *)

(** The row of an artifact found in a reply fits exactly when the kind and the
    language the reply gives it have at most 40 characters: the path and the
    size are bounded by the extraction, these two are not. *)
Theorem extracted_row_fits `{PyTables} text x id run_id org_id agent version step size :
  x ∈ extract text → size_bytes x = Ok size →
  py_len agent ≤ 200 → signed 32 version = true → signed 32 step = true →
  fits "artifacts" (artifact_cells (artifact_row id run_id org_id size
    (mkArtifactRecord (x_path x) version (x_kind x) (x_language x) (x_content x) step agent))) =
  (py_len (x_kind x) <=? 40) && match x_language x with Some l => py_len l <=? 40 | None => true end.
Proof.
  intros Hx Hs Hagent Hv Hst. destruct (extract_safe text) as [_ Hok].
  rewrite Forall_forall in Hok. apply Hok in Hx as (Hsafe & Hlen).
  assert (0 ≤ size ≤ 4000000) as Hsize.
  { unfold size_bytes, encoded_len in Hs. destruct (encodable _); [|done]. injection Hs as <-.
    pose proof (utf8_len_bounds (x_content x)) as Hb. unfold MAX_ARTIFACT_BYTES in Hlen.
    pose proof (Nat2Z.is_nonneg (length (x_content x))). unfold py_len in *. lia. }
  assert (signed 32 size = true) as Hss.
  { unfold signed. apply andb_true_intro. split; [apply Z.leb_le|apply Z.ltb_lt]; simpl; lia. }
  destruct Hsafe as (_ & Hpath & _). unfold MAX_PATH_LENGTH in Hpath.
  rewrite artifact_fits. cbn. rewrite Hss, Hv, Hst.
  rewrite (proj2 (Z.leb_le _ _) Hpath), (proj2 (Z.leb_le _ _) Hagent).
  by rewrite !andb_true_r.
Qed.

(** ** Rows that fit, and rows that do not

    The theorem on saved rows at a concrete request; and two values nothing
    bounds before the database does: the kind a reply gives an artifact, and the
    idempotency key of a header. *)

#[local] Existing Instance demo_api.
#[local] Open Scope Z_scope.

#[local] Abbreviation hired := (serve (team_route plain_request (og_id demo_org) hire) office).

Lemma office_rows_fit : rows_fit office_db.
Proof.
  split.
  - intros a Ha. change (a ∈ [writer; foreign_agent_row]) in Ha.
    rewrite !elem_of_cons in Ha. destruct Ha as [->|[->|Ha%elem_of_nil]]; [vm_compute; reflexivity..|done].
  - intros w Hw. change (w ∈ db_workflows team_db) in Hw. revert w Hw.
    apply Forall_forall, (bool_decide_unpack _). vm_compute. exact I.
Qed.

Lemma saved_rows_fit_witness : length (db_agents (sv_db hired.1.2)) = 3%nat ∧ rows_fit (sv_db hired.1.2).
Proof.
  split; [vm_compute; reflexivity|].
  exact (saved_rows_fit plain_request (og_id demo_org) hire office (Ok tt) hired.1.2 hired.2 office_rows_fit hired_eq).
Defined.

(** A reply whose tag has a kind of 41 characters *)
Definition long_kind : pystr := repeat 107%N 41.
Definition long_kind_reply : pystr :=
  (u "<artifact path=a.txt kind=" ++ long_kind) ++ u ">x</artifact>".

(** The artifact is extracted, and its row is refused: the flush fails and the run
    with it, however much its calls have cost. *)
Lemma kind_of_a_reply_is_unbounded :
  extract long_kind_reply = [mkArtifact (u "a.txt") long_kind None (u "x")] ∧
  fits "artifacts" (artifact_cells (artifact_row (u "i") (u "r") (u "o") 1
    (mkArtifactRecord (u "a.txt") 1 long_kind None (u "x") 1 (u "Ann")))) = false.
Proof. split; vm_compute; reflexivity. Qed.

(** A body's key has at most 128 characters; a header's has as many as it likes. *)
Definition long_key : pystr := repeat 107%N 129.
Definition bare_submission : RunCreate := mkRunCreate (u "w1") (u "Write a haiku") None None.
Lemma key_of_a_header_is_unbounded :
  effective_key bare_submission (Some long_key) = Some long_key ∧
  fits "runs" (run_cells (queued_run (u "r") (u "o") (u "w") (u "m") (u "input") (u "byok") 1
    (effective_key bare_submission (Some long_key)))) = false.
Proof. split; vm_compute; reflexivity. Qed.
