(* ===== verification/Scripts.v ===== *)
(** * Operators' scripts (src/scripts/create_superuser.py, src/scripts/verify_package.py)

    Granting and revoking the rights of a superuser: one session, which commits
    when the account exists; and the check of an installed distribution, where
    what is installed, and so what an import does, is an argument.  The rotation of
    keys is in Keyring, the demonstration office in Seed. *)

From S2P Require Import Prelude PyStr PyFloat PyVal Config State Budget Registry Providers Pricing Keys Events.
From S2P Require Import World Workflow Database Auditing Security RateLimit Billing BillingSafety Api ApiSafety Auth AuthSafety AuthDemo.

Definition set_superuser (b : bool) (x : User) : User :=
  mkUser (us_id x) (us_email x) (us_password_hash x) (us_name x) (us_is_active x) b
    (us_last_login_at x) (us_token_epoch x).

Section promote.
Context `{PyTables} `{DbEnv}.

Definition no_account (email : pystr) : exn :=
  ExternalError (u "SystemExit") ((u "no account with email " ++ email) ++ u "; register it first").

(** [promote]: the flag, and an epoch that makes the tokens in use stale *)
Definition promote (email : pystr) (revoke : bool) : M Session exn unit :=
  o ← query (find_email (lower email));
  match o with
  | None => raise (no_account email)
  | Some user => change (update_user (us_id user) (λ x, bump_epoch (set_superuser (negb revoke) x)))
  end.

(** The script, on the committed tables *)
Definition create_superuser (email : pystr) (revoke : bool) (d : Db) : res exn unit * Db :=
  let '(r, s) := session_scope (λ m, m) (promote email revoke) (open_session d) in (r, ss_committed s).

Lemma statement_cases s :
  (∃ e, statement s = (Err e, break s)) ∨ (∃ e, statement s = (Err e, s)) ∨ statement s = (Ok tt, tick_session s).
Proof.
  unfold statement. destruct (ss_broken s); [right; left; by eexists|].
  destruct (db_fault (ss_clock s)) as [e|]; [|by right; right].
  destruct (statement_failure e); [left; by eexists|by right; right].
Qed.

(** What the script has done when it is through, and that it has done nothing
    otherwise *)
Lemma create_superuser_cases email revoke d r d' :
  create_superuser email revoke d = (r, d') →
  (is_ok r = false ∧ d' = d) ∨
  (r = Ok tt ∧ ∃ user, find_email (lower email) d = Some user ∧
     d' = update_user (us_id user) (λ x, bump_epoch (set_superuser (negb revoke) x)) d).
Proof.
  unfold create_superuser, session_scope, promote, query, mbind, M_bind, m_bind.
  destruct (statement_cases (open_session d)) as [[e ->]|[[e ->]| ->]];
    [intros [= <- <-]; by left..|]. cbn [ss_working tick_session open_session].
  destruct (find_email (lower email) d) as [user|]; [|intros [= <- <-]; by left].
  unfold change, commit, m_ret. cbn beta iota.
  match goal with |- context [statement ?s] => destruct (statement_cases s) as [[e ->]|[[e ->]| ->]] end;
    intros [= <- <-]; [by left..|]. right. split; [done|]. by exists user.
Qed.
End promote.

(** granting or revoking the rights of a superuser takes hold at once: the
    account with that address, in any letter case, has them or not, the access
    tokens it used until then are refused, every other account is as it was; and
    a script that fails has changed nothing. *)
Theorem promotion_takes_hold `{PyTables} `{DbEnv} email revoke d r d' :
  NoDup (map us_id (db_users d)) → create_superuser email revoke d = (r, d') →
  if is_ok r then
    ∃ user, find_email (lower email) d = Some user ∧
      (∃ user', find_user (us_id user) d' = Some user' ∧ us_is_superuser user' = negb revoke ∧
                us_email user' = us_email user) ∧
      (∀ id, id ≠ us_id user → find_user id d' = find_user id d) ∧
      (∀ (E : ApiEnv) claims w, tables w = d' → ac_user_id claims = VStr (us_id user) →
         ac_token_epoch claims = us_token_epoch user → is_ok (current_user claims w).1 = false)
  else d' = d.
Proof.
  intros Hnd Hr. apply create_superuser_cases in Hr as [[-> ->]|[-> (user & Hf & ->)]]; [done|]. cbn.
  set (f := λ x, bump_epoch (set_superuser (negb revoke) x)).
  assert (Hid : find_user (us_id user) d = Some user).
  { apply find_some in Hf as [Hin _]. unfold find_user. revert Hnd Hin. clear.
    induction (db_users d) as [|x l IH]; [done|]. cbn [map List.find]. intros [Hx Hl]%NoDup_cons [->|Hin].
    - by rewrite bool_decide_eq_true_2.
    - rewrite bool_decide_eq_false_2; [by apply IH|]. intros Heq. apply Hx. rewrite Heq.
      apply list_elem_of_fmap. exists user. split; [done|]. by apply list_elem_of_In. }
  assert (Hnew : find_user (us_id user) (update_user (us_id user) f d) = Some (f user)).
  { unfold find_user, update_user in *. cbn [db_users set_users]. rewrite (find_map us_id) by done.
    rewrite Hid. simpl. by rewrite bool_decide_eq_true_2. }
  exists user. split; [done|]. split; [by exists (f user)|]. split.
  - intros id Hne. unfold find_user, update_user. cbn [db_users set_users]. rewrite (find_map us_id) by done.
    destruct (List.find _ _) as [x|] eqn:Hx; [|done]. apply find_some in Hx as [_ Hx]. apply bool_decide_eq_true in Hx.
    simpl. rewrite bool_decide_eq_false_2; [done|]. congruence.
  - intros E claims w Hw Hc He. pose proof (current_user_wp claims w) as Hwp. unfold wp in Hwp.
    destruct (current_user claims w) as [[x|e] w']; [exfalso|done].
    destruct Hwp as (_ & id & Hi & Hfx & _ & Hep). rewrite Hw in Hfx. rewrite Hc in Hi. injection Hi as <-.
    rewrite Hnew in Hfx. injection Hfx as <-. cbn in Hep. lia.
Qed.

(** ** The check of a distribution *)

(** What the script reads of a module: its file, as the parts of its resolved path, and
    the directories of a package *)
Record PyModule := mkModule { md_file : option (list pystr); md_path : option (list pystr) }.

(** What is installed: [importlib.import_module], which runs the code of the module, and
    [pkgutil.iter_modules], which lists directories: names, and whether they are packages *)
Class Installed := {
  import_module : pystr → res exn PyModule;
  iter_modules : list pystr → list (pystr * bool) }.

Definition EXPECTED_ROOTS : list pystr := [u "core"; u "api"; u "worker"; u "scripts"].
Definition REQUIRED_MODULES : list pystr :=
  [u "api.main"; u "worker.main"; u "core.runner"; u "core.models"; u "core.crypto"; u "core.security"; u "core.billing";
   u "core.ratelimit"; u "core.llm.router"; u "core.llm.providers.anthropic_provider"; u "core.llm.providers.openai_compat";
   u "core.llm.providers.google_provider"; u "core.orchestration.engine"; u "core.orchestration.presets";
   u "core.tools.registry"; u "core.tools.artifacts"; u "core.tools.web"].

Section verify_package.
Context `{PyTables} `{Installed}.

(** [except ImportError] of [pkgutil.walk_packages] *)
Definition is_import_error (e : exn) : bool :=
  match e with
  | ExternalError name _ => bool_decide (name ∈ [u "ImportError"; u "ModuleNotFoundError"])
  | _ => false
  end.

(** [f"{name}: {type(exc).__name__}: {exc}"] *)
Definition failure (name : pystr) (e : exn) : pystr := name ++ u ": " ++ exn_name e ++ u ": " ++ exn_str e.

(** The failures so far, and the number of modules imported *)
Definition Report : Type := list pystr * Z.
(** [try: importlib.import_module(name); imported += 1 except Exception] *)
Definition try_import (name : pystr) (rep : Report) : res exn Report :=
  match import_module name with
  | Ok _ => Ok (rep.1, rep.2 + 1)
  | Err e => if is_exception e then Ok (rep.1 ++ [failure name e], rep.2) else Err e
  end.

(** The directories of a package that no package before it had: [seen] *)
Fixpoint unseen (seen l : list pystr) : list pystr :=
  match l with
  | [] => []
  | x :: l' => if bool_decide (x ∈ seen) then unseen seen l' else x :: unseen (x :: seen) l'
  end.

(** The loop over [pkgutil.walk_packages]: each name is imported by the script when it is
    yielded, and a package once more by the generator, which goes on inside it, skips it
    on an [ImportError] and raises anything else. *)
Fixpoint walk_dir (inside : list pystr → pystr → Report → res exn Report) (prefix : pystr)
    (infos : list (pystr * bool)) (seen : list pystr) (rep : Report) : res exn Report :=
  match infos with
  | [] => Ok rep
  | (name, ispkg) :: infos =>
      let full := prefix ++ name in
      rep ← try_import full rep;
      if ispkg then
        match import_module full with
        | Ok m =>
            let paths := unseen seen (default [] (md_path m)) in
            rep ← inside paths (full ++ u ".") rep;
            walk_dir inside prefix infos (paths ++ seen) rep
        | Err e => if is_import_error e then walk_dir inside prefix infos seen rep else Err e
        end
      else walk_dir inside prefix infos seen rep
  end.

(** [depth]: how many nested generators the interpreter allows *)
Fixpoint walk_packages (depth : nat) (paths : list pystr) (prefix : pystr) (rep : Report) : res exn Report :=
  match depth with
  | O => Err (ExternalError (u "RecursionError") (u "maximum recursion depth exceeded"))
  | S depth => walk_dir (walk_packages depth) prefix (iter_modules paths) [] rep
  end.

(** The body of the loop over [EXPECTED_ROOTS] *)
Definition check_root (depth : nat) (root : pystr) (rep : Report) : res exn Report :=
  match import_module root with
  | Err e => if is_exception e then Ok (rep.1 ++ [failure root e], rep.2) else Err e
  | Ok package =>
      let rep := (rep.1, rep.2 + 1) in
      match md_path package with
      | None => Ok rep
      | Some paths => walk_packages depth paths (root ++ u ".") rep
      end
  end.

(** [install_root in path.parents] *)
Definition below (root path : list pystr) : bool :=
  (Z.of_nat (length root) <? Z.of_nat (length path)) && bool_decide (take (length root) path = root).

(** The body of the loop over [REQUIRED_MODULES] *)
Definition check_required (install_root : list pystr) (name : pystr) (rep : Report) : res exn Report :=
  match import_module name with
  | Err e => if is_exception e then Ok (rep.1 ++ [failure (u "REQUIRED " ++ name) e], rep.2) else Err e
  | Ok m =>
      match md_file m with
      | Some path =>
          if below install_root path then Ok rep
          else Ok (rep.1 ++ [u "REQUIRED " ++ name ++ u ": imported from " ++ join (u "/") path
                     ++ u ", which is outside the distribution at " ++ join (u "/") install_root
                     ++ u " - it is missing from the built package"], rep.2)
      | None => Ok rep
      end
  end.

Fixpoint each {A} (f : A → Report → res exn Report) (l : list A) (rep : Report) : res exn Report :=
  match l with
  | [] => Ok rep
  | x :: l => rep ← f x rep; each f l rep
  end.

(** [main]: the exit status; an exception it does not catch ends the script as well. *)
Definition verify_package (depth : nat) : res exn Z :=
  match import_module (u "core") with
  | Err e => if is_exception e then Ok 1 else Err e
  | Ok core =>
      match md_file core with
      | None => Ok 1
      | Some core_file =>
          let install_root := removelast (removelast core_file) in
          rep ← each (check_root depth) EXPECTED_ROOTS ([], 0);
          rep ← each (check_required install_root) REQUIRED_MODULES rep;
          Ok (match rep.1 with [] => 0 | _ => 1 end)
      end
  end.

(** *** What an exit status of 0 says *)

(** The failures only grow. *)
Definition grows (f : Report → res exn Report) : Prop := ∀ rep rep', f rep = Ok rep' → ∃ l, rep'.1 = rep.1 ++ l.

Lemma try_import_ok name rep rep' : try_import name rep = Ok rep' →
  (∃ l, rep'.1 = rep.1 ++ l) ∧ (rep'.1 = [] → is_ok (import_module name) = true).
Proof.
  unfold try_import. destruct (import_module name) as [m|e]; [intros [= <-]; split; [by exists []; rewrite app_nil_r|done]|].
  destruct (is_exception e); [|done]. intros [= <-]. split; [by eexists|]. by intros [_ ?]%app_eq_nil.
Qed.

Lemma grows_nil f rep rep' : grows f → f rep = Ok rep' → rep'.1 = [] → rep.1 = [].
Proof. intros Hg Hf Hn. destruct (Hg _ _ Hf) as [l Hl]. rewrite Hn in Hl. symmetry in Hl. by apply app_eq_nil in Hl as []. Qed.

Lemma each_ok {A} (f : A → Report → res exn Report) (P : A → Prop) l rep rep' :
  (∀ x, grows (f x)) → (∀ x r r', f x r = Ok r' → r'.1 = [] → P x) →
  each f l rep = Ok rep' → (∃ k, rep'.1 = rep.1 ++ k) ∧ (rep'.1 = [] → ∀ x, x ∈ l → P x).
Proof.
  intros Hg HP. revert rep. induction l as [|x l IH]; intros rep; simpl.
  - intros [= <-]. split; [by exists []; rewrite app_nil_r|]. by intros _ x Hx%elem_of_nil.
  - unfold mbind, res_bind. destruct (f x rep) as [r1|] eqn:Hx; [|done]. intros Hl.
    destruct (IH _ Hl) as [[k Hk] Hall], (Hg _ _ _ Hx) as [k1 Hk1]. split.
    + exists (k1 ++ k). by rewrite Hk, Hk1, app_assoc.
    + intros Hn y. rewrite elem_of_cons. intros [->|Hy]; [|by apply Hall]. apply (HP _ _ _ Hx).
      rewrite Hn in Hk. symmetry in Hk. by apply app_eq_nil in Hk as [].
Qed.

Lemma walk_dir_ok inside prefix infos seen rep rep' :
  (∀ paths prefix, grows (inside paths prefix)) → walk_dir inside prefix infos seen rep = Ok rep' →
  (∃ l, rep'.1 = rep.1 ++ l) ∧ (rep'.1 = [] → ∀ name b, (name, b) ∈ infos → is_ok (import_module (prefix ++ name)) = true).
Proof.
  intros Hin. revert seen rep. induction infos as [|[name ispkg] infos IH]; intros seen rep; cbn [walk_dir].
  { intros [= <-]. split; [by exists []; rewrite app_nil_r|]. by intros _ n b Hn%elem_of_nil. }
  unfold mbind, res_bind. destruct (try_import (prefix ++ name) rep) as [r1|] eqn:H1; [|done].
  apply try_import_ok in H1 as [[k1 Hk1] Hok].
  assert (∀ r2 s, (∃ k, r2.1 = r1.1 ++ k) → walk_dir inside prefix infos s r2 = Ok rep' →
    (∃ l, rep'.1 = rep.1 ++ l) ∧ (rep'.1 = [] → ∀ n b, (n, b) ∈ (name, ispkg) :: infos → is_ok (import_module (prefix ++ n)) = true))
    as Hrest.
  { intros r2 s [k2 Hk2] Hgo. destruct (IH _ _ Hgo) as [[k Hk] Hall]. split.
    - exists (k1 ++ k2 ++ k). by rewrite Hk, Hk2, Hk1, !app_assoc.
    - intros Hn n b. rewrite elem_of_cons. intros [[= -> ->]|Hi]; [|by eapply Hall]. apply Hok.
      rewrite Hn, Hk2 in Hk. symmetry in Hk. apply app_eq_nil in Hk as [Hk _]. by apply app_eq_nil in Hk as []. }
  destruct ispkg; [|apply Hrest; by exists []; rewrite app_nil_r].
  destruct (import_module (prefix ++ name)) as [m|e] eqn:Hm.
  - cbv zeta. destruct (inside _ _ r1) as [r2|] eqn:Hw; [|done]. apply Hrest. by eapply Hin.
  - destruct (is_import_error e); [|done]. apply Hrest. by exists []; rewrite app_nil_r.
Qed.

Lemma walk_packages_grows depth paths prefix : grows (walk_packages depth paths prefix).
Proof.
  revert paths prefix. induction depth as [|depth IH]; intros paths prefix rep rep'; [done|]. cbn [walk_packages].
  intros Hw. by eapply walk_dir_ok.
Qed.

Lemma check_root_ok depth root rep rep' : check_root depth root rep = Ok rep' →
  (∃ l, rep'.1 = rep.1 ++ l) ∧
  (rep'.1 = [] → ∃ m, import_module root = Ok m ∧
     ∀ paths name b, md_path m = Some paths → (name, b) ∈ iter_modules paths →
       is_ok (import_module ((root ++ u ".") ++ name)) = true).
Proof.
  unfold check_root. destruct (import_module root) as [m|e].
  - cbv zeta. destruct (md_path m) as [paths|] eqn:Hp.
    + destruct depth as [|depth]; [done|]. cbn [walk_packages]. intros Hw.
      apply walk_dir_ok in Hw as [Hg Hall]; [|apply walk_packages_grows]. split; [exact Hg|]. intros Hn. exists m. split; [done|].
      rewrite Hp. intros ps name b [= <-]. by apply Hall.
    + intros [= <-]. split; [by exists []; rewrite app_nil_r|]. intros _. exists m. split; [done|]. by rewrite Hp.
  - destruct (is_exception e); [|done]. intros [= <-]. split; [by eexists|]. by intros [_ ?]%app_eq_nil.
Qed.

Lemma check_required_ok install_root name rep rep' : check_required install_root name rep = Ok rep' →
  (∃ l, rep'.1 = rep.1 ++ l) ∧
  (rep'.1 = [] → ∃ m, import_module name = Ok m ∧ ∀ path, md_file m = Some path → below install_root path = true).
Proof.
  unfold check_required. destruct (import_module name) as [m|e].
  - destruct (md_file m) as [path|] eqn:Hp; [destruct (below install_root path) eqn:Hb|]; intros [= <-];
      (split; [first [by exists []; rewrite app_nil_r|by eexists]|]); try (by intros [_ ?]%app_eq_nil);
      intros _; exists m; (split; [done|]); rewrite Hp; [|done]. by intros p [= <-].
  - destruct (is_exception e); [|done]. intros [= <-]. split; [by eexists|]. by intros [_ ?]%app_eq_nil.
Qed.

(** a distribution that passes is complete: the four packages and every module in their
    directories can be imported, and so can the modules the service needs, each from a
    file below the directory that holds [core]. *)
Theorem verified_distribution_complete depth : verify_package depth = Ok 0 →
  ∃ core core_file, import_module (u "core") = Ok core ∧ md_file core = Some core_file ∧
    (∀ root, root ∈ EXPECTED_ROOTS → ∃ m, import_module root = Ok m ∧
       ∀ paths name b, md_path m = Some paths → (name, b) ∈ iter_modules paths →
         is_ok (import_module ((root ++ u ".") ++ name)) = true) ∧
    (∀ name, name ∈ REQUIRED_MODULES → ∃ m, import_module name = Ok m ∧
       ∀ path, md_file m = Some path → below (removelast (removelast core_file)) path = true).
Proof.
  unfold verify_package. destruct (import_module (u "core")) as [core|e]; [|by destruct (is_exception e)].
  destruct (md_file core) as [core_file|] eqn:Hf; [|done]. cbv zeta. unfold mbind, res_bind.
  destruct (each (check_root depth) EXPECTED_ROOTS ([], 0)) as [r1|] eqn:H1; [|done].
  destruct (each (check_required _) REQUIRED_MODULES r1) as [r2|] eqn:H2; [|done].
  destruct r2.1 as [|f fs] eqn:Hn; [intros _|done]. exists core, core_file. split_and!; [done..| |].
  - eapply (each_ok (check_root depth)) in H1 as [_ H1]; [apply H1| |].
    + eapply (grows_nil (each _ _)); [|exact H2|exact Hn]. intros r r' Hr.
      eapply (each_ok _ (λ _, True)); [|done|exact Hr]. intros x r3 r4. apply check_required_ok.
    + intros x r r'. apply check_root_ok.
    + intros x r r' Hr. by apply check_root_ok in Hr as [_ ?].
  - eapply (each_ok (check_required _)) in H2 as [_ H2]; [by apply H2| |].
    + intros x r r'. apply check_required_ok.
    + intros x r r' Hr. by apply check_required_ok in Hr as [_ ?].
Qed.
End verify_package.

(** *** Its limits *)

Definition site_core : PyModule :=
  mkModule (Some [u "site"; u "core"; u "__init__.py"]) (Some [u "/site/core"]).
Definition site_file : PyModule := mkModule (Some [u "site"; u "module.py"]) None.
(** [core] has one module, [config] *)
Definition installed_with (config : res exn PyModule) (ispkg : bool) : Installed := {|
  import_module name :=
    if bool_decide (name = u "core") then Ok site_core
    else if bool_decide (name = u "core.config") then config else Ok site_file;
  iter_modules paths := if bool_decide (paths = [u "/site/core"]) then [(u "config", ispkg)] else [] |}.

(** Only the modules the service needs have to come from the distribution: one that is
    missing from it and comes from the source tree passes. *)
Lemma stray_module_passes :
  @verify_package ascii_tables (installed_with (Ok (mkModule (Some [u "src"; u "core"; u "config.py"]) None)) false) 2 = Ok 0.
Proof. vm_compute. reflexivity. Qed.

(** A package that cannot be imported, for any reason but an [ImportError], ends the
    sweep: nothing is reported. *)
Lemma broken_package_aborts :
  let broken := ValueError (u "bad setting") in
  @verify_package ascii_tables (installed_with (Err broken) true) 2 = Err broken ∧
  @verify_package ascii_tables (installed_with (Err broken) false) 2 = Ok 1.
Proof. split; vm_compute; reflexivity. Qed.
