(* ===== verification/Seed.v ===== *)
(** * The demonstration office (src/scripts/seed.py)

    The script that sets up an account, its organisation and a team of five agents
    with three workflows, in one session.  The ids it draws are arguments, as are
    the salt of the password and the random part of the slug; what it prints is
    left out.  Its theorem: what is set up works, a second run changes nothing,
    and a run that fails has changed nothing. *)

From S2P Require Import Prelude PyStr PyFloat PyVal Config State Budget Registry Providers Pricing Keys Events.
From S2P Require Import World ToolBase ToolArtifacts ToolRegistry Web Workflow Database Auditing Security RateLimit.
From S2P Require Import Runner Billing BillingSafety Api ApiSafety Auth AuthDemo Orgs RunsApi Team TeamSafety.

(** ** The team *)

Definition arrow : pystr := u " " ++ [8594%N] ++ u " ".

Definition pm_prompt : pystr :=
  u "Turn the request into a short, concrete spec: the goal, what is in and out of scope, and 3-6 acceptance criteria a reviewer could check. No implementation detail.".
Definition dev_prompt : pystr :=
  u "Implement the spec. Write complete, runnable code with no placeholders or TODOs. Explain non-obvious decisions in two sentences at most.".
Definition reviewer_prompt : pystr :=
  u "Review the implementation against the spec. Read the files before judging them. Report every issue you find with a severity and your confidence, including ones you are unsure about "
  ++ [8212%N] ++ u " a later pass filters them. Fix what you find with targeted edits.".
Definition researcher_prompt : pystr :=
  u "Gather and organise the background the team needs. Be concrete: name specific approaches, trade-offs and failure modes rather than listing general considerations.".
Definition skeptic_prompt : pystr :=
  u "Argue the strongest case against the proposal on the board. Attack only points you can actually justify; concede the rest explicitly.".

(** An agent of the script: nobody created it, and it is active. *)
Definition seeded_agent (org_id : pystr) (spec : AgentSpec) : AgentRow := mkAgentRow org_id true None spec.

(** The five agents under their ids; where the script says nothing the column's
    default is 8000 tokens and no tools. *)
Definition pm id : AgentSpec :=
  mkAgent id (u "Nadia") (u "product manager") pm_prompt (u "claude-sonnet-5") (u "medium") 8000 [].
Definition dev id : AgentSpec :=
  mkAgent id (u "Ravi") (u "developer") dev_prompt (u "claude-opus-5") (u "high") 32000
    [VStr (u "list_artifacts"); VStr (u "read_artifact"); VStr (u "write_artifact"); VStr (u "edit_artifact")].
Definition reviewer id : AgentSpec :=
  mkAgent id (u "Mei") (u "reviewer") reviewer_prompt (u "gpt-5") (u "high") 16000
    [VStr (u "list_artifacts"); VStr (u "read_artifact"); VStr (u "edit_artifact")].
Definition researcher id : AgentSpec :=
  mkAgent id (u "Tomas") (u "researcher") researcher_prompt (u "gemini-2.5-flash") (u "medium") 8000
    [VStr (u "web_search"); VStr (u "web_fetch"); VStr (u "list_artifacts")].
Definition skeptic id : AgentSpec :=
  mkAgent id (u "Iris") (u "skeptic") skeptic_prompt (u "grok-4") (u "high") 8000 [].

Definition seeded_workflow (id org_id name description preset : pystr) (graph : Graph) : WorkflowRow :=
  mkWorkflowRow id org_id name description preset graph true None.
Definition node (id : pystr) : pyval := VDict [(u "agent_id", VStr id)].

Definition delivery (id org_id pm dev reviewer : pystr) : WorkflowRow :=
  seeded_workflow id org_id (u "Spec" ++ arrow ++ u "Build" ++ arrow ++ u "Review")
    (u "Linear delivery pipeline across three vendors.") (u "pipeline")
    [(u "nodes", VList [node pm; node dev; node reviewer]); (u "max_steps", VInt 6); (u "max_cost_cents", VInt 150)].
Definition managed (id org_id pm dev reviewer researcher : pystr) : WorkflowRow :=
  seeded_workflow id org_id (u "Managed delivery") (u "A manager delegates to the team until the job is done.")
    (u "supervisor")
    [(u "supervisor_agent_id", VStr pm); (u "workers", VList [VStr researcher; VStr dev; VStr reviewer]);
     (u "max_rounds", VInt 6); (u "max_steps", VInt 16); (u "max_cost_cents", VInt 300)].
Definition debate (id org_id reviewer researcher skeptic : pystr) : WorkflowRow :=
  seeded_workflow id org_id (u "Decision debate") (u "Two models argue, a third rules.") (u "debate")
    [(u "debaters", VList [VStr researcher; VStr skeptic]); (u "judge_agent_id", VStr reviewer);
     (u "rounds", VInt 2); (u "max_steps", VInt 8); (u "max_cost_cents", VInt 200)].

(** ** The script *)

Section seed.
Context `{PyTables} `{Vault} `{DbEnv} (settings : Settings).
Variable minted : nat → pystr.         (* uuid.uuid4, in the order of the draws *)
Variables salt suffix : pystr.         (* the salt of the hash, secrets.token_hex(3) *)
Abbreviation DB A := (M Session exn A).

(** [scalar_one_or_none] *)
Definition at_most_one {A} (l : list A) : DB (option A) :=
  match l with
  | [] => m_ret None
  | [x] => m_ret (Some x)
  | _ => raise (ExternalError (u "MultipleResultsFound") (u "Multiple rows were found when one or none was required"))
  end.

Definition memberships_of (user_id : pystr) (d : Db) : list Membership :=
  List.filter (λ m, bool_decide (ms_user_id m = user_id)) (db_memberships d).
Definition agents_of (org_id : pystr) (d : Db) : list AgentRow :=
  List.filter (λ a, bool_decide (ar_org_id a = org_id)) (db_agents d).

(** The account with that address, made when there is none *)
Definition seed_user (email password : pystr) : DB User :=
  o ← query (find_email email);
  match o with
  | Some user => m_ret user
  | None =>
      hash ← lift_res (hash_password settings salt password);
      let user := new_user (minted 0) email hash (Some (u "Owner")) in
      _ ← insert (user_allowed user) (λ d, set_users (db_users d ++ [user]) d);
      m_ret user
  end.

(** The organisation the account is in, made and funded when it is in none *)
Definition seed_org (user_id org_name : pystr) (credits_cents : Z) : DB Org :=
  l ← query (memberships_of user_id);
  membership ← at_most_one l;
  match membership with
  | None =>
      let org := new_org (minted 1) org_name (u "demo-" ++ suffix) in
      _ ← insert (org_allowed org) (λ d, set_orgs (db_orgs d ++ [org]) d);
      let row := mkMembership user_id (og_id org) (u "owner") in
      _ ← insert (membership_allowed row) (λ d, set_memberships (db_memberships d ++ [row]) d);
      _ ← grant (og_id org) credits_cents (u "bonus") (u "seed credits") (Some (u "seed:" ++ og_id org)) None;
      m_ret org
  | Some m =>
      o ← query (find_org (ms_org_id m));
      match o with Some org => m_ret org | None => raise AssertionError end
  end.

Definition new_team (org_id : pystr) : list AgentRow :=
  map (seeded_agent org_id)
    [pm (minted 2); dev (minted 3); reviewer (minted 4); researcher (minted 5); skeptic (minted 6)].
Definition new_workflows (org_id : pystr) : list WorkflowRow :=
  [delivery (minted 7) org_id (minted 2) (minted 3) (minted 4);
   managed (minted 8) org_id (minted 2) (minted 3) (minted 4) (minted 5);
   debate (minted 9) org_id (minted 4) (minted 5) (minted 6)].

(** The team, unless the organisation has agents; the workflows wait for the commit. *)
Definition seed_team (org_id : pystr) : DB unit :=
  existing ← query (agents_of org_id);
  match existing with
  | _ :: _ => m_ret tt
  | [] =>
      _ ← insert (λ _, true) (λ d, set_agents (db_agents d ++ new_team org_id) d);
      change (λ d, set_workflows (db_workflows d ++ new_workflows org_id) d)
  end.

Definition seed (email password org_name : pystr) (credits_cents : Z) : DB unit :=
  user ← seed_user (lower email) password;
  org ← seed_org (us_id user) org_name credits_cents;
  seed_team (og_id org).

(** The script, on the committed tables *)
Definition run_seed (email password org_name : pystr) (credits_cents : Z) (d : Db) : res exn unit * Db :=
  let '(r, s) := session_scope (λ m, m) (seed email password org_name credits_cents) (open_session d) in
  (r, ss_committed s).
End seed.

(** ** What is set up *)

(** The account [email] has its office: it is in one organisation, which has agents. *)
Definition settled `{PyTables} (email : pystr) (org : Org) (d : Db) : Prop :=
  ∃ user m, find_email (lower email) d = Some user ∧ memberships_of (us_id user) d = [m] ∧
    find_org (ms_org_id m) d = Some org ∧ og_id org = ms_org_id m ∧ agents_of (og_id org) d ≠ [].

(** Ids nobody has: [uuid4] draws strings, and none that is in the tables. *)
Record unused (minted : nat → pystr) (d : Db) : Prop := {
  un_text i : minted i ≠ [];
  un_org i : minted i ∉ map og_id (db_orgs d);
  un_ledger i : minted i ∉ map cl_org_id (db_ledger d) }.

Section set_up.
Context `{PyTables} `{Vault} `{DbEnv} (settings : Settings).
Variables (minted : nat → pystr) (salt suffix : pystr).
Implicit Types d : Db.

Lemma find_snoc {A} (P : A → bool) l x : List.find P l = None → P x = true → List.find P (l ++ [x]) = Some x.
Proof. induction l as [|y l IH]; simpl; [by intros _ ->|]. destruct (P y); [done|exact IH]. Qed.

Lemma new_org_books org d :
  og_credits_cents org = 0 → og_id org ∉ map og_id (db_orgs d) → og_id org ∉ map cl_org_id (db_ledger d) →
  ledger_ok d → ledger_ok (set_orgs (db_orgs d ++ [org]) d).
Proof.
  intros Hz Ho Hl [L1 L2 L3]. split; [|exact L2|].
  - cbn. rewrite map_app. apply NoDup_app. split_and!; [done| |apply NoDup_singleton].
    by intros x Hx ->%list_elem_of_singleton.
  - intros o. cbn. rewrite elem_of_app, list_elem_of_singleton. intros [Hin| ->]; [by apply L3|]. rewrite Hz.
    unfold ledger_sum, entries_of. cbn. clear -Hl. revert Hl. induction (db_ledger d) as [|r l IH]; [done|].
    cbn [map]. rewrite not_elem_of_cons. intros [Hr Hl]. simpl. rewrite bool_decide_eq_false_2 by congruence. by apply IH.
Qed.

Lemma new_entry_none org key d : org ∉ map cl_org_id (db_ledger d) → find_entry org key d = None.
Proof.
  intros Hl. unfold find_entry. revert Hl. induction (db_ledger d) as [|r l IH]; [done|].
  cbn [map]. rewrite not_elem_of_cons. intros [Hr Hl]. simpl. unfold posted.
  rewrite bool_decide_eq_false_2 by congruence. by apply IH.
Qed.

Lemma new_org_none org d : org ∉ map og_id (db_orgs d) → find_org org d = None.
Proof.
  intros Hl. unfold find_org. revert Hl. induction (db_orgs d) as [|r l IH]; [done|].
  cbn [map]. rewrite not_elem_of_cons. intros [Hr Hl]. simpl. rewrite bool_decide_eq_false_2 by congruence. by apply IH.
Qed.

(** Only the accounts differ, or nothing does. *)
Definition account_only d d' : Prop :=
  db_orgs d' = db_orgs d ∧ db_ledger d' = db_ledger d ∧ db_agents d' = db_agents d ∧
  db_workflows d' = db_workflows d ∧ db_memberships d' = db_memberships d.

Lemma seed_user_wp email password s :
  wp (seed_user settings minted salt email password)
     (λ user s', kept s s' ∧ account_only (ss_working s) (ss_working s') ∧
        find_email email (ss_working s') = Some user) (λ _ s', kept s s') s.
Proof.
  unfold seed_user. apply wp_bind, query_wp; [|by intros e s' []]. intros s1 [K1 W1] _.
  destruct (find_email email (ss_working s)) as [user|] eqn:Hf.
  { apply wp_ret. rewrite W1. by split_and!. }
  apply wp_bind. unfold lift_res, wp at 1. destruct (hash_password _ _ _) as [hash|e]; [|done]. cbv zeta.
  apply wp_bind, insert_wp; [|intros e s2 [K2 _] _; unfold kept; congruence]. intros s2 K2 W2 _ _. apply wp_ret.
  split; [unfold kept in *; congruence|]. rewrite W2, W1. split; [done|].
  unfold find_email. cbn. apply find_snoc; [done|]. by rewrite bool_decide_eq_true_2.
Qed.

(** Nobody else can post for an organisation that is not committed. *)
Lemma grant_wp org amount kind description key s :
  find_org org (ss_committed s) = None →
  wp (grant org amount kind description (Some (u "seed:" ++ key)) None)
     (λ e s', kept s s' ∧ ∃ p, po_org_id p = org ∧ po_amount_cents p = amount ∧
        posts p (ss_working s) (ss_working s') e) (λ _ s', kept s s') s.
Proof.
  intros Hnew. unfold grant. destruct (amount <=? 0); [done|]. apply wp_bind. unfold wp at 1, uuid. cbv zeta.
  match goal with |- wp (post_entry ?n ?p) _ _ _ => set (q := p); pose proof (post_entry_outcome n q s) as Ho end.
  assert (Hno : ∀ d, ¬ race_lost q s d).
  { intros d (_ & k & _ & _ & Hl). unfold rival_commits in Hl. change (po_org_id q) with org in Hl. by rewrite Hnew in Hl. }
  eapply wp_mono; [exact Ho| |].
  - intros e s' [K Hp|row Hl]; [|by destruct (Hno _ Hl)]. split; [done|]. by exists q.
  - intros e s' [K _|Hl]; [done|by destruct (Hno _ Hl)].
Qed.

(** What [seed_org] leaves: the account is in one organisation, which was there or
    has the credits, and the books are balanced. *)
Definition housed (credits : Z) user_id (org : Org) d0 d : Prop :=
  ∃ m o, memberships_of user_id d = [m] ∧ ms_org_id m = og_id org ∧ find_org (og_id org) d = Some o ∧
    (find_org (og_id org) d0 = Some o ∨ og_credits_cents o = credits) ∧ (ledger_ok d0 → ledger_ok d) ∧
    db_users d = db_users d0 ∧ db_agents d = db_agents d0 ∧ db_workflows d = db_workflows d0.

Lemma find_snoc_org d org : find_org (og_id org) d = None → find_org (og_id org) (set_orgs (db_orgs d ++ [org]) d) = Some org.
Proof. intros Hf. unfold find_org. cbn. apply find_snoc; [exact Hf|]. by rewrite bool_decide_eq_true_2. Qed.

Lemma find_org_id id d o : find_org id d = Some o → og_id o = id.
Proof. intros Hf. by apply find_org_elem in Hf as [_ ?]. Qed.

(** The tables with a new organisation and its owner *)
Definition with_org user_id org d : Db :=
  set_memberships (db_memberships d ++ [mkMembership user_id (og_id org) (u "owner")]) (set_orgs (db_orgs d ++ [org]) d).

Lemma founded org user_id dw d p d' e :
  og_id org = minted 1 → og_credits_cents org = 0 → unused minted dw → memberships_of user_id dw = [] →
  po_org_id p = minted 1 → d = with_org user_id org dw → posts p d d' e →
  housed (po_amount_cents p) user_id org dw d'.
Proof.
  intros Hid Hz Uw Hm Hp -> Hpost.
  assert (Hbooks : ledger_ok dw → ledger_ok (with_org user_id org dw)).
  { intros [L1 L2 L3]%(new_org_books org); [by split|done|rewrite Hid; apply Uw..]. }
  inversion Hpost as [row Hf|o id Hf Ho after]; subst d' e.
  { rewrite Hp in Hf. by rewrite (new_entry_none _ _ (with_org user_id org dw)) in Hf by apply Uw. }
  assert (o = org) as ->.
  { rewrite Hp, <- Hid in Ho. change (find_org (og_id org) (set_orgs (db_orgs dw ++ [org]) dw) = Some o) in Ho.
    rewrite find_snoc_org in Ho by (apply new_org_none; rewrite Hid; apply Uw). congruence. }
  exists (mkMembership user_id (og_id org) (u "owner")), (set_credits after org). split_and!; try done.
  - unfold memberships_of in *. cbn. rewrite List.filter_app, Hm. simpl. by rewrite bool_decide_eq_true_2.
  - change (find_org (og_id org) (update_org (po_org_id p) (set_credits after) (with_org user_id org dw)) = Some (set_credits after org)).
    rewrite Hp, Hid in *. rewrite update_org_find. by rewrite Ho.
  - right. subst after. cbn. by rewrite Hz.
  - intros Hl. eapply posts_ledger_ok; [|exact Hpost]. by apply Hbooks.
Qed.

Lemma seed_org_wp user_id org_name credits s :
  unused minted (ss_working s) → unused minted (ss_committed s) →
  wp (seed_org minted suffix user_id org_name credits)
     (λ org s', kept s s' ∧ housed credits user_id org (ss_working s) (ss_working s')) (λ _ s', kept s s') s.
Proof.
  intros Uw Uc. unfold seed_org. apply wp_bind, query_wp; [|by intros e s' []]. intros s1 [K1 W1] _.
  apply wp_bind. destruct (memberships_of user_id (ss_working s)) as [|m [|m' l]] eqn:Hm; [| |done]; apply wp_ret.
  - cbv zeta. apply wp_bind, insert_wp; [|intros e s2 [K2 _] _; unfold kept; congruence]. intros s2 K2 W2 _ _.
    apply wp_bind, insert_wp; [|intros e s3 [K3 _] _; unfold kept in *; congruence]. intros s3 K3 W3 _ _.
    assert (ss_committed s3 = ss_committed s) as K by (unfold kept in *; congruence).
    apply wp_bind. eapply wp_mono; [apply grant_wp; rewrite K; by apply new_org_none, Uc| |intros e s4 K4; unfold kept in *; congruence].
    intros e s4 [K4 (p & Hp & <- & Hpost)]. apply wp_ret. split; [unfold kept in *; congruence|].
    apply (founded _ _ _ (ss_working s3) p _ e); try done. by rewrite W3, W2, W1.
  - apply wp_bind, query_wp; [|intros e s2 [K2 _] _; unfold kept; congruence]. intros s2 [K2 W2] _. rewrite W1 in *.
    destruct (find_org (ms_org_id m) (ss_working s)) as [o|] eqn:Hf; [|unfold wp, raise, kept in *; congruence].
    apply wp_ret. split; [unfold kept in *; congruence|]. rewrite W2. pose proof (find_org_id _ _ _ Hf) as Hid.
    exists m, o. rewrite Hid. by split_and!; [| | |left|..].
Qed.

(** ** The team *)

Lemma new_team_usable org_id a : a ∈ new_team minted org_id → usable_spec (ar_spec a).
Proof.
  unfold new_team. cbn [map]. rewrite !elem_of_cons, elem_of_nil. intros [->|[->|[->|[->|[->|[]]]]]]; split;
    first [by vm_compute|apply (bool_decide_unpack _); by vm_compute|cbn; lia|idtac];
    cbn [seeded_agent ar_spec pm dev reviewer researcher skeptic ag_tools]; intros v; rewrite ?elem_of_cons, elem_of_nil;
    intros Hv; destruct_or? Hv; try done; subst v; (eexists; split; [reflexivity|apply (bool_decide_unpack _); by vm_compute]).
Qed.

Lemma new_workflows_valid org_id wf : (∀ i, minted i ≠ []) → wf ∈ new_workflows minted org_id →
  ∃ ids, validate_graph (wf_preset wf) (wf_graph wf) = Ok ids ∧
    ∀ id, id ∈ ids → ∃ i, id = VStr (minted i) ∧ (2 ≤ i ≤ 6)%nat.
Proof.
  intros Ht. pose proof (Ht 2%nat) as H2. pose proof (Ht 3%nat) as H3. pose proof (Ht 4%nat) as H4.
  pose proof (Ht 5%nat) as H5. pose proof (Ht 6%nat) as H6. unfold new_workflows.
  rewrite !elem_of_cons, elem_of_nil. intros [->|[->|[->|[]]]].
  - exists [VStr (minted 2); VStr (minted 3); VStr (minted 4)]. split.
    + unfold delivery, seeded_workflow, node. cbn [wf_preset wf_graph].
      destruct (minted 2), (minted 3), (minted 4); done.
    + intros id. rewrite !elem_of_cons, elem_of_nil. intros [->|[->|[->|[]]]]; eexists; (split; [reflexivity|lia]).
  - exists [VStr (minted 2); VStr (minted 5); VStr (minted 3); VStr (minted 4)]. split.
    + unfold managed, seeded_workflow. cbn [wf_preset wf_graph].
      destruct (minted 2), (minted 3), (minted 4), (minted 5); done.
    + intros id. rewrite !elem_of_cons, elem_of_nil. intros [->|[->|[->|[->|[]]]]]; eexists; (split; [reflexivity|lia]).
  - exists [VStr (minted 5); VStr (minted 6); VStr (minted 4)]. split.
    + unfold debate, seeded_workflow. cbn [wf_preset wf_graph].
      destruct (minted 4), (minted 5), (minted 6); done.
    + intros id. rewrite !elem_of_cons, elem_of_nil. intros [->|[->|[->|[]]]]; eexists; (split; [reflexivity|lia]).
Qed.

Lemma new_team_active org_id d i : (2 ≤ i ≤ 6)%nat →
  minted i ∈ active_ids org_id (set_agents (db_agents d ++ new_team minted org_id) d).
Proof.
  intros Hi. unfold active_ids. apply list_elem_of_fmap.
  assert (∃ a, a ∈ new_team minted org_id ∧ ag_id (ar_spec a) = minted i ∧ ar_org_id a = org_id ∧ ar_is_active a = true)
    as (a & Ha & Hid & Ho & Hact).
  { assert (i = 2 ∨ i = 3 ∨ i = 4 ∨ i = 5 ∨ i = 6)%nat as Hc by lia.
    unfold new_team. cbn [map]. destruct_or! Hc; subst i;
      [exists (seeded_agent org_id (pm (minted 2)))|exists (seeded_agent org_id (dev (minted 3)))
      |exists (seeded_agent org_id (reviewer (minted 4)))|exists (seeded_agent org_id (researcher (minted 5)))
      |exists (seeded_agent org_id (skeptic (minted 6)))];
      (split; [rewrite !elem_of_cons; tauto|by split_and!]). }
  exists a. split; [done|]. apply list_elem_of_In, filter_In. cbn. split; [apply in_or_app; right; by apply list_elem_of_In|].
  rewrite Hact, bool_decide_eq_true_2 by done. done.
Qed.

Lemma new_workflow_loads org_id d d' wf :
  (∀ i, minted i ≠ []) → db_agents d' = db_agents d ++ new_team minted org_id → wf ∈ new_workflows minted org_id →
  loads org_id d' (wf_preset wf) (wf_graph wf).
Proof.
  intros Ht Ha Hwf. destruct (new_workflows_valid org_id wf Ht Hwf) as (ids & Hv & Hids). exists ids. split; [done|].
  intros id what (i & -> & Hi)%Hids. pose proof (new_team_active org_id d i Hi) as Hact.
  apply load_active in Hact as [a Hl]. exists a. unfold lookup_agent, hashed. cbn [hashable]. unfold mbind, res_bind.
  unfold load_agents in *. rewrite Ha. cbn [db_agents set_agents] in Hl. by rewrite Hl.
Qed.

(** What [seed_team] leaves *)
Definition staffed org_id d d' : Prop :=
  db_orgs d' = db_orgs d ∧ db_users d' = db_users d ∧ db_memberships d' = db_memberships d ∧ db_ledger d' = db_ledger d ∧
  agents_of org_id d' ≠ [] ∧ (all_usable d → all_usable d') ∧
  ∀ wf, wf ∈ db_workflows d' → wf ∈ db_workflows d ∨ saved org_id wf d'.

Lemma seed_team_wp org_id s : (∀ i, minted i ≠ []) →
  wp (seed_team minted org_id) (λ _ s', kept s s' ∧ staffed org_id (ss_working s) (ss_working s')) (λ _ s', kept s s') s.
Proof.
  intros Ht. unfold seed_team. apply wp_bind, query_wp; [|by intros e s' []]. intros s1 [K1 W1] _.
  destruct (agents_of org_id (ss_working s)) as [|a l] eqn:Ha.
  2:{ apply wp_ret. rewrite W1. split; [done|]. split_and!; try done; [by rewrite Ha|by left]. }
  apply wp_bind, insert_wp; [|intros e s2 [K2 _] _; unfold kept; congruence]. intros s2 K2 W2 _ _.
  unfold wp, change. cbn [ss_working set_working]. split; [unfold kept in *; cbn; congruence|]. rewrite W2, W1.
  split_and!; try done.
  - unfold agents_of. cbn [db_agents set_agents set_workflows]. rewrite List.filter_app. unfold new_team. cbn [map List.filter seeded_agent ar_org_id].
    rewrite bool_decide_eq_true_2 by done. by intros [_ Hn]%app_eq_nil.
  - intros Hu x. cbn [db_agents set_agents set_workflows]. rewrite elem_of_app.
    intros [Hx|Hx]; [by apply Hu|by eapply new_team_usable].
  - intros wf Hwf. cbn [db_workflows set_workflows set_agents] in Hwf. apply elem_of_app in Hwf as [Hwf|Hwf]; [by left|]. right.
    assert (wf_org_id wf = org_id) as Ho.
    { revert Hwf. unfold new_workflows. rewrite !elem_of_cons, elem_of_nil. by intros [->|[->|[->|[]]]]. }
    split_and!; [cbn [db_workflows set_workflows]; apply elem_of_app; by right|done|]. by eapply new_workflow_loads.
Qed.

(** ** The whole script *)

Definition office (email : pystr) (credits : Z) d d' : Prop :=
  (∃ org, settled email org d' ∧ (find_org (og_id org) d = Some org ∨ og_credits_cents org = credits) ∧
     ∀ wf, wf ∈ db_workflows d' → wf ∈ db_workflows d ∨ saved (og_id org) wf d') ∧
  (ledger_ok d → ledger_ok d') ∧ (all_usable d → all_usable d').

Lemma seed_wp email password org_name credits s :
  unused minted (ss_working s) → unused minted (ss_committed s) →
  wp (seed settings minted salt suffix email password org_name credits)
     (λ _ s', kept s s' ∧ office email credits (ss_working s) (ss_working s')) (λ _ s', kept s s') s.
Proof.
  intros Uw Uc. unfold seed. apply wp_bind. eapply wp_mono; [apply seed_user_wp| |done].
  intros user s1 (K1 & (O1 & L1 & A1 & F1 & M1) & Hf). apply wp_bind. unfold kept in *.
  assert (unused minted (ss_working s1)) as U1 by (destruct Uw; split; [done|by rewrite O1|by rewrite L1]).
  assert (unused minted (ss_committed s1)) as Uc1 by (by rewrite K1).
  eapply wp_mono; [by apply seed_org_wp| |intros e s2 K2; unfold kept in *; congruence].
  intros org s2 (K2 & m & o & Hm & Hmo & Ho & Hcr & Hl & Us & A2 & F2). unfold kept in *.
  eapply wp_mono; [apply seed_team_wp; apply Uw| |intros e s3 K3; unfold kept in *; congruence].
  intros [] s3 (K3 & O3 & U3 & M3 & L3 & Hag & Hu3 & Hw3). split; [unfold kept in *; congruence|].
  pose proof (find_org_id _ _ _ Ho) as Hid. split; [|split].
  - exists o. rewrite Hid. split_and!; [|destruct Hcr as [Hc|Hc]; [left; revert Hc; unfold find_org; by rewrite O1|by right]|].
    + exists user, m. split_and!; [revert Hf; unfold find_email; by rewrite U3, Us|revert Hm; unfold memberships_of; by rewrite M3
        |revert Ho; unfold find_org; by rewrite O3, Hmo|by rewrite Hid|by rewrite Hid].
    + intros wf [Hwf|Hwf]%Hw3; [left; by rewrite <- F1, <- F2|by right].
  - intros Hd. assert (ledger_ok (ss_working s2)).
    { apply Hl. by apply (ledger_ok_ext (ss_working s)). }
    by apply (ledger_ok_ext (ss_working s2)).
  - intros Hd. apply Hu3. unfold all_usable in *. by rewrite A2, A1.
Qed.

(** Saving or rolling back *)
Lemma run_seed_wp email password org_name credits d (Q : Db → Prop) r d' :
  wp (seed settings minted salt suffix email password org_name credits)
     (λ _ s', ss_committed s' = d ∧ Q (ss_working s')) (λ _ s', ss_committed s' = d) (open_session d) →
  run_seed settings minted salt suffix email password org_name credits d = (r, d') →
  if is_ok r then Q d' else d' = d.
Proof.
  unfold run_seed, session_scope, wp. unfold mbind, M_bind, m_bind.
  destruct (seed settings minted salt suffix email password org_name credits (open_session d)) as [[[]|e] s];
    [|by intros <- [= <- <-]]. intros [K HQ]. unfold commit, rollback.
  assert (wp statement (λ _ s', ss_committed s' = d ∧ Q (ss_working s')) (λ _ s', ss_committed s' = d) s) as Hs.
  { apply statement_wp; [intros s' [-> ->] _; done|by intros e s' [-> _] _]. }
  unfold wp in Hs. destruct (statement s) as [[[]|e] s1]; intros [= <- <-]; cbn; [apply Hs|exact Hs].
Qed.

(** A second run finds the office as it is, by four queries: whatever they keep and
    however they fail, the tables of the session are as they were. *)
Lemma seed_again_wp (P : Session → Prop) (X : exn → Session → Prop) email password org_name credits org s :
  (∀ A (f : Db → A) (Q : A → Session → Prop) s1, P s1 →
     (∀ s2, same_tables s1 s2 → P s2 → Q (f (ss_working s1)) s2) → wp (query f) Q X s1) →
  P s → settled email org (ss_working s) →
  wp (seed settings minted salt suffix email password org_name credits)
     (λ _ s', P s' ∧ same_tables s s') X s.
Proof.
  intros HP Hs (user & m & Hf & Hm & Ho & Hid & Ha). unfold seed, seed_user.
  apply wp_bind, wp_bind, HP; [done|]. intros s1 [K1 W1] P1. rewrite Hf. apply wp_ret.
  apply wp_bind. unfold seed_org. apply wp_bind, HP; [done|]. intros s2 [K2 W2] P2.
  rewrite W1, Hm. apply wp_bind, wp_ret, wp_bind, HP; [done|]. intros s3 [K3 W3] P3.
  rewrite W2, W1, Ho. apply wp_ret. unfold seed_team. apply wp_bind, HP; [done|].
  intros s4 [K4 W4] P4. rewrite W3, W2, W1. destruct (agents_of _ _); [done|]. apply wp_ret.
  split; [done|]. split; congruence.
Qed.

Lemma seed_again email password org_name credits org d r d' :
  settled email org d → run_seed settings minted salt suffix email password org_name credits d = (r, d') → d' = d.
Proof.
  intros Hd Hr. apply (run_seed_wp _ _ _ _ d (λ d', d' = d)) in Hr; [by destruct (is_ok r)|].
  eapply wp_mono; [apply (seed_again_wp (λ s', ss_committed s' = d) (λ _ s', ss_committed s' = d) _ _ _ _ org)| |done]; try done.
  - intros A f Q s1 P1 HQ. apply query_wp; [|by intros e s2 [-> _] _]. intros s2 S2 _. apply HQ; [done|]. by rewrite (proj1 S2).
  - intros [] s' [-> [_ W]]. by rewrite W.
Qed.

Lemma seed_again_quiet email password org_name credits org d :
  (∀ n, db_fault n = None) → settled email org d →
  (run_seed settings minted salt suffix email password org_name credits d).1 = Ok tt.
Proof.
  intros Hq Hd. unfold run_seed, session_scope, mbind, M_bind, m_bind.
  assert (wp (seed settings minted salt suffix email password org_name credits)
    (λ _ s', ss_broken s' = false ∧ same_tables (open_session d) s') (λ _ _, False) (open_session d)) as Hwp.
  { apply (seed_again_wp _ _ _ _ _ _ org); [|done..]. intros A f Q s1 P1 HQ. unfold wp, query, statement.
    rewrite P1, Hq. by apply HQ. }
  unfold wp in Hwp. destruct (seed _ _ _ _ _ _ _ _ _) as [[[]|e] s]; [|done]. destruct Hwp as [Hb _].
  unfold commit, statement. by rewrite Hb, Hq.
Qed.
End set_up.

(** C38: the demonstration office works: when the script is through, the account is in
    one organisation, which was there before or has the credits asked for, and which
    has agents; every workflow it made can start, with all the agents it references
    among those a run loads; the agents still have known models, efforts and tools and
    the books are still balanced.  A script that fails has changed nothing, and
    running it again for the same address, with whatever passwords, names, credits and
    failures, changes nothing, and is through when no statement fails. *)
Theorem seeded_office_works `{PyTables} `{Vault} `{DbEnv} settings minted salt suffix email password org_name credits d r d' :
  unused minted d → run_seed settings minted salt suffix email password org_name credits d = (r, d') →
  if is_ok r then
    office email credits d d' ∧
    ∀ (V : Vault) (D : DbEnv) settings minted salt suffix email2 password org_name credits r2 d2,
      lower email2 = lower email →
      run_seed settings minted salt suffix email2 password org_name credits d' = (r2, d2) →
      d2 = d' ∧ ((∀ n, db_fault n = None) → r2 = Ok tt)
  else d' = d.
Proof.
  intros Hu Hr. apply (run_seed_wp _ _ _ _ _ _ _ _ d (office email credits d)) in Hr.
  2:{ eapply wp_mono; [by apply seed_wp| |done]. intros [] s' [K HO]. split; [exact K|exact HO]. }
  destruct (is_ok r); [|done]. split; [done|]. destruct Hr as [(org & (user & m & Hf & Hd) & _) _].
  intros V D st mi sa su email2 pw on cr r2 d2 He Hr2.
  assert (settled email2 org d') as Hs by (exists user, m; rewrite He; by split). split.
  - by eapply seed_again.
  - intros Hq. pose proof (seed_again_quiet st mi sa su email2 pw on cr org d' Hq Hs) as Hok. by rewrite Hr2 in Hok.
Qed.

(** ** A concrete office *)

Definition demo_ids (n : nat) : pystr := u "id" ++ str_of_Z (Z.of_nat n).
#[local] Abbreviation demo_seed :=
  (@run_seed ascii_tables toy_vault quiet_db demo_settings demo_ids (u "s") (u "abc123") (u "Me@Acme.io")
     (u "correct horse") (u "Demo Workspace") 5000).

Lemma demo_ids_unused : unused demo_ids empty_db.
Proof. split; intros i; [done|apply not_elem_of_nil..]. Qed.

Lemma demo_seed_eq : demo_seed empty_db = (Ok tt, (demo_seed empty_db).2).
Proof. vm_compute. reflexivity. Qed.

Lemma seeded_office_works_witness :
  let d := (demo_seed empty_db).2 in
  map us_email (db_users d) = [u "me@acme.io"] ∧ map og_credits_cents (db_orgs d) = [5000] ∧
  map (λ a, ag_name (ar_spec a)) (db_agents d) = [u "Nadia"; u "Ravi"; u "Mei"; u "Tomas"; u "Iris"] ∧
  @office ascii_tables (u "Me@Acme.io") 5000 empty_db d.
Proof.
  split_and!; [vm_compute; reflexivity..|].
  exact (proj1 (@seeded_office_works ascii_tables toy_vault quiet_db demo_settings demo_ids (u "s") (u "abc123") (u "Me@Acme.io")
    (u "correct horse") (u "Demo Workspace") 5000 empty_db (Ok tt) _ demo_ids_unused demo_seed_eq)).
Defined.

(** An account that has joined a second organisation can no longer be seeded: the script
    asks for the one membership there is. *)
Definition joined (d : Db) : Db :=
  set_memberships (db_memberships d ++ [mkMembership (demo_ids 0) (u "elsewhere") (u "viewer")]) d.
Lemma two_organisations_stop_the_script :
  let again := demo_seed (joined (demo_seed empty_db).2) in
  again.1 = Err (ExternalError (u "MultipleResultsFound")
                   (u "Multiple rows were found when one or none was required")) ∧
  again.2 = joined (demo_seed empty_db).2.
Proof. split; vm_compute; reflexivity. Qed.
