(* ===== verification/Logging.v ===== *)
(** * What reaches the log (src/core/logging.py)

    The processor [_scrub] runs over every event before it is rendered: the values
    of keys that name credentials are replaced, and in every other string what
    looks like a credential is masked.  The engine masks the arguments of tools
    in the same way before they are published. *)

From S2P Require Import Prelude PyStr PyFloat PyVal PyRegex Redaction State Budget Registry Providers Pricing Keys.
From S2P Require Import Events World Router ToolBase ToolArtifacts ToolRegistry Engine.
From Stdlib Require Import ZifyBool ZifyN.

(** [[A-Za-z0-9_\-]], and with the dot *)
Definition key_char (c : N) : bool := ascii_alnum c || mem_char (u "_-") c.
Definition bearer_char (c : N) : bool := ascii_alnum c || mem_char (u "._-") c.

(** [_SECRET_PATTERN] *)
Definition SECRET_PATTERN : re :=
  RSeq RWordB (RGroup 1
    (RAlt (RSeq (RLit (u "sk-ant-")) (RAtLeast 8 (RSet key_char)))
    (RAlt (RSeq (RLit (u "sk-")) (RAtLeast 16 (RSet key_char)))
    (RAlt (RSeq (RLit (u "xai-")) (RAtLeast 8 (RSet key_char)))
    (RAlt (RSeq (RLit (u "AIza")) (RAtLeast 16 (RSet key_char)))
          (RSeq (RLit (u "Bearer")) (RSeq (RPlus RSpace) (RAtLeast 16 (RSet bearer_char))))))))).

(** [_SENSITIVE_KEYS] *)
Definition SENSITIVE_KEYS : list pystr :=
  [u "password"; u "api_key"; u "apikey"; u "token"; u "access_token"; u "refresh_token"; u "secret";
   u "authorization"; u "ciphertext"; u "jwt_secret"; u "master_key"; u "master_keys"].

Definition redacted : pystr := u "[redacted]".

(** [_scrub]: the event's entries, in their order *)
Definition log_scrub `{PyTables} (event_dict : list (pystr * pyval)) : list (pystr * pyval) :=
  map (λ kv, (kv.1,
    if bool_decide (lower kv.1 ∈ SENSITIVE_KEYS) then VStr redacted
    else match kv.2 with VStr s => VStr (sub SECRET_PATTERN redacted s) | v => v end)) event_dict.

(** ** The shapes of credentials *)

Definition log_shapes : list shape :=
  [mkShape (u "sk-ant-") false 8 key_char; mkShape (u "sk-") false 16 key_char;
   mkShape (u "xai-") false 8 key_char; mkShape (u "AIza") false 16 key_char;
   mkShape (u "Bearer") true 16 bearer_char].
Definition tool_shapes : list shape :=
  [mkShape (u "sk-") false 12 secret_char; mkShape (u "xai-") false 8 secret_char;
   mkShape (u "AIza") false 16 secret_char].

Lemma secret_pattern_tokens : SECRET_PATTERN = token_re log_shapes.
Proof. reflexivity. Qed.
Lemma secretish_tokens : SECRETISH = token_re tool_shapes.
Proof. reflexivity. Qed.

Lemma bearer_not_space c : is_space c = true → bearer_char c = false.
Proof.
  intros Hs. unfold bearer_char. rewrite orb_false_iff. split.
  - unfold ascii_alnum, ascii_alpha, ascii_digit, is_space in *. lia.
  - unfold mem_char. apply bool_decide_eq_false_2. change (c ∉ [46; 95; 45]%N). rewrite !elem_of_cons, elem_of_nil.
    intros [->|[->|[->|[]]]]; vm_compute in Hs; discriminate.
Qed.

(** The parts of the shapes keep apart: checked by computation. *)
Definition starters (shapes : list shape) : list N := mjoin (map (λ sh, take 1 (sh_prefix sh)) shapes).
Lemma starter_in shapes c : starter shapes c = true → c ∈ starters shapes.
Proof.
  unfold starter, starters. intros (sh & Hin%list_elem_of_In & Hc)%existsb_exists.
  apply list_elem_of_join. exists (take 1 (sh_prefix sh)). split.
  - destruct (sh_prefix sh) as [|x p]; [done|]. simpl in Hc. apply N.eqb_eq in Hc as <-. by left.
  - apply list_elem_of_fmap. by exists sh.
Qed.

(** The conditions of [wf_tokens] that can be computed *)
Definition apart (shapes : list shape) (mark : N) (mask : pystr) : bool :=
  forallb (λ sh, negb (bool_decide (sh_prefix sh = [])) && (1 <=? sh_min sh)%nat
                 && forallb (sh_char sh) (starters shapes)
                 && negb (mem_char (sh_prefix sh) mark) && negb (sh_char sh mark)) shapes
  && negb (is_space mark) && forallb (λ c, negb (starter shapes c)) (mark :: mask).

Lemma apart_wf shapes mark mask :
  apart shapes mark mask = true →
  Forall (λ sh, ∀ c, sh_gap sh = true → is_space c = true → sh_char sh c = false) shapes →
  wf_tokens shapes mark mask.
Proof.
  unfold apart. rewrite !andb_true_iff, !forallb_forall, negb_true_iff. intros [[Hsh Hsp] Hmask] Hgap.
  rewrite Forall_forall in Hgap.
  assert (Hall : ∀ sh, sh ∈ shapes → wf_shape sh ∧ (∀ c, c ∈ starters shapes → sh_char sh c = true) ∧
                   (mark ∉ sh_prefix sh) ∧ sh_char sh mark = false).
  { intros sh Hin. pose proof (Hsh sh (proj1 (list_elem_of_In _ _) Hin)) as Hc.
    rewrite !andb_true_iff, !negb_true_iff, forallb_forall in Hc. destruct Hc as [[[[H1 H2] H3] H4] H5].
    split_and!.
    - split; [by apply bool_decide_eq_false in H1|by apply Nat.leb_le|by apply Hgap].
    - intros c Hc%list_elem_of_In. by apply H3.
    - unfold mem_char in H4. by apply bool_decide_eq_false in H4.
    - done. }
  split.
  - apply Forall_forall. intros sh Hin. by apply Hall.
  - intros c sh Hc%starter_in Hin. by apply Hall.
  - intros sh Hin. apply Hall in Hin as (_ & _ & Hm & Hch). by split_and!.
  - apply Forall_forall. intros c Hc%list_elem_of_In. apply Hmask in Hc. by apply negb_true_iff.
Qed.

Lemma log_shapes_apart : wf_tokens log_shapes 91 (u "redacted]").
Proof.
  apply apart_wf; [vm_compute; reflexivity|].
  repeat constructor; intros c; cbn; try discriminate. intros _. apply bearer_not_space.
Qed.
Lemma tool_shapes_apart : wf_tokens tool_shapes 91 (u "redacted]").
Proof. apply apart_wf; [vm_compute; reflexivity|]. repeat constructor; intros c; cbn; discriminate. Qed.

Lemma redacted_mask : redacted = 91%N :: u "redacted]".
Proof. vm_compute. reflexivity. Qed.

(** ** What a log line and an event show *)

(** A value with its credentials masked: nothing in it looks like one. *)
Definition shows_no_token `{PyTables} (r : re) (v : pyval) : Prop :=
  match v with VStr s => search r s = None | _ => True end.

Lemma log_scrub_entries `{PyTables} event :
  Forall (λ kv, if bool_decide (lower kv.1 ∈ SENSITIVE_KEYS) then kv.2 = VStr redacted
                else shows_no_token SECRET_PATTERN kv.2) (log_scrub event).
Proof.
  unfold log_scrub. apply Forall_map, Forall_true. intros [k v]. cbn [fst snd].
  destruct (bool_decide _); [reflexivity|].
  destruct v as [| | | |s| |]; try exact I. cbn [shows_no_token].
  rewrite secret_pattern_tokens, redacted_mask. exact (masked_clean log_shapes_apart s).
Qed.

(** What counts as a credential, apart from the code's pattern: a key of one of the
    vendors, or a bearer token. *)
Definition key_letter (c : N) : Prop :=
  (48 ≤ c ≤ 57 ∨ 65 ≤ c ≤ 90 ∨ 97 ≤ c ≤ 122 ∨ c = 45 ∨ c = 95)%N.

Inductive credential : pystr → Prop :=
| vendor_key prefix least body :
    (prefix, least) ∈ [(u "sk-ant-", 8); (u "sk-", 16); (u "xai-", 8); (u "AIza", 16)]%nat →
    Forall key_letter body → (least ≤ length body)%nat → credential (prefix ++ body)
| bearer_token gap body :
    gap ≠ [] → Forall (λ c, is_space c = true) gap → Forall (λ c, key_letter c ∨ c = 46%N) body →
    (16 ≤ length body)%nat → credential (u "Bearer" ++ gap ++ body).

(** A place where a word begins: no letter, digit or underscore before it. *)
Definition word_starts `{PyTables} (before : pystr) : Prop := ∀ c, last before = Some c → is_word c = false.

Definition no_credential `{PyTables} (v : pyval) : Prop :=
  match v with
  | VStr s => ∀ before t after, s = before ++ t ++ after → word_starts before → ¬ credential t
  | _ => True
  end.

Lemma key_letter_char c : key_letter c → key_char c = true.
Proof.
  unfold key_letter, key_char, mem_char. intros Hc. apply orb_true_iff.
  destruct Hc as [?|[?|[?|[->| ->]]]]; [left; unfold ascii_alnum, ascii_alpha, ascii_digit; lia..|right; by vm_compute|right; by vm_compute].
Qed.
Lemma bearer_letter_char c : key_letter c ∨ c = 46%N → bearer_char c = true.
Proof.
  intros [Hc%key_letter_char| ->]; [|by vm_compute]. unfold key_char, bearer_char, mem_char in *.
  apply orb_true_iff in Hc as [->|Hc%bool_decide_eq_true]; [done|]. apply orb_true_iff. right.
  apply bool_decide_eq_true. revert Hc. change (c ∈ [95; 45]%N → c ∈ [46; 95; 45]%N). intros Hc. by right.
Qed.

Lemma word_starts_head `{PyTables} before : word_starts before → head_is is_word (reverse before) = false.
Proof.
  intros Hw. destruct before as [|c before _] using rev_ind; [done|]. rewrite reverse_snoc. simpl. apply Hw, last_snoc.
Qed.

Lemma masked_no_credential `{PyTables} s : no_credential (VStr (sub SECRET_PATTERN redacted s)).
Proof.
  intros before t after Heq Hw%word_starts_head Hc. rewrite secret_pattern_tokens, redacted_mask in Heq.
  destruct Hc as [prefix least body Hin Hbody Hlen|gap body Hgap Hspace Hbody Hlen].
  - set (sh := mkShape prefix false least key_char).
    assert (sh ∈ log_shapes ∧ head_is is_word prefix = true) as [Hsh Hhead].
    { subst sh. rewrite !elem_of_cons, elem_of_nil in Hin. unfold log_shapes.
      destruct Hin as [[= -> ->]|[[= -> ->]|[[= -> ->]|[[= -> ->]|[]]]]]; (split; [rewrite !elem_of_cons; tauto|by vm_compute]). }
    rewrite <-app_assoc in Heq.
    pose proof (masked_spelled_out log_shapes_apart s before sh [] body after Heq Hsh) as Hx.
    assert (length body < sh_min sh)%nat; [|simpl in *; lia]. apply Hx; try done.
    eapply Forall_impl; [exact Hbody|]. intros c. apply key_letter_char.
  - set (sh := mkShape (u "Bearer") true 16 bearer_char). rewrite <-!app_assoc in Heq.
    assert (Hsh : sh ∈ log_shapes) by (unfold log_shapes; rewrite !elem_of_cons; tauto).
    pose proof (masked_spelled_out log_shapes_apart s before sh gap body after Heq Hsh) as Hx.
    assert (length body < sh_min sh)%nat; [|simpl in *; lia]. apply Hx; try done.
    eapply Forall_impl; [exact Hbody|]. intros c. apply bearer_letter_char.
Qed.

(** C36: whatever is logged, the entries of the event keep their keys and their order;
    the value of every key that is, in any letter case, one of twelve names of
    credentials is the mask; and in the text of every other entry no word begins with
    a provider's key ([sk-ant-], [xai-] and eight characters, [sk-], [AIza] and
    sixteen) or is [Bearer] before a token of sixteen, however many there were and
    whatever followed them.  (Values that are lists or dicts are not looked into.) *)
Theorem log_shows_no_credential `{PyTables} event :
  map fst (log_scrub event) = map fst event ∧
  Forall (λ kv,
    let name := lower kv.1 in
    let names := [u "password"; u "api_key"; u "apikey"; u "token"; u "access_token"; u "refresh_token"; u "secret";
                  u "authorization"; u "ciphertext"; u "jwt_secret"; u "master_key"; u "master_keys"] in
    (name ∈ names → kv.2 = VStr (u "[redacted]")) ∧ (name ∉ names → no_credential kv.2)) (log_scrub event).
Proof.
  split; [unfold log_scrub; by rewrite map_map|].
  unfold log_scrub. apply Forall_map, Forall_true. intros [k v]. cbn [fst snd]. cbv zeta. fold SENSITIVE_KEYS.
  split; intros Hk; [by rewrite bool_decide_eq_true_2|]. rewrite bool_decide_eq_false_2 by done.
  destruct v as [| | | |s| |]; try exact I. apply masked_no_credential.
Qed.

(** The same holds of the arguments of tools that the event stream shows. *)
Theorem events_show_no_key `{PyTables} arguments :
  Forall (λ kv, shows_no_token SECRETISH kv.2) (safe_arguments arguments).
Proof.
  unfold safe_arguments. apply Forall_map, Forall_true. intros [k v]. cbn [fst snd].
  destruct v as [| | | |s| |]; try exact I. cbn [shows_no_token].
  rewrite secretish_tokens. fold redacted. rewrite redacted_mask. exact (masked_clean tool_shapes_apart _).
Qed.

(** Scrubbing a scrubbed event changes nothing. *)
Theorem log_scrub_idempotent `{PyTables} event : log_scrub (log_scrub event) = log_scrub event.
Proof.
  unfold log_scrub. rewrite map_map. apply map_ext. intros [k v]. cbn [fst snd].
  destruct (bool_decide _); [reflexivity|]. destruct v as [| | | |s| |]; try reflexivity.
  rewrite secret_pattern_tokens, redacted_mask. by rewrite (masked_idempotent log_shapes_apart s).
Qed.

(** ** Concrete events *)

Example scrubbed_line :
  @log_scrub ascii_tables
    [(u "event", VStr (u "retry with sk-ant-api03-abcdefgh, then xai-12345678.")); (u "Authorization", VInt 7);
     (u "task-sk-abcdefghijklmnop", VNone)] =
    [(u "event", VStr (u "retry with [redacted], then [redacted].")); (u "Authorization", VStr (u "[redacted]"));
     (u "task-sk-abcdefghijklmnop", VNone)].
Proof. vm_compute. reflexivity. Qed.

(** What is inside a list or a dict is logged as it is, under any key that is not in
    the list itself. *)
Lemma nested_key_is_logged :
  @log_scrub ascii_tables [(u "headers", VDict [(u "authorization", VStr (u "Bearer abcdefghijklmnopqrst"))])] =
    [(u "headers", VDict [(u "authorization", VStr (u "Bearer abcdefghijklmnopqrst"))])].
Proof. vm_compute. reflexivity. Qed.

(** A key that is glued to a letter, a digit or an underscore is not at the start of a
    word, where the pattern looks. *)
Lemma glued_key_is_logged :
  @log_scrub ascii_tables [(u "event", VStr (u "using key_sk-ant-api03-abcdefgh1234"))] =
    [(u "event", VStr (u "using key_sk-ant-api03-abcdefgh1234"))].
Proof. vm_compute. reflexivity. Qed.
