(* ===== verification/Serving.v ===== *)
(** * Around every request (src/api/middleware.py, src/api/main.py)

    The layers a request passes on its way to a route and back: the catch-all for
    exceptions, CORS and the check of the host (from the framework, arguments
    here), the request's id with the access log, the limit on bodies, the security
    headers, and the handlers that turn exceptions into responses.  A layer is a
    function from the application inside it to an application.  The lines these layers
    write are modelled, with the formatted exception of [log.exception]; their
    durations, times, levels and logger names, and the lines that routes write
    themselves, are left out. *)

From S2P Require Import Prelude PyStr PyFloat PyVal PyRegex Redaction Config State Budget Registry Providers.
From S2P Require Import Pricing Keys Events World Workflow Database Security RateLimit Api Logging.

Record HttpRequest := mkHttp {
  hr_method : pystr; hr_path : pystr; hr_headers : list (pystr * pystr) }.   (* names in lower case, as Starlette keeps them *)
Record Response := mkResponse {
  rp_status : Z; rp_headers : list (pystr * pystr); rp_body : list (pystr * pyval) }.

(** What the layers share: the context of the log, the lines written, the id in
    [request.state], and the world of the application inside. *)
Record Wire X := mkWire {
  wi_context : list (pystr * pyval); wi_log : list (list (pystr * pyval));
  wi_request_id : option pystr; wi_app : X }.
Arguments mkWire {X}.
Arguments wi_context {X}.
Arguments wi_log {X}.
Arguments wi_request_id {X}.
Arguments wi_app {X}.

Definition set_context {X} c (w : Wire X) := mkWire c (wi_log w) (wi_request_id w) (wi_app w).
Definition set_request_id {X} i (w : Wire X) := mkWire (wi_context w) (wi_log w) i (wi_app w).
Definition put_app {X} (x : X) (w : Wire X) := mkWire (wi_context w) (wi_log w) (wi_request_id w) x.

Definition header (name : pystr) (rq : HttpRequest) : option pystr := assoc name (hr_headers rq).

(** [response.headers[name] = value], [response.headers.setdefault(name, value)] *)
Definition set_header `{PyTables} (name value : pystr) (r : Response) : Response :=
  mkResponse (rp_status r) (assoc_set (lower name) value (rp_headers r)) (rp_body r).
Definition setdefault_header `{PyTables} (name value : pystr) (r : Response) : Response :=
  match assoc (lower name) (rp_headers r) with Some _ => r | None => set_header name value r end.

Definition detail_response (status : Z) (detail : pystr) : Response :=
  mkResponse status [] [(u "detail", VStr detail)].
Definition id_value (o : option pystr) : pyval := match o with Some s => VStr s | None => VNone end.
Definition identified_response (status : Z) (detail : pystr) (id : option pystr) : Response :=
  mkResponse status [] [(u "detail", VStr detail); (u "request_id", id_value id)].

(** [validation_error]: the first of pydantic's errors, with its location after
    the part of the request it is in *)
Definition validation_detail (errors : list (list pystr * option pystr)) : pystr :=
  match errors with
  | [] => u "invalid request"
  | (loc, msg) :: _ =>
      match join (u ".") (drop 1 loc) with
      | [] => u "invalid request"
      | location => location ++ u ": " ++ default (u "invalid request") msg
      end
  end.

Section layers.
Context `{PyTables} {X : Type}.
Variable settings : Settings.
Variable fresh_id : HttpRequest → pystr.                              (* uuid.uuid4().hex *)
Variable pydantic_errors : exn → list (list pystr * option pystr).   (* exc.errors() *)
Variable format_exception : exn → pystr.       (* structlog's [format_exc_info], which runs before [_scrub] *)
Abbreviation App := (HttpRequest → M (Wire X) exn Response).

(** ** Logging *)

Definition bind_request_context (fields : list (pystr * pyval)) : M (Wire X) exn unit :=
  modify (λ w, set_context (fold_left (λ c kv, assoc_set kv.1 kv.2 c) fields (wi_context w)) w).
Definition clear_request_context : M (Wire X) exn unit := modify (set_context []).

(** A line is the context with the event's own fields, scrubbed. *)
Definition log_line (event : pystr) (fields : list (pystr * pyval)) : M (Wire X) exn unit :=
  modify (λ w, mkWire (wi_context w)
    (wi_log w ++ [log_scrub (fold_left (λ c kv, assoc_set kv.1 kv.2 c) ((u "event", VStr event) :: fields) (wi_context w))])
    (wi_request_id w) (wi_app w)).

(** [log.exception]: the traceback is one more field of the line. *)
Definition log_exception (event : pystr) (fields : list (pystr * pyval)) (e : exn) : M (Wire X) exn unit :=
  log_line event (fields ++ [(u "exception", VStr (format_exception e))]).

(** ** The handlers of exceptions *)

Definition is_validation_error (e : exn) : bool :=
  match e with ExternalError name _ => bool_decide (name = u "RequestValidationError") | _ => false end.

(** The handlers registered for a class of exceptions, and FastAPI's own for
    [HTTPException]; the rest go on to the catch-all. *)
Definition exception_handler (id : option pystr) (e : exn) : option Response :=
  if is_validation_error e then Some (identified_response 422 (validation_detail (pydantic_errors e)) id)
  else match e with
       | HTTPException status detail => Some (detail_response status detail)
       | WorkflowConfigError _ | UnknownModelError _ => Some (identified_response 422 (exn_str e) id)
       | CryptoError _ => Some (identified_response 500 (u "could not process the stored credential") id)
       | _ => None
       end.

Definition log_handled (e : exn) : M (Wire X) exn unit :=
  match e with
  | CryptoError _ => log_line (u "crypto.failure") [(u "error", VStr (exn_str e))]
  | _ => m_ret tt
  end.

Definition exceptions (app : App) : App := λ rq,
  catch (app rq) (λ e,
    w ← get;
    match exception_handler (wi_request_id w) e with
    | Some r => _ ← log_handled e; m_ret r
    | None => raise e
    end).

(** [unhandled_error], outside every other layer *)
Definition server_errors (app : App) : App := λ rq,
  catch (app rq) (λ e,
    if is_exception e then
      _ ← log_exception (u "api.unhandled") [(u "path", VStr (hr_path rq))] e;
      w ← get;
      m_ret (identified_response 500 (u "internal server error") (wi_request_id w))
    else raise e).

(** ** The middleware *)

Definition security_headers : list (pystr * pystr) :=
  [(u "X-Content-Type-Options", u "nosniff"); (u "X-Frame-Options", u "DENY");
   (u "Referrer-Policy", u "no-referrer");
   (u "Permissions-Policy", u "geolocation=(), microphone=(), camera=()")] ++
  (if is_production settings
   then [(u "Strict-Transport-Security", u "max-age=31536000; includeSubDomains")] else []).

(** [SecurityHeadersMiddleware] *)
Definition secured (app : App) : App := λ rq,
  response ← app rq;
  m_ret (fold_left (λ r kv, setdefault_header kv.1 kv.2 r) security_headers response).

(** [BodySizeLimitMiddleware]: the handler sees bodies whose declared length is
    within the limit, and bodies of no declared length. *)
Definition body_size_limit (max_bytes : Z) (app : App) : App := λ rq,
  match header (u "content-length") rq with
  | None => app rq
  | Some declared =>
      match py_int (VStr declared) with
      | Ok n => if max_bytes <? n then m_ret (detail_response 413 (u "request body too large")) else app rq
      | Err _ => m_ret (detail_response 400 (u "invalid content-length"))
      end
  end.

Definition request_id_of (rq : HttpRequest) : pystr :=
  match header (u "x-request-id") rq with Some (_ :: _ as s) => s | _ => fresh_id rq end.
Definition quiet_paths : list pystr := [u "/health"; u "/health/ready"; u "/metrics"].
Definition line_fields (rq : HttpRequest) : list (pystr * pyval) :=
  [(u "method", VStr (hr_method rq)); (u "path", VStr (hr_path rq))].

(** [RequestContextMiddleware] *)
Definition request_context (app : App) : App := λ rq,
  let request_id := request_id_of rq in
  _ ← modify (set_request_id (Some request_id));
  _ ← bind_request_context [(u "request_id", VStr request_id); (u "path", VStr (hr_path rq))];
  o ← attempt is_exception (app rq);
  match o with
  | inl e =>
      _ ← log_exception (u "request.failed") (line_fields rq) e;
      _ ← clear_request_context;
      raise e
  | inr response =>
      let response := set_header (u "x-request-id") request_id response in
      _ ← (if bool_decide (hr_path rq ∈ quiet_paths) then m_ret tt
           else log_line (u "request") (line_fields rq ++ [(u "status", VInt (rp_status response))]));
      _ ← clear_request_context;
      m_ret response
  end.

(** ** The stack: what is added last is outermost *)

Variable cors trusted_host : App → App.

Definition host_checked (app : App) : App :=
  match cfg_trusted_hosts settings with
  | [] => app
  | hosts => if bool_decide (hosts = [u "*"]) then app else trusted_host app
  end.

(** The application inside works on its own world. *)
Definition inside (endpoint : HttpRequest → M X exn Response) : App := λ rq w,
  let '(r, x) := endpoint rq (wi_app w) in (r, put_app x w).

(** What runs inside the framework's own layers *)
Definition own_layers (endpoint : HttpRequest → M X exn Response) : App :=
  request_context (body_size_limit (cfg_max_request_bytes settings) (secured (exceptions (inside endpoint)))).
Definition application (endpoint : HttpRequest → M X exn Response) : App :=
  server_errors (cors (host_checked (own_layers endpoint))).

(** ** Health *)

Definition health_body (status database redis : pystr) (version : pystr) : list (pystr * pyval) :=
  [(u "status", VStr status); (u "env", VStr (cfg_env settings)); (u "version", VStr version);
   (u "database", VStr database); (u "redis", VStr redis)].
Definition VERSION : pystr := u "1.0.0".

(** Liveness asks nobody. *)
Definition health : Response := mkResponse 200 [] (health_body (u "ok") (u "skipped") (u "skipped") VERSION).

(** Readiness asks both services, whatever the first one says; only an
    [Exception] is an answer. *)
Definition probe (check : M X exn unit) : M X exn pystr :=
  o ← attempt is_exception check;
  m_ret (match o with inl _ => u "unavailable" | inr _ => u "ok" end).
Definition readiness (select_one ping : M X exn unit) : M X exn Response :=
  database ← probe select_one;
  redis_status ← probe ping;
  let healthy := bool_decide (database = u "ok") && bool_decide (redis_status = u "ok") in
  m_ret (mkResponse (if healthy then 200 else 503) []
           (health_body (if healthy then u "ok" else u "degraded") database redis_status VERSION)).
End layers.
