(* ===== verification/ServingSafety.v ===== *)
(** * What every response carries

    Whatever a route does, the response can be traced to its request, its
    context is gone from the log, bodies declared too long never reach the route,
    and what the log says of it shows no credential. *)

From S2P Require Import Prelude PyStr PyFloat PyVal PyRegex Redaction Config State Budget Registry Providers.
From S2P Require Import Pricing Keys Events World Workflow Database Security RateLimit Api Logging Serving.

#[local] Arguments log_line : simpl never.
#[local] Arguments log_scrub : simpl never.

Section serving.
Context `{PyTables} {X : Type}.
Context (settings : Settings) (fresh_id : HttpRequest → pystr).
Context (pydantic_errors : exn → list (list pystr * option pystr)) (format_exception : exn → pystr).
Abbreviation App := (HttpRequest → M (Wire X) exn Response).
Abbreviation own_layers := (own_layers settings fresh_id pydantic_errors format_exception).

(** What the framework's layers do with a request: answer it themselves, or pass it on
    and add headers to the response. *)
Definition passes (layer : App → App) : Prop :=
  ∀ app rq w,
    (∃ r, layer app rq w = (Ok r, w)) ∨
    (∃ more, layer app rq w =
       match app rq w with
       | (Ok r, w') => (Ok (mkResponse (rp_status r) (rp_headers r ++ more) (rp_body r)), w')
       | (Err e, w') => (Err e, w')
       end).

(** The id of the request, in a header or in the body *)
Definition carries (id : pystr) (r : Response) : Prop :=
  assoc (u "x-request-id") (rp_headers r) = Some id ∨ assoc (u "request_id") (rp_body r) = Some (VStr id).

Lemma assoc_app_l {V} k (l l' : list (pystr * V)) v : assoc k l = Some v → assoc k (l ++ l') = Some v.
Proof. induction l as [|[k' v'] l IH]; simpl; [done|]. destruct (decide (k = k')); auto. Qed.

(** A line that was written shows nothing that looks like a credential. *)
Definition line_clean (line : list (pystr * pyval)) : Prop :=
  Forall (λ kv, shows_no_token SECRET_PATTERN kv.2) line.

Lemma redacted_clean : search SECRET_PATTERN redacted = None.
Proof. destruct H. vm_compute. reflexivity. Qed.

Lemma scrubbed_line_clean event : line_clean (log_scrub event).
Proof.
  eapply Forall_impl; [apply log_scrub_entries|].
  intros [k v]. cbn. case_bool_decide; [intros ->; exact redacted_clean|done].
Qed.

(** ** What the layers keep *)

(** The id stays, and lines that show nothing are added to the log. *)
Definition logs_on (w w' : Wire X) : Prop :=
  ∃ lines, wi_log w' = wi_log w ++ lines ∧ Forall line_clean lines.
Definition within (w w' : Wire X) : Prop := wi_request_id w' = wi_request_id w ∧ logs_on w w'.

#[local] Instance logs_on_preorder : PreOrder logs_on.
Proof.
  split.
  - intros w. exists []. by rewrite app_nil_r.
  - intros w1 w2 w3 (l & H1 & H2) (l' & H3 & H4). exists (l ++ l').
    rewrite H3, H1, (assoc_L (++)). split; [done|]. by apply Forall_app.
Qed.
#[local] Instance within_preorder : PreOrder within.
Proof.
  split; [intros w; by split|]. intros w1 w2 w3 [H1 H2] [H3 H4]. split; [congruence|by etrans].
Qed.

Lemma log_line_within event fields : steps within (log_line event fields).
Proof.
  apply steps_modify. intros w. split; [done|]. eexists [_]. split; [reflexivity|].
  constructor; [apply scrubbed_line_clean|constructor].
Qed.

Lemma within_same w w' : wi_request_id w' = wi_request_id w → wi_log w' = wi_log w → within w w'.
Proof. intros Hid Hlog. split; [done|]. exists []. by rewrite app_nil_r. Qed.

Lemma exceptions_within (app : App) rq : steps within (app rq) → steps within (exceptions pydantic_errors app rq).
Proof.
  intros Happ. unfold exceptions. apply steps_catch; [apply _|done|]. intros e.
  apply steps_bind; [apply _|apply steps_get, _|]. intros w.
  destruct (exception_handler _ _ _); [|apply steps_raise, _].
  apply steps_bind; [apply _| |intros; apply steps_ret, _].
  unfold log_handled. destruct e; first [apply log_line_within|apply steps_ret, _].
Qed.

Lemma body_size_limit_within n (app : App) rq : steps within (app rq) → steps within (body_size_limit n app rq).
Proof.
  intros Happ. unfold body_size_limit. destruct (header _ rq); [|done].
  destruct (py_int _) as [z|]; [destruct (_ <? _); [|done]|]; apply steps_ret, _.
Qed.

Lemma inside_within endpoint rq : steps within (inside endpoint rq).
Proof. intros w. unfold inside. destruct (endpoint rq (wi_app w)). by apply within_same. Qed.

Lemma limited_within n endpoint rq :
  steps within (body_size_limit n (secured settings (exceptions pydantic_errors (inside endpoint))) rq).
Proof.
  apply body_size_limit_within. unfold secured.
  apply steps_bind; [apply _| |intros; apply steps_ret, _]. apply exceptions_within, inside_within.
Qed.

Lemma assoc_set_header name value r :
  assoc (lower name) (rp_headers (set_header name value r)) = Some value.
Proof. apply assoc_set_eq. Qed.

Lemma lower_id_header : lower (u "x-request-id") = u "x-request-id".
Proof. destruct H. vm_compute. reflexivity. Qed.

Lemma log_line_answers event fields w :
  ∃ w', log_line event fields w = (Ok tt, w') ∧ within w w' ∧ wi_context w' = wi_context w.
Proof.
  exists (log_line event fields w).2. split; [reflexivity|]. split; [|reflexivity]. apply log_line_within.
Qed.
Lemma logs_line w w' event fields : logs_on w w' → logs_on w (set_context [] (log_line event fields w').2).
Proof. intros Hl. etrans; [exact Hl|]. exact (proj2 (log_line_within event fields w')). Qed.

(** The layers of the program itself *)
Lemma own_layers_wp endpoint rq w :
  let id := request_id_of fresh_id rq in
  wp (own_layers endpoint rq)
    (λ r w', wi_request_id w' = Some id ∧ wi_context w' = [] ∧ logs_on w w' ∧
             assoc (u "x-request-id") (rp_headers r) = Some id)
    (λ e w', wi_request_id w' = Some id ∧ logs_on w w' ∧ (is_exception e = true → wi_context w' = [])) w.
Proof.
  intros id. unfold Serving.own_layers, request_context. fold id.
  set (app := body_size_limit _ _). assert (Happ : ∀ w1, within w1 (app rq w1).2) by apply limited_within.
  clearbody app. apply wp_bind. cbn. apply wp_bind. cbn.
  set (w1 := set_context _ _). apply wp_bind, wp_attempt.
  specialize (Happ w1). unfold wp at 1. destruct (app rq w1) as [[r|e] w2]; cbn in Happ; destruct Happ as [Hid Hlog];
    change (wi_request_id w1) with (Some id) in Hid; change (logs_on w w2) in Hlog.
  - apply wp_bind. case_bool_decide; cbn.
    + split_and!; [done..|]. rewrite <-lower_id_header. apply assoc_set_header.
    + split_and!; [done|done|by apply logs_line|]. rewrite <-lower_id_header. apply assoc_set_header.
  - destruct (is_exception e) eqn:He; cbn; split_and!; try done. by apply logs_line.
Qed.

(** ** Every response *)

Context (cors trusted_host : App → App).
Abbreviation application := (application settings fresh_id pydantic_errors format_exception cors trusted_host).

Lemma passes_id : passes (λ app, app).
Proof.
  intros app rq w. right. exists []. destruct (app rq w) as [[r|e] w']; [|done].
  rewrite app_nil_r. by destruct r.
Qed.
Lemma passes_comp l l' : passes l → passes l' → passes (λ app, l (l' app)).
Proof.
  intros Hl Hl' app rq w. destruct (Hl (l' app) rq w) as [[r Hr]|[more Hm]]; [left; by exists r|].
  destruct (Hl' app rq w) as [[r Hr]|[more' Hm']].
  - left. rewrite Hm, Hr. eauto.
  - right. exists (more' ++ more). rewrite Hm, Hm'. destruct (app rq w) as [[r|e] w']; [|done].
    simpl. by rewrite <-app_assoc.
Qed.

(** C37: every answer can be traced: whatever the route does, raises or leaves behind,
    either the framework has answered before any code of the program ran, or
    the response carries the request's id - the client's own or a fresh one -
    in its header or in its body, the log's context is empty again, and no line
    that these layers logged on the way, tracebacks included, shows anything that
    looks like a credential. *)
Theorem responses_traceable endpoint rq w r w' :
  passes cors → passes trusted_host → wi_request_id w = None →
  application endpoint rq w = (Ok r, w') →
  (wi_request_id w' = None ∧ wi_app w' = wi_app w) ∨
  (wi_request_id w' = Some (request_id_of fresh_id rq) ∧ carries (request_id_of fresh_id rq) r ∧
   wi_context w' = [] ∧ logs_on w w').
Proof.
  intros Hcors Hhost Hnone. set (id := request_id_of fresh_id rq).
  assert (passes (λ app, cors (host_checked settings trusted_host app))) as Hp.
  { apply (passes_comp _ _ Hcors). unfold host_checked.
    destruct (cfg_trusted_hosts settings); [apply passes_id|]. case_bool_decide; [apply passes_id|done]. }
  unfold Serving.application, server_errors, catch.
  destruct (Hp (own_layers endpoint) rq w) as [[r0 Hr]|[more Hm]].
  { rewrite Hr. intros [= <- <-]. by left. }
  rewrite Hm. clear Hm. pose proof (own_layers_wp endpoint rq w) as Hown. unfold wp in Hown.
  fold id in Hown. destruct (own_layers endpoint rq w) as [[r1|e] w1].
  - destruct Hown as (H1 & H2 & H3 & H4). intros [= <- <-]. right. split_and!; [done| |done|done].
    left. simpl. by apply assoc_app_l.
  - destruct Hown as (H1 & H2 & H3). destruct (is_exception e); [|done].
    unfold mbind, M_bind, m_bind.
    unfold log_exception. pose proof (log_line_answers (u "api.unhandled") ([(u "path", VStr (hr_path rq))] ++
      [(u "exception", VStr (format_exception e))]) w1) as (w2 & -> & [Hid Hl] & Hc).
    cbn [get]. rewrite Hid, H1. intros [= <- <-]. right. split_and!; [congruence| | |by etrans].
    + right. vm_compute. reflexivity.
    + rewrite Hc. by apply H3.
Qed.

(** ** Bodies and headers *)

(** a body whose declared length exceeds the limit never reaches the route: the
    answer is 413, nothing inside has changed. *)
Theorem oversized_body_refused endpoint rq (w : Wire X) declared n :
  header (u "content-length") rq = Some declared → py_int (VStr declared) = Ok n →
  cfg_max_request_bytes settings < n →
  wp (own_layers endpoint rq) (λ r w', rp_status r = 413 ∧ wi_app w' = wi_app w) (λ _ _, False) w.
Proof.
  intros Hh Hn Hlt. unfold Serving.own_layers, request_context, body_size_limit.
  rewrite Hh, Hn, (proj2 (Z.ltb_lt _ _) Hlt).
  apply wp_bind. cbn. apply wp_bind. cbn. apply wp_bind, wp_attempt. cbn. apply wp_bind.
  case_bool_decide; by cbn.
Qed.

(** A response of a route, or of a handler of exceptions, has every security
    header; one a route has set itself is kept. *)
Lemma setdefault_all l r k :
  is_Some (assoc (lower k) (rp_headers r)) ∨ k ∈ l.*1 →
  is_Some (assoc (lower k) (rp_headers (fold_left (λ r kv, setdefault_header kv.1 kv.2 r) l r))).
Proof.
  revert r. induction l as [|[k' v'] l IH]; intros r Hk; cbn.
  { destruct Hk as [|Hk]; [done|by apply elem_of_nil in Hk]. }
  apply IH. unfold setdefault_header.
  destruct (decide (lower k = lower k')) as [Heq|Hne].
  - left. rewrite Heq. destruct (assoc (lower k') (rp_headers r)) as [old|] eqn:Ha; [by exists old|].
    eexists. apply assoc_set_header.
  - destruct Hk as [Hk|Hk].
    + left. destruct (assoc (lower k') _); [done|]. simpl. by rewrite assoc_set_ne.
    + cbn in Hk. apply elem_of_cons in Hk as [->|Hk]; [done|by right].
Qed.

Theorem routes_secured (app : App) rq w :
  wp (secured settings app rq)
    (λ r _, ∀ k, k ∈ (security_headers settings).*1 → is_Some (assoc (lower k) (rp_headers r))) (λ _ _, True) w.
Proof.
  unfold secured. apply wp_bind. unfold wp. destruct (app rq w) as [[r|e] w']; [|done].
  cbn [m_ret]. intros k Hk. apply setdefault_all. by right.
Qed.

(** Readiness is 200 exactly when both services answer, and both are asked. *)
Theorem readiness_exact (select_one ping : M X exn unit) w r w' :
  readiness settings select_one ping w = (Ok r, w') →
  (rp_status r = 200 ↔ is_ok (select_one w).1 = true ∧ is_ok (ping (select_one w).2).1 = true) ∧
  w' = (ping (select_one w).2).2.
Proof.
  unfold readiness, probe, attempt, mbind, M_bind, m_bind.
  destruct (select_one w) as [[[]|e] w1]; [|destruct (is_exception e); [|done]]; cbn;
    destruct (ping w1) as [[[]|e'] w2]; [|destruct (is_exception e'); [|done]|
      |destruct (is_exception e'); [|done]]; intros [= <- <-]; cbn; split; try done; split; try done; intros []; done.
Qed.

End serving.

(** ** Concrete requests

    A route that counts its calls and one that fails, behind layers of the
    framework that pass everything on: where the theorems about responses are
    applied, and what the layers leave out. *)

#[local] Existing Instance ascii_tables.

Definition fresh (_ : HttpRequest) : pystr := u "f00d".
Definition traceback (e : exn) : pystr := u "Traceback (most recent call last):" ++ exn_str e.
Definition no_details (_ : exn) : list (list pystr * option pystr) := [].
Definition counting (_ : HttpRequest) : M Z exn Response := λ n, (Ok (mkResponse 200 [] []), n + 1).
Definition failing (_ : HttpRequest) : M Z exn Response := λ n, (Err (KeyError (u "boom")), n + 1).
Definition idle : Wire Z := mkWire [] [] None 0.
Definition upload (length_ : option pystr) : HttpRequest :=
  mkHttp (u "POST") (u "/runs") (match length_ with Some l => [(u "content-length", l)] | None => [] end).

#[local] Abbreviation pass := (λ app : HttpRequest → M (Wire Z) exn Response, app).
#[local] Abbreviation app_of := (application default_settings fresh no_details traceback pass pass).
#[local] Abbreviation layers_of := (own_layers default_settings fresh no_details traceback).

Definition failed : res exn Response * Wire Z := app_of failing (upload None) idle.
Definition failed_response : Response := identified_response 500 (u "internal server error") (Some (u "f00d")).

Lemma failed_eq : failed = (Ok failed_response, failed.2).
Proof. vm_compute. reflexivity. Qed.

(** The failure of a route is answered with the id in the body only. *)
Lemma responses_traceable_witness :
  (wi_request_id failed.2 = None ∧ wi_app failed.2 = wi_app idle) ∨
  (wi_request_id failed.2 = Some (u "f00d") ∧ carries (u "f00d") failed_response ∧
   wi_context failed.2 = [] ∧ logs_on idle failed.2).
Proof.
  exact (responses_traceable default_settings fresh no_details traceback pass pass failing (upload None) idle failed_response
           failed.2 passes_id passes_id eq_refl failed_eq).
Defined.

Lemma oversized_body_refused_witness :
  wp (layers_of counting (upload (Some (u "2097153"))))
    (λ r w', rp_status r = 413 ∧ wi_app w' = 0) (λ _ _, False) idle.
Proof.
  exact (oversized_body_refused default_settings fresh no_details traceback counting (upload (Some (u "2097153"))) idle
           (u "2097153") 2097153 eq_refl eq_refl eq_refl).
Defined.

(** A body that declares no length, or a negative one, is not limited. *)
Lemma undeclared_body_passes :
  wi_app (layers_of counting (upload None) idle).2 = 1 ∧
  wi_app (layers_of counting (upload (Some (u "-1"))) idle).2 = 1.
Proof. split; vm_compute; reflexivity. Qed.

(** The answer to a failure has neither the header with the id nor the security
    headers, and the line of the catch-all does not name the request. *)
Lemma failure_outside_the_layers :
  rp_headers failed_response = [] ∧
  map (λ line, (assoc (u "event") line, assoc (u "request_id") line)) (wi_log failed.2) =
    [(Some (VStr (u "request.failed")), Some (VStr (u "f00d"))); (Some (VStr (u "api.unhandled")), None)].
Proof. split; vm_compute; reflexivity. Qed.

(** A refused body is answered outside the layer of the security headers. *)
Lemma refusal_unsecured :
  match (layers_of counting (upload (Some (u "2097153"))) idle).1 with
  | Ok r => map fst (rp_headers r) = [u "x-request-id"]
  | Err _ => False
  end.
Proof. vm_compute. reflexivity. Qed.
